(** * Context-aware suggestions: cursor classification for JSX and markup

    A shallow embedding of the classifiers of the extension:
    - [Heuristic]: the single-pass scanner [isInJsxTextContent] of
      [src/extension.ts], with [isLikelyTagStart];
    - [Markup]: [isMarkupTextContext] and [isInsideTagAttributes] of
      [src/contextDetector.ts];
    - [Tree]: the syntax-tree classifier [isJsxTextContext] of
      [src/contextDetector.ts], over the node tree the TypeScript parser
      returns (the parser itself is a library and is a parameter here);
    - [Detector]: the class [JsxContextDetector] with its one-slot cache;
    - [Reference]: the markup scanner as the specification words it;
    - [ParseModel]: the trees of the parser for the inputs of the theorems.

    A JavaScript string is a sequence of UTF-16 code units, a [list N]; an
    index is a [Z] (the source computes [i - 1], [offset - 1]
    and compares with [-1]), and reading outside the text gives [None]
    (JavaScript's [undefined]). *)

From Stdlib Require Import List ZArith NArith Bool Lia String Ascii.
Import ListNotations.
Local Open Scope Z_scope.
Set Warnings "-register-all".

(** ** JavaScript strings *)

Module Js.

Definition char := N.
Definition str := list char.

(** A text literal, from the ASCII string that spells it. *)
Definition lit (s : string) : str :=
  List.map N_of_ascii (list_ascii_of_string s).

Definition len (t : str) : Z := Z.of_nat (List.length t).

(** [t[i]]: [None] is [undefined]. *)
Definition charAt (t : str) (i : Z) : option char :=
  if i <? 0 then None else nth_error t (Z.to_nat i).

Definition eqc (a : option char) (c : char) : bool :=
  match a with
  | Some x => N.eqb x c
  | None => false
  end.

(** [a === b] on two characters that may both be missing markers: the source
    compares [char === stringChar] where [stringChar] starts as the empty
    string and [char] may be [undefined]; these two never compare equal, and a
    one-character string is equal to another exactly when the units agree. *)
Definition eqo (a b : option char) : bool :=
  match a, b with
  | Some x, Some y => N.eqb x y
  | _, _ => false
  end.

(** Character codes used by the scanners. *)
Definition LT : char := 60%N.        (* < *)
Definition GT : char := 62%N.        (* > *)
Definition SLASH : char := 47%N.     (* / *)
Definition BACKSLASH : char := 92%N.
Definition DQUOTE : char := 34%N.
Definition SQUOTE : char := 39%N.
Definition BACKTICK : char := 96%N.
Definition DOLLAR : char := 36%N.
Definition LBRACE : char := 123%N.
Definition RBRACE : char := 125%N.
Definition PIPE : char := 124%N.
Definition AMP : char := 38%N.
Definition BANG : char := 33%N.
Definition QUESTION : char := 63%N.
Definition MINUS : char := 45%N.
Definition DOT : char := 46%N.
Definition UNDERSCORE : char := 95%N.
Definition EQUALS : char := 61%N.
Definition COLON : char := 58%N.
Definition RPAREN : char := 41%N.
Definition RBRACKET : char := 93%N.

Definition between (lo hi c : N) : bool := (N.leb lo c && N.leb c hi)%bool.

Definition isUpper (c : char) : bool := between 65 90 c.
Definition isLower (c : char) : bool := between 97 122 c.
Definition isLetter (c : char) : bool := (isUpper c || isLower c)%bool.
Definition isDigit (c : char) : bool := between 48 57 c.

(** [\w]: [A-Za-z0-9_]. *)
Definition isWord (c : char) : bool :=
  (isLetter c || isDigit c || N.eqb c UNDERSCORE)%bool.

(** [\s] of ECMAScript: tab, line feed, vertical tab, form feed, carriage
    return, space, no-break space, the Unicode space separators, the line and
    paragraph separators and the byte order mark. *)
Definition isSpace (c : char) : bool :=
  (between 9 13 c || N.eqb c 32 || N.eqb c 160 || N.eqb c 5760
   || between 8192 8202 c || N.eqb c 8232 || N.eqb c 8233 || N.eqb c 8239
   || N.eqb c 8287 || N.eqb c 12288 || N.eqb c 65279)%bool.

(** [re.test(x)] for a regular expression that is one character class: the
    argument is converted to a string first, so a missing character is tested
    as the word [undefined]. *)
Definition testClass (cls : char -> bool) (x : option char) : bool :=
  match x with
  | Some c => cls c
  | None => existsb cls (lit "undefined")
  end.

Fixpoint drop (n : nat) (t : str) : str :=
  match n, t with
  | O, _ => t
  | S _, [] => []
  | S k, _ :: r => drop k r
  end.

Fixpoint take (n : nat) (t : str) : str :=
  match n, t with
  | O, _ => []
  | S _, [] => []
  | S k, c :: r => c :: take k r
  end.

(** [t.substring(a, b)] for [0 <= a] and [a <= b]: the callers clamp [a] with
    [Math.max(0, _)]; [b] beyond the end stops at the end. *)
Definition substring (t : str) (a b : Z) : str :=
  take (Z.to_nat (b - a)) (drop (Z.to_nat a) t).

Fixpoint startsWith (p t : str) : bool :=
  match p, t with
  | [], _ => true
  | _ :: _, [] => false
  | a :: p', b :: t' => (N.eqb a b && startsWith p' t')%bool
  end.

(** First index [>= from] (counted from [base]) where [p] occurs, or [-1]. *)
Fixpoint indexFrom (p t : str) (base from : Z) : Z :=
  match t with
  | [] => if (from <=? base) && startsWith p [] then base else -1
  | _ :: r =>
      if (from <=? base) && startsWith p t then base
      else indexFrom p r (base + 1) from
  end.

(** [t.indexOf(p, from)]. *)
Definition indexOf (t p : str) (from : Z) : Z := indexFrom p t 0 from.

(** Last index [<= upto] (counted from [base]) where [p] occurs, or [-1]. *)
Fixpoint lastIndexFrom (p t : str) (base upto : Z) : Z :=
  match t with
  | [] => if (base <=? upto) && startsWith p [] then base else -1
  | _ :: r =>
      let later := lastIndexFrom p r (base + 1) upto in
      if later =? -1
      then if (base <=? upto) && startsWith p t then base else -1
      else later
  end.

(** [t.lastIndexOf(p, from)]: a negative [from] is taken as [0]. *)
Definition lastIndexOf (t p : str) (from : Z) : Z :=
  lastIndexFrom p t 0 (Z.max 0 from).

End Js.

(** ** The heuristic scanners of [src/extension.ts] *)

Module Heuristic.
Import Js.

(** [/[A-Za-z\/>/]/]: what may follow the [<] of a tag. *)
Definition tagStartNext (c : char) : bool :=
  (isLetter c || N.eqb c SLASH || N.eqb c GT)%bool.

(** [/[A-Za-z0-9_)\]]/]: what ends an operand of a comparison. *)
Definition operandEnd (c : char) : bool :=
  (isWord c || N.eqb c RPAREN || N.eqb c RBRACKET)%bool.

(** [/[A-Za-z0-9_.\-]/]: the characters of a tag name. *)
Definition tagNameChar (c : char) : bool :=
  (isWord c || N.eqb c DOT || N.eqb c MINUS)%bool.

(** The alternatives of
    [/\b(return|=>|=|\(|,|:|\?|&&|\|\||!)\s*$/]. *)
Definition jsxPredecessors : list str :=
  [lit "return"; lit "=>"; lit "="; lit "("; lit ","; lit ":"; lit "?";
   lit "&&"; lit "||"; lit "!"].

(** [\b] between [prev] and the first character of [rest]. *)
Definition wordBoundary (prev : option char) (rest : str) : bool :=
  xorb (match prev with Some c => isWord c | None => false end)
       (match rest with c :: _ => isWord c | [] => false end).

(** One alternative at the head of [rest], then [\s*$]. *)
Definition altThenSpaces (rest alt : str) : bool :=
  (startsWith alt rest
   && forallb isSpace (drop (List.length alt) rest))%bool.

(** The regular expression tried at every start position of [s]. *)
Fixpoint matchFrom (prev : option char) (s : str) : bool :=
  (wordBoundary prev s && existsb (altThenSpaces s) jsxPredecessors)
  || match s with
     | [] => false
     | c :: r => matchFrom (Some c) r
     end.

Definition predecessorTest (s : str) : bool := matchFrom None s.

(** [while (j >= 0 && re.test(text[j])) j--], from index [j]. *)
Fixpoint skipBack (cls : char -> bool) (t : str) (fuel : nat) (j : Z) : Z :=
  match fuel with
  | O => j
  | S f =>
      if (0 <=? j) && testClass cls (charAt t j)
      then skipBack cls t f (j - 1)
      else j
  end.

(** The loop runs at most [j + 1] times. *)
Definition skipBackward (cls : char -> bool) (t : str) (j : Z) : Z :=
  skipBack cls t (Z.to_nat (j + 1)) j.

Definition isLikelyTagStart (t : str) (i : Z) : bool :=
  match charAt t (i + 1) with
  | None => false
  | Some nextChar =>
      if negb (tagStartNext nextChar) then false
      else
        let j := skipBackward isSpace t (i - 1) in
        if 0 <=? j then
          let prevChar := charAt t j in
          if eqc prevChar PIPE || eqc prevChar AMP then true
          else if testClass operandEnd prevChar then
            let beforePrev := substring t (Z.max 0 (j - 10)) (j + 1) in
            if predecessorTest beforePrev then true else false
          else true
        else true
  end.

(** The Scan State of [isInJsxTextContent]. *)
Record ScanState := mkScan {
  inString : bool;
  stringChar : option char;
  inTemplate : bool;
  templateDepth : Z;
  braceDepth : Z;
  jsxBraceDepth : Z;
  jsxTagDepth : Z;
  inJsxTag : bool;
  lastJsxTagClose : Z;
  inJsxContent : bool
}.

Definition initial : ScanState :=
  mkScan false None false 0 0 0 0 false (-1) false.

Definition setString (s : ScanState) (b : bool) (c : option char) :=
  mkScan b c (inTemplate s) (templateDepth s) (braceDepth s)
         (jsxBraceDepth s) (jsxTagDepth s) (inJsxTag s) (lastJsxTagClose s)
         (inJsxContent s).

Definition setTemplate (s : ScanState) (b : bool) (d : Z) :=
  mkScan (inString s) (stringChar s) b d (braceDepth s)
         (jsxBraceDepth s) (jsxTagDepth s) (inJsxTag s) (lastJsxTagClose s)
         (inJsxContent s).

Definition setBraceDepth (s : ScanState) (d : Z) :=
  mkScan (inString s) (stringChar s) (inTemplate s) (templateDepth s) d
         (jsxBraceDepth s) (jsxTagDepth s) (inJsxTag s) (lastJsxTagClose s)
         (inJsxContent s).

Definition setJsxBraceDepth (s : ScanState) (d : Z) :=
  mkScan (inString s) (stringChar s) (inTemplate s) (templateDepth s)
         (braceDepth s) d (jsxTagDepth s) (inJsxTag s) (lastJsxTagClose s)
         (inJsxContent s).

(** The four variables the tag rules assign. *)
Definition setTag (s : ScanState) (depth : Z) (inTag : bool) (close : Z)
    (content : bool) :=
  mkScan (inString s) (stringChar s) (inTemplate s) (templateDepth s)
         (braceDepth s) (jsxBraceDepth s) depth inTag close content.

(** "Track braces in JS context (not in JSX content)". *)
Definition trackCodeBraces (char_ : option char) (s : ScanState) : ScanState :=
  if negb (inJsxContent s) && negb (inJsxTag s) then
    if eqc char_ LBRACE then setBraceDepth s (braceDepth s + 1)
    else if eqc char_ RBRACE then setBraceDepth s (braceDepth s - 1)
    else s
  else s.

(** "Track JSX expression braces { } when in JSX content". *)
Definition trackJsxBraces (char_ : option char) (s : ScanState) : ScanState :=
  if inJsxContent s && negb (inJsxTag s) then
    if eqc char_ LBRACE then setJsxBraceDepth s (jsxBraceDepth s + 1)
    else if eqc char_ RBRACE && (0 <? jsxBraceDepth s)
         then setJsxBraceDepth s (jsxBraceDepth s - 1)
    else s
  else s.

(** "Handle > - potential tag end", entered with [char === '>'] and
    [inJsxTag]. *)
Definition closeTag (t : str) (i : Z) (prevChar : option char)
    (s : ScanState) : ScanState :=
  if eqc prevChar SLASH then
    if jsxTagDepth s =? 0
    then setTag s (jsxTagDepth s) false i false
    else setTag s (jsxTagDepth s) false i (inJsxContent s)
  else
    let j := skipBackward tagNameChar t (i - 1) in
    let j := skipBackward isSpace t j in
    if (0 <=? j) && eqc (charAt t j) SLASH && (0 <? j)
       && eqc (charAt t (j - 1)) LT
    then
      let d := jsxTagDepth s - 1 in
      if d <=? 0 then setTag s 0 false i false
      else setTag s d false i (inJsxContent s)
    else setTag s (jsxTagDepth s + 1) false i true.

(** The tag rules: the part of the loop body after the brace counters. *)
Definition tagRules (t : str) (i : Z) (s : ScanState) : ScanState * Z :=
  let char_ := charAt t i in
  let prevChar := if 0 <? i then charAt t (i - 1) else None in
  let nextChar := charAt t (i + 1) in
  if eqc char_ LT && isLikelyTagStart t i then
    if eqc nextChar SLASH then
      (setTag s (jsxTagDepth s) true (lastJsxTagClose s) (inJsxContent s), i)
    else if eqc nextChar GT then
      (setTag s (jsxTagDepth s + 1) (inJsxTag s) (i + 1) true, i + 1)
    else
      (setTag s (jsxTagDepth s) true (lastJsxTagClose s) (inJsxContent s), i)
  else if eqc char_ GT && inJsxTag s then
    (closeTag t i prevChar s, i)
  else if eqc char_ LT && eqc nextChar SLASH && eqc (charAt t (i + 2)) GT then
    let d := jsxTagDepth s - 1 in
    if d <=? 0
    then (setTag s 0 (inJsxTag s) (i + 2) false, i + 2)
    else (setTag s d (inJsxTag s) (i + 2) (inJsxContent s), i + 2)
  else (s, i).

(** One pass of the loop body at index [i]: the state after it and the value
    of [i] when the body ends (the loop header then adds one). *)
Definition body (t : str) (i : Z) (s : ScanState) : ScanState * Z :=
  let char_ := charAt t i in
  let prevChar := if 0 <? i then charAt t (i - 1) else None in
  let nextChar := charAt t (i + 1) in
  if (inString s || inTemplate s) && eqc prevChar BACKSLASH then (s, i)
  else if negb (inTemplate s) && negb (inString s)
          && (eqc char_ DQUOTE || eqc char_ SQUOTE)
  then (setString s true char_, i)
  else if inString s && eqo char_ (stringChar s)
  then (setString s false (stringChar s), i)
  else if inString s then (s, i)
  else if negb (inTemplate s) && eqc char_ BACKTICK
  then (setTemplate s true 1, i)
  else if inTemplate s then
    if eqc char_ BACKTICK then (setTemplate s false 0, i)
    else if eqc char_ DOLLAR && eqc nextChar LBRACE
    then (setTemplate s true (templateDepth s + 1), i)
    else if eqc char_ RBRACE && (1 <? templateDepth s)
    then (setTemplate s true (templateDepth s - 1), i)
    else (s, i)
  else
    let s1 := trackCodeBraces char_ s in
    let s2 := trackJsxBraces char_ s1 in
    if 0 <? jsxBraceDepth s2 then (s2, i)
    else tagRules t i s2.

(** [for (let i = 0; i < offset; i++) body]: every pass moves [i] forward, so
    [offset - i] passes are enough. *)
Fixpoint loop (fuel : nat) (t : str) (offset i : Z) (s : ScanState)
    : ScanState :=
  match fuel with
  | O => s
  | S f =>
      if i <? offset then
        let '(s', i') := body t i s in
        loop f t offset (i' + 1) s'
      else s
  end.

Definition scan (t : str) (offset : Z) : ScanState :=
  loop (Z.to_nat offset) t offset 0 initial.

Definition verdict (s : ScanState) : bool :=
  inJsxContent s && (jsxBraceDepth s =? 0) && negb (inJsxTag s).

Definition isInJsxTextContent (t : str) (offset : Z) : bool :=
  verdict (scan t offset).

End Heuristic.

(** ** The probe and the language sets of [src/contextDetector.ts] *)

Module Lang.

Definition JSX_LANGUAGES : list string :=
  ["javascriptreact"; "typescriptreact"; "javascript"; "typescript"]%string.

Definition MARKUP_LANGUAGES : list string :=
  ["html"; "xml"; "xhtml"; "svg"]%string.

(** [set.has(languageId)]. *)
Definition has (set : list string) (languageId : string) : bool :=
  existsb (String.eqb languageId) set.

Definition isSupported (languageId : string) : bool :=
  has JSX_LANGUAGES languageId || has MARKUP_LANGUAGES languageId.

Record JsxContextProbe := mkProbe {
  languageId : string;
  fileName : string;
  text : Js.str;
  offset : Z
}.

End Lang.

(** ** The markup scanner of [src/contextDetector.ts] *)

Module Markup.
Import Js Lang.

Definition isMarkupTextContext (probe : JsxContextProbe) : bool :=
  let text := text probe in
  let offset := offset probe in
  if (offset <? 0) || (len text <? offset) then false
  else
    let lastGt := lastIndexOf text [GT] (offset - 1) in
    let lastLt := lastIndexOf text [LT] (offset - 1) in
    if lastGt <? lastLt then false
    else
      let nextLt := indexOf text [LT] offset in
      if lastGt =? -1 then false
      else
        let commentStart := lastIndexOf text (lit "<!--") offset in
        if negb (commentStart =? -1) && (lastGt <? commentStart)
           && (let commentEnd := indexOf text (lit "-->") commentStart in
               (commentEnd =? -1) || (offset <=? commentEnd))
        then false
        else
          let nextLt := if nextLt =? -1 then len text else nextLt in
          (lastGt <? offset) && (offset <=? nextLt).

Definition isInsideTagAttributes (text : str) (offset : Z) : bool :=
  let lastLt := lastIndexOf text [LT] offset in
  let lastGt := lastIndexOf text [GT] offset in
  if lastLt =? -1 then false
  else if negb (lastGt =? -1) && (lastLt <? lastGt) then false
  else
    let nextGt := indexOf text [GT] offset in
    if nextGt =? -1 then false
    else if eqc (charAt text (lastLt + 1)) SLASH then false
    else (lastLt <? offset) && (offset <? nextGt).

End Markup.

(** ** The syntax tree of the TypeScript library, as the classifier reads it

    A node has a kind, a span and children.  [pos] is [getFullStart()] (the
    span with the white space and comments before the node), [start] is
    [getStart()], [end_] is [getEnd()] and the field [end].  [getChildren]
    lists every child with the tokens; [forEachChild] lists the children the
    visitor of [node.forEachChild] is called with.  The kinds the classifier
    tests carry what it reads from them: the spans of [openingElement] and
    [closingElement] of an element, of [openingFragment] and [closingFragment]
    of a fragment, and of [attributes] of an opening or self-closing tag. *)

Module Ast.

Record Span := mkSpan { pos : Z; start : Z; end_ : Z }.

Inductive SyntaxKind :=
| JsxElement (openingElement closingElement : Span)
| JsxFragment (openingFragment closingFragment : Span)
| JsxOpeningElement (attributes : Span)
| JsxSelfClosingElement (attributes : Span)
| JsxClosingElement
| JsxOpeningFragment
| JsxClosingFragment
| JsxText
| JsxExpression
| OtherKind.

Inductive Node :=
| mkNode (kind : SyntaxKind) (span : Span)
         (getChildren : list Node) (forEachChild : list Node).

Definition kind (n : Node) : SyntaxKind :=
  match n with mkNode k _ _ _ => k end.
Definition span (n : Node) : Span :=
  match n with mkNode _ s _ _ => s end.
Definition getChildren (n : Node) : list Node :=
  match n with mkNode _ _ c _ => c end.
Definition forEachChild (n : Node) : list Node :=
  match n with mkNode _ _ _ c => c end.

Definition getFullStart (n : Node) : Z := pos (span n).
Definition getStart (n : Node) : Z := start (span n).
Definition getEnd (n : Node) : Z := end_ (span n).

Inductive ScriptKind := JSX | TSX.

End Ast.

(** ** The syntax-tree classifier of [src/contextDetector.ts]

    The source walks upwards through [current.parent].  Here the node found by
    [findDeepestNode] comes with the nodes it was reached through, nearest
    first: the chain [node :: parent :: ... :: sourceFile].  (The library puts
    list nodes between a node and some of its children in [getChildren()];
    they are of no kind the walks test, so walking through them or past them
    gives the same answers.) *)

Module Tree.
Import Js Lang Ast.

Definition toScriptKind (languageId : string) : ScriptKind :=
  if String.eqb languageId "typescriptreact" then TSX
  else if String.eqb languageId "javascriptreact" then JSX
  else if String.eqb languageId "typescript" then TSX
  else JSX.

Fixpoint findDeepestNode (node : Node) (offset : Z) (parents : list Node)
    : option (list Node) :=
  match node with
  | mkNode _ s children _ =>
      if (offset <? pos s) || (end_ s <=? offset) then None
      else
        (fix firstInside (cs : list Node) : option (list Node) :=
           match cs with
           | [] => Some (node :: parents)
           | child :: rest =>
               match findDeepestNode child offset (node :: parents) with
               | Some insideChild => Some insideChild
               | None => firstInside rest
               end
           end) children
  end.

Fixpoint isInsideJsxGap (chain : list Node) (offset : Z) : bool :=
  match chain with
  | [] => false
  | current :: parents =>
      match kind current with
      | JsxElement openingElement closingElement =>
          if (end_ openingElement <=? offset)
             && (offset <=? start closingElement)
          then true else isInsideJsxGap parents offset
      | JsxFragment openingFragment closingFragment =>
          if (end_ openingFragment <=? offset)
             && (offset <=? start closingFragment)
          then true else isInsideJsxGap parents offset
      | _ => isInsideJsxGap parents offset
      end
  end.

Definition strictlyInside (n : Node) (offset : Z) : bool :=
  (getStart n <? offset) && (offset <? getEnd n).

Fixpoint isInsideJsxText (chain : list Node) (offset : Z) : bool :=
  match chain with
  | [] => false
  | current :: parents =>
      match kind current with
      | JsxText => true
      | JsxOpeningElement _ | JsxSelfClosingElement _ | JsxOpeningFragment
      | JsxClosingElement | JsxClosingFragment =>
          if strictlyInside current offset then false
          else isInsideJsxText parents offset
      | _ => isInsideJsxText parents offset
      end
  end.

Definition isJsxNode (k : SyntaxKind) : bool :=
  match k with
  | JsxElement _ _ | JsxFragment _ _ | JsxSelfClosingElement _
  | JsxOpeningElement _ | JsxClosingElement | JsxOpeningFragment
  | JsxClosingFragment => true
  | _ => false
  end.

(** The visitor of [containsJsx]: it stops at the first node of a tag kind. *)
Fixpoint visit (node : Node) : bool :=
  match node with
  | mkNode k _ _ children =>
      if isJsxNode k then true
      else
        (fix each (cs : list Node) : bool :=
           match cs with
           | [] => false
           | child :: rest => if visit child then true else each rest
           end) children
  end.

Definition containsJsx (sourceFile : Node) : bool := visit sourceFile.

Fixpoint isInsideJsxExpressionContext (chain : list Node) (offset : Z)
    : bool :=
  match chain with
  | [] => false
  | current :: parents =>
      match kind current with
      | JsxExpression =>
          if strictlyInside current offset then true
          else isInsideJsxExpressionContext parents offset
      | _ => isInsideJsxExpressionContext parents offset
      end
  end.

(** The walk of [isInsideJsxAttributeArea] up to the root. *)
Fixpoint attributeWalk (chain : list Node) (offset : Z) : bool :=
  match chain with
  | [] => false
  | current :: parents =>
      match kind current with
      | JsxOpeningElement attributes | JsxSelfClosingElement attributes =>
          if (pos attributes <=? offset) && (offset <=? end_ attributes)
          then true
          else if (getStart current <? offset) && (offset <? pos attributes)
          then true
          else attributeWalk parents offset
      | _ => attributeWalk parents offset
      end
  end.

(** [fullText] is [node.getSourceFile().getFullText()]: the text the tree was
    parsed from. *)
Definition isInsideJsxAttributeArea (chain : list Node) (fullText : str)
    (offset : Z) : bool :=
  if attributeWalk chain offset then true
  else Markup.isInsideTagAttributes fullText offset.

Section Classifier.

(** [ts.createSourceFile(fileName, text, ScriptTarget.Latest, true, kind)]. *)
Variable createSourceFile : string -> str -> ScriptKind -> Node.

Definition isJsxTextContext (probe : JsxContextProbe) : bool :=
  if has MARKUP_LANGUAGES (languageId probe)
  then Markup.isMarkupTextContext probe
  else if (offset probe <? 0) || (len (text probe) <? offset probe)
  then false
  else
    let sourceFile :=
      createSourceFile (fileName probe) (text probe)
                       (toScriptKind (languageId probe)) in
    if negb (containsJsx sourceFile) then false
    else
      match findDeepestNode sourceFile (offset probe) [] with
      | None => false
      | Some targetNode =>
          if isInsideJsxAttributeArea targetNode (text probe) (offset probe)
          then false
          else if isInsideJsxExpressionContext targetNode (offset probe)
          then false
          else if isInsideJsxText targetNode (offset probe) then true
          else isInsideJsxGap targetNode (offset probe)
      end.

End Classifier.

End Tree.

(** ** The detector and its cache

    [JsxContextDetector] keeps one cache entry and reads a clock.  A call of
    [isInsideJsxText] is a function from the detector's state to the answer
    and the next state.  The clock is the sequence of values its successive
    calls return; the state counts the calls made.  The state also keeps the
    log of the classifier runs, oldest first, so that a theorem can say
    whether a call ran a classifier. *)

Module Detector.
Import Js Lang.

Definition DEFAULT_CACHE_TTL_MS : Z := 500.

Record Position := mkPosition { line : Z; character : Z }.

Definition isEqual (a b : Position) : bool :=
  (line a =? line b) && (character a =? character b).

(** What the detector reads of a [vscode.TextDocument]. *)
Record TextDocument := mkDocument {
  doc_languageId : string;
  doc_fileName : string;
  uri : string;
  version : Z;
  getText : str;
  offsetAt : Position -> Z
}.

Record CacheEntry := mkEntry {
  c_uri : string;
  c_version : Z;
  c_position : Position;
  c_timestamp : Z;
  c_result : bool
}.

Inductive Run :=
| RanTree (probe : JsxContextProbe)
| RanMarkup (probe : JsxContextProbe).

Record State := mkState {
  cache : option CacheEntry;
  clockCalls : nat;
  runs : list Run
}.

Definition probeOf (document : TextDocument) (position : Position)
    : JsxContextProbe :=
  mkProbe (doc_languageId document) (doc_fileName document)
          (getText document) (offsetAt document position).

Section WithClock.

Variable createSourceFile : string -> str -> Ast.ScriptKind -> Ast.Node.
(** [clock n] is what the clock returns the [n]-th time it is called. *)
Variable clock : nat -> Z.
(** The constructor's argument, [None] when it is left out. *)
Variable cacheTtlMsArg : option Z.

Definition cacheTtlMs : Z :=
  Z.max 0 (match cacheTtlMsArg with Some v => v | None => DEFAULT_CACHE_TTL_MS end).

Definition new : State := mkState None 0 [].

Definition isCacheValid (s : State) (document : TextDocument)
    (position : Position) : bool * State :=
  match cache s with
  | None => (false, s)
  | Some c =>
      if negb (String.eqb (c_uri c) (uri document)) then (false, s)
      else if negb (c_version c =? version document) then (false, s)
      else if negb (isEqual (c_position c) position) then (false, s)
      else if cacheTtlMs =? 0 then (false, s)
      else
        (clock (clockCalls s) - c_timestamp c <? cacheTtlMs,
         mkState (cache s) (S (clockCalls s)) (runs s))
  end.

Definition isInsideJsxText (s : State) (document : TextDocument)
    (position : Position) : bool * State :=
  if negb (isSupported (doc_languageId document)) then (false, s)
  else if has MARKUP_LANGUAGES (doc_languageId document) then
    let probe := probeOf document position in
    (Markup.isMarkupTextContext probe,
     mkState (cache s) (clockCalls s) (runs s ++ [RanMarkup probe]))
  else
    let '(valid, s1) := isCacheValid s document position in
    if valid then
      (match cache s1 with Some c => c_result c | None => false end, s1)
    else
      let probe := probeOf document position in
      let result := Tree.isJsxTextContext createSourceFile probe in
      (result,
       mkState (Some (mkEntry (uri document) (version document) position
                              (clock (clockCalls s1)) result))
               (S (clockCalls s1))
               (runs s1 ++ [RanTree probe])).

End WithClock.

End Detector.

(** ** The markup scanner as the specification words it

    The reference algorithm of the specification, written from its words
    with searches of its own, to be compared with [isMarkupTextContext]:
    [lastOpen] and [lastClose] are the last [<] and the last [>] before the
    offset; the offset is inside an unclosed comment when some comment opener
    starts after [lastClose] and at or before the offset with no comment closer
    starting from there up to the offset, the offset included; [nextOpen] is
    the first [<] at or after the offset, or the end of the text. *)

Module Reference.
Import Js.

(** The greatest index below [n] that holds [c], or [-1]. *)
Fixpoint lastBefore (c : char) (t : str) (n : nat) : Z :=
  match n with
  | O => -1
  | S k => if eqc (charAt t (Z.of_nat k)) c then Z.of_nat k
           else lastBefore c t k
  end.

(** The least index from [i] on, among the next [fuel] ones, that holds
    [c]. *)
Fixpoint firstFrom (c : char) (t : str) (fuel : nat) (i : Z) : option Z :=
  match fuel with
  | O => None
  | S f => if eqc (charAt t i) c then Some i else firstFrom c t f (i + 1)
  end.

Definition occursAt (p t : str) (k : Z) : bool :=
  (0 <=? k) && startsWith p (drop (Z.to_nat k) t).

(** The integers [a], [a + 1], ..., [a + n - 1]. *)
Definition range (a : Z) (n : nat) : list Z :=
  List.map (fun k => a + Z.of_nat k) (List.seq 0 n).

Definition insideUnclosedComment (t : str) (lastClose offset : Z) : bool :=
  existsb
    (fun p =>
       occursAt (lit "<!--") t p
       && negb (existsb (occursAt (lit "-->") t)
                        (range p (Z.to_nat (offset - p + 1)))))
    (range (lastClose + 1) (Z.to_nat (offset - lastClose))).

Definition classifyMarkup (t : str) (offset : Z) : bool :=
  let lastOpen := lastBefore LT t (Z.to_nat offset) in
  let lastClose := lastBefore GT t (Z.to_nat offset) in
  if lastClose <? lastOpen then false
  else if lastClose =? -1 then false
  else if insideUnclosedComment t lastClose offset then false
  else
    let nextOpen :=
      match firstFrom LT t (Z.to_nat (len t - offset)) offset with
      | Some i => i
      | None => len t
      end in
    (lastClose <? offset) && (offset <=? nextOpen).

End Reference.

(** ** Trees of the TypeScript parser for the inputs of the statements

    The parser is a library; a theorem about the syntax-tree classifier on an
    input takes as a hypothesis that the parser returns the tree built here
    for it.  The builders follow the library's node layout: a source file
    spans the text and holds a list of statements and an end-of-file token; an
    element holds its opening element, a list of children and its closing
    element; an opening element holds the [<] token, the tag name, the
    attributes node (empty, at the end of the name, when there are none) and
    the [>] token; [pos] of a node includes the white space before it, and the
    text node takes the white space of element content.

    [getChildren()] fills the places between the children of a node with
    tokens it scans again, with the scanner of plain code: the [</] of a
    closing tag comes back as the two tokens [<] and [/].  It wraps an array
    of children in a list node; [forEachChild] does not know the list node
    and calls the visitor with none of its items (the visitor of the node
    that owns the array is called with them). *)

Module ParseModel.
Import Ast.

Definition token (a b : Z) : Node := mkNode OtherKind (mkSpan a a b) [] [].

(** A token or node that begins after white space: [pos < start]. *)
Definition tokenAt (p a b : Z) : Node := mkNode OtherKind (mkSpan p a b) [] [].

(** The list node [getChildren()] wraps an array of children in. *)
Definition syntaxList (a b : Z) (items : list Node) : Node :=
  mkNode OtherKind (mkSpan a a b) items [].

(** A node of a kind the classifier does not test. *)
Definition other (p a b : Z) (children astChildren : list Node) : Node :=
  mkNode OtherKind (mkSpan p a b) children astChildren.

Definition noAttributes (a : Z) : Node :=
  mkNode OtherKind (mkSpan a a a) [syntaxList a a []] [].

(** [<name>] with [<] at [start], white space from [p], the name ending at
    [nameEnd]. *)
Definition openingElement (p start nameEnd : Z) : Node :=
  mkNode (JsxOpeningElement (mkSpan nameEnd nameEnd nameEnd))
         (mkSpan p start (nameEnd + 1))
         [tokenAt p start (start + 1); token (start + 1) nameEnd;
          noAttributes nameEnd; token nameEnd (nameEnd + 1)]
         [token (start + 1) nameEnd; noAttributes nameEnd].

(** [</name>] from [start] to [e]: the tokens [<] and [/], the name and the
    [>] token. *)
Definition closingElement (start e : Z) : Node :=
  mkNode JsxClosingElement (mkSpan start start e)
         [token start (start + 1); token (start + 1) (start + 2);
          token (start + 2) (e - 1); token (e - 1) e]
         [token (start + 2) (e - 1)].

(** The text node of element content from [a] to [b] ([getStart()] of a text
    node, which skips white space, is not read by the classifier). *)
Definition jsxText (a b : Z) : Node := mkNode JsxText (mkSpan a a b) [] [].

(** The children of an element whose content from [a] to [b] is plain
    text. *)
Definition textChildren (a b : Z) : list Node :=
  if a <? b then [jsxText a b] else [].

(** An element [<name>children</name>]: [<] at [start], white space from [p],
    a name of [nameLen] characters, children from the end of the opening
    element to [c]. *)
Definition elementWith (p start nameLen c : Z) (children : list Node) : Node :=
  let nameEnd := start + 1 + nameLen in
  let opening := openingElement p start nameEnd in
  let closing := closingElement c (c + 2 + nameLen + 1) in
  mkNode (JsxElement (span opening) (span closing))
         (mkSpan p start (c + 2 + nameLen + 1))
         [opening; syntaxList (nameEnd + 1) c children; closing]
         (opening :: children ++ [closing]).

(** [<name>text</name>] with [contentLen] characters of plain text. *)
Definition element (p start nameLen contentLen : Z) : Node :=
  let o := start + 1 + nameLen + 1 in
  elementWith p start nameLen (o + contentLen)
              (textChildren o (o + contentLen)).

Definition openingFragment (p start : Z) : Node :=
  mkNode JsxOpeningFragment (mkSpan p start (start + 2))
         [tokenAt p start (start + 1); token (start + 1) (start + 2)] [].

(** [</>] at [start]: the tokens [<], [/] and [>]. *)
Definition closingFragment (start : Z) : Node :=
  mkNode JsxClosingFragment (mkSpan start start (start + 3))
         [token start (start + 1); token (start + 1) (start + 2);
          token (start + 2) (start + 3)] [].

(** [<>text</>] with [contentLen] characters of plain text. *)
Definition fragment (p start contentLen : Z) : Node :=
  let o := start + 2 in
  let c := o + contentLen in
  let opening := openingFragment p start in
  let closing := closingFragment c in
  mkNode (JsxFragment (span opening) (span closing))
         (mkSpan p start (c + 3))
         [opening; syntaxList o c (textChildren o c); closing]
         (opening :: textChildren o c ++ [closing]).

(** [{expression}] from [a] to [b] among the children of an element. *)
Definition jsxExpression (a b : Z) (expression : Node) : Node :=
  mkNode JsxExpression (mkSpan a a b)
         [token a (a + 1); expression; token (b - 1) b] [expression].

(** A source file of [n] characters with the given statements. *)
Definition sourceFile (n : Z) (statements : list Node) : Node :=
  mkNode OtherKind (mkSpan 0 0 n)
         [syntaxList 0 n statements; token n n]
         (statements ++ [token n n]).

(** A statement that is one expression, without a semicolon. *)
Definition expressionStatement (expression : Node) : Node :=
  mkNode OtherKind (span expression) [expression] [expression].

(** The tree of a text that is one element with plain text. *)
Definition elementFile (nameLen contentLen : Z) : Node :=
  let e := element 0 0 nameLen contentLen in
  sourceFile (end_ (span e)) [expressionStatement e].

(** The tree of [<div>{cond && <span>X</span>}</div>]: the outer element
    holds one embedded expression from 5 to 29, whose expression is the
    conjunction from 6 to 28 of the identifier and the inner element; the
    inner element begins at 14 after one space. *)
Definition nestedExpressionFile : Node :=
  let inner := element 13 14 4 1 in
  let conjunction :=
    other 6 6 28 [token 6 10; tokenAt 10 11 13; inner]
                 [token 6 10; tokenAt 10 11 13; inner] in
  let outer := elementWith 0 0 3 29 [jsxExpression 5 29 conjunction] in
  sourceFile 35 [expressionStatement outer].

(** The trees of [cond && <div>X</div>] and [cond || <div>X</div>] (the
    same spans), of [return <div>X</div>] and of [a ? <div>X</div> : null]:
    the element is the last, or the middle, operand of a node of a kind the
    classifier does not test, and begins after one space. *)
Definition logicalFile : Node :=
  let e := element 7 8 3 1 in
  sourceFile 20
    [expressionStatement
       (other 0 0 20 [token 0 4; tokenAt 4 5 7; e]
                     [token 0 4; tokenAt 4 5 7; e])].

Definition returnFile : Node :=
  let e := element 6 7 3 1 in
  sourceFile 19 [other 0 0 19 [token 0 6; e] [e]].

Definition conditionalFile : Node :=
  let e := element 3 4 3 1 in
  sourceFile 23
    [expressionStatement
       (other 0 0 23
          [token 0 1; tokenAt 1 2 3; e; tokenAt 16 17 18; tokenAt 18 19 23]
          [token 0 1; tokenAt 1 2 3; e; tokenAt 16 17 18;
           tokenAt 18 19 23])].

(** The tree of a text that is one fragment with plain text. *)
Definition fragmentFile (contentLen : Z) : Node :=
  let f := fragment 0 0 contentLen in
  sourceFile (end_ (span f)) [expressionStatement f].

End ParseModel.

(** ** The cases of the repository's test suite

    The calls of [testJsx] of [src/test/cursorPosition.test.ts] that are
    written on one line: the text without the cursor mark, the offset of the
    mark and the expected verdict of [isInJsxTextContent]. *)

Module RepositoryTests.
Import Js.

Definition jsxCases : list (str * Z * bool) :=
  [(lit "<div></div>", 5, true);
   (lit "<div>hello world</div>", 11, true);
   (lit "<div>hello</div>", 5, true);
   (lit "<div>hello</div>", 10, true);
   (lit "<span></span>", 6, true);
   (lit "<div>", 3, false);
   (lit "<div>", 4, false);
   (lit "<div className=" ++ [DQUOTE] ++ lit "test" ++ [DQUOTE] ++ lit ">", 5, false);
   (lit "<div className=" ++ [DQUOTE] ++ lit "test" ++ [DQUOTE] ++ lit ">", 10, false);
   (lit "<div className=" ++ [DQUOTE] ++ lit "test" ++ [DQUOTE] ++ lit ">", 16, false);
   (lit "<div className=" ++ [DQUOTE] ++ lit "test" ++ [DQUOTE] ++ lit ">", 18, false);
   (lit "<div className=" ++ [DQUOTE] ++ lit "test" ++ [DQUOTE] ++ lit " id=" ++ [DQUOTE] ++ lit "foo" ++ [DQUOTE] ++ lit ">", 22, false);
   (lit "<div></div>", 9, false);
   (lit "<div></div>", 7, false);
   (lit "<div>{}</div>", 6, false);
   (lit "<div>{fooBar}</div>", 9, false);
   (lit "<div>{getData()}</div>", 15, false);
   (lit "<div>{foo}</div>", 10, true);
   (lit "<div>{foo}</div>", 5, true);
   (lit "<div>{foo}{bar}</div>", 10, true);
   (lit "<div>{foo} text </div>", 16, true);
   (lit "<div>{condition && <span></span>}</div>", 25, false);
   (lit "<div><span></span></div>", 11, true);
   (lit "<div><span><strong>text</strong></span></div>", 19, true);
   (lit "<div><span></span><span></span></div>", 18, true);
   (lit "<div><span>inner</span>outer</div>", 23, true);
   (lit "<input />", 7, false);
   (lit "<input />", 9, false);
   (lit "<div><input /></div>", 14, true);
   (lit "<div><br /><hr /></div>", 11, true);
   (lit "<div><MyComponent prop=" ++ [DQUOTE] ++ lit "val" ++ [DQUOTE] ++ lit " /></div>", 31, true);
   (lit "<></>", 2, true);
   (lit "<>hello world</>", 8, true);
   (lit "<><div></div></>", 7, true);
   (lit "const [state] = useState<string>();", 32, false);
   (lit "const arr: Array<number> = [];", 24, false);
   (lit "function foo<T>(x: T) { return x; }", 15, false);
   (lit "const x = getValue<User>();", 24, false);
   (lit "async function foo(): Promise<void> {}", 35, false);
   (lit "const map = new Map<string, number>();", 35, false);
   (lit "if (a < b) {}", 10, false);
   (lit "if (a > b) {}", 10, false);
   (lit "if (a <= b) {}", 11, false);
   (lit "const result = x < y ? 1 : 2;", 20, false);
   (lit "return <div></div>;", 12, true);
   (lit "const Comp = () => <div></div>;", 24, true);
   (lit "const element = <div></div>;", 21, true);
   (lit "render(<div></div>);", 12, true);
   (lit "[<span>a</span>, <span></span>]", 23, true);
   (lit "condition ? <div></div> : null", 17, true);
   (lit "condition && <div></div>", 18, true);
   (lit "fallback || <div></div>", 17, true);
   (lit "const s = " ++ [DQUOTE] ++ lit "<div></div>" ++ [DQUOTE] ++ lit ";", 16, false);
   (lit "const s = `<div></div>`;", 16, false);
   (lit "<div data-text=" ++ [DQUOTE] ++ lit "<span>" ++ [DQUOTE] ++ lit "></div>", 24, true);
   (lit "const x = " ++ [DQUOTE] ++ lit "a < b > c" ++ [DQUOTE] ++ lit ";", 22, false);
   (lit "<Button onClick={handleClick} disabled={isLoading} className=" ++ [DQUOTE] ++ lit "btn" ++ [DQUOTE] ++ lit ">Click me</Button>", 67, true);
   (lit "<ul>{items.map(item => <li key={item.id}>{item.name}</li>)}</ul>", 41, false);
   (lit "<div>{isLoggedIn ? <UserPanel></UserPanel> : <LoginForm />}</div>", 30, false);
   (lit "<Input {...props} value={value}></Input>", 32, true);
   (lit "<StyledDiv $primary={true} $size=" ++ [DQUOTE] ++ lit "large" ++ [DQUOTE] ++ lit ">content</StyledDiv>", 41, true);
   (lit "<button onClick={() => console.log(" ++ [DQUOTE] ++ lit "clicked" ++ [DQUOTE] ++ lit ")}>Click</button>", 47, true);
   (lit "<div>{a ? <A></A> : b ? <B /> : <C />}</div>", 13, false);
   ([], 0, false);
   (lit "const x = 1;", 12, false);
   (lit "<div></div>", 0, false);
   (lit "<div></div>", 11, false);
   (lit "<div></div><span></span>", 17, true);
   (lit "<div>      </div>", 8, true);
   (lit "<div>" ++ [10%N] ++ lit "    " ++ [10%N] ++ lit "</div>", 8, true);
   (lit "<div><!-- not a comment --></div>", 10, true);
   (lit "<div>&nbsp;&amp;</div>", 11, true);
   (lit "<MyComponent></MyComponent>", 13, true);
   (lit "<UI.Button></UI.Button>", 11, true);
   (lit "<div></div>", 5, true);
   (lit "<svg><path d=" ++ [DQUOTE] ++ lit "M0 0" ++ [DQUOTE] ++ lit " /></svg>", 22, true);
   (lit "const x = null || <div></div>;", 23, true);
   (lit "const x = true && <div></div>;", 23, true);
   (lit "const x = a || b || <div></div>;", 25, true);
   (lit "const x = a | b;", 16, false)].

(** The html cases of the tests of [isJsxTextContext]: the text without
    the caret mark, the offset of the mark and the expected verdict. *)
Definition markupCases : list (str * Z * bool) :=
  [(lit "<div>hello world</div>", 11, true);
   (lit "<div class=" ++ [DQUOTE] ++ lit "value" ++ [DQUOTE] ++ lit "></div>", 12, false);
   (lit "<div><!-- comment --></div>", 10, false);
   (lit "<div class=" ++ [DQUOTE] ++ lit "value" ++ [DQUOTE] ++ lit "></div>", 15, false);
   (lit "<div data-id=" ++ [DQUOTE] ++ lit "x" ++ [DQUOTE] ++ lit "></div>", 7, false);
   (lit "<div>text</div>", 13, false);
   (lit "<div><a>1</a><b>2</b></div>", 13, true)].

End RepositoryTests.

(** ** Notions used by the statements *)

Module Notions.
Import Js Heuristic.

(** What the scanner keeps non-negative between two passes of its loop. *)
Definition clamped (s : ScanState) : Prop :=
  0 <= jsxBraceDepth s /\ 0 <= jsxTagDepth s /\ 0 <= templateDepth s.

(** The loop of [isInJsxTextContent] from index [i] in state [s], with the
    passes it needs to reach [offset]. *)
Definition run (t : str) (offset i : Z) (s : ScanState) : ScanState :=
  loop (Z.to_nat (offset - i)) t offset i s.

(** The loop as [loop], returning also the index it leaves with. *)
Fixpoint loopAt (fuel : nat) (t : str) (offset i : Z) (s : ScanState)
    : ScanState * Z :=
  match fuel with
  | O => (s, i)
  | S f =>
      if i <? offset then
        let '(s', i') := body t i s in
        loopAt f t offset (i' + 1) s'
      else (s, i)
  end.

(** In the content of an element, outside expressions and tags: the states
    whose verdict is true. *)
Definition inContent (s : ScanState) : Prop :=
  inJsxContent s = true /\ jsxBraceDepth s = 0 /\ inJsxTag s = false.

(** Inside a tag and outside string and template literals. *)
Definition inTagCode (s : ScanState) : Prop :=
  inJsxTag s = true /\ inString s = false /\ inTemplate s = false
  /\ jsxBraceDepth s = 0.

(** In code: outside literals, tags and expressions of markup. *)
Definition neutral (s : ScanState) : Prop :=
  inString s = false /\ inTemplate s = false /\ inJsxTag s = false
  /\ jsxBraceDepth s = 0.

(** The characters of an opening tag the theorems cover: no [>] (which would
    end the tag), no quote or backtick (no string inside the tag), no [<] and
    no [/]. *)
Definition tagBodyChar (c : char) : bool :=
  negb (N.eqb c GT || N.eqb c DQUOTE || N.eqb c SQUOTE || N.eqb c BACKTICK
        || N.eqb c LT || N.eqb c SLASH).

(** The characters of plain element content: no [<] and no [{]. *)
Definition plainContentChar (c : char) : bool :=
  negb (N.eqb c LT || N.eqb c LBRACE).

(** In content and outside string and template literals. *)
Definition inContentCode (s : ScanState) : Prop :=
  inContent s /\ inString s = false /\ inTemplate s = false.

(** Inside an embedded expression of the content, at brace depth [d]. *)
Definition inExpression (d : Z) (s : ScanState) : Prop :=
  inJsxContent s = true /\ inJsxTag s = false /\ inString s = false
  /\ inTemplate s = false /\ jsxBraceDepth s = d.

(** The characters of plain content that start no literal: no [<], [{],
    quote or backtick. *)
Definition plainCodeChar (c : char) : bool :=
  negb (N.eqb c LT || N.eqb c LBRACE || N.eqb c DQUOTE || N.eqb c SQUOTE
        || N.eqb c BACKTICK).

(** The characters of an expression that start no literal. *)
Definition noQuoteChar (c : char) : bool :=
  negb (N.eqb c DQUOTE || N.eqb c SQUOTE || N.eqb c BACKTICK).

(** No prefix of [s] has more [}] than [{], counting [d] braces open
    before it: the braces of [s] never close an expression entered at depth
    [d + 1]. *)
Fixpoint neverCloses (d : Z) (s : str) : bool :=
  match s with
  | [] => true
  | c :: r =>
      if N.eqb c LBRACE then neverCloses (d + 1) r
      else if N.eqb c RBRACE then (0 <? d) && neverCloses (d - 1) r
      else neverCloses d r
  end.

(** The inputs with angle brackets that are no tags: generic type
    arguments and comparisons. *)
Definition notTagInputs : list str :=
  [lit "useState<string>(...)"; lit "Array<number>";
   lit "Map<string, number>"; lit "function f<T>(...)";
   lit "a < b"; lit "a > b"; lit "a <= b"; lit "x < y ? 1 : 2"].

(** The four of them with generic type arguments, each with the indices of
    its [<] and of its [>]. *)
Definition genericArguments : list (str * Z * Z) :=
  [(lit "useState<string>(...)", 8, 15); (lit "Array<number>", 5, 12);
   (lit "Map<string, number>", 3, 18); (lit "function f<T>(...)", 10, 12)].

(** What may stand before an element in an expression, in the inputs of
    the statements. *)
Definition tagPredecessors : list str :=
  [lit "cond && "; lit "cond || "; lit "return "; lit "a ? "].

(** The inputs with an element after such a predecessor, each with the tree
    of the parser for it and the offset of the [>] of its opening tag. *)
Definition tagInputs : list (str * Ast.Node * Z) :=
  [(lit "cond && <div>X</div>", ParseModel.logicalFile, 12);
   (lit "cond || <div>X</div>", ParseModel.logicalFile, 12);
   (lit "return <div>X</div>", ParseModel.returnFile, 11);
   (lit "a ? <div>X</div> : null", ParseModel.conditionalFile, 8)].

(** The state with its record of the last tag end replaced. *)
Definition withClose (s : ScanState) (close : Z) : ScanState :=
  setTag s (jsxTagDepth s) (inJsxTag s) close (inJsxContent s).

(** Two scan states that agree on everything but [lastJsxTagClose]. *)
Definition sameButClose (a b : ScanState) : Prop :=
  withClose a 0 = withClose b 0.

(** Two texts that hold the same characters, the second [d] places further,
    from [lo] to [hi], with a [>] at [lo]. *)
Definition aligned (t1 t2 : str) (d lo hi : Z) : Prop :=
  0 <= lo <= hi /\ 0 <= d /\ charAt t1 lo = Some GT
  /\ forall k, lo <= k <= hi -> charAt t1 k = charAt t2 (k + d).

(** Two scan states that agree on everything but [braceDepth]. *)
Definition sameButBraceDepth (a b : ScanState) : Prop :=
  setBraceDepth a 0 = setBraceDepth b 0.

(** The search of [findDeepestNode] among the children of the node at the
    head of [path]: the first child that holds the offset, or the node
    itself. *)
Definition firstInsideOf (offset : Z) (path : list Ast.Node)
    (children : list Ast.Node) : option (list Ast.Node) :=
  fold_right
    (fun child found =>
       match Tree.findDeepestNode child offset path with
       | Some insideChild => Some insideChild
       | None => found
       end)
    (Some path) children.

(** The four tests [isJsxTextContext] makes on the node it found, in its
    order. *)
Definition classifyChain (chain : list Ast.Node) (fullText : str)
    (offset : Z) : bool :=
  if Tree.isInsideJsxAttributeArea chain fullText offset then false
  else if Tree.isInsideJsxExpressionContext chain offset then false
  else if Tree.isInsideJsxText chain offset then true
  else Tree.isInsideJsxGap chain offset.

(** The cache entry is for this document and position. *)
Definition keyed (c : Detector.CacheEntry) (document : Detector.TextDocument)
    (position : Detector.Position) : Prop :=
  Detector.c_uri c = Detector.uri document
  /\ Detector.c_version c = Detector.version document
  /\ Detector.isEqual (Detector.c_position c) position = true.

(** What a call of the detector that recomputes returns and leaves: the
    syntax-tree classifier's answer for the probe, stored with the time of the
    clock read [n], and one more run in the log. *)
Definition recomputed
    (createSourceFile : string -> str -> Ast.ScriptKind -> Ast.Node)
    (clock : nat -> Z) (s : Detector.State)
    (document : Detector.TextDocument) (position : Detector.Position)
    (out : bool * Detector.State) : Prop :=
  let probe := Detector.probeOf document position in
  let result := Tree.isJsxTextContext createSourceFile probe in
  exists n : nat,
    out = (result,
           Detector.mkState
             (Some (Detector.mkEntry (Detector.uri document)
                      (Detector.version document) position (clock n) result))
             (S n) (Detector.runs s ++ [Detector.RanTree probe])).

End Notions.

(** ** The markup scanner and the tag-end test of [src/extension.ts] *)

Module Html.
Import Js.

Definition LPAREN : char := 40%N.

(** [/[A-Za-z\/!?]/]: what may follow the [<] of a markup tag. *)
Definition tagStartNext (c : char) : bool :=
  (isLetter c || N.eqb c SLASH || N.eqb c BANG || N.eqb c QUESTION)%bool.

(** [/[A-Za-z0-9_\-\s=...]/] with the two quotes: what the backward scan
    from a [>] passes over. *)
Definition tagBackChar (c : char) : bool :=
  (isWord c || N.eqb c MINUS || isSpace c || N.eqb c EQUALS
   || N.eqb c DQUOTE || N.eqb c SQUOTE)%bool.

(** The variables of [isInHtmlTextContent]. *)
Record ScanState := mkScan {
  inTag : bool;
  inString : bool;
  stringChar : option char;
  tagDepth : Z;
  lastTagClose : Z
}.

Definition initial : ScanState := mkScan false false None 0 (-1).

(** "Handle tag end", entered with [char === '>'] and [inTag]. *)
Definition closeTag (t : str) (i : Z) (prevChar : option char)
    (s : ScanState) : ScanState :=
  if eqc prevChar SLASH then
    mkScan false (inString s) (stringChar s) (tagDepth s) i
  else
    let j := Heuristic.skipBackward tagBackChar t (i - 1) in
    if (0 <=? j) && eqc (charAt t j) SLASH then
      mkScan false (inString s) (stringChar s) (tagDepth s - 1) i
    else if (0 <=? j) && eqc (charAt t j) LT then
      mkScan false (inString s) (stringChar s) (tagDepth s + 1) i
    else
      mkScan false (inString s) (stringChar s) (tagDepth s) i.

(** One pass of the loop body at index [i].  [prevChar] and [nextChar] are the
    empty string when there is no such character; no test of the body holds
    for the empty string. *)
Definition body (t : str) (i : Z) (s : ScanState) : ScanState :=
  let char_ := charAt t i in
  let prevChar := if 0 <? i then charAt t (i - 1) else None in
  let nextChar := charAt t (i + 1) in
  if inTag s && negb (inString s) && (eqc char_ DQUOTE || eqc char_ SQUOTE)
  then mkScan (inTag s) true char_ (tagDepth s) (lastTagClose s)
  else if inString s && eqo char_ (stringChar s)
          && negb (eqc prevChar BACKSLASH)
  then mkScan (inTag s) false (stringChar s) (tagDepth s) (lastTagClose s)
  else if inString s then s
  else if eqc char_ LT
          && match nextChar with Some c => tagStartNext c | None => false end
  then mkScan true (inString s) (stringChar s) (tagDepth s) (lastTagClose s)
  else if eqc char_ GT && inTag s then closeTag t i prevChar s
  else s.

(** [for (let i = 0; i < offset; i++) body]. *)
Fixpoint loop (fuel : nat) (t : str) (offset i : Z) (s : ScanState)
    : ScanState :=
  match fuel with
  | O => s
  | S f => if i <? offset then loop f t offset (i + 1) (body t i s) else s
  end.

Definition scan (t : str) (offset : Z) : ScanState :=
  loop (Z.to_nat offset) t offset 0 initial.

Definition verdict (s : ScanState) : bool :=
  negb (inTag s) && ((0 <? tagDepth s) || (0 <=? lastTagClose s)).

Definition isInHtmlTextContent (t : str) (offset : Z) : bool :=
  verdict (scan t offset).

(** [/[A-Za-z0-9_\(]/]: what follows the [>] of a comparison or of a type
    argument list. *)
Definition tagEndNext (c : char) : bool := (isWord c || N.eqb c LPAREN)%bool.

(** [/[A-Za-z0-9_\-=...\s:]/] with the two quotes: "possible tag content". *)
Definition tagContentChar (c : char) : bool :=
  (isWord c || N.eqb c MINUS || N.eqb c EQUALS || N.eqb c DQUOTE
   || N.eqb c SQUOTE || isSpace c || N.eqb c COLON)%bool.

(** [isLikelyTagEnd(text, i, tagDepth)]. *)
Definition isLikelyTagEnd (t : str) (i : Z) (tagDepth : Z) : bool :=
  if 0 <? tagDepth then true
  else
    match charAt t (i + 1) with
    | None => true
    | Some nextChar =>
        if tagEndNext nextChar then
          let foundSlash := eqc (charAt t (i - 1)) SLASH in
          let j := if foundSlash then i - 2 else i - 1 in
          let j := Heuristic.skipBackward tagContentChar t j in
          if (0 <=? j) && eqc (charAt t j) LT then true
          else if (1 <=? j) && eqc (charAt t (j - 1)) LT
                  && eqc (charAt t j) SLASH
          then true
          else if negb foundSlash then false
          else true
        else true
    end.

End Html.

(** Notions for the statements about the markup scanner. *)

Module HtmlNotions.
Import Js Html.

(** The loop of [isInHtmlTextContent] from index [i] in state [s]. *)
Definition run (t : str) (offset i : Z) (s : ScanState) : ScanState :=
  loop (Z.to_nat (offset - i)) t offset i s.

(** The characters of a tag the theorems cover: no [>] and no quote. *)
Definition plainTagChar (c : char) : bool :=
  negb (N.eqb c GT || N.eqb c DQUOTE || N.eqb c SQUOTE).

(** A quote character. *)
Definition isQuote (c : char) : bool := (N.eqb c DQUOTE || N.eqb c SQUOTE)%bool.

(** What the scanner keeps: a positive depth comes from a tag end, an open
    string from a tag, and the last tag end is before the index. *)
Definition htmlKept (k : Z) (s : ScanState) : Prop :=
  (0 < tagDepth s -> 0 <= lastTagClose s)
  /\ (inString s = true -> inTag s = true)
  /\ -1 <= lastTagClose s < k.

(** The tag begins with a character that may follow the [<] of a tag. *)
Definition startsTag (tag : str) : bool :=
  match tag with
  | c :: _ => tagStartNext c
  | [] => false
  end.

(** No [<] in the text. *)
Definition noOpen (c : char) : bool := negb (N.eqb c LT).

End HtmlNotions.

(** The calls of [testHtml] of [src/test/cursorPosition.test.ts]: the text
    without the cursor mark, the offset of the mark and the expected verdict
    of [isInHtmlTextContent]. *)

Module HtmlTests.
Import Js.

Definition htmlCases : list (str * Z * bool) :=
  [(lit "<div></div>", 5, true);
   (lit "<div>hello world</div>", 11, true);
   (lit "<span></span>", 6, true);
   (lit "<div>", 3, false);
   (lit "<div class=" ++ [DQUOTE] ++ lit "test" ++ [DQUOTE] ++ lit ">", 5, false);
   (lit "<div class=" ++ [DQUOTE] ++ lit "test" ++ [DQUOTE] ++ lit ">", 12, false);
   (lit "<div></div>", 9, false);
   (lit "<div><span></span></div>", 11, true);
   (lit "<div><ul><li>text</li></ul></div>", 13, true);
   (lit "<div><span></span><span></span></div>", 18, true);
   (lit "<input />", 7, false);
   (lit "<div><br /></div>", 11, true);
   (lit "<div><img src=" ++ [DQUOTE] ++ lit "test.jpg" ++ [DQUOTE] ++ lit "></div>", 25, true);
   (lit "<!DOCTYPE html><html></html>", 21, true);
   (lit "<div><!-- comment --></div>", 21, true);
   (lit "<script>const x = 1;</script>", 20, true);
   (lit "<style>.class { color: red; }</style>", 29, true);
   (lit "<div><script></script></div>", 22, true);
   (lit "<table><tr><td>data</td></tr></table>", 15, true);
   (lit "<form><label>Name:</label><input type=" ++ [DQUOTE] ++ lit "text" ++ [DQUOTE] ++ lit "></form>", 18, true);
   (lit "<ul><li>item 1</li><li>item 2</li></ul>", 23, true);
   (lit "<article><header>Title</header><section>Content</section></article>", 17, true);
   (lit "<div data-template=" ++ [DQUOTE] ++ lit "<span>" ++ [DQUOTE] ++ lit "></div>", 28, true);
   (lit "<input type=" ++ [DQUOTE] ++ lit "text" ++ [DQUOTE] ++ lit " value=" ++ [DQUOTE] ++ lit "test" ++ [DQUOTE] ++ lit " placeholder=" ++ [DQUOTE] ++ lit "Enter..." ++ [DQUOTE] ++ lit " /><span>after</span>", 57, true);
   (lit "<div data-json='{" ++ [DQUOTE] ++ lit "key" ++ [DQUOTE] ++ lit ": " ++ [DQUOTE] ++ lit "value" ++ [DQUOTE] ++ lit "}'></div>", 34, true);
   ([], 0, false);
   (lit "<div></div>", 0, false);
   (lit "<div></div>", 11, true);
   (lit "<div>      </div>", 8, true);
   (lit "<div>" ++ [10%N] ++ lit "    <span>" ++ [10%N] ++ lit "        content" ++ [10%N] ++ lit "    </span>" ++ [10%N] ++ lit "</div>", 25, true)].

End HtmlTests.

(** ** The event handlers of [src/extension.ts]

    The module keeps one variable, [lastState], and writes the setting
    [editor.quickSuggestions] of the workspace through
    [config.update].  The state here holds [lastState], the writes issued so
    far, oldest first, and the number of suspended calls of
    [cleanupSettings].

    An [async] function runs up to its first [await] when it is called; what
    follows the [await] runs later, after the handler that called it has
    returned.  [enableQuickSuggestions] and [disableQuickSuggestions] issue
    their write before their [await] and do nothing after it (a rejected
    write is caught there).  [cleanupSettings] awaits
    [enableQuickSuggestions] and then assigns [lastState = null]: a call
    issues the write at once and leaves one suspended continuation, which the
    step [resumeCleanup] runs.  [vscode.workspace.getConfiguration] is taken
    not to throw. *)

Module Extension.
Import Js.

Definition SUPPORTED_LANGUAGES : list string :=
  ["javascriptreact"; "typescriptreact"; "javascript"; "typescript";
   "html"; "xml"; "xhtml"; "svg"]%string.

Definition JSX_LANGUAGES : list string :=
  ["javascriptreact"; "typescriptreact"; "javascript"; "typescript"]%string.

Definition isSupportedLanguage (languageId : string) : bool :=
  Lang.has SUPPORTED_LANGUAGES languageId.

(** What the handlers read of a [vscode.TextEditor]: its document and
    [selection.active]. *)
Record TextEditor := mkEditor {
  document : Detector.TextDocument;
  active : Detector.Position
}.

Definition checkIfBetweenTags (document : Detector.TextDocument)
    (position : Detector.Position) : bool :=
  let text := Detector.getText document in
  let offset := Detector.offsetAt document position in
  let languageId := Detector.doc_languageId document in
  let isJsxLanguage := Lang.has JSX_LANGUAGES languageId in
  if isJsxLanguage then Heuristic.isInJsxTextContent text offset
  else Html.isInHtmlTextContent text offset.

(** The two calls of [config.update('quickSuggestions', _, Workspace)]: with
    the object that switches the three kinds off, and with [undefined], which
    removes the key. *)
Inductive SettingsWrite :=
| DisableQuickSuggestions
| RemoveQuickSuggestions.

Record State := mkState {
  lastState : option bool;
  writes : list SettingsWrite;
  suspended : nat
}.

(** [let lastState = null]. *)
Definition initialState : State := mkState None [] 0.

Definition setLastState (s : State) (v : option bool) : State :=
  mkState v (writes s) (suspended s).

Definition disableQuickSuggestions (s : State) : State :=
  mkState (lastState s) (writes s ++ [DisableQuickSuggestions]) (suspended s).

Definition enableQuickSuggestions (s : State) : State :=
  mkState (lastState s) (writes s ++ [RemoveQuickSuggestions]) (suspended s).

(** The call of [cleanupSettings]: up to its [await]. *)
Definition cleanupSettings (s : State) : State :=
  let s1 := enableQuickSuggestions s in
  mkState (lastState s1) (writes s1) (S (suspended s1)).

(** The rest of one suspended [cleanupSettings]: [lastState = null]. *)
Definition resumeCleanup (s : State) : State :=
  match suspended s with
  | O => s
  | S n => mkState None (writes s) n
  end.

(** [lastState !== isBetweenTags]. *)
Definition differs (lastState : option bool) (isBetweenTags : bool) : bool :=
  match lastState with
  | Some b => negb (Bool.eqb b isBetweenTags)
  | None => true
  end.

Definition handleSelectionChange (editor : TextEditor) (s : State) : State :=
  if negb (isSupportedLanguage (Detector.doc_languageId (document editor)))
  then s
  else
    let isBetweenTags := checkIfBetweenTags (document editor) (active editor) in
    if differs (lastState s) isBetweenTags then
      let s1 := setLastState s (Some isBetweenTags) in
      if isBetweenTags then disableQuickSuggestions s1
      else enableQuickSuggestions s1
    else s.

Definition handleEditorChange (editor : option TextEditor) (s : State)
    : State :=
  if match editor with
     | None => true
     | Some e =>
         negb (isSupportedLanguage (Detector.doc_languageId (document e)))
     end
  then
    match lastState s with
    | Some _ => setLastState (cleanupSettings s) None
    | None => s
    end
  else
    match editor with
    | Some e => handleSelectionChange e s
    | None => s
    end.

(** [activeTextEditor] is [vscode.window.activeTextEditor] when the document
    closes. *)
Definition handleDocumentClose (closed : Detector.TextDocument)
    (activeTextEditor : option TextEditor) (s : State) : State :=
  if isSupportedLanguage (Detector.doc_languageId closed) then
    if match activeTextEditor with
       | None => true
       | Some e =>
           negb (isSupportedLanguage (Detector.doc_languageId (document e)))
       end
    then setLastState (cleanupSettings s) None
    else s
  else s.

(** [activate]: the subscriptions deliver the events below; the state
    changes with the cleanup and the check of the active editor. *)
Definition activate (activeTextEditor : option TextEditor) (s : State)
    : State :=
  let s1 := cleanupSettings s in
  match activeTextEditor with
  | Some e => handleSelectionChange e s1
  | None => s1
  end.

Definition deactivate (s : State) : State :=
  setLastState (cleanupSettings s) None.

(** What happens after activation: the listeners run (the selection listener
    behind its debounce), a suspended cleanup resumes, the extension is
    deactivated. *)
Inductive Event :=
| SelectionChanged (editor : TextEditor)
| ActiveEditorChanged (editor : option TextEditor)
| DocumentClosed (closed : Detector.TextDocument)
                 (activeTextEditor : option TextEditor)
| CleanupResumed
| Deactivated.

Definition step (s : State) (e : Event) : State :=
  match e with
  | SelectionChanged editor => handleSelectionChange editor s
  | ActiveEditorChanged editor => handleEditorChange editor s
  | DocumentClosed closed activeTextEditor =>
      handleDocumentClose closed activeTextEditor s
  | CleanupResumed => resumeCleanup s
  | Deactivated => deactivate s
  end.

(** A session: activation of the freshly loaded module, then events. *)
Definition session (activeTextEditor : option TextEditor)
    (events : list Event) : State :=
  fold_left step events (activate activeTextEditor initialState).

(** The write that stands for a value of [lastState]. *)
Definition writeFor (isBetweenTags : bool) : SettingsWrite :=
  if isBetweenTags then DisableQuickSuggestions else RemoveQuickSuggestions.

(** The value of [lastState], when it is not [null], is the one the last
    write was made for. *)
Definition settled (s : State) : Prop :=
  forall b, lastState s = Some b -> exists ws, writes s = ws ++ [writeFor b].

End Extension.

(** ** [debounce] of [src/extension.ts]

    The closure [debounce] returns keeps the handle of its last timer in
    [timeout].  The host's timers are part of the state: [setTimeout] adds a
    timer with a fresh handle, due [wait] after the call, [clearTimeout]
    removes the timer with the handle if it is still there, and when the
    host reaches a time it runs the timers due by then, which call [func]
    with the arguments they hold. *)

Module Debounce.

Section Debounced.

(** The arguments of [func]. *)
Variable A : Type.
Variable wait : Z.

Record Timer := mkTimer { handle : nat; due : Z; args : A }.

Record State := mkState {
  timeout : option nat;
  timers : list Timer;
  nextHandle : nat;
  calls : list A
}.

Definition initial : State := mkState None [] 0 [].

Definition clearTimeout (h : nat) (ts : list Timer) : list Timer :=
  filter (fun t => negb (Nat.eqb (handle t) h)) ts.

(** The returned closure, called at time [now]. *)
Definition invoke (now : Z) (a : A) (s : State) : State :=
  let ts := match timeout s with
            | Some h => clearTimeout h (timers s)
            | None => timers s
            end in
  mkState (Some (nextHandle s))
          (ts ++ [mkTimer (nextHandle s) (now + wait) a])
          (S (nextHandle s)) (calls s).

(** The host reaches time [now]. *)
Definition elapse (now : Z) (s : State) : State :=
  mkState (timeout s)
          (filter (fun t => now <? due t) (timers s))
          (nextHandle s)
          (calls s ++ List.map args (filter (fun t => due t <=? now) (timers s))).

(** Calls of the closure at their times, in order. *)
Definition invokeAll (cs : list (Z * A)) (s : State) : State :=
  fold_left (fun s c => invoke (fst c) (snd c) (elapse (fst c) s)) cs s.

(** Each call comes at or after the one before it and before that one's
    timer is due. *)
Fixpoint burst (prev : Z) (cs : list (Z * A)) : Prop :=
  match cs with
  | [] => True
  | c :: r => prev <= fst c < prev + wait /\ burst (fst c) r
  end.

(** The last call of the calls [c :: cs]. *)
Fixpoint lastCall (c : Z * A) (cs : list (Z * A)) : Z * A :=
  match cs with
  | [] => c
  | c' :: r => lastCall c' r
  end.

(** One timer is live, the one [timeout] names, and [func] has not run. *)
Definition waiting (s : State) (d : Z) (a : A) : Prop :=
  exists h, timeout s = Some h /\ timers s = [mkTimer h d a] /\ calls s = [].

End Debounced.

End Debounce.

(** ** JavaScript's [Map] with string keys

    A [Map] keeps its entries in insertion order: [set] on a key it holds
    replaces the value in place, [set] on a new key appends, [delete]
    removes the entry. *)

Module JsMap.

Section Map.

Variable V : Type.

Definition t := list (string * V).

Fixpoint get (m : t) (k : string) : option V :=
  match m with
  | [] => None
  | (k', v) :: r => if String.eqb k' k then Some v else get r k
  end.

Definition has (m : t) (k : string) : bool :=
  match get m k with
  | Some _ => true
  | None => false
  end.

Fixpoint set (m : t) (k : string) (v : V) : t :=
  match m with
  | [] => [(k, v)]
  | (k', v') :: r =>
      if String.eqb k' k then (k', v) :: r else (k', v') :: set r k v
  end.

Fixpoint delete (m : t) (k : string) : t :=
  match m with
  | [] => []
  | (k', v') :: r =>
      if String.eqb k' k then r else (k', v') :: delete r k
  end.

(** [[...m.entries()]]. *)
Definition entries (m : t) : list (string * V) := m.

(** [new Map(raw)]. *)
Definition ofEntries (raw : list (string * V)) : t :=
  fold_left (fun m e => set m (fst e) (snd e)) raw [].

(** No key twice. *)
Definition wellFormed (m : t) : Prop := NoDup (List.map fst m).

End Map.

End JsMap.

(** ** [SuggestionSettingsController]

    The controller keeps three maps and reads and writes two stores of the
    editor: the workspace state ([memento], the value under the controller's
    key, if any) and the configuration.  The state here holds the maps, the
    memento's value and the writes of [editor.quickSuggestions] issued so
    far, oldest first, each with the resource its configuration object was
    made for and its target.

    The workspace is a parameter: its folders, the folder of a resource, and
    what [config.get('editor.quickSuggestions')] returns for a resource after
    the writes made so far.  Each method is run to completion (its awaited
    calls finish, without error, before another method starts):
    [SuggestionGate] chains its calls of [disableFor] and [restore] one after
    the other. *)

Module SettingsController.

(** A value of the setting: [undefined], a boolean, or any other value,
    named by a code. *)
Inductive SettingValue :=
| Undefined
| Boolean (b : bool)
| Other (code : N).

Record SettingSnapshot := mkSnapshot { quickSuggestions : SettingValue }.

Inductive ConfigurationTarget := Workspace | WorkspaceFolder.

(** The values of the map [state]. *)
Inductive Mode := enabled | disabled.

(** [config.update('editor.quickSuggestions', value, target)] on the
    configuration made for [resource]. *)
Record Update := mkUpdate {
  resource : string;
  value : SettingValue;
  target : ConfigurationTarget
}.

(** [TargetContext]; the configuration object is stood for by the resource it
    was made for. *)
Record TargetContext := mkContext {
  config : string;
  ctx_target : ConfigurationTarget;
  key : string
}.

Record State := mkState {
  snapshots : JsMap.t SettingSnapshot;
  state : JsMap.t Mode;
  persisted : JsMap.t SettingSnapshot;
  memento : option (list (string * SettingSnapshot));
  updates : list Update
}.

Definition isDisabled (m : option Mode) : bool :=
  match m with
  | Some disabled => true
  | _ => false
  end.

(** [quick === false]. *)
Definition isFalse (v : SettingValue) : bool :=
  match v with
  | Boolean false => true
  | _ => false
  end.

Section Workspace.

(** [vscode.workspace.workspaceFolders]: the URIs of the folders, or
    [undefined]. *)
Variable workspaceFolders : option (list string).
(** [vscode.workspace.getWorkspaceFolder(resource)]: the URI of the folder. *)
Variable getWorkspaceFolder : string -> option string.
(** [getConfiguration(undefined, resource).get('editor.quickSuggestions')]
    after the writes given. *)
Variable quickSuggestionsOf : string -> list Update -> SettingValue.

Definition loadPersisted (memento : option (list (string * SettingSnapshot)))
    : JsMap.t SettingSnapshot :=
  JsMap.ofEntries SettingSnapshot
    (match memento with Some raw => raw | None => [] end).

(** The constructor, on the memento's value and the writes made so far. *)
Definition new (memento : option (list (string * SettingSnapshot)))
    (updates : list Update) : State :=
  mkState [] [] (loadPersisted memento) memento updates.

Definition getTargetContext (document : Detector.TextDocument)
    : TargetContext :=
  let resource := Detector.uri document in
  let folder := getWorkspaceFolder resource in
  let target := match folder with
                | Some _ => WorkspaceFolder
                | None => Workspace
                end in
  let key := match folder with
             | Some f => f
             | None => "workspace"%string
             end in
  mkContext resource target key.

(** [vscode.Uri.file('')] as a string. *)
Definition emptyFileUri : string := "file:///"%string.

Definition getContextByKey (key : string) : TargetContext :=
  let folder := match workspaceFolders with
                | Some items => find (fun item => String.eqb item key) items
                | None => None
                end in
  let resource := match folder with
                  | Some f => f
                  | None =>
                      match workspaceFolders with
                      | Some (first :: _) => first
                      | _ => emptyFileUri
                      end
                  end in
  let target := match folder with
                | Some _ => WorkspaceFolder
                | None => Workspace
                end in
  mkContext resource target key.

Definition update (ctx : TargetContext) (v : SettingValue) (s : State)
    : State :=
  mkState (snapshots s) (state s) (persisted s) (memento s)
          (updates s ++ [mkUpdate (config ctx) v (ctx_target ctx)]).

Definition savePersisted (s : State) : State :=
  mkState (snapshots s) (state s) (persisted s)
          (Some (JsMap.entries SettingSnapshot (persisted s))) (updates s).

Definition restoreByKey (key : string) (snapshot : SettingSnapshot)
    (s : State) : State :=
  update (getContextByKey key) (quickSuggestions snapshot) s.

Definition ensureDefaultsIfForcedOff (s : State) : State :=
  let keys := match workspaceFolders with
              | Some items => items
              | None => []
              end ++ ["workspace"%string] in
  fold_left
    (fun s key =>
       if JsMap.has SettingSnapshot (persisted s) key then s
       else
         let ctx := getContextByKey key in
         let quick := quickSuggestionsOf (config ctx) (updates s) in
         if isFalse quick then update ctx Undefined s else s)
    keys s.

Definition restorePersisted (s : State) : State :=
  let s1 := fold_left (fun s e => restoreByKey (fst e) (snd e) s)
                      (JsMap.entries SettingSnapshot (persisted s)) s in
  let s2 := mkState (snapshots s1) (state s1) [] (memento s1) (updates s1) in
  ensureDefaultsIfForcedOff (savePersisted s2).

Definition disableFor (document : Detector.TextDocument) (s : State)
    : State :=
  let ctx := getTargetContext document in
  if isDisabled (JsMap.get Mode (state s) (key ctx)) then s
  else
    let snapshot := mkSnapshot (quickSuggestionsOf (config ctx) (updates s)) in
    let s1 := mkState (JsMap.set SettingSnapshot (snapshots s) (key ctx)
                                 snapshot)
                      (state s)
                      (JsMap.set SettingSnapshot (persisted s) (key ctx)
                                 snapshot)
                      (memento s) (updates s) in
    let s2 := savePersisted s1 in
    let s3 := mkState (snapshots s2)
                      (JsMap.set Mode (state s2) (key ctx) disabled)
                      (persisted s2) (memento s2) (updates s2) in
    update ctx (Boolean false) s3.

Definition restore (document : Detector.TextDocument) (s : State) : State :=
  let ctx := getTargetContext document in
  if negb (isDisabled (JsMap.get Mode (state s) (key ctx))) then s
  else
    let s1 :=
      match JsMap.get SettingSnapshot (snapshots s) (key ctx) with
      | Some snapshot =>
          let s' := update ctx (quickSuggestions snapshot) s in
          savePersisted
            (mkState (snapshots s') (state s')
                     (JsMap.delete SettingSnapshot (persisted s') (key ctx))
                     (memento s') (updates s'))
      | None => s
      end in
    mkState (JsMap.delete SettingSnapshot (snapshots s1) (key ctx))
            (JsMap.set Mode (state s1) (key ctx) enabled)
            (persisted s1) (memento s1) (updates s1).

Definition restoreAll (s : State) : State :=
  let entries := JsMap.entries SettingSnapshot (snapshots s) in
  let s1 := mkState [] [] (persisted s) (memento s) (updates s) in
  fold_left (fun s e => restoreByKey (fst e) (snd e) s) entries s1.

(** The public methods. *)
Inductive Call :=
| RestorePersisted
| DisableFor (document : Detector.TextDocument)
| Restore (document : Detector.TextDocument)
| RestoreAll.

Definition call (s : State) (c : Call) : State :=
  match c with
  | RestorePersisted => restorePersisted s
  | DisableFor document => disableFor document s
  | Restore document => restore document s
  | RestoreAll => restoreAll s
  end.

(** The write that [restoreByKey] issues for a persisted entry. *)
Definition restoringUpdate (e : string * SettingSnapshot) : Update :=
  mkUpdate (config (getContextByKey (fst e))) (quickSuggestions (snd e))
           (ctx_target (getContextByKey (fst e))).

(** The keys [ensureDefaultsIfForcedOff] goes through. *)
Definition defaultKeys : list string :=
  match workspaceFolders with
  | Some items => items
  | None => []
  end ++ ["workspace"%string].

End Workspace.

(** No key twice in the maps of snapshots. *)
Definition wellFormed (s : State) : Prop :=
  JsMap.wellFormed SettingSnapshot (snapshots s)
  /\ JsMap.wellFormed SettingSnapshot (persisted s).

(** The memento holds the persisted snapshots. *)
Definition mirrored (s : State) : Prop :=
  loadPersisted (memento s) = persisted s.

End SettingsController.

(** ** [SuggestionGate]

    The gate keeps the flag [inDisabledZone] and the chain [inflight] of the
    settings changes it has asked for.  [applySettings] appends a callback to
    the chain; the callbacks run later, one at a time and in order, each one
    after the one before it has finished.  The state here holds the
    detector's and the controller's state, the flag, and the callbacks not
    yet run, each one as the arguments of its [applySettings]. *)

Module SuggestionGate.

Record State := mkState {
  detector : Detector.State;
  settings : SettingsController.State;
  inDisabledZone : bool;
  inflight : list (Detector.TextDocument * bool)
}.

(** [vscode.TextDocumentChangeEvent]: the document and the texts of the
    changes. *)
Record TextDocumentChangeEvent := mkChange {
  ev_document : Detector.TextDocument;
  contentChanges : list Js.str
}.

(** A text equal to the tab character. *)
Definition isTab (change : Js.str) : bool :=
  match change with
  | [c] => N.eqb c 9
  | _ => false
  end.

Section Gate.

Variable createSourceFile : string -> Js.str -> Ast.ScriptKind -> Ast.Node.
Variable clock : nat -> Z.
Variable cacheTtlMs : option Z.
Variable getWorkspaceFolder : string -> option string.
Variable quickSuggestionsOf :
  string -> list SettingsController.Update -> SettingsController.SettingValue.
(** [a === b] on two document objects. *)
Variable sameObject : Detector.TextDocument -> Detector.TextDocument -> bool.

(** The gate [new SuggestionGate(detector, settings)] with a fresh detector. *)
Definition new (settings : SettingsController.State) : State :=
  mkState Detector.new settings false [].

Definition applySettings (document : Detector.TextDocument)
    (shouldDisable : bool) (s : State) : State :=
  mkState (detector s) (settings s) (inDisabledZone s)
          (inflight s ++ [(document, shouldDisable)]).

(** The callback of [applySettings], run when its turn has come. *)
Definition runCallback (document : Detector.TextDocument)
    (shouldDisable : bool) (s : State) : State :=
  if shouldDisable && negb (inDisabledZone s) then
    mkState (detector s)
            (SettingsController.disableFor getWorkspaceFolder
               quickSuggestionsOf document (settings s))
            true (inflight s)
  else if negb shouldDisable && inDisabledZone s then
    mkState (detector s)
            (SettingsController.restore getWorkspaceFolder document
               (settings s))
            false (inflight s)
  else s.

(** The next callback of the chain runs. *)
Definition runNext (s : State) : State :=
  match inflight s with
  | [] => s
  | (document, shouldDisable) :: rest =>
      runCallback document shouldDisable
        (mkState (detector s) (settings s) (inDisabledZone s) rest)
  end.

(** [handleEditorChange(editor, _reason, skipHide)]; the reason is not
    read. *)
Definition handleEditorChange (editor : option Extension.TextEditor)
    (skipHide : bool) (s : State) : State :=
  match editor with
  | None => s
  | Some e =>
      let '(insideJsxText, d) :=
        Detector.isInsideJsxText createSourceFile clock cacheTtlMs
          (detector s) (Extension.document e) (Extension.active e) in
      let s1 := mkState d (settings s) (inDisabledZone s) (inflight s) in
      if insideJsxText && negb skipHide
      then applySettings (Extension.document e) true s1
      else if negb insideJsxText
      then applySettings (Extension.document e) false s1
      else s1
  end.

(** [activeTextEditor] is [vscode.window.activeTextEditor] at the event. *)
Definition handleDocumentChange (event : TextDocumentChangeEvent)
    (activeTextEditor : option Extension.TextEditor) (s : State) : State :=
  match activeTextEditor with
  | Some e =>
      if sameObject (Extension.document e) (ev_document event) then
        let skipForTab := existsb isTab (contentChanges event) in
        handleEditorChange (Some e) skipForTab s
      else s
  | None => s
  end.

(** What happens to a gate: its listeners run, the next callback of the
    chain runs. *)
Inductive Event :=
| EditorChanged (editor : option Extension.TextEditor)
| DocumentChanged (event : TextDocumentChangeEvent)
                  (activeTextEditor : option Extension.TextEditor)
| CallbackRan.

Definition step (s : State) (e : Event) : State :=
  match e with
  | EditorChanged editor => handleEditorChange editor false s
  | DocumentChanged event activeTextEditor =>
      handleDocumentChange event activeTextEditor s
  | CallbackRan => runNext s
  end.

(** The flag and the controller agree about the key: the flag is set exactly
    when the key is recorded as disabled, and the snapshot of the key is
    persisted exactly then. *)
Definition inStep (k : string) (s : State) : Prop :=
  SettingsController.isDisabled
    (JsMap.get SettingsController.Mode
       (SettingsController.state (settings s)) k) = inDisabledZone s
  /\ JsMap.has SettingsController.SettingSnapshot
       (SettingsController.persisted (settings s)) k = inDisabledZone s
  /\ JsMap.has SettingsController.SettingSnapshot
       (SettingsController.snapshots (settings s)) k = inDisabledZone s.

End Gate.

End SuggestionGate.

(** Notions for the statements about the tree walks and the detector. *)

Module TreeNotions.
Import Ast.

(** The span of the node, leading trivia included, holds the offset. *)
Definition holdsOffset (offset : Z) (n : Node) : Prop :=
  getFullStart n <= offset < getEnd n.

(** Every node of the chain is a child of the next one. *)
Fixpoint isPath (chain : list Node) : Prop :=
  match chain with
  | a :: (b :: _) as rest => In a (getChildren b) /\ isPath rest
  | _ => True
  end.

(** The nodes [node.forEachChild] leads to, the node itself included. *)
Inductive visited (root : Node) : Node -> Prop :=
| visited_root : visited root root
| visited_child (n c : Node) :
    visited root n -> In c (forEachChild n) -> visited root c.

(** What [findDeepestNode] returns for a node that holds the offset: a chain
    from a node none of whose children holds the offset up to the node, all
    holding the offset, on top of the parents. *)
Definition deepestFrom (offset : Z) (node : Node) : Prop :=
  forall parents,
    exists n pre,
      Tree.findDeepestNode node offset parents = Some (n :: pre ++ parents)
      /\ List.last (n :: pre) node = node
      /\ Forall (holdsOffset offset) (n :: pre)
      /\ Forall (fun c => ~ holdsOffset offset c) (getChildren n)
      /\ isPath (n :: pre).

(** The offset is in the name or in the attributes of the opening or
    self-closing tag [n]: the two tests [isInsideJsxAttributeArea] makes on
    such a node. *)
Definition inTagRegion (offset : Z) (n : Node) : Prop :=
  match kind n with
  | JsxOpeningElement attributes | JsxSelfClosingElement attributes =>
      pos attributes <= offset <= end_ attributes
      \/ getStart n < offset < pos attributes
  | _ => False
  end.

(** The offset is strictly inside the embedded expression [n]. *)
Definition inExpressionNode (offset : Z) (n : Node) : Prop :=
  kind n = JsxExpression /\ getStart n < offset < getEnd n.

(** The offset is between the tags of the element or fragment [n]: from the
    end of its opening tag to the start of its closing tag. *)
Definition betweenTagsOf (offset : Z) (n : Node) : Prop :=
  match kind n with
  | JsxElement opening closing | JsxFragment opening closing =>
      end_ opening <= offset <= start closing
  | _ => False
  end.

(** The node found lies in the content of an element or fragment: some node
    of its chain has the offset between its tags, and no node of the chain
    is a tag with the offset in its name or attributes, or an embedded
    expression with the offset strictly inside. *)
Definition inElementContent (offset : Z) (chain : list Node) : Prop :=
  (exists e, In e chain /\ betweenTagsOf offset e)
  /\ forall n, In n chain ->
       ~ inTagRegion offset n /\ ~ inExpressionNode offset n.

End TreeNotions.

Module DetectorNotions.
Import Detector.

(** Two document objects with the same URI and version show the same
    document. *)
Definition sameContent (d d' : TextDocument) : Prop :=
  uri d = uri d' -> version d = version d' ->
  doc_languageId d = doc_languageId d'
  /\ doc_fileName d = doc_fileName d'
  /\ getText d = getText d'
  /\ forall p, offsetAt d p = offsetAt d' p.

Definition versioned (calls : list (TextDocument * Position)) : Prop :=
  forall c c', In c calls -> In c' calls -> sameContent (fst c) (fst c').

Section Answers.

Variable createSourceFile : string -> Js.str -> Ast.ScriptKind -> Ast.Node.
Variable clock : nat -> Z.
Variable cacheTtlMs : option Z.

(** The answers of the detector to calls made one after the other. *)
Fixpoint answers (s : State) (calls : list (TextDocument * Position))
    : list bool :=
  match calls with
  | [] => []
  | (document, position) :: rest =>
      let '(answer, s') :=
        isInsideJsxText createSourceFile clock cacheTtlMs s document
                        position in
      answer :: answers s' rest
  end.

(** The cache entry, if any, holds the classifier's answer for one of the
    calls made. *)
Definition cacheOf (history : list (TextDocument * Position)) (s : State)
    : Prop :=
  forall c, cache s = Some c ->
    exists d p,
      In (d, p) history
      /\ c_uri c = uri d /\ c_version c = version d /\ c_position c = p
      /\ c_result c = Tree.isJsxTextContext createSourceFile (probeOf d p).

(** The answer without a cache. *)
Definition uncached (c : TextDocument * Position) : bool :=
  if Lang.isSupported (doc_languageId (fst c))
  then Tree.isJsxTextContext createSourceFile (probeOf (fst c) (snd c))
  else false.

End Answers.

End DetectorNotions.

Module MarkupNotions.
Import Js.

(** An open tag before the offset: a [<] at [l] before the offset, not
    followed by [/], with neither [<] nor [>] after it up to the offset, the
    offset included, and a [>] at [g] after the offset. *)
Definition openTagBefore (t : str) (offset l g : Z) : Prop :=
  0 <= l < offset /\ offset < g
  /\ charAt t l = Some LT /\ charAt t g = Some GT
  /\ (forall k, l < k <= offset ->
        charAt t k <> Some LT /\ charAt t k <> Some GT)
  /\ charAt t (l + 1) <> Some SLASH.

End MarkupNotions.

Module LiteralNotions.
Import Js.

(** The characters of a string literal the statement covers: not the quote
    that delimits it and no backslash. *)
Definition plainStringChar (q c : char) : bool :=
  negb (N.eqb c q || N.eqb c BACKSLASH).

(** The characters of a template literal the statement covers: no backtick
    and no backslash. *)
Definition plainTemplateChar (c : char) : bool :=
  negb (N.eqb c BACKTICK || N.eqb c BACKSLASH).

End LiteralNotions.

(** * Properties *)

Import Js Lang Ast Notions.

(** Case analysis on every test of the goal. *)
Ltac split_ifs :=
  repeat match goal with
         | |- context [if ?b then _ else _] => destruct b eqn:?
         end.


(** ** Lengths *)

Section TextLength.

Lemma len_cons x (r : str) : len (x :: r) = len r + 1.
Proof. unfold len. simpl List.length. lia. Qed.

Lemma len_nonneg (t : str) : 0 <= len t.
Proof. unfold len. lia. Qed.

Lemma len_app (a b : str) : len (a ++ b) = len a + len b.
Proof. unfold len. rewrite length_app. lia. Qed.

End TextLength.

(** ** Searching a text *)

Section SearchFacts.

Lemma drop_nil n : drop n [] = [].
Proof. now destruct n. Qed.

Lemma drop_cons_succ (k : Z) (x : char) (r : str) :
  0 <= k -> drop (Z.to_nat (k + 1)) (x :: r) = drop (Z.to_nat k) r.
Proof.
  intros H. replace (Z.to_nat (k + 1)) with (S (Z.to_nat k)) by lia.
  reflexivity.
Qed.

(** The head of [drop k t] is [t[k]]. *)
Lemma charAt_drop (t : str) : forall k,
  0 <= k ->
  charAt t k = match drop (Z.to_nat k) t with c :: _ => Some c | [] => None end.
Proof.
  unfold charAt. induction t as [|x r IH]; intros k Hk.
  - destruct (Z.ltb_spec k 0); [lia|]. rewrite drop_nil.
    now destruct (Z.to_nat k).
  - destruct (Z.ltb_spec k 0); [lia|].
    destruct (Z.eq_dec k 0) as [->|Hn]; [reflexivity|].
    replace k with ((k - 1) + 1) by lia.
    rewrite drop_cons_succ by lia.
    replace (Z.to_nat (k - 1 + 1)) with (S (Z.to_nat (k - 1))) by lia.
    simpl. specialize (IH (k - 1)).
    destruct (Z.ltb_spec (k - 1) 0); [lia|]. apply IH. lia.
Qed.

Lemma charAt_some_lt (t : str) k c : charAt t k = Some c -> 0 <= k < len t.
Proof.
  unfold charAt, len. destruct (Z.ltb_spec k 0); [discriminate|].
  intros Hc. assert (Hn : nth_error t (Z.to_nat k) <> None) by congruence.
  apply nth_error_Some in Hn. lia.
Qed.

Lemma eqc_true (a : option char) c : eqc a c = true <-> a = Some c.
Proof.
  destruct a as [x|]; simpl; [|split; discriminate].
  rewrite N.eqb_eq. split; congruence.
Qed.

(** A pattern that occurs at [k] begins with the character at [k]. *)
Lemma startsWith_head (c : char) (p t : str) (k : Z) :
  0 <= k ->
  startsWith (c :: p) (drop (Z.to_nat k) t) = true ->
  charAt t k = Some c.
Proof.
  intros Hk H. rewrite charAt_drop by exact Hk.
  destruct (drop (Z.to_nat k) t) as [|x u]; [discriminate|].
  simpl in H. apply andb_true_iff in H as [H _].
  apply N.eqb_eq in H. now subst.
Qed.

Lemma startsWith_single (c : char) (t : str) (k : Z) :
  0 <= k ->
  startsWith [c] (drop (Z.to_nat k) t) = eqc (charAt t k) c.
Proof.
  intros Hk. rewrite charAt_drop by exact Hk.
  destruct (drop (Z.to_nat k) t) as [|x u]; [reflexivity|].
  simpl. rewrite andb_true_r. apply N.eqb_sym.
Qed.

(** [lastIndexFrom]: what it returns occurs, in range. *)
Lemma lastIndexFrom_sound p : forall t base upto,
  lastIndexFrom p t base upto <> -1 ->
  base <= lastIndexFrom p t base upto <= upto
  /\ lastIndexFrom p t base upto <= base + len t
  /\ startsWith p
       (drop (Z.to_nat (lastIndexFrom p t base upto - base)) t) = true.
Proof.
  induction t as [|x r IH]; intros base upto; simpl.
  - destruct (Z.leb_spec base upto); simpl; [|congruence].
    destruct (startsWith p []) eqn:E; [|congruence].
    intros _. rewrite Z.sub_diag. simpl. unfold len. simpl. repeat split; lia || exact E.
  - destruct (Z.eqb_spec (lastIndexFrom p r (base + 1) upto) (-1)) as [E|E].
    + destruct (Z.leb_spec base upto); simpl; [|congruence].
      destruct (startsWith p (x :: r)) eqn:Es; [|congruence].
      intros _. rewrite Z.sub_diag, len_cons. pose proof (len_nonneg r).
      simpl. repeat split; lia || exact Es.
    + intros _. destruct (IH (base + 1) upto E) as (H1 & H2 & H3).
      rewrite len_cons. repeat split; try lia.
      replace (lastIndexFrom p r (base + 1) upto - base)
        with ((lastIndexFrom p r (base + 1) upto - (base + 1)) + 1) by lia.
      rewrite drop_cons_succ by lia. exact H3.
Qed.

(** [lastIndexFrom]: no occurrence in range is later. *)
Lemma lastIndexFrom_max p : forall t base upto k,
  0 <= base -> base <= k <= upto -> k <= base + len t ->
  startsWith p (drop (Z.to_nat (k - base)) t) = true ->
  k <= lastIndexFrom p t base upto /\ lastIndexFrom p t base upto <> -1.
Proof.
  induction t as [|x r IH]; intros base upto k Hb Hk Hl Hs; simpl.
  - unfold len in Hl. simpl in Hl. assert (k = base) by lia. subst k.
    rewrite drop_nil in Hs. rewrite Hs.
    destruct (Z.leb_spec base upto); simpl; lia.
  - rewrite len_cons in Hl.
    destruct (Z.eqb_spec (lastIndexFrom p r (base + 1) upto) (-1)) as [E|E].
    + destruct (Z.eq_dec k base) as [->|Hn].
      * rewrite Z.sub_diag in Hs. simpl in Hs. rewrite Hs.
        destruct (Z.leb_spec base upto); simpl; lia.
      * exfalso.
        replace (k - base) with ((k - (base + 1)) + 1) in Hs by lia.
        rewrite drop_cons_succ in Hs by lia.
        destruct (IH (base + 1) upto k) as [_ Hne]; try lia; try exact Hs.
    + split; [|exact E].
      destruct (Z.eq_dec k base) as [->|Hn].
      * destruct (lastIndexFrom_sound p r (base + 1) upto E). lia.
      * apply IH; try lia.
        replace (k - base) with ((k - (base + 1)) + 1) in Hs by lia.
        rewrite drop_cons_succ in Hs by lia. exact Hs.
Qed.

(** [indexFrom]: what it returns is at or after [from]. *)
Lemma indexFrom_sound p : forall t base from,
  indexFrom p t base from <> -1 ->
  from <= indexFrom p t base from /\ base <= indexFrom p t base from.
Proof.
  induction t as [|x r IH]; intros base from; simpl.
  - destruct (Z.leb_spec from base); simpl; [|congruence].
    destruct (startsWith p []); [lia|congruence].
  - destruct (Z.leb_spec from base); simpl.
    + destruct (startsWith p (x :: r)); [lia|].
      intros Hi. specialize (IH _ _ Hi). lia.
    + intros Hi. specialize (IH _ _ Hi). lia.
Qed.

End SearchFacts.


(** ** The loop of [isInJsxTextContent] *)

Section ScanFacts.
Import Heuristic.

Lemma closeTag_clamped t i p s : clamped s -> clamped (closeTag t i p s).
Proof.
  unfold clamped, closeTag. intros (Hb & Ht & Hd).
  split_ifs; simpl; repeat split; lia.
Qed.

Lemma tagRules_clamped t i s : clamped s -> clamped (fst (tagRules t i s)).
Proof.
  intros H. unfold tagRules.
  destruct (eqc (charAt t i) LT && isLikelyTagStart t i).
  - destruct H as (Hb & Ht & Hd). unfold clamped.
    split_ifs; simpl; repeat split; lia.
  - destruct (eqc (charAt t i) GT && inJsxTag s).
    + simpl. now apply closeTag_clamped.
    + destruct H as (Hb & Ht & Hd). unfold clamped.
      split_ifs; simpl; repeat split; lia.
Qed.

Lemma trackCodeBraces_clamped c s : clamped s -> clamped (trackCodeBraces c s).
Proof.
  unfold clamped, trackCodeBraces. intros (Hb & Ht & Hd).
  split_ifs; simpl; repeat split; lia.
Qed.

Lemma trackJsxBraces_clamped c s : clamped s -> clamped (trackJsxBraces c s).
Proof.
  unfold clamped, trackJsxBraces. intros (Hb & Ht & Hd).
  split_ifs; simpl; repeat split; lia.
Qed.

Lemma body_clamped t i s : clamped s -> clamped (fst (body t i s)).
Proof.
  intros H. unfold body.
  destruct ((inString s || inTemplate s)
            && eqc (if 0 <? i then charAt t (i - 1) else None) BACKSLASH);
    [exact H|].
  destruct (negb (inTemplate s) && negb (inString s)
            && (eqc (charAt t i) DQUOTE || eqc (charAt t i) SQUOTE));
    [exact H|].
  destruct (inString s && eqo (charAt t i) (stringChar s)); [exact H|].
  destruct (inString s); [exact H|].
  destruct (negb (inTemplate s) && eqc (charAt t i) BACKTICK).
  { destruct H as (Hb & Ht & Hd). unfold clamped. simpl. lia. }
  destruct (inTemplate s).
  { destruct H as (Hb & Ht & Hd). unfold clamped.
    split_ifs; simpl; repeat split; lia. }
  pose proof (trackJsxBraces_clamped (charAt t i) _
                (trackCodeBraces_clamped (charAt t i) _ H)) as H2.
  destruct (0 <? jsxBraceDepth _); [exact H2|].
  now apply tagRules_clamped.
Qed.

Lemma loop_clamped fuel : forall t offset i s,
  clamped s -> clamped (loop fuel t offset i s).
Proof.
  induction fuel as [|f IH]; intros t offset i s H; simpl; [exact H|].
  destruct (i <? offset); [|exact H].
  pose proof (body_clamped t i s H) as Hb.
  destruct (body t i s) as [s' i']. now apply IH.
Qed.

(** The index after a pass is at or beyond the index before it. *)
Lemma body_index t i s : i <= snd (body t i s) <= i + 2.
Proof.
  unfold body, tagRules.
  split_ifs; simpl; lia.
Qed.

(** Enough fuel: once the loop has left, more fuel changes nothing, and
    [offset - i] passes are enough to leave. *)
Lemma loop_fuel_enough fuel : forall t offset i s k,
  (Z.to_nat (offset - i) <= fuel)%nat ->
  loop (fuel + k) t offset i s = loop fuel t offset i s.
Proof.
  induction fuel as [|f IH]; intros t offset i s k Hf.
  - destruct k; simpl; [reflexivity|].
    destruct (Z.ltb_spec i offset); [lia|reflexivity].
  - simpl. destruct (Z.ltb_spec i offset); [|reflexivity].
    pose proof (body_index t i s) as Hi.
    destruct (body t i s) as [s' i']. simpl in Hi.
    apply IH. lia.
Qed.

Lemma closeTag_setBraceDepth t i p s d :
  closeTag t i p (setBraceDepth s d) = setBraceDepth (closeTag t i p s) d.
Proof. unfold closeTag. simpl. split_ifs; reflexivity. Qed.

Lemma tagRules_setBraceDepth t i s d :
  tagRules t i (setBraceDepth s d)
  = (setBraceDepth (fst (tagRules t i s)) d, snd (tagRules t i s)).
Proof.
  unfold tagRules. simpl.
  split_ifs; simpl; rewrite ?closeTag_setBraceDepth; reflexivity.
Qed.

Lemma trackJsxBraces_setBraceDepth c s d :
  trackJsxBraces c (setBraceDepth s d) = setBraceDepth (trackJsxBraces c s) d.
Proof. unfold trackJsxBraces. simpl. split_ifs; reflexivity. Qed.

Lemma trackCodeBraces_setBraceDepth c s d :
  exists d',
    trackCodeBraces c (setBraceDepth s d)
    = setBraceDepth (trackCodeBraces c s) d'.
Proof.
  unfold trackCodeBraces. simpl.
  split_ifs; eexists; unfold setBraceDepth; simpl; reflexivity.
Qed.

Lemma body_setBraceDepth t i s d :
  exists d',
    body t i (setBraceDepth s d)
    = (setBraceDepth (fst (body t i s)) d', snd (body t i s)).
Proof.
  unfold body.
  change (inString (setBraceDepth s d)) with (inString s).
  change (inTemplate (setBraceDepth s d)) with (inTemplate s).
  change (stringChar (setBraceDepth s d)) with (stringChar s).
  change (templateDepth (setBraceDepth s d)) with (templateDepth s).
  destruct ((inString s || inTemplate s)
            && eqc (if 0 <? i then charAt t (i - 1) else None) BACKSLASH);
    [now exists d|].
  destruct (negb (inTemplate s) && negb (inString s)
            && (eqc (charAt t i) DQUOTE || eqc (charAt t i) SQUOTE));
    [now exists d|].
  destruct (inString s && eqo (charAt t i) (stringChar s)); [now exists d|].
  destruct (inString s); [now exists d|].
  destruct (negb (inTemplate s) && eqc (charAt t i) BACKTICK);
    [now exists d|].
  destruct (inTemplate s).
  { exists d. split_ifs; reflexivity. }
  destruct (trackCodeBraces_setBraceDepth (charAt t i) s d) as [d' ->].
  exists d'. rewrite trackJsxBraces_setBraceDepth.
  change (jsxBraceDepth (setBraceDepth ?x d')) with (jsxBraceDepth x).
  destruct (0 <? jsxBraceDepth _); [reflexivity|].
  apply tagRules_setBraceDepth.
Qed.

Lemma sameButBraceDepth_set a b :
  sameButBraceDepth a b -> b = setBraceDepth a (braceDepth b).
Proof.
  unfold sameButBraceDepth. destruct a, b; unfold setBraceDepth; simpl.
  intros H. injection H as -> -> -> -> -> -> -> -> ->. reflexivity.
Qed.

Lemma body_sameButBraceDepth t i a b :
  sameButBraceDepth a b ->
  sameButBraceDepth (fst (body t i a)) (fst (body t i b))
  /\ snd (body t i a) = snd (body t i b).
Proof.
  intros H. rewrite (sameButBraceDepth_set a b H).
  destruct (body_setBraceDepth t i a (braceDepth b)) as [d' ->]. simpl.
  split; [|reflexivity].
  unfold sameButBraceDepth. now destruct (fst (body t i a)).
Qed.

Lemma loop_sameButBraceDepth fuel : forall t offset i a b,
  sameButBraceDepth a b ->
  sameButBraceDepth (loop fuel t offset i a) (loop fuel t offset i b).
Proof.
  induction fuel as [|f IH]; intros t offset i a b H; simpl; [exact H|].
  destruct (i <? offset); [|exact H].
  destruct (body_sameButBraceDepth t i a b H) as [Hs Hi].
  destruct (body t i a) as [a' ia], (body t i b) as [b' ib].
  simpl in Hs, Hi. subst ib. now apply IH.
Qed.

Lemma verdict_sameButBraceDepth a b :
  sameButBraceDepth a b -> verdict a = verdict b.
Proof.
  unfold sameButBraceDepth, verdict. destruct a, b; simpl.
  intros H. injection H as -> -> -> -> -> -> -> -> ->. reflexivity.
Qed.

End ScanFacts.

(** ** Running the loop over a region of the text *)

Section RunFacts.
Import Heuristic.

Lemma scan_run t offset : scan t offset = run t offset 0 initial.
Proof. unfold scan, run. now rewrite Z.sub_0_r. Qed.

Lemma run_done t offset i s : offset <= i -> run t offset i s = s.
Proof.
  intros H. unfold run. replace (Z.to_nat (offset - i)) with O by lia.
  reflexivity.
Qed.

Lemma run_step t offset i s :
  i < offset ->
  run t offset i s
  = run t offset (snd (body t i s) + 1) (fst (body t i s)).
Proof.
  intros H. unfold run.
  replace (Z.to_nat (offset - i)) with (S (Z.to_nat (offset - i - 1))) by lia.
  simpl. destruct (Z.ltb_spec i offset); [|lia].
  pose proof (body_index t i s) as Hi.
  destruct (body t i s) as [s' i']. simpl in *.
  set (f := Z.to_nat (offset - (i' + 1))).
  replace (Z.to_nat (offset - i - 1))
    with (f + (Z.to_nat (offset - i - 1) - f))%nat by (unfold f; lia).
  apply loop_fuel_enough. unfold f. lia.
Qed.

(** A property that every pass from [lo] on keeps holds when the loop
    leaves. *)
Lemma loop_invariant (P : ScanState -> Prop) t offset lo :
  (forall k s, lo <= k < offset -> P s -> P (fst (body t k s))) ->
  forall fuel i s, lo <= i -> P s -> P (loop fuel t offset i s).
Proof.
  intros Hstep fuel. induction fuel as [|f IH]; intros i s Hi HP; simpl.
  - exact HP.
  - destruct (Z.ltb_spec i offset); [|exact HP].
    pose proof (body_index t i s) as Hb.
    pose proof (Hstep i s ltac:(lia) HP) as HP'.
    destruct (body t i s) as [s' i']. simpl in *.
    apply IH; [lia|exact HP'].
Qed.

Lemma run_invariant (P : ScanState -> Prop) t offset lo :
  (forall k s, lo <= k < offset -> P s -> P (fst (body t k s))) ->
  forall i s, lo <= i -> P s -> P (run t offset i s).
Proof. intros Hstep i s. unfold run. now apply loop_invariant. Qed.

End RunFacts.

(** ** What one pass does in a tag and in content *)

Section BodyFacts.
Import Heuristic.

Lemma loopAt_loop fuel : forall t offset i s,
  fst (loopAt fuel t offset i s) = loop fuel t offset i s.
Proof.
  induction fuel as [|f IH]; intros t off i s; simpl; [reflexivity|].
  destruct (i <? off); [|reflexivity].
  destruct (body t i s). apply IH.
Qed.

(** With enough fuel the loop leaves at or beyond [offset]. *)
Lemma loopAt_leaves fuel : forall t offset i s,
  (Z.to_nat (offset - i) <= fuel)%nat ->
  offset <= snd (loopAt fuel t offset i s).
Proof.
  induction fuel as [|f IH]; intros t offset i s Hf; simpl; [lia|].
  destruct (Z.ltb_spec i offset); [|simpl; lia].
  pose proof (body_index t i s) as Hb.
  destruct (body t i s) as [s' i']. simpl in Hb. apply IH. lia.
Qed.

(** An invariant on index and state that every pass keeps holds when the
    loop leaves. *)
Lemma loopAt_invariant (P : Z -> ScanState -> Prop) t offset :
  (forall k s, k < offset -> P k s ->
               P (snd (body t k s) + 1) (fst (body t k s))) ->
  forall fuel i s, P i s ->
    P (snd (loopAt fuel t offset i s)) (fst (loopAt fuel t offset i s)).
Proof.
  intros Hstep fuel. induction fuel as [|f IH]; intros i s HP; simpl.
  - exact HP.
  - destruct (Z.ltb_spec i offset); [|exact HP].
    pose proof (Hstep i s ltac:(lia) HP) as HP'.
    destruct (body t i s) as [s' i']. simpl in *. now apply IH.
Qed.

(** The state the loop leaves in, with the index it leaves at. *)
Lemma run_invariant_at (P : Z -> ScanState -> Prop) t offset i s :
  (forall k s, k < offset -> P k s ->
               P (snd (body t k s) + 1) (fst (body t k s))) ->
  P i s ->
  exists k, offset <= k /\ P k (run t offset i s).
Proof.
  intros Hstep HP. unfold run. rewrite <- loopAt_loop.
  exists (snd (loopAt (Z.to_nat (offset - i)) t offset i s)). split.
  - apply loopAt_leaves. lia.
  - now apply loopAt_invariant.
Qed.

Lemma eqc_false_of (a : option char) (c d : char) :
  a = Some d -> N.eqb d c = false -> eqc a c = false.
Proof. intros -> H. exact H. Qed.

(** In content, a character that is neither [<] nor [{] changes nothing the
    verdict reads. *)
Lemma body_content_inert t k s c :
  inContent s -> charAt t k = Some c -> plainContentChar c = true ->
  inContent (fst (body t k s)) /\ snd (body t k s) = k.
Proof.
  intros (Hc & Hb & Ht) Hk Hp. unfold plainContentChar in Hp.
  apply negb_true_iff, orb_false_iff in Hp as [Hlt Hlb].
  destruct s as [iS sC iT tD bD jB jT iJ lC iC]. simpl in Hc, Hb, Ht.
  subst iC jB iJ. unfold inContent.
  unfold body, trackCodeBraces, trackJsxBraces, tagRules. simpl.
  rewrite Hk. simpl. rewrite Hlt, Hlb. simpl.
  split_ifs; simpl in *; rewrite ?andb_false_r in *; try discriminate;
    repeat split; try reflexivity; try lia.
Qed.

(** Inside a tag, a character other than [>] leaves the scanner inside the
    tag. *)
Lemma body_tag_keeps t k s :
  inJsxTag s = true -> eqc (charAt t k) GT = false ->
  inJsxTag (fst (body t k s)) = true.
Proof.
  intros Ht Hg.
  destruct s as [iS sC iT tD bD jB jT iJ lC iC]. simpl in Ht. subst iJ.
  unfold body, trackCodeBraces, trackJsxBraces, tagRules. simpl.
  rewrite Hg. simpl.
  split_ifs; simpl in *; rewrite ?andb_false_r in *; try discriminate;
    reflexivity.
Qed.

(** Inside a tag and outside literals, a character of [tagBodyChar] changes
    nothing. *)
Lemma body_tagcode_inert t k s c :
  inTagCode s -> charAt t k = Some c -> tagBodyChar c = true ->
  body t k s = (s, k).
Proof.
  intros (Ht & Hs & Hm & Hb) Hk Hc. unfold tagBodyChar in Hc.
  apply negb_true_iff in Hc. repeat (apply orb_false_iff in Hc as [Hc ?]).
  destruct s as [iS sC iT tD bD jB jT iJ lC iC]. simpl in Ht, Hs, Hm, Hb.
  subst. unfold body, trackCodeBraces, trackJsxBraces, tagRules. simpl.
  rewrite Hk. simpl.
  repeat match goal with H : N.eqb _ _ = false |- _ => rewrite H; clear H end.
  destruct iC; simpl; reflexivity.
Qed.

(** A [<] that passes the tag-start test and is followed by neither [/] nor
    [>] puts the scanner inside a tag. *)
Lemma body_open t k s c :
  neutral s -> charAt t k = Some LT -> isLikelyTagStart t k = true ->
  charAt t (k + 1) = Some c -> N.eqb c SLASH = false -> N.eqb c GT = false ->
  body t k s
  = (setTag s (jsxTagDepth s) true (lastJsxTagClose s) (inJsxContent s), k).
Proof.
  intros (Hs & Hm & Ht & Hb) Hk Hl Hn Hsl Hgt.
  destruct s as [iS sC iT tD bD jB jT iJ lC iC]. simpl in Ht, Hs, Hm, Hb.
  subst. unfold body, trackCodeBraces, trackJsxBraces, tagRules. simpl.
  rewrite Hk, Hl, Hn. simpl. rewrite Hsl, Hgt.
  destruct iC; reflexivity.
Qed.

(** The [>] that ends a tag, read outside literals. *)
Lemma body_close t k s :
  inTagCode s -> charAt t k = Some GT ->
  body t k s
  = (closeTag t k (if 0 <? k then charAt t (k - 1) else None) s, k).
Proof.
  intros (Ht & Hs & Hm & Hb) Hk.
  destruct s as [iS sC iT tD bD jB jT iJ lC iC]. simpl in Ht, Hs, Hm, Hb.
  subst. unfold body, trackCodeBraces, trackJsxBraces, tagRules. simpl.
  rewrite Hk. simpl. destruct iC; reflexivity.
Qed.

Lemma skipBack_upper cls t fuel : forall j, skipBack cls t fuel j <= j.
Proof.
  induction fuel as [|f IH]; intros j; simpl; [lia|].
  destruct (_ && _); [|lia]. specialize (IH (j - 1)). lia.
Qed.

(** The backward scan stops at or after an index outside the class. *)
Lemma skipBack_lower cls t p fuel : forall j,
  testClass cls (charAt t p) = false -> p <= j ->
  p <= skipBack cls t fuel j.
Proof.
  intros j Hp. revert j. induction fuel as [|f IH]; intros j Hj; simpl;
    [exact Hj|].
  destruct (Z.leb_spec 0 j); simpl; [|exact Hj].
  destruct (testClass cls (charAt t j)) eqn:E; [|exact Hj].
  apply IH. destruct (Z.eq_dec p j) as [->|]; [congruence|lia].
Qed.

Lemma skipBackward_bounds cls t p j :
  testClass cls (charAt t p) = false -> p <= j ->
  p <= skipBackward cls t j <= j.
Proof.
  intros Hp Hj. unfold skipBackward. split.
  - now apply skipBack_lower.
  - apply skipBack_upper.
Qed.

(** A tag that begins with [<] at [p], with no [/] up to its [>] at [g], is
    an opening tag. *)
Lemma closeTag_opening t p g s :
  0 <= p < g -> charAt t p = Some LT ->
  (forall k, p < k < g -> eqc (charAt t k) SLASH = false) ->
  closeTag t g (if 0 <? g then charAt t (g - 1) else None) s
  = setTag s (jsxTagDepth s + 1) false g true.
Proof.
  intros Hpg Hp Hbody. unfold closeTag.
  assert (Hprev : eqc (if 0 <? g then charAt t (g - 1) else None) SLASH
                  = false).
  { destruct (Z.ltb_spec 0 g); [|reflexivity].
    destruct (Z.eq_dec (g - 1) p) as [->|Hn]; [now rewrite Hp|].
    apply Hbody. lia. }
  rewrite Hprev.
  assert (Hn : testClass tagNameChar (charAt t p) = false) by now rewrite Hp.
  assert (Hw : testClass isSpace (charAt t p) = false) by now rewrite Hp.
  pose proof (skipBackward_bounds tagNameChar t p (g - 1) Hn ltac:(lia)) as H1.
  set (j1 := skipBackward tagNameChar t (g - 1)) in *.
  pose proof (skipBackward_bounds isSpace t p j1 Hw ltac:(lia)) as H2.
  set (j := skipBackward isSpace t j1) in *.
  assert (Hj : eqc (charAt t j) SLASH = false).
  { destruct (Z.eq_dec j p) as [->|Hne]; [now rewrite Hp|].
    apply Hbody. lia. }
  rewrite Hj. rewrite andb_false_r. reflexivity.
Qed.

End BodyFacts.

(** ** Reading a text given as a concatenation *)

Section TextShape.

Lemma charAt_nil k : charAt [] k = None.
Proof.
  unfold charAt. destruct (k <? 0); [reflexivity|].
  now destruct (Z.to_nat k).
Qed.

Lemma charAt_cons_zero (c : char) (t : str) : charAt (c :: t) 0 = Some c.
Proof. reflexivity. Qed.

Lemma charAt_cons_succ (c : char) (t : str) k :
  0 < k -> charAt (c :: t) k = charAt t (k - 1).
Proof.
  intros H. unfold charAt.
  destruct (Z.ltb_spec k 0); [lia|]. destruct (Z.ltb_spec (k - 1) 0); [lia|].
  replace (Z.to_nat k) with (S (Z.to_nat (k - 1))) by lia. reflexivity.
Qed.

Lemma charAt_app_l (a b : str) k :
  k < len a -> charAt (a ++ b) k = charAt a k.
Proof.
  intros H. unfold charAt. destruct (Z.ltb_spec k 0); [reflexivity|].
  apply nth_error_app1. unfold len in H. lia.
Qed.

Lemma charAt_app_r (a b : str) k :
  len a <= k -> charAt (a ++ b) k = charAt b (k - len a).
Proof.
  intros H. pose proof (len_nonneg a). unfold charAt.
  destruct (Z.ltb_spec k 0); [lia|].
  destruct (Z.ltb_spec (k - len a) 0); [lia|].
  rewrite nth_error_app2 by (unfold len in H; lia).
  f_equal. unfold len. lia.
Qed.

(** Every character of a list that passes a test passes it at its index. *)
Lemma charAt_forallb (f : char -> bool) (l : str) k :
  forallb f l = true -> 0 <= k < len l ->
  exists c, charAt l k = Some c /\ f c = true.
Proof.
  intros Hf Hk. unfold charAt. destruct (Z.ltb_spec k 0); [lia|].
  destruct (nth_error l (Z.to_nat k)) as [c|] eqn:E.
  - exists c. split; [reflexivity|].
    rewrite forallb_forall in Hf. apply Hf. eapply nth_error_In, E.
  - apply nth_error_None in E. unfold len in Hk. lia.
Qed.

End TextShape.

(** ** Regions of the text *)

Section Regions.
Import Heuristic.

(** A pass moves on by one, or skips the [>] of [<>] or the [/>] of
    [</>]. *)
Lemma body_skip t i s :
  snd (body t i s) = i
  \/ (snd (body t i s) = i + 1 /\ charAt t (i + 1) = Some GT)
  \/ (snd (body t i s) = i + 2 /\ charAt t (i + 1) = Some SLASH
      /\ charAt t (i + 2) = Some GT).
Proof.
  unfold body, tagRules.
  split_ifs; simpl; auto;
    repeat match goal with
           | H : _ && _ = true |- _ => apply andb_true_iff in H as [? ?]
           | H : eqc _ _ = true |- _ => apply eqc_true in H
           end; auto.
Qed.

(** The loop passes through every index that holds neither [>] nor [/]. *)
Lemma loop_through t offset p fuel : forall i s,
  eqc (charAt t p) GT = false -> eqc (charAt t p) SLASH = false ->
  i <= p <= offset ->
  (Z.to_nat (offset - i) <= fuel)%nat ->
  loop fuel t offset i s = run t offset p (run t p i s).
Proof.
  intros i s Hg Hs. revert i s.
  induction fuel as [|f IH]; intros i s Hi Hf.
  - assert (i = p) by lia. subst. rewrite !run_done by lia. reflexivity.
  - destruct (Z.eq_dec i p) as [->|Hne].
    + rewrite (run_done t p p) by lia. unfold run.
      replace (S f) with (Z.to_nat (offset - p)
                          + (S f - Z.to_nat (offset - p)))%nat by lia.
      now rewrite loop_fuel_enough.
    + rewrite (run_step t p i s) by lia. simpl.
      destruct (Z.ltb_spec i offset); [|lia].
      pose proof (body_skip t i s) as Hk.
      destruct (body t i s) as [s' i']. simpl in *.
      apply IH; [|lia].
      destruct Hk as [->|[[-> Hk]|[-> [Hk1 Hk2]]]]; try lia.
      * destruct (Z.eq_dec (i + 1) p) as [<-|]; [|lia].
        rewrite Hk in Hg. discriminate.
      * destruct (Z.eq_dec (i + 1) p) as [<-|].
        { rewrite Hk1 in Hs. discriminate. }
        destruct (Z.eq_dec (i + 2) p) as [<-|]; [|lia].
        rewrite Hk2 in Hg. discriminate.
Qed.

Lemma scan_through t offset p :
  eqc (charAt t p) GT = false -> eqc (charAt t p) SLASH = false ->
  0 <= p <= offset ->
  scan t offset = run t offset p (scan t p).
Proof.
  intros Hg Hs Hp. rewrite (scan_run t p). unfold scan.
  apply loop_through; try assumption; lia.
Qed.

Lemma inContent_verdict s : inContent s -> verdict s = true.
Proof.
  intros (Hc & Hb & Ht). unfold verdict. now rewrite Hc, Hb, Ht.
Qed.

Lemma inJsxTag_verdict s : inJsxTag s = true -> verdict s = false.
Proof.
  intros Ht. unfold verdict. rewrite Ht. now rewrite andb_false_r.
Qed.

(** From an accepted [<] at [p] in code, through a tag body of [tagBodyChar]
    up to its [>] at [g], and on through plain content up to [e]: the loop
    leaves in content. *)
Lemma element_region t p g e s :
  0 <= p -> p + 1 < g ->
  neutral s -> charAt t p = Some LT -> isLikelyTagStart t p = true ->
  (forall k, p < k < g ->
     exists c, charAt t k = Some c /\ tagBodyChar c = true) ->
  charAt t g = Some GT ->
  (forall k, g < k < e ->
     exists c, charAt t k = Some c /\ plainContentChar c = true) ->
  forall offset, g < offset <= e -> inContent (run t offset p s).
Proof.
  intros Hp Hpg Hn Hlt Hlikely Hbody Hgt Hcontent off Hoff.
  set (P := fun (k : Z) (st : ScanState) =>
              (k = p /\ st = s)
              \/ (p < k <= g /\ inTagCode st)
              \/ (g < k /\ inContent st)).
  destruct (run_invariant_at P t off p s) as (k & Hk & HP).
  - intros k st Hko [[-> ->]|[[Hk Hst]|[Hk Hst]]].
    + destruct (Hbody (p + 1) ltac:(lia)) as (c & Hc & Hcb).
      unfold tagBodyChar in Hcb. apply negb_true_iff in Hcb.
      repeat (apply orb_false_iff in Hcb as [Hcb ?]).
      rewrite (body_open t p s c Hn Hlt Hlikely Hc) by assumption.
      simpl. right. left. split; [lia|].
      destruct Hn as (Hs & Hm & Ht & Hb). unfold inTagCode. simpl.
      now repeat split.
    + destruct (Z.eq_dec k g) as [->|Hne].
      * rewrite (body_close t g st Hst Hgt).
        rewrite (closeTag_opening t p g st ltac:(lia) Hlt).
        { simpl. right. right. split; [lia|].
          destruct Hst as (_ & _ & _ & Hb). unfold inContent. simpl.
          now repeat split. }
        intros j Hj. destruct (Hbody j Hj) as (c & Hc & Hcb).
        unfold tagBodyChar in Hcb. apply negb_true_iff in Hcb.
        repeat (apply orb_false_iff in Hcb as [Hcb ?]).
        rewrite Hc. assumption.
      * destruct (Hbody k ltac:(lia)) as (c & Hc & Hcb).
        rewrite (body_tagcode_inert t k st c Hst Hc Hcb). simpl.
        right. left. split; [lia|exact Hst].
    + destruct (Hcontent k ltac:(lia)) as (c & Hc & Hcb).
      destruct (body_content_inert t k st c Hst Hc Hcb) as [Hin Hidx].
      rewrite Hidx. right. right. split; [lia|exact Hin].
  - left. now split.
  - destruct HP as [[-> _]|[[Hkg _]|[_ H]]]; [lia|lia|exact H].
Qed.

(** From an accepted [<] at [p] in code, up to the next [>] at or after [g],
    the loop leaves inside the tag. *)
Lemma tag_region t p g s c :
  neutral s -> charAt t p = Some LT -> isLikelyTagStart t p = true ->
  charAt t (p + 1) = Some c -> N.eqb c SLASH = false -> N.eqb c GT = false ->
  (forall k, p < k < g -> eqc (charAt t k) GT = false) ->
  forall offset, p < offset <= g -> inJsxTag (run t offset p s) = true.
Proof.
  intros Hn Hlt Hlikely Hc Hsl Hgt Hbody off Hoff.
  rewrite run_step by lia.
  rewrite (body_open t p s c Hn Hlt Hlikely Hc Hsl Hgt). simpl.
  apply (run_invariant (fun st => inJsxTag st = true) t off (p + 1));
    [|lia|reflexivity].
  intros k st Hk Hst. apply body_tag_keeps; [exact Hst|].
  apply Hbody. lia.
Qed.

End Regions.

(** ** Depth counters *)

(** Claim C7, as stated, fails: the code-level brace depth has no floor.
    Scanning the one-character text [}] up to offset 1 leaves [braceDepth]
    at [-1]. *)
Lemma braceDepth_goes_negative :
  Heuristic.braceDepth (Heuristic.scan (lit "}") 1) = -1.
Proof. reflexivity. Qed.

(** Claim C7, amended: for every text, offset and number of passes of the
    loop of [isInJsxTextContent], the markup-expression brace depth and the
    tag-nesting depth (and the template depth) are never negative after a
    pass; the code-level brace depth, which has no floor, is never read: two
    scans that differ only in it go through the same passes and end in the
    same verdict. *)
Theorem depth_counters_clamped :
  forall (t : str) (offset : Z) (passes : nat),
    let s := Heuristic.loop passes t offset 0 Heuristic.initial in
    0 <= Heuristic.jsxBraceDepth s
    /\ 0 <= Heuristic.jsxTagDepth s
    /\ 0 <= Heuristic.templateDepth s
    /\ forall d : Z,
         Heuristic.verdict
           (Heuristic.loop passes t offset 0
              (Heuristic.setBraceDepth Heuristic.initial d))
         = Heuristic.verdict s.
Proof.
  intros t offset passes s.
  assert (Hc : clamped s).
  { apply loop_clamped. unfold clamped. simpl. lia. }
  destruct Hc as (Hb & Ht & Hd). repeat split; try assumption.
  intros d. apply verdict_sameButBraceDepth, loop_sameButBraceDepth.
  reflexivity.
Qed.

(** ** The syntax-tree classifier at the edges *)

Section TreeEdges.
Import Tree.

Variable createSourceFile : string -> str -> ScriptKind -> Node.

Lemma findDeepestNode_none_at_end node offset parents :
  getEnd node <= offset -> findDeepestNode node offset parents = None.
Proof.
  destruct node as [k s cs fs]. unfold getEnd. simpl. intros H.
  destruct (offset <? pos s); simpl; [reflexivity|].
  destruct (Z.leb_spec (end_ s) offset); [reflexivity|lia].
Qed.

Lemma isJsxTextContext_out_of_range probe :
  offset probe < 0 \/ len (text probe) < offset probe ->
  isJsxTextContext createSourceFile probe = false.
Proof.
  intros H. unfold isJsxTextContext, Markup.isMarkupTextContext.
  assert (Hr : (offset probe <? 0) || (len (text probe) <? offset probe)
               = true).
  { apply orb_true_iff. destruct H; [left|right]; now apply Z.ltb_lt. }
  rewrite Hr. now destruct (has MARKUP_LANGUAGES (languageId probe)).
Qed.

Lemma isMarkupTextContext_out_of_range probe :
  offset probe < 0 \/ len (text probe) < offset probe ->
  Markup.isMarkupTextContext probe = false.
Proof.
  intros H. unfold Markup.isMarkupTextContext.
  assert (Hr : (offset probe <? 0) || (len (text probe) <? offset probe)
               = true).
  { apply orb_true_iff. destruct H; [left|right]; now apply Z.ltb_lt. }
  now rewrite Hr.
Qed.

Lemma isJsxTextContext_at_root_end probe :
  has MARKUP_LANGUAGES (languageId probe) = false ->
  getEnd (createSourceFile (fileName probe) (text probe)
                           (toScriptKind (languageId probe)))
  <= offset probe ->
  isJsxTextContext createSourceFile probe = false.
Proof.
  intros Hm He. unfold isJsxTextContext. rewrite Hm.
  destruct (_ || _); [reflexivity|].
  destruct (negb _); [reflexivity|].
  now rewrite findDeepestNode_none_at_end.
Qed.

End TreeEdges.

(** Claim C10: when the root node the parser returns spans the text, as the
    library's source file node does, [isJsxTextContext] answers false at the
    offset equal to the length of the text for every language outside the
    markup set, because [findDeepestNode] takes spans as half-open; the markup
    path answers true at the end of a text that ends with a closed tag. *)
Theorem end_of_document_is_false :
  forall (createSourceFile : string -> str -> ScriptKind -> Node)
         (probe : JsxContextProbe),
    (forall f t k, getEnd (createSourceFile f t k) = len t) ->
    has MARKUP_LANGUAGES (languageId probe) = false ->
    offset probe = len (text probe) ->
    Tree.findDeepestNode
      (createSourceFile (fileName probe) (text probe)
                        (Tree.toScriptKind (languageId probe)))
      (offset probe) [] = None
    /\ Tree.isJsxTextContext createSourceFile probe = false
    /\ Tree.isJsxTextContext createSourceFile
         (mkProbe "html" (fileName probe) (lit "<div></div>") 11) = true.
Proof.
  intros csf probe Hend Hm Ho. repeat split.
  - apply findDeepestNode_none_at_end. rewrite Hend. lia.
  - apply isJsxTextContext_at_root_end; [exact Hm|]. rewrite Hend. lia.
Qed.

(** The hypotheses of [end_of_document_is_false] hold of a parser that
    returns a bare root for the text [<b>x</b>] read as TSX. *)
Lemma end_of_document_is_false_witness :
  let csf := fun (_ : string) (t : str) (_ : ScriptKind) =>
               mkNode OtherKind (mkSpan 0 0 (len t)) [] [] in
  let probe := mkProbe "typescriptreact" "virtual.tsx" (lit "<b>x</b>") 8 in
  Tree.isJsxTextContext csf probe = false.
Proof.
  intros csf probe.
  apply (end_of_document_is_false csf probe); reflexivity.
Defined.

(** ** Fail-safe defaults *)

(** [JsxContextDetector.isInsideJsxText] answers false for a language
    outside both sets and leaves its state as it was (no classifier run, no
    clock read, no cache write); [isJsxTextContext] and the markup scanner
    answer false for an offset below 0 or beyond the length of the text,
    whatever the language; and the empty text at offset 0 is classified
    false by the markup scanner, by the heuristic scanner and, when the root
    node spans the text, by the syntax-tree classifier. *)
Theorem fail_safe_defaults :
  forall (createSourceFile : string -> str -> ScriptKind -> Node)
         (clock : nat -> Z) (ttl : option Z)
         (s : Detector.State) (document : Detector.TextDocument)
         (position : Detector.Position) (probe : JsxContextProbe),
    (isSupported (Detector.doc_languageId document) = false ->
     Detector.isInsideJsxText createSourceFile clock ttl s document position
     = (false, s))
    /\ (offset probe < 0 \/ len (text probe) < offset probe ->
        Tree.isJsxTextContext createSourceFile probe = false
        /\ Markup.isMarkupTextContext probe = false)
    /\ (text probe = [] -> offset probe = 0 ->
        Markup.isMarkupTextContext probe = false
        /\ Heuristic.isInJsxTextContent (text probe) (offset probe) = false
        /\ ((forall f t k, getEnd (createSourceFile f t k) = len t) ->
            Tree.isJsxTextContext createSourceFile probe = false)).
Proof.
  intros csf clock ttl s document position probe. split; [|split].
  - intros H. unfold Detector.isInsideJsxText. now rewrite H.
  - intros H. split.
    + now apply isJsxTextContext_out_of_range.
    + now apply isMarkupTextContext_out_of_range.
  - intros Ht Ho. split; [|split].
    + destruct probe as [l f t o]; simpl in *. subst. reflexivity.
    + destruct probe as [l f t o]; simpl in *. subst. reflexivity.
    + intros Hend.
      destruct (has MARKUP_LANGUAGES (languageId probe)) eqn:Hm.
      * unfold Tree.isJsxTextContext. rewrite Hm.
        destruct probe as [l f t o]; simpl in *. subst. reflexivity.
      * apply isJsxTextContext_at_root_end; [exact Hm|].
        rewrite Hend, Ht, Ho. unfold len. simpl. lia.
Qed.

(** The hypotheses of [fail_safe_defaults] hold: a plain-text document, an
    offset beyond the end, and the empty text. *)
Lemma fail_safe_defaults_witness :
  let csf := fun (_ : string) (t : str) (_ : ScriptKind) =>
               mkNode OtherKind (mkSpan 0 0 (len t)) [] [] in
  let clock := fun _ : nat => 0 in
  let doc := Detector.mkDocument "plaintext" "a.txt" "file:///a.txt" 1
               (lit "<div>x</div>") (fun _ => 5) in
  let pos := Detector.mkPosition 0 5 in
  Detector.isInsideJsxText csf clock None (Detector.new) doc pos
  = (false, Detector.new)
  /\ Tree.isJsxTextContext csf (mkProbe "typescriptreact" "a.tsx" (lit "<b>x</b>") 9)
     = false
  /\ Tree.isJsxTextContext csf (mkProbe "javascript" "a.js" [] 0) = false.
Proof.
  intros csf clock doc pos.
  destruct (fail_safe_defaults csf clock None Detector.new doc pos
              (mkProbe "typescriptreact" "a.tsx" (lit "<b>x</b>") 9))
    as (Hlang & Hrange & _).
  destruct (fail_safe_defaults csf clock None Detector.new doc pos
              (mkProbe "javascript" "a.js" [] 0))
    as (_ & _ & Hempty).
  split; [|split].
  - apply Hlang. reflexivity.
  - apply Hrange. right. reflexivity.
  - apply Hempty; reflexivity.
Defined.

Section UnsupportedLanguage.
Import Tree.

Lemma toScriptKind_unsupported l :
  isSupported l = false -> toScriptKind l = JSX.
Proof.
  unfold isSupported, has, JSX_LANGUAGES. intros H.
  apply orb_false_iff in H as [H _]. simpl in H.
  repeat (apply orb_false_iff in H as [? H]).
  unfold toScriptKind.
  repeat match goal with
         | E : String.eqb l ?x = false |- context [String.eqb l ?x] =>
             rewrite E
         end.
  reflexivity.
Qed.

Lemma isJsxTextContext_unsupported csf l f t offset :
  isSupported l = false ->
  isJsxTextContext csf (mkProbe l f t offset)
  = isJsxTextContext csf (mkProbe "javascriptreact" f t offset).
Proof.
  intros H. pose proof (toScriptKind_unsupported l H) as Hk.
  unfold isSupported in H. apply orb_false_iff in H as [_ Hm].
  unfold isJsxTextContext.
  cbn [Lang.languageId Lang.fileName Lang.text Lang.offset].
  rewrite Hm, Hk. reflexivity.
Qed.

End UnsupportedLanguage.

(** Claim C8 fails on the code for [isJsxTextContext].  The function makes
    no test for a language outside both sets: [toScriptKind] gives every such
    identifier the JSX script kind, and the function answers as it does for
    [javascriptreact], whatever the parser returns.  For the text [<b>x</b>]
    at offset 4 with the language [plaintext], on the tree of the element,
    it answers true, where [JsxContextDetector.isInsideJsxText] answers false
    for a document with that language, text and offset and runs no
    classifier. *)
Theorem unsupported_language_is_classified :
  (forall (createSourceFile : string -> str -> ScriptKind -> Node)
          (l f : string) (t : str) (offset : Z),
     isSupported l = false ->
     Tree.toScriptKind l = JSX
     /\ Tree.isJsxTextContext createSourceFile (mkProbe l f t offset)
        = Tree.isJsxTextContext createSourceFile
            (mkProbe "javascriptreact" f t offset))
  /\ Tree.isJsxTextContext (fun _ _ _ => ParseModel.elementFile 1 1)
       (mkProbe "plaintext" "virtual.tsx" (lit "<b>x</b>") 4) = true
  /\ (forall (createSourceFile : string -> str -> ScriptKind -> Node)
             (clock : nat -> Z) (ttl : option Z) (s : Detector.State),
        Detector.isInsideJsxText createSourceFile clock ttl s
          (Detector.mkDocument "plaintext" "virtual.tsx"
             "file:///virtual.tsx" 1 (lit "<b>x</b>") (fun _ => 4))
          (Detector.mkPosition 0 4)
        = (false, s)).
Proof.
  split; [|split].
  - intros csf l f t off H. split.
    + now apply toScriptKind_unsupported.
    + now apply isJsxTextContext_unsupported.
  - reflexivity.
  - intros csf clock ttl s. reflexivity.
Qed.

(** The hypothesis of [unsupported_language_is_classified] holds of the
    language [plaintext]. *)
Lemma unsupported_language_is_classified_witness :
  Tree.toScriptKind "plaintext" = JSX
  /\ Tree.isJsxTextContext (fun _ _ _ => ParseModel.elementFile 1 1)
       (mkProbe "plaintext" "virtual.tsx" (lit "<b>x</b>") 3)
     = Tree.isJsxTextContext (fun _ _ _ => ParseModel.elementFile 1 1)
         (mkProbe "javascriptreact" "virtual.tsx" (lit "<b>x</b>") 3).
Proof.
  apply (proj1 unsupported_language_is_classified
               (fun _ _ _ => ParseModel.elementFile 1 1)
               "plaintext"%string "virtual.tsx"%string (lit "<b>x</b>") 3).
  reflexivity.
Defined.

(** ** The cache of the detector *)

Section CacheFacts.
Import Detector.

Variable createSourceFile : string -> str -> ScriptKind -> Node.
Variable clock : nat -> Z.
Variable ttl : option Z.

Local Abbreviation call := (isInsideJsxText createSourceFile clock ttl).
Local Abbreviation TTL := (cacheTtlMs ttl).
Local Abbreviation classify := (Tree.isJsxTextContext createSourceFile).

Lemma jsx_language_dispatch l :
  has JSX_LANGUAGES l = true ->
  isSupported l = true /\ has MARKUP_LANGUAGES l = false.
Proof.
  unfold isSupported, has, JSX_LANGUAGES, MARKUP_LANGUAGES. simpl.
  destruct (String.eqb_spec l "javascriptreact") as [->|_]; [now split|].
  destruct (String.eqb_spec l "typescriptreact") as [->|_]; [now split|].
  destruct (String.eqb_spec l "javascript") as [->|_]; [now split|].
  destruct (String.eqb_spec l "typescript") as [->|_]; [now split|].
  discriminate.
Qed.

Lemma cacheTtlMs_nonneg : 0 <= TTL.
Proof. unfold cacheTtlMs. lia. Qed.

(** A hit: the stored verdict, one clock read, no classifier run. *)
Lemma cache_hit s document position c :
  has JSX_LANGUAGES (doc_languageId document) = true ->
  cache s = Some c ->
  keyed c document position ->
  TTL <> 0 ->
  clock (clockCalls s) - c_timestamp c < TTL ->
  call s document position
  = (c_result c, mkState (cache s) (S (clockCalls s)) (runs s)).
Proof.
  intros Hl Hc (Hu & Hv & Hp) Hz Hage.
  destruct (jsx_language_dispatch _ Hl) as [Hs Hm].
  unfold isInsideJsxText, isCacheValid. rewrite Hs, Hm, Hc. simpl.
  rewrite Hu, String.eqb_refl, Hv, Z.eqb_refl, Hp. simpl.
  destruct (Z.eqb_spec TTL 0) as [E|_]; [contradiction|].
  destruct (Z.ltb_spec (clock (clockCalls s) - c_timestamp c) TTL); [|lia].
  reflexivity.
Qed.

Lemma cache_miss s document position :
  has JSX_LANGUAGES (doc_languageId document) = true ->
  (cache s = None
   \/ TTL = 0
   \/ exists c, cache s = Some c
        /\ (c_uri c <> uri document
            \/ c_version c <> version document
            \/ isEqual (c_position c) position = false
            \/ TTL <= clock (clockCalls s) - c_timestamp c)) ->
  recomputed createSourceFile clock s document position
    (call s document position).
Proof.
  intros Hl Hmiss.
  destruct (jsx_language_dispatch _ Hl) as [Hs Hm].
  unfold recomputed, isInsideJsxText, isCacheValid. rewrite Hs, Hm. simpl.
  destruct (cache s) as [c|] eqn:Hc; [|now exists (clockCalls s)].
  destruct (String.eqb_spec (c_uri c) (uri document)) as [Hu|Hu]; simpl;
    [|now exists (clockCalls s)].
  destruct (Z.eqb_spec (c_version c) (version document)) as [Hv|Hv]; simpl;
    [|now exists (clockCalls s)].
  destruct (isEqual (c_position c) position) eqn:Hp; simpl;
    [|now exists (clockCalls s)].
  destruct (Z.eqb_spec TTL 0) as [Hz|Hz]; [now exists (clockCalls s)|].
  destruct (Z.ltb_spec (clock (clockCalls s) - c_timestamp c) TTL) as [Ha|Ha];
    [|now exists (S (clockCalls s))].
  exfalso. destruct Hmiss as [H|[H|(c' & Hc' & H)]]; try congruence.
  injection Hc' as <-. destruct H as [H|[H|[H|H]]]; try congruence. lia.
Qed.

(** After a call for a document in a JSX language the cache holds the
    returned verdict under the document's key. *)
Lemma cache_after_call s document position :
  has JSX_LANGUAGES (doc_languageId document) = true ->
  exists c,
    cache (snd (call s document position)) = Some c
    /\ keyed c document position
    /\ c_result c = fst (call s document position).
Proof.
  intros Hl.
  destruct (jsx_language_dispatch _ Hl) as [Hs Hm].
  unfold isInsideJsxText. rewrite Hs, Hm. simpl.
  destruct (isCacheValid clock ttl s document position)
    as [valid s1] eqn:Hv.
  assert (Hpos : isEqual position position = true).
  { unfold isEqual. now rewrite !Z.eqb_refl. }
  destruct valid.
  - unfold isCacheValid in Hv.
    destruct (cache s) as [c|] eqn:Hc; [|discriminate].
    destruct (String.eqb_spec (c_uri c) (uri document)); [|discriminate].
    destruct (Z.eqb_spec (c_version c) (version document)); [|discriminate].
    destruct (isEqual (c_position c) position) eqn:Hp; [|discriminate].
    simpl in Hv. destruct (TTL =? 0); [discriminate|].
    injection Hv as _ <-. simpl. exists c.
    repeat split; assumption.
  - simpl. eexists. split; [reflexivity|]. repeat split; assumption.
Qed.

Lemma isEqual_eq a b : isEqual a b = true <-> a = b.
Proof.
  unfold isEqual. destruct a as [l c], b as [l' c']; simpl.
  rewrite andb_true_iff, !Z.eqb_eq. split.
  - now intros [-> ->].
  - intros H. now injection H.
Qed.

Lemma keyed_transfer c document position document' :
  keyed c document position ->
  uri document' = uri document -> version document' = version document ->
  keyed c document' position.
Proof. unfold keyed. intros (Hu & Hv & Hp) -> ->. now repeat split. Qed.

End CacheFacts.

(** Claim C6, as stated, fails for a markup document: the detector sends it
    to the markup scanner before it looks at the cache, so nothing is stored
    and the second of two calls at the same URI, version and position scans
    again. *)
Lemma markup_document_is_rescanned :
  let csf := fun (_ : string) (t : str) (_ : ScriptKind) =>
               mkNode OtherKind (mkSpan 0 0 (len t)) [] [] in
  let clock := fun _ : nat => 0 in
  let doc := Detector.mkDocument "html" "a.html" "file:///a.html" 1
               (lit "<div>x</div>") (fun _ => 5) in
  let pos := Detector.mkPosition 0 5 in
  let first := Detector.isInsideJsxText csf clock None Detector.new doc pos in
  let second := Detector.isInsideJsxText csf clock None (snd first) doc pos in
  Detector.cache (snd first) = None
  /\ List.length (Detector.runs (snd first)) = 1%nat
  /\ List.length (Detector.runs (snd second)) = 2%nat.
Proof. repeat split. Qed.

(** Claim C6, amended: for documents whose language is in the JSX set, a call
    leaves the cache holding the verdict it returned; a second call for the
    same URI, version and position, with a non-zero TTL and the stored
    timestamp less than the TTL before the clock's reading, returns that
    verdict, reads the clock once and runs no classifier; a call whose URI,
    version or position differs from the stored ones, or whose clock reading
    is at least the TTL after the stored timestamp, runs the syntax-tree
    classifier and replaces the entry; and with a TTL of 0 every call does. *)
Theorem cache_correctness :
  forall (createSourceFile : string -> str -> ScriptKind -> Node)
         (clock : nat -> Z) (ttl : option Z)
         (s : Detector.State) (document : Detector.TextDocument)
         (position : Detector.Position),
    has JSX_LANGUAGES (Detector.doc_languageId document) = true ->
    let call := Detector.isInsideJsxText createSourceFile clock ttl in
    let TTL := Detector.cacheTtlMs ttl in
    let r1 := fst (call s document position) in
    let s1 := snd (call s document position) in
    exists c,
      Detector.cache s1 = Some c
      /\ Detector.c_result c = r1
      /\ (forall document',
            has JSX_LANGUAGES (Detector.doc_languageId document') = true ->
            Detector.uri document' = Detector.uri document ->
            Detector.version document' = Detector.version document ->
            TTL <> 0 ->
            clock (Detector.clockCalls s1) - Detector.c_timestamp c < TTL ->
            call s1 document' position
            = (r1, Detector.mkState (Detector.cache s1)
                     (S (Detector.clockCalls s1)) (Detector.runs s1)))
      /\ (forall document' position',
            has JSX_LANGUAGES (Detector.doc_languageId document') = true ->
            Detector.uri document' <> Detector.uri document
            \/ Detector.version document' <> Detector.version document
            \/ position' <> position
            \/ TTL <= clock (Detector.clockCalls s1) - Detector.c_timestamp c
            \/ TTL = 0 ->
            recomputed createSourceFile clock s1 document' position'
              (call s1 document' position')).
Proof.
  intros csf clock ttl s document position Hl. cbv zeta.
  destruct (cache_after_call csf clock ttl s document position Hl)
    as (c & Hc & Hk & Hr).
  exists c. split; [exact Hc|]. split; [exact Hr|]. split.
  - intros document' Hl' Hu Hv Hz Hage.
    rewrite <- Hr.
    apply cache_hit; try assumption.
    now apply (keyed_transfer c document position).
  - intros document' position' Hl' Hch.
    apply cache_miss; [exact Hl'|].
    destruct Hk as (Hu & Hv & Hp). apply isEqual_eq in Hp.
    destruct Hch as [H|[H|[H|[H|H]]]].
    + right. right. exists c. split; [exact Hc|]. left. congruence.
    + right. right. exists c. split; [exact Hc|]. right. left. congruence.
    + right. right. exists c. split; [exact Hc|]. right. right. left.
      destruct (Detector.isEqual (Detector.c_position c) position') eqn:E;
        [|reflexivity].
      apply isEqual_eq in E. congruence.
    + right. right. exists c. split; [exact Hc|]. right. right. right.
      exact H.
    + right. left. exact H.
Qed.

(** The hypotheses of [cache_correctness] hold of a TSX document: with the
    default TTL of 500 and a clock that advances by 100 at each reading, the
    detector's first call leaves an entry. *)
Lemma cache_correctness_witness :
  let csf := fun (_ : string) (t : str) (_ : ScriptKind) =>
               mkNode OtherKind (mkSpan 0 0 (len t)) [] [] in
  let clock := fun n : nat => 100 * Z.of_nat n in
  let doc := Detector.mkDocument "typescriptreact" "a.tsx" "file:///a.tsx" 1
               (lit "<div>x</div>") (fun _ => 5) in
  let pos := Detector.mkPosition 0 5 in
  exists c,
    Detector.cache
      (snd (Detector.isInsideJsxText csf clock None Detector.new doc pos))
    = Some c.
Proof.
  intros csf clock doc pos.
  destruct (cache_correctness csf clock None Detector.new doc pos eq_refl)
    as (c & Hc & _).
  exists c. exact Hc.
Defined.

(** ** The markup scanner against the reference algorithm *)

Section MarkupFacts.
Import Reference.

Lemma lastBefore_sound c t : forall n,
  lastBefore c t n <> -1 ->
  0 <= lastBefore c t n < Z.of_nat n
  /\ charAt t (lastBefore c t n) = Some c.
Proof.
  induction n as [|k IH]; simpl; [congruence|].
  destruct (eqc (charAt t (Z.of_nat k)) c) eqn:E.
  - intros _. apply eqc_true in E. split; [lia|exact E].
  - intros H. destruct (IH H) as [H1 H2]. split; [lia|exact H2].
Qed.

Lemma lastBefore_max c t : forall n k,
  0 <= k < Z.of_nat n -> charAt t k = Some c -> k <= lastBefore c t n.
Proof.
  induction n as [|m IH]; intros k Hk Hc; simpl; [lia|].
  destruct (eqc (charAt t (Z.of_nat m)) c) eqn:E; [lia|].
  destruct (Z.eq_dec k (Z.of_nat m)) as [->|Hn].
  - apply eqc_true in Hc. congruence.
  - apply IH; [lia|exact Hc].
Qed.

Lemma lastBefore_range c t n : -1 <= lastBefore c t n < Z.of_nat n \/
                               (n = O /\ lastBefore c t n = -1).
Proof.
  destruct (Z.eq_dec (lastBefore c t n) (-1)) as [E|E].
  - destruct n; [now right|left; lia].
  - left. destruct (lastBefore_sound c t n E). lia.
Qed.

(** The search of the source for one character, from [offset - 1] downwards,
    is the reference search below [offset]. *)
Lemma lastIndexOf_char c t offset :
  1 <= offset ->
  lastIndexOf t [c] (offset - 1) = lastBefore c t (Z.to_nat offset).
Proof.
  intros Ho. unfold lastIndexOf. rewrite Z.max_r by lia.
  set (a := lastIndexFrom [c] t 0 (offset - 1)).
  set (b := lastBefore c t (Z.to_nat offset)).
  assert (Ha : a <> -1 -> a <= b /\ b <> -1).
  { intros Hne. destruct (lastIndexFrom_sound [c] t 0 (offset - 1) Hne)
      as (H1 & H2 & H3). fold a in H1, H2, H3.
    rewrite Z.sub_0_r, startsWith_single in H3 by lia.
    apply eqc_true in H3.
    pose proof (lastBefore_max c t (Z.to_nat offset) a ltac:(lia) H3).
    fold b in H. lia. }
  assert (Hb : b <> -1 -> b <= a /\ a <> -1).
  { intros Hne. destruct (lastBefore_sound c t _ Hne) as (H1 & H2).
    fold b in H1, H2. pose proof (charAt_some_lt _ _ _ H2).
    apply (lastIndexFrom_max [c] t 0 (offset - 1) b); try lia.
    rewrite Z.sub_0_r, startsWith_single by lia. now apply eqc_true. }
  destruct (Z.eq_dec a (-1)) as [Ea|Ea]; destruct (Z.eq_dec b (-1)) as [Eb|Eb].
  - lia.
  - specialize (Hb Eb). lia.
  - specialize (Ha Ea). lia.
  - specialize (Ha Ea). specialize (Hb Eb). lia.
Qed.

Lemma firstFrom_sound c t : forall fuel i r,
  firstFrom c t fuel i = Some r -> i <= r.
Proof.
  induction fuel as [|f IH]; intros i r; simpl; [discriminate|].
  destruct (eqc (charAt t i) c).
  - intros H. injection H as <-. lia.
  - intros H. apply IH in H. lia.
Qed.

Lemma range_In a n k : In k (range a n) <-> a <= k < a + Z.of_nat n.
Proof.
  unfold range. rewrite in_map_iff. split.
  - intros (j & <- & Hj). apply in_seq in Hj. lia.
  - intros H. exists (Z.to_nat (k - a)). split; [lia|].
    apply in_seq. lia.
Qed.

Lemma occursAt_comment_is_lt t k :
  occursAt (lit "<!--") t k = true -> charAt t k = Some LT.
Proof.
  unfold occursAt. intros H. apply andb_true_iff in H as [Hk H].
  apply Z.leb_le in Hk. exact (startsWith_head LT (lit "!--") t k Hk H).
Qed.

Lemma opener_is_no_closer t k :
  occursAt (lit "<!--") t k = true -> occursAt (lit "-->") t k = false.
Proof.
  intros E. apply occursAt_comment_is_lt in E. unfold occursAt.
  destruct (Z.leb_spec 0 k); [|reflexivity]. cbn [andb].
  destruct (startsWith (lit "-->") (drop (Z.to_nat k) t)) eqn:Es;
    [|reflexivity].
  apply (startsWith_head MINUS (lit "->") t k) in Es; [|lia].
  rewrite E in Es. discriminate.
Qed.

(** With no [<] after the last [>] before the offset, the reference's comment
    test is whether a comment opens at the offset. *)
Lemma insideUnclosedComment_at_offset t offset :
  1 <= offset ->
  lastBefore LT t (Z.to_nat offset) <= lastBefore GT t (Z.to_nat offset) ->
  insideUnclosedComment t (lastBefore GT t (Z.to_nat offset)) offset
  = occursAt (lit "<!--") t offset.
Proof.
  intros Ho Hle. set (g := lastBefore GT t (Z.to_nat offset)) in *.
  assert (Hg : -1 <= g < offset).
  { destruct (lastBefore_range GT t (Z.to_nat offset)) as [H|[H _]];
      fold g in H; lia. }
  unfold insideUnclosedComment.
  destruct (occursAt (lit "<!--") t offset) eqn:E.
  - apply existsb_exists. exists offset. split.
    + apply range_In. lia.
    + rewrite E. replace (offset - offset + 1) with 1 by lia.
      change (Z.to_nat 1) with 1%nat. unfold range.
      cbn [List.seq List.map existsb]. rewrite Z.add_0_r.
      now rewrite (opener_is_no_closer t offset E).
  - apply not_true_is_false. intros H.
    apply existsb_exists in H as (p & Hp & H).
    apply range_In in Hp. apply andb_true_iff in H as [H _].
    destruct (Z.eq_dec p offset) as [->|Hn]; [congruence|].
    pose proof (occursAt_comment_is_lt _ _ H) as Hc.
    pose proof (lastBefore_max LT t (Z.to_nat offset) p ltac:(lia) Hc).
    lia.
Qed.

(** The same for the comment test of the source. *)
Lemma source_comment_at_offset t offset :
  1 <= offset -> offset <= len t ->
  lastBefore LT t (Z.to_nat offset) <= lastBefore GT t (Z.to_nat offset) ->
  let lastGt := lastBefore GT t (Z.to_nat offset) in
  let commentStart := lastIndexOf t (lit "<!--") offset in
  negb (commentStart =? -1) && (lastGt <? commentStart)
  && ((indexOf t (lit "-->") commentStart =? -1)
      || (offset <=? indexOf t (lit "-->") commentStart))
  = occursAt (lit "<!--") t offset.
Proof.
  intros Ho Hl Hle lastGt commentStart.
  assert (Hg : -1 <= lastGt < offset).
  { destruct (lastBefore_range GT t (Z.to_nat offset)) as [H|[H _]];
      fold lastGt in H; lia. }
  subst commentStart. unfold lastIndexOf. rewrite Z.max_r by lia.
  set (commentStart := lastIndexFrom (lit "<!--") t 0 offset).
  destruct (Z.eq_dec commentStart (-1)) as [E|E].
  - rewrite E. simpl. symmetry. apply not_true_is_false. intros H.
    unfold occursAt in H. apply andb_true_iff in H as [_ H].
    assert (Hocc : startsWith (lit "<!--") (drop (Z.to_nat (offset - 0)) t)
                   = true) by now rewrite Z.sub_0_r.
    destruct (lastIndexFrom_max (lit "<!--") t 0 offset offset
                ltac:(lia) ltac:(lia) ltac:(lia) Hocc) as [_ Hne].
    contradiction.
  - destruct (lastIndexFrom_sound (lit "<!--") t 0 offset E) as (H1 & H2 & H3).
    fold commentStart in H1, H2, H3. rewrite Z.sub_0_r in H3.
    destruct (Z.eqb_spec commentStart (-1)); [contradiction|]. simpl.
    destruct (Z.eq_dec commentStart offset) as [Eo|Eo].
    + rewrite Eo in *. unfold occursAt. rewrite H3.
      destruct (Z.leb_spec 0 offset); [|lia].
      destruct (Z.ltb_spec lastGt offset); [|lia]. simpl.
      destruct (Z.eqb_spec (indexOf t (lit "-->") offset) (-1)) as [Ei|Ei];
        [reflexivity|].
      unfold indexOf in *. destruct (indexFrom_sound _ _ _ _ Ei) as [Hi _].
      simpl. now apply Z.leb_le.
    + assert (Hc : charAt t commentStart = Some LT)
        by (apply (startsWith_head LT (lit "!--") t commentStart); [lia|exact H3]).
      pose proof (lastBefore_max LT t (Z.to_nat offset) commentStart
                    ltac:(lia) Hc) as Hmax.
      destruct (Z.ltb_spec lastGt commentStart); [lia|]. simpl.
      symmetry. apply not_true_is_false. intros Ho'.
      unfold occursAt in Ho'. apply andb_true_iff in Ho' as [_ Ho'].
      assert (Hocc : startsWith (lit "<!--") (drop (Z.to_nat (offset - 0)) t)
                     = true) by now rewrite Z.sub_0_r.
      destruct (lastIndexFrom_max (lit "<!--") t 0 offset offset
                  ltac:(lia) ltac:(lia) ltac:(lia) Hocc) as [Hm _].
      fold commentStart in Hm. lia.
Qed.

End MarkupFacts.

Section MarkupTheorem.
Import Reference.

Lemma lastIndexOf_at_zero c t :
  (lastIndexOf t [c] (-1) = -1)
  \/ (lastIndexOf t [c] (-1) = 0 /\ charAt t 0 = Some c).
Proof.
  unfold lastIndexOf. change (Z.max 0 (-1)) with 0.
  destruct (Z.eq_dec (lastIndexFrom [c] t 0 0) (-1)) as [E|E]; [now left|].
  right. destruct (lastIndexFrom_sound [c] t 0 0 E) as (H1 & _ & H3).
  assert (E0 : lastIndexFrom [c] t 0 0 = 0) by lia.
  rewrite E0 in *. split; [reflexivity|].
  change (Z.to_nat (0 - 0)) with (Z.to_nat 0) in H3.
  rewrite startsWith_single in H3 by lia. now apply eqc_true.
Qed.

Lemma isMarkupTextContext_at_zero l f t :
  Markup.isMarkupTextContext (mkProbe l f t 0) = false.
Proof.
  unfold Markup.isMarkupTextContext. simpl.
  destruct (len t <? 0); [reflexivity|].
  change (0 - 1) with (-1).
  destruct (lastIndexOf_at_zero GT t) as [Eg|[Eg Hg]];
    destruct (lastIndexOf_at_zero LT t) as [El|[El Hl]];
    rewrite Eg, El; try reflexivity.
  - simpl. now destruct (_ && _).
  - rewrite Hg in Hl. discriminate.
Qed.

Lemma isMarkupTextContext_reference l f t offset :
  0 <= offset <= len t ->
  Markup.isMarkupTextContext (mkProbe l f t offset) = classifyMarkup t offset.
Proof.
  intros Hr. destruct (Z.eq_dec offset 0) as [->|Hz].
  { rewrite isMarkupTextContext_at_zero. reflexivity. }
  unfold Markup.isMarkupTextContext, classifyMarkup. simpl.
  destruct (Z.ltb_spec offset 0); [lia|].
  destruct (Z.ltb_spec (len t) offset); [lia|]. simpl.
  rewrite !lastIndexOf_char by lia.
  set (g := lastBefore GT t (Z.to_nat offset)).
  set (o := lastBefore LT t (Z.to_nat offset)).
  destruct (Z.ltb_spec g o); [reflexivity|].
  destruct (Z.eqb_spec g (-1)); [reflexivity|].
  pose proof (source_comment_at_offset t offset ltac:(lia) ltac:(lia)
                ltac:(fold g o; lia)) as Hs.
  cbv zeta in Hs. fold g in Hs. rewrite Hs. clear Hs.
  pose proof (insideUnclosedComment_at_offset t offset ltac:(lia)
                ltac:(fold g o; lia)) as Hi.
  fold g in Hi. rewrite Hi. clear Hi.
  destruct (occursAt (lit "<!--") t offset); [reflexivity|].
  assert (Hg : g < offset).
  { destruct (lastBefore_range GT t (Z.to_nat offset)) as [Hx|[Hx _]];
      fold g in Hx; lia. }
  destruct (Z.ltb_spec g offset); [|lia]. simpl.
  assert (Hn1 : offset <= (if indexOf t [LT] offset =? -1 then len t
                          else indexOf t [LT] offset)).
  { destruct (Z.eqb_spec (indexOf t [LT] offset) (-1)) as [E|E]; [lia|].
    unfold indexOf in *. destruct (indexFrom_sound _ _ _ _ E). lia. }
  assert (Hn2 : offset <= match firstFrom LT t (Z.to_nat (len t - offset)) offset
                         with Some i => i | None => len t end).
  { destruct (firstFrom LT t _ offset) eqn:E; [|lia].
    now apply firstFrom_sound in E. }
  apply Z.leb_le in Hn1, Hn2. now rewrite Hn1, Hn2.
Qed.


End MarkupTheorem.



(** ** Walking a tree of the parser *)

Section TreeWalks.
Import Tree.

Lemma findDeepestNode_eq node offset parents :
  findDeepestNode node offset parents
  = if (offset <? getFullStart node) || (getEnd node <=? offset) then None
    else firstInsideOf offset (node :: parents) (getChildren node).
Proof.
  destruct node as [k s cs fs]. unfold getFullStart, getEnd. simpl.
  destruct (_ || _); [reflexivity|].
  generalize (mkNode k s cs fs :: parents) as path. intros path.
  induction cs as [|c r IH]; simpl; [reflexivity|].
  destruct (findDeepestNode c offset path); [reflexivity|exact IH].
Qed.

Lemma findDeepestNode_outside node offset parents :
  offset < getFullStart node \/ getEnd node <= offset ->
  findDeepestNode node offset parents = None.
Proof.
  intros H. rewrite findDeepestNode_eq.
  destruct (Z.ltb_spec offset (getFullStart node)); [reflexivity|].
  destruct (Z.leb_spec (getEnd node) offset); [reflexivity|lia].
Qed.

Lemma findDeepestNode_inside node offset parents :
  getFullStart node <= offset < getEnd node ->
  findDeepestNode node offset parents
  = firstInsideOf offset (node :: parents) (getChildren node).
Proof.
  intros H. rewrite findDeepestNode_eq.
  destruct (Z.ltb_spec offset (getFullStart node)); [lia|].
  destruct (Z.leb_spec (getEnd node) offset); [lia|reflexivity].
Qed.

Lemma firstInsideOf_nil offset path : firstInsideOf offset path [] = Some path.
Proof. reflexivity. Qed.

Lemma firstInsideOf_skip offset path child rest :
  offset < getFullStart child \/ getEnd child <= offset ->
  firstInsideOf offset path (child :: rest) = firstInsideOf offset path rest.
Proof.
  intros H. unfold firstInsideOf. simpl.
  now rewrite findDeepestNode_outside.
Qed.

Lemma firstInsideOf_enter offset path child rest :
  getFullStart child <= offset < getEnd child ->
  firstInsideOf offset path (child :: rest)
  = firstInsideOf offset (child :: path) (getChildren child).
Proof.
  intros H. unfold firstInsideOf at 1. simpl.
  rewrite findDeepestNode_inside by exact H.
  destruct (firstInsideOf offset (child :: path) (getChildren child)) eqn:E;
    [reflexivity|].
  exfalso. revert E. generalize (getChildren child) as cs.
  induction cs as [|c r IH]; simpl; [discriminate|].
  unfold firstInsideOf in *. simpl.
  destruct (findDeepestNode c offset (child :: path)); [discriminate|exact IH].
Qed.

End TreeWalks.

(** Unfolds the builders of [ParseModel] down to spans and child lists. *)
Ltac model_eval :=
  cbn [ParseModel.elementFile ParseModel.fragmentFile ParseModel.element
       ParseModel.elementWith ParseModel.fragment ParseModel.sourceFile
       ParseModel.expressionStatement ParseModel.openingElement
       ParseModel.closingElement ParseModel.openingFragment
       ParseModel.closingFragment ParseModel.syntaxList
       ParseModel.noAttributes ParseModel.token ParseModel.tokenAt
       ParseModel.jsxText ParseModel.jsxExpression ParseModel.other
       getFullStart getStart getEnd getChildren forEachChild
       kind span pos start end_].

(** One step of the search for the deepest node: skip a child that does not
    hold the offset, or enter the child that does. *)
Ltac descend :=
  repeat first
    [ rewrite firstInsideOf_nil
    | rewrite firstInsideOf_skip by (model_eval; lia)
    | rewrite firstInsideOf_enter by (model_eval; lia); model_eval ].

(** Unfolds the walks over a chain. *)
Ltac walk_cbn :=
  cbn [Tree.attributeWalk Tree.isInsideJsxText Tree.isInsideJsxGap
       Tree.isInsideJsxExpressionContext
       ParseModel.elementFile ParseModel.fragmentFile ParseModel.element
       ParseModel.elementWith ParseModel.fragment ParseModel.sourceFile
       ParseModel.expressionStatement ParseModel.openingElement
       ParseModel.closingElement ParseModel.openingFragment
       ParseModel.closingFragment ParseModel.syntaxList
       ParseModel.noAttributes ParseModel.token ParseModel.tokenAt
       ParseModel.jsxText ParseModel.jsxExpression ParseModel.other
       getFullStart getStart getEnd kind span pos start end_].

Ltac walk_eval :=
  unfold classifyChain, Tree.isInsideJsxAttributeArea; walk_cbn;
  unfold Tree.strictlyInside; walk_cbn.

(** Decides the integer comparisons of the goal from the hypotheses. *)
Ltac zdecide :=
  repeat match goal with
         | |- context [?a <? ?b] =>
             first [ rewrite (proj2 (Z.ltb_lt a b)) by lia
                   | rewrite (proj2 (Z.ltb_ge a b)) by lia ]
         | |- context [?a <=? ?b] =>
             first [ rewrite (proj2 (Z.leb_le a b)) by lia
                   | rewrite (proj2 (Z.leb_gt a b)) by lia ]
         end;
  cbn [andb orb negb].

Section TagAttributesFallback.
Import Markup.

(** After a [>] with no [<] from there to the offset, the text fallback of
    the attribute test answers false. *)
Lemma isInsideTagAttributes_after_gt t offset g :
  0 <= g <= offset -> charAt t g = Some GT ->
  (forall k, g < k <= offset -> charAt t k <> Some LT) ->
  isInsideTagAttributes t offset = false.
Proof.
  intros Hg Hgt Hno. unfold isInsideTagAttributes, lastIndexOf.
  rewrite Z.max_r by lia.
  assert (Hocc : startsWith [GT] (drop (Z.to_nat (g - 0)) t) = true).
  { rewrite Z.sub_0_r, startsWith_single by lia. now apply eqc_true. }
  pose proof (charAt_some_lt _ _ _ Hgt) as Hlen.
  destruct (lastIndexFrom_max [GT] t 0 offset g ltac:(lia) ltac:(lia)
              ltac:(lia) Hocc) as [Hmax Hne].
  set (lastGt := lastIndexFrom [GT] t 0 offset) in *.
  destruct (Z.eqb_spec (lastIndexFrom [LT] t 0 offset) (-1)) as [E|E];
    [reflexivity|].
  destruct (lastIndexFrom_sound [LT] t 0 offset E) as (H1 & H2 & H3).
  set (lastLt := lastIndexFrom [LT] t 0 offset) in *.
  rewrite Z.sub_0_r, startsWith_single in H3 by lia. apply eqc_true in H3.
  assert (lastLt < g).
  { destruct (Z.lt_trichotomy lastLt g) as [Hl|[Hl|Hl]]; [exact Hl| |].
    - rewrite Hl, Hgt in H3. discriminate.
    - exfalso. apply (Hno lastLt); [lia|exact H3]. }
  destruct (Z.eqb_spec lastGt (-1)); [lia|].
  destruct (Z.ltb_spec lastLt lastGt); [reflexivity|lia].
Qed.

(** At the [<] of a closing tag the text fallback answers false. *)
Lemma isInsideTagAttributes_at_closing t offset :
  0 <= offset -> charAt t offset = Some LT ->
  charAt t (offset + 1) = Some SLASH ->
  isInsideTagAttributes t offset = false.
Proof.
  intros Ho Hlt Hsl. unfold isInsideTagAttributes, lastIndexOf.
  rewrite Z.max_r by lia.
  assert (Hocc : startsWith [LT] (drop (Z.to_nat (offset - 0)) t) = true).
  { rewrite Z.sub_0_r, startsWith_single by lia. now apply eqc_true. }
  pose proof (charAt_some_lt _ _ _ Hlt) as Hlen.
  destruct (lastIndexFrom_max [LT] t 0 offset offset ltac:(lia) ltac:(lia)
              ltac:(lia) Hocc) as [Hmax Hne].
  destruct (lastIndexFrom_sound [LT] t 0 offset Hne) as (H1 & _ & _).
  assert (E : lastIndexFrom [LT] t 0 offset = offset) by lia.
  rewrite E, Hsl. simpl.
  destruct (offset =? -1); [reflexivity|].
  destruct (_ && _); [reflexivity|].
  now destruct (_ =? -1).
Qed.

End TagAttributesFallback.

Section ElementTree.
Import Tree ParseModel.

(** In the opening tag of the element of [elementFile], whatever the
    text. *)
Lemma elementFile_opening_tag nameLen contentLen fullText offset :
  0 < nameLen -> 0 <= contentLen ->
  0 < offset <= nameLen + 1 ->
  exists chain,
    findDeepestNode (elementFile nameLen contentLen) offset [] = Some chain
    /\ classifyChain chain fullText offset = false.
Proof.
  intros Hn Hc Ho.
  rewrite findDeepestNode_inside by (model_eval; lia). model_eval.
  destruct (Z.eq_dec offset (nameLen + 1)) as [->|Hne];
    descend; eexists; (split; [reflexivity|]); walk_eval; zdecide;
    reflexivity.
Qed.

(** In the content of the element of [elementFile], where the text fallback
    of the attribute test answers false. *)
Lemma elementFile_content nameLen contentLen fullText offset :
  0 < nameLen -> 0 <= contentLen ->
  nameLen + 2 <= offset <= nameLen + 2 + contentLen ->
  Markup.isInsideTagAttributes fullText offset = false ->
  exists chain,
    findDeepestNode (elementFile nameLen contentLen) offset [] = Some chain
    /\ classifyChain chain fullText offset = true.
Proof.
  intros Hn Hc Ho Hfb.
  rewrite findDeepestNode_inside by (model_eval; lia). model_eval.
  destruct (Z.eq_dec offset (nameLen + 2 + contentLen)) as [->|Hne].
  - descend. unfold textChildren.
    destruct (Z.ltb_spec (0 + 1 + nameLen + 1)
                (0 + 1 + nameLen + 1 + contentLen));
      descend; eexists; (split; [reflexivity|]); walk_eval; rewrite Hfb;
      zdecide; reflexivity.
  - descend. unfold textChildren.
    destruct (Z.ltb_spec (0 + 1 + nameLen + 1)
                (0 + 1 + nameLen + 1 + contentLen)); [|lia].
    descend; eexists; (split; [reflexivity|]); walk_eval; rewrite Hfb;
      zdecide; reflexivity.
Qed.

End ElementTree.

(** ** Tag and text: an element with a plain tag and plain content *)

Section ElementText.
Import Heuristic.

(** Where the parts of [pre ++ < tag > content ++ rest] are. *)
Lemma element_shape (pre tag content rest : str) :
  let t := pre ++ LT :: tag ++ GT :: content ++ rest in
  let p := len pre in
  let g := p + 1 + len tag in
  charAt t p = Some LT
  /\ (forall k, p < k < g -> charAt t k = charAt tag (k - p - 1))
  /\ charAt t g = Some GT
  /\ (forall k, g < k < g + 1 + len content ->
        charAt t k = charAt content (k - g - 1))
  /\ (forall k, g + 1 + len content <= k ->
        charAt t k = charAt rest (k - (g + 1 + len content))).
Proof.
  intros t p g. unfold t, g, p.
  pose proof (len_nonneg pre). pose proof (len_nonneg tag).
  pose proof (len_nonneg content).
  split; [|split; [|split; [|split]]].
  - rewrite charAt_app_r by lia. now rewrite Z.sub_diag.
  - intros k Hk. rewrite charAt_app_r by lia.
    rewrite charAt_cons_succ by lia. rewrite charAt_app_l by lia.
    f_equal; lia.
  - rewrite charAt_app_r by lia. rewrite charAt_cons_succ by lia.
    rewrite charAt_app_r by lia.
    replace (len pre + 1 + len tag - len pre - 1 - len tag) with 0 by lia.
    reflexivity.
  - intros k Hk. rewrite charAt_app_r by lia.
    rewrite charAt_cons_succ by lia. rewrite charAt_app_r by lia.
    rewrite charAt_cons_succ by lia. rewrite charAt_app_l by lia.
    f_equal; lia.
  - intros k Hk. rewrite charAt_app_r by lia.
    rewrite charAt_cons_succ by lia. rewrite charAt_app_r by lia.
    rewrite charAt_cons_succ by lia. rewrite charAt_app_r by lia.
    f_equal; lia.
Qed.

(** The heuristic scanner on an element met in code: false inside the opening
    tag, true in plain content. *)
Lemma heuristic_element (pre tag content rest : str) :
  let t := pre ++ LT :: tag ++ GT :: content ++ rest in
  let p := len pre in
  let g := p + 1 + len tag in
  neutral (scan t p) -> isLikelyTagStart t p = true ->
  tag <> [] -> forallb tagBodyChar tag = true ->
  forallb plainContentChar content = true ->
  (forall offset, p < offset <= g -> isInJsxTextContent t offset = false)
  /\ (forall offset, g < offset <= g + 1 + len content ->
        isInJsxTextContent t offset = true).
Proof.
  intros t p g Hn Hl Hne Htag Hcontent.
  destruct (element_shape pre tag content rest) as (Hp & Hb & Hg & Hc & _).
  fold t p g in Hp, Hb, Hg, Hc.
  pose proof (len_nonneg pre). pose proof (len_nonneg tag).
  assert (Htlen : 0 < len tag).
  { destruct tag as [|c0 tag0]; [congruence|]. rewrite len_cons.
    pose proof (len_nonneg tag0). lia. }
  assert (Htag' : forall k, p < k < g ->
            exists c, charAt t k = Some c /\ tagBodyChar c = true).
  { intros k Hk. rewrite Hb by exact Hk.
    apply charAt_forallb; [exact Htag|]. unfold g in Hk. lia. }
  assert (Hthrough : forall offset, p <= offset ->
            scan t offset = run t offset p (scan t p)).
  { intros off Ho. apply scan_through; [now rewrite Hp|now rewrite Hp|].
    unfold p. lia. }
  split; intros off Ho; unfold isInJsxTextContent;
    rewrite Hthrough by lia.
  - apply inJsxTag_verdict.
    destruct (Htag' (p + 1) ltac:(unfold g; lia)) as (c & Hc1 & Hcb).
    unfold tagBodyChar in Hcb. apply negb_true_iff in Hcb.
    repeat (apply orb_false_iff in Hcb as [Hcb ?]).
    apply (tag_region t p g (scan t p) c); try assumption.
    intros k Hk. destruct (Htag' k Hk) as (c' & Hc' & Hcb').
    unfold tagBodyChar in Hcb'. apply negb_true_iff in Hcb'.
    repeat (apply orb_false_iff in Hcb' as [Hcb' ?]).
    rewrite Hc'. assumption.
  - apply inContent_verdict.
    apply (element_region t p g (g + 1 + len content)); try assumption;
      try (unfold p, g; lia).
    intros k Hk. rewrite Hc by exact Hk.
    apply charAt_forallb; [exact Hcontent|]. lia.
Qed.

End ElementText.

Section ElementTreeText.
Import Tree ParseModel.

Variable createSourceFile : string -> str -> ScriptKind -> Node.

Lemma isJsxTextContext_eq probe :
  has MARKUP_LANGUAGES (languageId probe) = false ->
  0 <= offset probe <= len (text probe) ->
  isJsxTextContext createSourceFile probe
  = let sourceFile :=
      createSourceFile (fileName probe) (text probe)
                       (toScriptKind (languageId probe)) in
    if negb (containsJsx sourceFile) then false
    else match findDeepestNode sourceFile (offset probe) [] with
         | None => false
         | Some chain => classifyChain chain (text probe) (offset probe)
         end.
Proof.
  intros Hm Hr. unfold isJsxTextContext. rewrite Hm.
  destruct (Z.ltb_spec (offset probe) 0); [lia|].
  destruct (Z.ltb_spec (len (text probe)) (offset probe)); [lia|].
  reflexivity.
Qed.

(** The syntax-tree classifier on a text that is one element with plain
    text, parsed into the tree of [elementFile]. *)
Lemma tree_element l f (name content : str) :
  let t := LT :: name ++ GT :: content ++ LT :: SLASH :: name ++ [GT] in
  has MARKUP_LANGUAGES l = false ->
  name <> [] ->
  forallb plainContentChar content = true ->
  createSourceFile f t (toScriptKind l)
  = elementFile (len name) (len content) ->
  (forall offset, 0 < offset <= len name + 1 ->
     isJsxTextContext createSourceFile (mkProbe l f t offset) = false)
  /\ (forall offset, len name + 1 < offset <= len name + 2 + len content ->
        isJsxTextContext createSourceFile (mkProbe l f t offset) = true).
Proof.
  intros t Hm Hne Hcontent Hparse.
  destruct (element_shape [] name content (LT :: SLASH :: name ++ [GT]))
    as (Hp & Hb & Hg & Hc & Hrest).
  change (len []) with 0 in *. simpl app in Hp, Hb, Hg, Hc, Hrest.
  fold t in Hp, Hb, Hg, Hc, Hrest.
  pose proof (len_nonneg name). pose proof (len_nonneg content).
  assert (Hnlen : 0 < len name).
  { destruct name as [|c0 n0]; [congruence|]. rewrite len_cons.
    pose proof (len_nonneg n0). lia. }
  assert (Hlen : len t = 2 * len name + len content + 5).
  { unfold t, len. repeat (rewrite length_app || simpl List.length).
    unfold str, char in *. lia. }
  split; intros off Ho;
    rewrite isJsxTextContext_eq
      by (cbn [Lang.offset Lang.text Lang.languageId]; (exact Hm || lia));
    cbn [Lang.offset Lang.text Lang.languageId Lang.fileName];
    cbv zeta; rewrite Hparse;
    change (containsJsx (elementFile (len name) (len content))) with true;
    cbn [negb].
  - destruct (elementFile_opening_tag (len name) (len content) t off
                ltac:(lia) ltac:(lia) ltac:(lia)) as (chain & -> & ->).
    reflexivity.
  - assert (Hfb : Markup.isInsideTagAttributes t off = false);
      [|destruct (elementFile_content (len name) (len content) t off
                    ltac:(lia) ltac:(lia) ltac:(lia) Hfb)
          as (chain & -> & ->); reflexivity].
    destruct (Z.eq_dec off (len name + 2 + len content)) as [->|Hn].
    + apply isInsideTagAttributes_at_closing; [lia| |].
      * rewrite Hrest by lia.
        replace (_ - _) with 0 by lia. reflexivity.
      * rewrite Hrest by lia.
        replace (_ - _) with 1 by lia. reflexivity.
    + apply (isInsideTagAttributes_after_gt t off (len name + 1));
        [lia| |].
      * rewrite <- Hg. f_equal. lia.
      * intros k Hk Hlt. rewrite Hc in Hlt by lia.
        destruct (charAt_forallb plainContentChar content
                    (k - (0 + 1 + len name) - 1) Hcontent ltac:(lia))
          as (c & Hck & Hcp).
        rewrite Hck in Hlt. injection Hlt as ->. discriminate.
Qed.

End ElementTreeText.

(** ** The syntax-tree classifier on any tree

    What the walks of the classifier answer from where the node found lies,
    whatever tree the parser returns. *)

Section AnyTree.
Import Tree TreeNotions.

Lemma attributeWalk_in chain offset n :
  In n chain -> inTagRegion offset n -> attributeWalk chain offset = true.
Proof.
  intros Hin Hr. induction chain as [|c r IH]; [contradiction|].
  simpl. destruct Hin as [->|Hin].
  - unfold inTagRegion in Hr.
    destruct (kind n) as [| |a|a| | | | | |]; try contradiction;
      (destruct ((pos a <=? offset) && (offset <=? end_ a)) eqn:E1;
       [reflexivity|];
       destruct ((getStart n <? offset) && (offset <? pos a)) eqn:E2;
       [reflexivity|];
       exfalso; apply andb_false_iff in E1, E2;
       rewrite !Z.leb_gt in E1; rewrite !Z.ltb_ge in E2; lia).
  - specialize (IH Hin).
    destruct (kind c); try exact IH;
      (destruct (_ && _); [reflexivity|];
       destruct (_ && _); [reflexivity|exact IH]).
Qed.

Lemma attributeWalk_none chain offset :
  (forall n, In n chain -> ~ inTagRegion offset n) ->
  attributeWalk chain offset = false.
Proof.
  induction chain as [|c r IH]; intros H; [reflexivity|].
  simpl. pose proof (H c (or_introl eq_refl)) as Hc.
  specialize (IH (fun n Hn => H n (or_intror Hn))).
  unfold inTagRegion in Hc.
  destruct (kind c) as [| |a|a| | | | | |]; try exact IH;
    (destruct ((pos a <=? offset) && (offset <=? end_ a)) eqn:E1;
     [exfalso; apply Hc; left; apply andb_true_iff in E1;
      rewrite !Z.leb_le in E1; lia|];
     destruct ((getStart c <? offset) && (offset <? pos a)) eqn:E2;
     [exfalso; apply Hc; right; apply andb_true_iff in E2;
      rewrite !Z.ltb_lt in E2; lia|];
     exact IH).
Qed.

Lemma isInsideJsxExpressionContext_none chain offset :
  (forall n, In n chain -> ~ inExpressionNode offset n) ->
  isInsideJsxExpressionContext chain offset = false.
Proof.
  induction chain as [|c r IH]; intros H; [reflexivity|].
  simpl. pose proof (H c (or_introl eq_refl)) as Hc.
  specialize (IH (fun n Hn => H n (or_intror Hn))).
  unfold inExpressionNode in Hc.
  destruct (kind c) eqn:Hk; try exact IH.
  unfold strictlyInside.
  destruct (Z.ltb_spec (getStart c) offset); [|exact IH].
  destruct (Z.ltb_spec offset (getEnd c)); [|exact IH].
  exfalso. apply Hc. split; [reflexivity|lia].
Qed.

Lemma isInsideJsxGap_in chain offset e :
  In e chain -> betweenTagsOf offset e -> isInsideJsxGap chain offset = true.
Proof.
  intros Hin Hg. induction chain as [|c r IH]; [contradiction|].
  simpl. destruct Hin as [->|Hin].
  - unfold betweenTagsOf in Hg.
    destruct (kind e) as [o cl|o cl| | | | | | | |]; try contradiction;
      (destruct (Z.leb_spec (end_ o) offset); [|lia];
       destruct (Z.leb_spec offset (start cl)); [|lia]; reflexivity).
  - specialize (IH Hin).
    destruct (kind c); try exact IH;
      (destruct (_ && _); [reflexivity|exact IH]).
Qed.

(** A node found in the name or the attributes of a tag is classified
    false. *)
Lemma classifyChain_tag_region chain fullText offset n :
  In n chain -> inTagRegion offset n ->
  classifyChain chain fullText offset = false.
Proof.
  intros Hin Hr. unfold classifyChain, isInsideJsxAttributeArea.
  now rewrite (attributeWalk_in chain offset n).
Qed.

(** A node found in the content of an element or fragment is classified
    true exactly when the text fallback of the attribute test sees no open
    tag. *)
Lemma classifyChain_content chain fullText offset :
  inElementContent offset chain ->
  classifyChain chain fullText offset
  = negb (Markup.isInsideTagAttributes fullText offset).
Proof.
  intros [(e & Hin & Hg) Hclear].
  unfold classifyChain, isInsideJsxAttributeArea.
  rewrite attributeWalk_none by (intros n Hn; apply (Hclear n Hn)).
  destruct (Markup.isInsideTagAttributes fullText offset); [reflexivity|].
  rewrite isInsideJsxExpressionContext_none
    by (intros n Hn; apply (Hclear n Hn)).
  rewrite (isInsideJsxGap_in chain offset e Hin Hg).
  now destruct (isInsideJsxText chain offset).
Qed.

Variable createSourceFile : string -> str -> ScriptKind -> Node.

(** Where the text fallback of the attribute test answers true the
    classifier answers false. *)
Lemma isJsxTextContext_fallback probe :
  has MARKUP_LANGUAGES (languageId probe) = false ->
  Markup.isInsideTagAttributes (text probe) (offset probe) = true ->
  isJsxTextContext createSourceFile probe = false.
Proof.
  intros Hm Hfb. unfold isJsxTextContext. rewrite Hm.
  destruct (_ || _); [reflexivity|].
  destruct (negb _); [reflexivity|].
  destruct (findDeepestNode _ _ _) as [chain|]; [|reflexivity].
  unfold isInsideJsxAttributeArea. rewrite Hfb.
  now destruct (attributeWalk chain (offset probe)).
Qed.

Lemma isJsxTextContext_tag_region probe chain n :
  has MARKUP_LANGUAGES (languageId probe) = false ->
  findDeepestNode
    (createSourceFile (fileName probe) (text probe)
                      (toScriptKind (languageId probe)))
    (offset probe) [] = Some chain ->
  In n chain -> inTagRegion (offset probe) n ->
  isJsxTextContext createSourceFile probe = false.
Proof.
  intros Hm Hfind Hin Hr. unfold isJsxTextContext. rewrite Hm.
  destruct (_ || _); [reflexivity|].
  destruct (negb _); [reflexivity|].
  rewrite Hfind.
  pose proof (classifyChain_tag_region chain (text probe) (offset probe) n
                Hin Hr) as Hc.
  unfold classifyChain in Hc. exact Hc.
Qed.

Lemma isJsxTextContext_content probe chain :
  has MARKUP_LANGUAGES (languageId probe) = false ->
  0 <= offset probe <= len (text probe) ->
  containsJsx
    (createSourceFile (fileName probe) (text probe)
                      (toScriptKind (languageId probe))) = true ->
  findDeepestNode
    (createSourceFile (fileName probe) (text probe)
                      (toScriptKind (languageId probe)))
    (offset probe) [] = Some chain ->
  inElementContent (offset probe) chain ->
  isJsxTextContext createSourceFile probe
  = negb (Markup.isInsideTagAttributes (text probe) (offset probe)).
Proof.
  intros Hm Hr Hjsx Hfind Hc.
  rewrite isJsxTextContext_eq by assumption. cbv zeta.
  rewrite Hjsx, Hfind. cbn [negb].
  now apply classifyChain_content.
Qed.

End AnyTree.

Section TagAttributesAtOpen.
Import Markup.

(** At a [<] the text fallback of the attribute test answers false: the
    open tag it looks for starts before the offset. *)
Lemma isInsideTagAttributes_at_lt t offset :
  0 <= offset -> charAt t offset = Some LT ->
  isInsideTagAttributes t offset = false.
Proof.
  intros Ho Hlt. unfold isInsideTagAttributes, lastIndexOf.
  rewrite Z.max_r by lia.
  assert (Hocc : startsWith [LT] (drop (Z.to_nat (offset - 0)) t) = true).
  { rewrite Z.sub_0_r, startsWith_single by lia. now apply eqc_true. }
  pose proof (charAt_some_lt _ _ _ Hlt) as Hlen.
  destruct (lastIndexFrom_max [LT] t 0 offset offset ltac:(lia) ltac:(lia)
              ltac:(lia) Hocc) as [Hmax Hne].
  destruct (lastIndexFrom_sound [LT] t 0 offset Hne) as (H1 & _ & _).
  assert (E : lastIndexFrom [LT] t 0 offset = offset) by lia.
  rewrite E, Z.ltb_irrefl.
  destruct (offset =? -1); [reflexivity|].
  destruct (_ && _); [reflexivity|].
  destruct (_ =? -1); [reflexivity|].
  now destruct (eqc _ _).
Qed.

(** In the content of [pre ++ < tag > content ++ rest], when the content
    holds no [<], the text fallback answers false, whatever the rest. *)
Lemma isInsideTagAttributes_in_content (pre tag content rest : str) offset :
  let t := pre ++ LT :: tag ++ GT :: content ++ rest in
  let g := len pre + 1 + len tag in
  forallb plainContentChar content = true ->
  g < offset <= g + 1 + len content ->
  isInsideTagAttributes t offset = false.
Proof.
  intros t g Hcontent Ho.
  destruct (element_shape pre tag content rest) as (_ & _ & Hg & Hc & _).
  fold t g in Hg, Hc.
  pose proof (len_nonneg pre). pose proof (len_nonneg tag).
  destruct (charAt t offset) as [c|] eqn:Hch;
    [destruct (N.eq_dec c LT) as [->|Hne]|].
  - apply isInsideTagAttributes_at_lt; [lia|exact Hch].
  - apply (isInsideTagAttributes_after_gt t offset g); [lia|exact Hg|].
    intros k Hk Hlt.
    destruct (Z.eq_dec k offset) as [->|Hd]; [congruence|].
    rewrite Hc in Hlt by lia.
    destruct (charAt_forallb plainContentChar content (k - g - 1) Hcontent
                ltac:(lia)) as (c' & Hck & Hcp).
    rewrite Hck in Hlt. injection Hlt as ->. discriminate.
  - apply (isInsideTagAttributes_after_gt t offset g); [lia|exact Hg|].
    intros k Hk Hlt.
    destruct (Z.eq_dec k offset) as [->|Hd]; [congruence|].
    rewrite Hc in Hlt by lia.
    destruct (charAt_forallb plainContentChar content (k - g - 1) Hcontent
                ltac:(lia)) as (c' & Hck & Hcp).
    rewrite Hck in Hlt. injection Hlt as ->. discriminate.
Qed.

End TagAttributesAtOpen.

(** Finds, in a chain given in full, the element or fragment with the offset
    between its tags. *)
Ltac find_between :=
  match goal with
  | |- exists e, In e ?chain /\ _ =>
      let rec go l :=
        lazymatch l with
        | ?x :: ?r =>
            first [ exists x; split;
                    [ simpl; auto 12
                    | unfold TreeNotions.betweenTagsOf; simpl; lia ]
                  | go r ]
        end in
      go chain
  end.

(** Decides [inElementContent] for a chain given in full, none of whose nodes
    is an opening or self-closing tag or an embedded expression. *)
Ltac content_chain :=
  split;
  [ find_between
  | let n := fresh "n" in
    let Hin := fresh "Hin" in
    intros n Hin; simpl in Hin;
    repeat (destruct Hin as [<-|Hin]); try contradiction;
    (split;
     [ unfold TreeNotions.inTagRegion; simpl;
       let H := fresh "H" in intros H; exact H
     | unfold TreeNotions.inExpressionNode; simpl;
       let Hk := fresh "Hk" in
       intros [Hk _]; discriminate ]) ].

(** An element with a plain tag and plain content.  The heuristic scanner:
    for a text [pre ++ < tag > content ++ rest] where the scanner reaches the
    [<] in code (outside literals, tags and expressions) and accepts it as a
    tag start, the tag (name and attributes) is not empty and holds no [>],
    quote, backtick, [<] or [/], and the content holds no [<] and no [{],
    every offset after the [<] up to the [>] is classified false and every
    offset from the [>] to the end of the content is classified true.  The
    syntax-tree classifier, whatever tree the parser returns: a node found
    at or under an opening or self-closing tag whose name or attributes hold
    the offset is classified false; a node found in the content of an
    element or fragment is classified true exactly when the text fallback of
    the attribute test sees no open tag, which it does not in a content
    without [<].  On the tree of the text [<name>content</name>] the
    syntax-tree classifier answers false from after the [<] up to the [>] and
    true from there to the end of the content. *)
Theorem plain_element_tag_and_content :
  (forall pre tag content rest : str,
     let t := pre ++ LT :: tag ++ GT :: content ++ rest in
     let p := len pre in
     let g := p + 1 + len tag in
     neutral (Heuristic.scan t p) ->
     Heuristic.isLikelyTagStart t p = true ->
     tag <> [] -> forallb tagBodyChar tag = true ->
     forallb plainContentChar content = true ->
     (forall offset, p < offset <= g ->
        Heuristic.isInJsxTextContent t offset = false)
     /\ (forall offset, g < offset <= g + 1 + len content ->
           Heuristic.isInJsxTextContent t offset = true))
  /\ (forall (createSourceFile : string -> str -> ScriptKind -> Node)
             (probe : JsxContextProbe) (chain : list Node),
        has MARKUP_LANGUAGES (languageId probe) = false ->
        Tree.findDeepestNode
          (createSourceFile (fileName probe) (text probe)
                            (Tree.toScriptKind (languageId probe)))
          (offset probe) [] = Some chain ->
        (forall n, In n chain ->
           TreeNotions.inTagRegion (offset probe) n ->
           Tree.isJsxTextContext createSourceFile probe = false)
        /\ (0 <= offset probe <= len (text probe) ->
            Tree.containsJsx
              (createSourceFile (fileName probe) (text probe)
                                (Tree.toScriptKind (languageId probe)))
            = true ->
            TreeNotions.inElementContent (offset probe) chain ->
            Tree.isJsxTextContext createSourceFile probe
            = negb (Markup.isInsideTagAttributes (text probe)
                                                 (offset probe))))
  /\ (forall (pre tag content rest : str) (offset : Z),
        forallb plainContentChar content = true ->
        len pre + 1 + len tag < offset
        <= len pre + 1 + len tag + 1 + len content ->
        Markup.isInsideTagAttributes
          (pre ++ LT :: tag ++ GT :: content ++ rest) offset = false)
  /\ (forall (createSourceFile : string -> str -> ScriptKind -> Node)
             (l f : string) (name content : str),
        let t := LT :: name ++ GT :: content ++ LT :: SLASH :: name ++ [GT] in
        has MARKUP_LANGUAGES l = false ->
        name <> [] ->
        forallb plainContentChar content = true ->
        createSourceFile f t (Tree.toScriptKind l)
        = ParseModel.elementFile (len name) (len content) ->
        (forall offset, 0 < offset <= len name + 1 ->
           Tree.isJsxTextContext createSourceFile (mkProbe l f t offset)
           = false)
        /\ (forall offset,
              len name + 1 < offset <= len name + 2 + len content ->
              Tree.isJsxTextContext createSourceFile (mkProbe l f t offset)
              = true)).
Proof.
  split; [|split; [|split]].
  - intros pre tag content rest. apply heuristic_element.
  - intros csf probe chain Hm Hfind. split.
    + intros n Hin Hr.
      now apply (isJsxTextContext_tag_region csf probe chain n).
    + intros Hr Hjsx Hc.
      now apply (isJsxTextContext_content csf probe chain).
  - intros pre tag content rest off Hc Ho.
    now apply isInsideTagAttributes_in_content.
  - intros csf l f name content. apply tree_element.
Qed.

(** The hypotheses of [plain_element_tag_and_content] hold of
    [<div id=a>Hello</div>] for the heuristic scanner and of
    [<div>Hello</div>] for the syntax-tree classifier: at offset 3 the node
    found in the tree of the text is the name of the opening tag, at offset 7
    it is the text node of the element. *)
Lemma plain_element_tag_and_content_witness :
  Heuristic.isInJsxTextContent (lit "<div id=a>Hello</div>") 7 = false
  /\ Heuristic.isInJsxTextContent (lit "<div id=a>Hello</div>") 12 = true
  /\ Tree.isJsxTextContext
       (fun _ _ _ => ParseModel.elementFile 3 5)
       (mkProbe "javascriptreact" "a.jsx" (lit "<div>Hello</div>") 3) = false
  /\ Tree.isJsxTextContext
       (fun _ _ _ => ParseModel.elementFile 3 5)
       (mkProbe "javascriptreact" "a.jsx" (lit "<div>Hello</div>") 7)
     = negb (Markup.isInsideTagAttributes (lit "<div>Hello</div>") 7)
  /\ Markup.isInsideTagAttributes (lit "<div>Hello</div>") 7 = false
  /\ Tree.isJsxTextContext
       (fun _ _ _ => ParseModel.elementFile 3 5)
       (mkProbe "typescriptreact" "a.tsx" (lit "<div>Hello</div>") 3) = false
  /\ Tree.isJsxTextContext
       (fun _ _ _ => ParseModel.elementFile 3 5)
       (mkProbe "typescriptreact" "a.tsx" (lit "<div>Hello</div>") 7) = true.
Proof.
  destruct plain_element_tag_and_content as (Hh & Hany & Hfb & Ht).
  destruct (Hh [] (lit "div id=a") (lit "Hello") (lit "</div>"))
    as [Hh1 Hh2]; try reflexivity.
  { repeat split. }
  { discriminate. }
  destruct (Ht (fun _ _ _ => ParseModel.elementFile 3 5)
               "typescriptreact"%string "a.tsx"%string
               (lit "div") (lit "Hello"))
    as [Ht1 Ht2]; try reflexivity.
  { discriminate. }
  split; [|split; [|split; [|split; [|split; [|split]]]]].
  - apply (Hh1 7). vm_compute. split; [reflexivity|discriminate].
  - apply (Hh2 12). vm_compute. split; [reflexivity|discriminate].
  - edestruct (Hany (fun _ _ _ => ParseModel.elementFile 3 5)
                    (mkProbe "javascriptreact" "a.jsx"
                             (lit "<div>Hello</div>") 3))
      as [Htag _].
    + reflexivity.
    + vm_compute. reflexivity.
    + refine (Htag (ParseModel.openingElement 0 0 4) _ _).
      * vm_compute. auto.
      * right. vm_compute. split; reflexivity.
  - edestruct (Hany (fun _ _ _ => ParseModel.elementFile 3 5)
                    (mkProbe "javascriptreact" "a.jsx"
                             (lit "<div>Hello</div>") 7))
      as [_ Hcontent].
    + reflexivity.
    + vm_compute. reflexivity.
    + apply Hcontent.
      * vm_compute. split; discriminate.
      * reflexivity.
      * content_chain.
  - apply (Hfb [] (lit "div") (lit "Hello") (lit "</div>") 7).
    + reflexivity.
    + vm_compute. split; [reflexivity|discriminate].
  - apply (Ht1 3). vm_compute. split; [reflexivity|discriminate].
  - apply (Ht2 7). vm_compute. split; [reflexivity|discriminate].
Defined.

(** ** Embedded expressions *)

Section ExpressionRegion.
Import Heuristic.

(** In content and outside literals, a character of [plainCodeChar] changes
    nothing. *)
Lemma body_contentcode_inert t k s c :
  inContentCode s -> charAt t k = Some c -> plainCodeChar c = true ->
  body t k s = (s, k).
Proof.
  intros ((Hc & Hb & Ht) & Hs & Hm) Hk Hp. unfold plainCodeChar in Hp.
  apply negb_true_iff in Hp. repeat (apply orb_false_iff in Hp as [Hp ?]).
  destruct s as [iS sC iT tD bD jB jT iJ lC iC]. simpl in Hc, Hb, Ht, Hs, Hm.
  subst. unfold body, trackCodeBraces, trackJsxBraces, tagRules. simpl.
  rewrite Hk. simpl.
  repeat match goal with H : N.eqb _ _ = false |- _ => rewrite H; clear H end.
  simpl. destruct (N.eqb c RBRACE), (N.eqb c GT); reflexivity.
Qed.

(** The [{] that opens an expression in content. *)
Lemma body_open_expression t k s :
  inContentCode s -> charAt t k = Some LBRACE ->
  inExpression 1 (fst (body t k s)) /\ snd (body t k s) = k.
Proof.
  intros ((Hc & Hb & Ht) & Hs & Hm) Hk.
  destruct s as [iS sC iT tD bD jB jT iJ lC iC]. simpl in Hc, Hb, Ht, Hs, Hm.
  subst. unfold body, trackCodeBraces, trackJsxBraces, tagRules. simpl.
  rewrite Hk. simpl. unfold inExpression. simpl. now repeat split.
Qed.

(** Inside an expression, a character that starts no literal moves only the
    brace depth, as long as the expression stays open. *)
Lemma body_expression t k s c d r :
  inExpression d s -> 1 <= d -> charAt t k = Some c ->
  noQuoteChar c = true -> neverCloses (d - 1) (c :: r) = true ->
  exists d', 1 <= d' /\ inExpression d' (fst (body t k s))
             /\ snd (body t k s) = k
             /\ neverCloses (d' - 1) r = true.
Proof.
  intros (Hc & Ht & Hs & Hm & Hb) Hd Hk Hq Hn. unfold noQuoteChar in Hq.
  apply negb_true_iff in Hq. repeat (apply orb_false_iff in Hq as [Hq ?]).
  destruct s as [iS sC iT tD bD jB jT iJ lC iC]. simpl in Hc, Hb, Ht, Hs, Hm.
  subst. simpl in Hn.
  unfold body, trackCodeBraces, trackJsxBraces, tagRules. simpl.
  rewrite Hk. simpl.
  repeat match goal with H : N.eqb _ _ = false |- _ => rewrite H; clear H end.
  simpl. unfold inExpression.
  destruct (N.eqb c LBRACE) eqn:El.
  - simpl. destruct (Z.ltb_spec 0 (d + 1)); [|lia]. simpl.
    exists (d + 1). replace (d + 1 - 1) with (d - 1 + 1) by lia.
    repeat split; try lia. exact Hn.
  - destruct (N.eqb c RBRACE) eqn:Er.
    + apply andb_true_iff in Hn as [Hpos Hn]. apply Z.ltb_lt in Hpos.
      destruct (Z.ltb_spec 0 d); [|lia]. simpl.
      destruct (Z.ltb_spec 0 (d - 1)); [|lia]. simpl.
      exists (d - 1). repeat split; try lia. exact Hn.
    + simpl. destruct (Z.ltb_spec 0 d); [|lia]. simpl.
      exists d. repeat split; try lia. exact Hn.
Qed.

Lemma run_through t offset p i s :
  eqc (charAt t p) GT = false -> eqc (charAt t p) SLASH = false ->
  i <= p <= offset ->
  run t offset i s = run t offset p (run t p i s).
Proof.
  intros Hg Hs Hi. unfold run at 1. apply loop_through; try assumption. lia.
Qed.

Lemma drop_charAt (l : str) k c r :
  0 <= k -> drop (Z.to_nat k) l = c :: r ->
  charAt l k = Some c /\ drop (Z.to_nat (k + 1)) l = r.
Proof.
  intros Hk Hd. split.
  - rewrite charAt_drop by exact Hk. now rewrite Hd.
  - replace (Z.to_nat (k + 1)) with (S (Z.to_nat k)) by lia.
    revert l Hd. generalize (Z.to_nat k) as n.
    induction n as [|n IH]; intros l Hd.
    + simpl in Hd. subst. reflexivity.
    + destruct l as [|x l']; [discriminate|]. simpl in Hd. now apply IH.
Qed.

Lemma drop_some (l : str) k :
  0 <= k < len l -> exists c r, drop (Z.to_nat k) l = c :: r.
Proof.
  intros Hk. destruct (drop (Z.to_nat k) l) as [|c r] eqn:E;
    [|now exists c, r].
  exfalso. assert (Hc : charAt l k = None)
    by (rewrite charAt_drop by lia; now rewrite E).
  unfold charAt in Hc. destruct (Z.ltb_spec k 0); [lia|].
  apply nth_error_None in Hc. unfold len in Hk. lia.
Qed.

(** From the [{] at [b] met in content and outside literals, through an
    expression whose braces never close it: the loop leaves inside the
    expression. *)
Lemma expression_region t b expr s :
  0 <= b -> inContentCode s -> charAt t b = Some LBRACE ->
  (forall k, b < k <= b + len expr -> charAt t k = charAt expr (k - b - 1)) ->
  forallb noQuoteChar expr = true -> neverCloses 0 expr = true ->
  forall offset, b < offset <= b + 1 + len expr ->
    1 <= jsxBraceDepth (run t offset b s).
Proof.
  intros Hb Hs Hbrace Hexpr Hq Hn off Ho.
  set (P := fun (k : Z) (st : ScanState) =>
              (k = b /\ st = s)
              \/ (b < k /\ exists d, 1 <= d /\ inExpression d st
                    /\ neverCloses (d - 1)
                         (drop (Z.to_nat (k - b - 1)) expr) = true)).
  destruct (run_invariant_at P t off b s) as (k & Hk & HP).
  - intros k st Hko [[-> ->]|[Hk (d & Hd & Hst & Hnc)]].
    + destruct (body_open_expression t b s Hs Hbrace) as [Hin Hidx].
      rewrite Hidx. right. split; [lia|]. exists 1. split; [lia|].
      split; [exact Hin|]. replace (b + 1 - b - 1) with 0 by lia.
      exact Hn.
    + destruct (drop_some expr (k - b - 1) ltac:(lia)) as (c & r & Hdrop).
      destruct (drop_charAt expr (k - b - 1) c r ltac:(lia) Hdrop)
        as [Hc Hnext].
      rewrite Hdrop in Hnc.
      assert (Hck : charAt t k = Some c) by (rewrite Hexpr by lia; exact Hc).
      assert (Hcq : noQuoteChar c = true).
      { destruct (charAt_forallb noQuoteChar expr (k - b - 1) Hq
                    ltac:(lia)) as (c' & Hc' & Hq').
        rewrite Hc in Hc'. injection Hc' as <-. exact Hq'. }
      destruct (body_expression t k st c d r Hst Hd Hck Hcq Hnc)
        as (d' & Hd' & Hin & Hidx & Hnc').
      rewrite Hidx. right. split; [lia|]. exists d'. split; [exact Hd'|].
      split; [exact Hin|].
      replace (k + 1 - b - 1) with (k - b - 1 + 1) by lia.
      rewrite Hnext. exact Hnc'.
  - left. now split.
  - destruct HP as [[-> _]|[_ (d & Hd & (_ & _ & _ & _ & Hdepth) & _)]];
      [lia|]. now rewrite Hdepth.
Qed.

End ExpressionRegion.

Section ExpressionTheorem.
Import Heuristic.

(** As [element_region], with content that starts no literal: the loop
    leaves in content and outside literals. *)
Lemma open_tag_region t p g e s :
  0 <= p -> p + 1 < g ->
  neutral s -> charAt t p = Some LT -> isLikelyTagStart t p = true ->
  (forall k, p < k < g ->
     exists c, charAt t k = Some c /\ tagBodyChar c = true) ->
  charAt t g = Some GT ->
  (forall k, g < k < e ->
     exists c, charAt t k = Some c /\ plainCodeChar c = true) ->
  forall offset, g < offset <= e -> inContentCode (run t offset p s).
Proof.
  intros Hp Hpg Hn Hlt Hlikely Htag Hgt Hcontent off Hoff.
  set (P := fun (k : Z) (st : ScanState) =>
              (k = p /\ st = s)
              \/ (p < k <= g /\ inTagCode st)
              \/ (g < k /\ inContentCode st)).
  destruct (run_invariant_at P t off p s) as (k & Hk & HP).
  - intros k st Hko [[-> ->]|[[Hk Hst]|[Hk Hst]]].
    + destruct (Htag (p + 1) ltac:(lia)) as (c & Hc & Hcb).
      unfold tagBodyChar in Hcb. apply negb_true_iff in Hcb.
      repeat (apply orb_false_iff in Hcb as [Hcb ?]).
      rewrite (body_open t p s c Hn Hlt Hlikely Hc) by assumption.
      simpl. right. left. split; [lia|].
      destruct Hn as (Hs & Hm & Ht & Hb). unfold inTagCode. simpl.
      now repeat split.
    + destruct (Z.eq_dec k g) as [->|Hne].
      * rewrite (body_close t g st Hst Hgt).
        rewrite (closeTag_opening t p g st ltac:(lia) Hlt).
        { simpl. right. right. split; [lia|].
          destruct Hst as (_ & Hs & Hm & Hb).
          unfold inContentCode, inContent. simpl. now repeat split. }
        intros j Hj. destruct (Htag j Hj) as (c & Hc & Hcb).
        unfold tagBodyChar in Hcb. apply negb_true_iff in Hcb.
        repeat (apply orb_false_iff in Hcb as [Hcb ?]).
        rewrite Hc. assumption.
      * destruct (Htag k ltac:(lia)) as (c & Hc & Hcb).
        rewrite (body_tagcode_inert t k st c Hst Hc Hcb). simpl.
        right. left. split; [lia|exact Hst].
    + destruct (Hcontent k ltac:(lia)) as (c & Hc & Hcb).
      rewrite (body_contentcode_inert t k st c Hst Hc Hcb). simpl.
      right. right. split; [lia|exact Hst].
  - left. now split.
  - destruct HP as [[-> _]|[[Hkg _]|[_ H]]]; [lia|lia|exact H].
Qed.

(** The heuristic scanner inside the braces of an expression of the
    content. *)
Lemma heuristic_expression (pre tag content expr rest : str) :
  let t := pre ++ LT :: tag ++ GT :: content
               ++ LBRACE :: expr ++ RBRACE :: rest in
  let p := len pre in
  let b := p + 1 + len tag + 1 + len content in
  neutral (scan t p) -> isLikelyTagStart t p = true ->
  tag <> [] -> forallb tagBodyChar tag = true ->
  forallb plainCodeChar content = true ->
  forallb noQuoteChar expr = true -> neverCloses 0 expr = true ->
  forall offset, b < offset <= b + 1 + len expr ->
    isInJsxTextContent t offset = false.
Proof.
  intros t p b Hn Hl Hne Htag Hcontent Hq Hnc off Ho.
  destruct (element_shape pre tag content (LBRACE :: expr ++ RBRACE :: rest))
    as (Hp & Hb & Hg & Hc & Hrest).
  fold t p in Hp, Hb, Hg, Hc, Hrest.
  set (g := p + 1 + len tag) in *.
  replace (g + 1 + len content) with b in * by (unfold b, g; lia).
  pose proof (len_nonneg pre). pose proof (len_nonneg tag).
  pose proof (len_nonneg content). pose proof (len_nonneg expr).
  assert (Htlen : 0 < len tag).
  { destruct tag as [|c0 tag0]; [congruence|]. rewrite len_cons.
    pose proof (len_nonneg tag0). lia. }
  assert (Hbrace : charAt t b = Some LBRACE).
  { rewrite Hrest by lia. now rewrite Z.sub_diag. }
  unfold isInJsxTextContent.
  rewrite (scan_through t off p) by (rewrite ?Hp; try reflexivity;
                                     unfold p in *; lia).
  rewrite (run_through t off b p) by (rewrite ?Hbrace; try reflexivity;
                                      unfold b, g in *; lia).
  assert (Hs : inContentCode (run t b p (scan t p))).
  { apply (open_tag_region t p g b); try assumption;
      try (unfold b, g, p in *; lia).
    - intros k Hk. rewrite Hb by exact Hk.
      apply charAt_forallb; [exact Htag|]. unfold g in Hk. lia.
    - intros k Hk. rewrite Hc by (unfold b in *; lia).
      apply charAt_forallb; [exact Hcontent|]. unfold b in *. lia. }
  assert (Hd : 1 <= jsxBraceDepth
                      (run t off b (run t b p (scan t p)))).
  { apply (expression_region t b expr); try assumption;
      try (unfold b, g, p in *; lia).
    intros k Hk. rewrite Hrest by lia.
    rewrite charAt_cons_succ by lia. rewrite charAt_app_l by lia.
    f_equal; lia. }
  unfold verdict.
  destruct (Z.eqb_spec (jsxBraceDepth (run t off b (run t b p (scan t p)))) 0);
    [lia|]. now rewrite andb_false_r.
Qed.

End ExpressionTheorem.

Section ExpressionTree.
Import Tree.

Lemma isInsideJsxExpressionContext_in chain offset n :
  In n chain -> kind n = JsxExpression ->
  getStart n < offset < getEnd n ->
  isInsideJsxExpressionContext chain offset = true.
Proof.
  intros Hin Hk Hs. induction chain as [|c r IH]; [contradiction|].
  simpl. destruct Hin as [->|Hin].
  - rewrite Hk. unfold strictlyInside.
    destruct (Z.ltb_spec (getStart n) offset); [|lia].
    destruct (Z.ltb_spec offset (getEnd n)); [|lia]. reflexivity.
  - specialize (IH Hin). destruct (kind c); try exact IH.
    destruct (strictlyInside c offset); [reflexivity|exact IH].
Qed.

(** Whatever the tree: a node found under an embedded expression that
    holds the offset strictly inside is classified false. *)
Lemma classifyChain_inside_expression chain fullText offset n :
  In n chain -> kind n = JsxExpression ->
  getStart n < offset < getEnd n ->
  classifyChain chain fullText offset = false.
Proof.
  intros Hin Hk Hs. unfold classifyChain.
  destruct (isInsideJsxAttributeArea chain fullText offset); [reflexivity|].
  now rewrite (isInsideJsxExpressionContext_in chain offset n).
Qed.

End ExpressionTree.

(** Claim C2, as stated, fails for the heuristic scanner when the expression
    holds a [}] that is not code: in [<div>{/* } */}</div>] the brace inside
    the comment closes the expression for the scanner, and offset 10, inside
    the braces, is classified true. *)
Lemma brace_in_comment_closes_expression :
  Heuristic.isInJsxTextContent (lit "<div>{/* } */}</div>") 10 = true.
Proof. reflexivity. Qed.

(** Claim C2, amended.  The heuristic scanner: for a text
    [pre ++ < tag > content { expr } rest] where the scanner reaches the [<]
    in code and accepts it, the tag is not empty and holds no [>], quote,
    backtick, [<] or [/], the content before the
    expression holds no [<], [{], quote or backtick, and the expression holds
    no quote or backtick and none of its prefixes has more [}] than [{], every
    offset strictly inside the braces is classified false.  The syntax-tree
    classifier: whenever the node found lies under an embedded-expression
    node that holds the offset strictly inside, the verdict is false, whatever
    the rest of the tree.  In particular for
    [<div>{cond && <span>X</span>}</div>], with the tree of
    [nestedExpressionFile], both classifiers answer false at every offset
    strictly inside the braces, the offsets around [X] included. *)
Theorem embedded_expression_opacity :
  (forall pre tag content expr rest : str,
     let t := pre ++ LT :: tag ++ GT :: content
                  ++ LBRACE :: expr ++ RBRACE :: rest in
     let p := len pre in
     let b := p + 1 + len tag + 1 + len content in
     neutral (Heuristic.scan t p) ->
     Heuristic.isLikelyTagStart t p = true ->
     tag <> [] -> forallb tagBodyChar tag = true ->
     forallb plainCodeChar content = true ->
     forallb noQuoteChar expr = true -> neverCloses 0 expr = true ->
     forall offset, b < offset <= b + 1 + len expr ->
       Heuristic.isInJsxTextContent t offset = false)
  /\ (forall (createSourceFile : string -> str -> ScriptKind -> Node)
             (probe : JsxContextProbe) (chain : list Node) (n : Node),
        has MARKUP_LANGUAGES (languageId probe) = false ->
        Tree.findDeepestNode
          (createSourceFile (fileName probe) (text probe)
                            (Tree.toScriptKind (languageId probe)))
          (offset probe) [] = Some chain ->
        In n chain -> kind n = JsxExpression ->
        getStart n < offset probe < getEnd n ->
        Tree.isJsxTextContext createSourceFile probe = false)
  /\ (forall (createSourceFile : string -> str -> ScriptKind -> Node)
             (l f : string) (offset : Z),
        let t := lit "<div>{cond && <span>X</span>}</div>" in
        has MARKUP_LANGUAGES l = false ->
        createSourceFile f t (Tree.toScriptKind l)
        = ParseModel.nestedExpressionFile ->
        5 < offset < 29 ->
        Heuristic.isInJsxTextContent t offset = false
        /\ Tree.isJsxTextContext createSourceFile (mkProbe l f t offset)
           = false).
Proof.
  split; [|split].
  - intros pre tag content expr rest. apply heuristic_expression.
  - intros csf probe chain n Hm Hfind Hin Hk Hs.
    unfold Tree.isJsxTextContext. rewrite Hm.
    destruct (_ || _); [reflexivity|].
    destruct (negb _); [reflexivity|].
    rewrite Hfind.
    pose proof (classifyChain_inside_expression chain (text probe)
                  (offset probe) n Hin Hk Hs) as Hc.
    unfold classifyChain in Hc. exact Hc.
  - intros csf l f off t Hm Hparse Ho.
    assert (Hall :
      forallb
        (fun o =>
           negb (Heuristic.isInJsxTextContent t o)
           && negb (match Tree.findDeepestNode ParseModel.nestedExpressionFile
                            o [] with
                    | Some chain => classifyChain chain t o
                    | None => false
                    end))
        (Reference.range 6 23) = true) by (vm_compute; reflexivity).
    rewrite forallb_forall in Hall.
    specialize (Hall off ltac:(apply range_In; lia)).
    apply andb_true_iff in Hall as [Hh Ht].
    apply negb_true_iff in Hh, Ht. split; [exact Hh|].
    rewrite isJsxTextContext_eq
      by (cbn [Lang.offset Lang.text Lang.languageId];
          (exact Hm || (unfold t, len; simpl; lia))).
    cbn [Lang.offset Lang.text Lang.languageId Lang.fileName]. cbv zeta.
    rewrite Hparse. destruct (negb _); [reflexivity|exact Ht].
Qed.

(** The hypotheses of [embedded_expression_opacity] hold of
    [<div>{cond && <span>X</span>}</div>] at offset 20, before [X]. *)
Lemma embedded_expression_opacity_witness :
  let t := lit "<div>{cond && <span>X</span>}</div>" in
  Heuristic.isInJsxTextContent t 20 = false
  /\ Tree.isJsxTextContext (fun _ _ _ => ParseModel.nestedExpressionFile)
       (mkProbe "typescriptreact" "a.tsx" t 20) = false
  /\ Tree.isJsxTextContext (fun _ _ _ => ParseModel.nestedExpressionFile)
       (mkProbe "javascriptreact" "a.jsx" t 21) = false.
Proof.
  intros t.
  destruct embedded_expression_opacity as (Hh & Hchain & Hex).
  split; [|split].
  - apply (Hh [] (lit "div") [] (lit "cond && <span>X</span>")
              (lit "</div>")); try reflexivity.
    + repeat split.
    + discriminate.
    + vm_compute. split; [reflexivity|discriminate].
  - apply (Hex (fun _ _ _ => ParseModel.nestedExpressionFile)
               "typescriptreact"%string "a.tsx"%string 20);
      [reflexivity|reflexivity|lia].
  - eapply (Hchain (fun _ _ _ => ParseModel.nestedExpressionFile)
                   (mkProbe "javascriptreact" "a.jsx" t 21) _
                   (ParseModel.jsxExpression 5 29
                      (ParseModel.other 6 6 28
                         [ParseModel.token 6 10; ParseModel.tokenAt 10 11 13;
                          ParseModel.element 13 14 4 1]
                         [ParseModel.token 6 10; ParseModel.tokenAt 10 11 13;
                          ParseModel.element 13 14 4 1]))).
    + reflexivity.
    + vm_compute. reflexivity.
    + simpl. auto 12.
    + reflexivity.
    + vm_compute. split; reflexivity.
Defined.

(** ** Generic arguments and comparisons against tags *)

Section Disambiguation.
Import Heuristic.

(** A tree without a node of a tag kind is classified false everywhere. *)
Lemma isJsxTextContext_without_jsx csf probe :
  has MARKUP_LANGUAGES (languageId probe) = false ->
  Tree.containsJsx
    (csf (fileName probe) (text probe) (Tree.toScriptKind (languageId probe)))
  = false ->
  Tree.isJsxTextContext csf probe = false.
Proof.
  intros Hm Hc. unfold Tree.isJsxTextContext. rewrite Hm, Hc.
  now destruct (_ || _).
Qed.

Lemma notTagInputs_heuristic t offset :
  In t notTagInputs -> 0 <= offset <= len t ->
  isInJsxTextContent t offset = false.
Proof.
  intros Hin Ho.
  assert (Hall :
    forallb
      (fun t => forallb (fun o => negb (isInJsxTextContent t o))
                        (Reference.range 0 (S (List.length t))))
      notTagInputs = true) by (vm_compute; reflexivity).
  rewrite forallb_forall in Hall. specialize (Hall t Hin).
  rewrite forallb_forall in Hall.
  specialize (Hall offset ltac:(apply range_In; unfold len in Ho; lia)).
  now apply negb_true_iff in Hall.
Qed.

(** After each predecessor the scanner is in code and accepts the [<] of
    [<div>], whatever follows the tag. *)
Lemma tagPredecessors_accept pre content rest :
  In pre tagPredecessors ->
  let t := pre ++ LT :: lit "div" ++ GT :: content ++ rest in
  neutral (scan t (len pre)) /\ isLikelyTagStart t (len pre) = true.
Proof.
  intros Hin.
  repeat (destruct Hin as [<-|Hin]; [split; [repeat split|reflexivity]|]).
  contradiction.
Qed.

Lemma tagPredecessors_heuristic pre content rest offset :
  In pre tagPredecessors ->
  forallb plainContentChar content = true ->
  len pre + 4 < offset <= len pre + 5 + len content ->
  isInJsxTextContent (pre ++ LT :: lit "div" ++ GT :: content ++ rest) offset
  = true.
Proof.
  intros Hin Hc Ho.
  destruct (tagPredecessors_accept pre content rest Hin) as [Hn Hl].
  destruct (heuristic_element pre (lit "div") content rest Hn Hl)
    as [_ Htrue]; try reflexivity; [discriminate|exact Hc|].
  apply Htrue. change (len (lit "div")) with 3. lia.
Qed.

Lemma genericArguments_fallback t a b offset :
  In (t, a, b) genericArguments -> a < offset < b ->
  Markup.isInsideTagAttributes t offset = true.
Proof.
  intros Hin Ho.
  assert (Hall :
    forallb
      (fun x : str * Z * Z =>
         forallb (Markup.isInsideTagAttributes (fst (fst x)))
                 (Reference.range (snd (fst x) + 1)
                    (Z.to_nat (snd x - snd (fst x) - 1))))
      genericArguments = true) by (vm_compute; reflexivity).
  rewrite forallb_forall in Hall. specialize (Hall _ Hin).
  cbn [fst snd] in Hall. rewrite forallb_forall in Hall.
  apply Hall. apply range_In. lia.
Qed.

(** In the content of the element after a predecessor, a node found in the
    content of an element is classified true, whatever the tree. *)
Lemma tagPredecessors_tree csf l f pre content rest offset chain :
  let t := pre ++ LT :: lit "div" ++ GT :: content ++ rest in
  forallb plainContentChar content = true ->
  len pre + 4 < offset <= len pre + 5 + len content ->
  has MARKUP_LANGUAGES l = false ->
  Tree.containsJsx (csf f t (Tree.toScriptKind l)) = true ->
  Tree.findDeepestNode (csf f t (Tree.toScriptKind l)) offset [] = Some chain ->
  TreeNotions.inElementContent offset chain ->
  Tree.isJsxTextContext csf (mkProbe l f t offset) = true.
Proof.
  intros t Hc Ho Hm Hjsx Hfind Hin.
  pose proof (len_nonneg pre). pose proof (len_nonneg content).
  pose proof (len_nonneg rest).
  assert (Hlen : len t = len pre + 5 + len content + len rest).
  { unfold t. rewrite len_app, len_cons, len_app, len_cons, len_app.
    change (len (lit "div")) with 3. lia. }
  rewrite (isJsxTextContext_content csf (mkProbe l f t offset) chain);
    cbn [Lang.offset Lang.text Lang.languageId Lang.fileName];
    try assumption; [|lia].
  unfold t.
  rewrite (isInsideTagAttributes_in_content pre (lit "div") content rest);
    [reflexivity|exact Hc|].
  change (len (lit "div")) with 3. lia.
Qed.

End Disambiguation.

(** Claim C3.  For each of [useState<string>(...)], [Array<number>],
    [Map<string, number>], [function f<T>(...)], [a < b], [a > b], [a <= b]
    and [x < y ? 1 : 2] the heuristic scanner answers false at every offset
    of the text, and so does the syntax-tree classifier when the parser finds
    no tag in it; at the offsets of the characters between the brackets of
    the four generic argument lists the syntax-tree classifier answers false
    whatever tree the parser returns.  After each of [cond && ], [cond || ],
    [return ] and [a ? ], at every offset of the content of
    [<div>content</div>], for every content without [<] and [{], the
    heuristic scanner answers true, and so does the syntax-tree classifier,
    whatever tree the parser returns, when the node it finds lies in the
    content of an element.  For the four texts with the content [X], parsed
    into their trees, both classifiers answer true before and after [X]. *)
Theorem generic_comparison_vs_tag :
  (forall (t : str) (offset : Z),
     In t notTagInputs -> 0 <= offset <= len t ->
     Heuristic.isInJsxTextContent t offset = false
     /\ forall (createSourceFile : string -> str -> ScriptKind -> Node)
               (l f : string),
          has MARKUP_LANGUAGES l = false ->
          Tree.containsJsx (createSourceFile f t (Tree.toScriptKind l))
          = false ->
          Tree.isJsxTextContext createSourceFile (mkProbe l f t offset)
          = false)
  /\ (forall (t : str) (a b offset : Z)
             (createSourceFile : string -> str -> ScriptKind -> Node)
             (l f : string),
        In (t, a, b) genericArguments -> a < offset < b ->
        has MARKUP_LANGUAGES l = false ->
        Tree.isJsxTextContext createSourceFile (mkProbe l f t offset)
        = false)
  /\ (forall (pre content rest : str) (offset : Z),
        let t := pre ++ LT :: lit "div" ++ GT :: content ++ rest in
        In pre tagPredecessors ->
        forallb plainContentChar content = true ->
        len pre + 4 < offset <= len pre + 5 + len content ->
        Heuristic.isInJsxTextContent t offset = true
        /\ forall (createSourceFile : string -> str -> ScriptKind -> Node)
                  (l f : string) (chain : list Node),
             has MARKUP_LANGUAGES l = false ->
             Tree.containsJsx (createSourceFile f t (Tree.toScriptKind l))
             = true ->
             Tree.findDeepestNode
               (createSourceFile f t (Tree.toScriptKind l)) offset []
             = Some chain ->
             TreeNotions.inElementContent offset chain ->
             Tree.isJsxTextContext createSourceFile (mkProbe l f t offset)
             = true)
  /\ (forall (t : str) (tree : Node) (g : Z)
             (createSourceFile : string -> str -> ScriptKind -> Node)
             (l f : string) (offset : Z),
        In (t, tree, g) tagInputs ->
        has MARKUP_LANGUAGES l = false ->
        createSourceFile f t (Tree.toScriptKind l) = tree ->
        g < offset <= g + 2 ->
        Heuristic.isInJsxTextContent t offset = true
        /\ Tree.isJsxTextContext createSourceFile (mkProbe l f t offset)
           = true).
Proof.
  split; [|split; [|split]].
  - intros t off Hin Ho. split.
    + now apply notTagInputs_heuristic.
    + intros csf l f Hm Hc. now apply isJsxTextContext_without_jsx.
  - intros t a b off csf l f Hin Ho Hm.
    apply isJsxTextContext_fallback; [exact Hm|].
    now apply (genericArguments_fallback t a b).
  - intros pre content rest off t Hin Hc Ho. split.
    + now apply tagPredecessors_heuristic.
    + intros csf l f chain Hm Hjsx Hfind Hcontent.
      now apply (tagPredecessors_tree csf l f pre content rest off chain).
  - intros t tree g csf l f off Hin Hm Hparse Ho.
    assert (Hall :
      forallb
        (fun '(t, tree, g) =>
           forallb
             (fun o =>
                Heuristic.isInJsxTextContent t o
                && (0 <=? o) && (o <=? len t)
                && Tree.containsJsx tree
                && match Tree.findDeepestNode tree o [] with
                   | Some chain => classifyChain chain t o
                   | None => false
                   end)
             (Reference.range (g + 1) 2))
        tagInputs = true) by (vm_compute; reflexivity).
    rewrite forallb_forall in Hall. specialize (Hall _ Hin).
    cbv beta iota in Hall.
    rewrite forallb_forall in Hall.
    specialize (Hall off ltac:(apply range_In; lia)).
    apply andb_true_iff in Hall as [Hall Hchain].
    apply andb_true_iff in Hall as [Hall Hjsx].
    apply andb_true_iff in Hall as [Hall Hhi].
    apply andb_true_iff in Hall as [Hall Hlo].
    apply Z.leb_le in Hhi, Hlo.
    split; [exact Hall|].
    rewrite isJsxTextContext_eq
      by (cbn [Lang.offset Lang.text Lang.languageId]; (exact Hm || lia)).
    cbn [Lang.offset Lang.text Lang.languageId Lang.fileName]. cbv zeta.
    rewrite Hparse, Hjsx. exact Hchain.
Qed.

(** The hypotheses of [generic_comparison_vs_tag] hold of [a < b] at
    offset 2, of [Array<number>] at offset 8, of
    [return <div>some text</div>] at offset 15 and of [cond && <div>X</div>]
    at offset 13, where the node found in the tree of the text is the text
    node of the element. *)
Lemma generic_comparison_vs_tag_witness :
  Heuristic.isInJsxTextContent (lit "a < b") 2 = false
  /\ Tree.isJsxTextContext
       (fun _ t _ => ParseModel.sourceFile (len t) [])
       (mkProbe "typescript" "a.ts" (lit "a < b") 2) = false
  /\ Tree.isJsxTextContext
       (fun _ t _ => ParseModel.sourceFile (len t) [])
       (mkProbe "typescript" "a.ts" (lit "Array<number>") 8) = false
  /\ Heuristic.isInJsxTextContent (lit "return <div>some text</div>") 15
     = true
  /\ Tree.isJsxTextContext (fun _ _ _ => ParseModel.logicalFile)
       (mkProbe "javascriptreact" "a.jsx" (lit "cond && <div>X</div>") 14)
     = true
  /\ Tree.isJsxTextContext (fun _ _ _ => ParseModel.logicalFile)
       (mkProbe "typescriptreact" "a.tsx" (lit "cond && <div>X</div>") 13)
     = true.
Proof.
  destruct generic_comparison_vs_tag as (Hneg & Hgen & Hpre & Hpos).
  destruct (Hneg (lit "a < b") 2) as [Hn1 Hn2].
  { simpl. auto 10. }
  { vm_compute. split; discriminate. }
  split; [exact Hn1|]. split.
  { apply Hn2; reflexivity. }
  split.
  { apply (Hgen (lit "Array<number>") 5 12 8).
    - simpl. auto.
    - split; reflexivity.
    - reflexivity. }
  split.
  { destruct (Hpre (lit "return ") (lit "some text") (lit "</div>") 15)
      as [Hh _].
    - simpl. auto.
    - reflexivity.
    - vm_compute. split; [reflexivity|discriminate].
    - exact Hh. }
  split.
  - destruct (Hpre (lit "cond && ") (lit "X") (lit "</div>") 14) as [_ Ht].
    + simpl. auto.
    + reflexivity.
    + vm_compute. split; [reflexivity|discriminate].
    + eapply (Ht (fun _ _ _ => ParseModel.logicalFile)
                 "javascriptreact"%string "a.jsx"%string).
      * reflexivity.
      * reflexivity.
      * vm_compute. reflexivity.
      * content_chain.
  - apply (Hpos (lit "cond && <div>X</div>") ParseModel.logicalFile 12
             (fun _ _ _ => ParseModel.logicalFile)
             "typescriptreact"%string "a.tsx"%string 13).
    + simpl. auto.
    + reflexivity.
    + reflexivity.
    + split; [reflexivity|discriminate].
Defined.

(** ** Substrings *)

Section Substrings.

Lemma take_nil n : take n [] = [].
Proof. now destruct n. Qed.

(** A substring, one character at a time. *)
Lemma substring_step t a b :
  0 <= a < b ->
  substring t a b
  = match charAt t a with
    | Some c => c :: substring t (a + 1) b
    | None => []
    end.
Proof.
  intros H. unfold substring. rewrite charAt_drop by lia.
  destruct (drop (Z.to_nat a) t) as [|c r] eqn:E.
  - apply take_nil.
  - destruct (drop_charAt t a c r ltac:(lia) E) as [_ ->].
    replace (Z.to_nat (b - a)) with (S (Z.to_nat (b - (a + 1)))) by lia.
    reflexivity.
Qed.

Lemma substring_empty t a : substring t a a = [].
Proof. unfold substring. now rewrite Z.sub_diag. Qed.

(** Two substrings over indices that hold the same characters are equal. *)
Lemma substring_ext t1 t2 d a b :
  0 <= a -> 0 <= d ->
  (forall k, a <= k < b -> charAt t1 k = charAt t2 (k + d)) ->
  substring t1 a b = substring t2 (a + d) (b + d).
Proof.
  intros Ha Hd. remember (Z.to_nat (b - a)) as n eqn:Hn.
  revert a Ha Hn. induction n as [|n IH]; intros a Ha Hn H.
  - unfold substring. replace (Z.to_nat (b - a)) with O by lia.
    replace (Z.to_nat (b + d - (a + d))) with O by lia. reflexivity.
  - rewrite (substring_step t1 a b) by lia.
    rewrite (substring_step t2 (a + d) (b + d)) by lia.
    rewrite <- H by lia. destruct (charAt t1 a); [|reflexivity].
    f_equal. replace (a + d + 1) with (a + 1 + d) by lia.
    apply IH; [lia|lia|]. intros k Hk. apply H. lia.
Qed.

(** A substring over characters that exist splits at any index. *)
Lemma substring_app t a m b :
  0 <= a <= m -> m <= b ->
  (forall k, a <= k < m -> charAt t k <> None) ->
  substring t a b = substring t a m ++ substring t m b.
Proof.
  intros Ha Hb. remember (Z.to_nat (m - a)) as n eqn:Hn.
  revert a Ha Hn. induction n as [|n IH]; intros a Ha Hn H.
  - assert (a = m) by lia. subst. now rewrite substring_empty.
  - rewrite (substring_step t a b), (substring_step t a m) by lia.
    destruct (charAt t a) eqn:E; [|exfalso; apply (H a); [lia|exact E]].
    simpl. f_equal. apply IH; [lia|lia|]. intros k Hk. apply H. lia.
Qed.

Lemma substring_single t a c :
  0 <= a -> charAt t a = Some c -> substring t a (a + 1) = [c].
Proof.
  intros Ha Hc. rewrite substring_step by lia. rewrite Hc.
  now rewrite substring_empty.
Qed.

Lemma startsWith_app_drop (p : str) : forall t,
  startsWith p t = true -> t = p ++ drop (List.length p) t.
Proof.
  induction p as [|a p IH]; intros t H; [reflexivity|].
  destruct t as [|b t]; [discriminate|]. simpl in H.
  apply andb_true_iff in H as [Hab H]. apply N.eqb_eq in Hab. subst.
  simpl. f_equal. now apply IH.
Qed.

Lemma forallb_last (f : char -> bool) l c :
  forallb f (l ++ [c]) = true -> f c = true.
Proof.
  rewrite forallb_app. simpl. intros H.
  apply andb_true_iff in H as [_ H]. now rewrite andb_true_r in H.
Qed.

End Substrings.

(** ** The test for what may stand before a tag *)

Section PredecessorTest.
Import Heuristic.

(** No alternative holds a [>] before its last character. *)
Lemma alternative_gt_last alt x w :
  In alt jsxPredecessors -> alt = x ++ GT :: w -> w = [].
Proof.
  intros Hin Heq. destruct w as [|c w']; [reflexivity|]. exfalso.
  assert (Hall : forallb (fun a => forallb (fun c => negb (N.eqb c GT))
                                           (removelast a))
                         jsxPredecessors = true) by reflexivity.
  rewrite forallb_forall in Hall. specialize (Hall alt Hin).
  rewrite forallb_forall in Hall. specialize (Hall GT).
  rewrite N.eqb_refl in Hall. simpl in Hall.
  assert (In GT (removelast alt)); [|now specialize (Hall H)].
  rewrite Heq. rewrite removelast_app by discriminate.
  apply in_or_app. right. simpl. now left.
Qed.

(** An alternative cannot match before a [>] that is followed by text
    ending in a character that is no white space. *)
Lemma altThenSpaces_before_gt alt u w cl :
  In alt jsxPredecessors -> isSpace cl = false ->
  altThenSpaces (u ++ GT :: w ++ [cl]) alt = false.
Proof.
  intros Hin Hcl. destruct (altThenSpaces _ alt) eqn:E; [exfalso|reflexivity].
  unfold altThenSpaces in E. apply andb_true_iff in E as [Hs Hf].
  apply startsWith_app_drop in Hs.
  set (rest' := drop (List.length alt) (u ++ GT :: w ++ [cl])) in *.
  destruct rest' as [|r0 rs] eqn:Er.
  - rewrite app_nil_r in Hs. symmetry in Hs.
    apply (alternative_gt_last alt u (w ++ [cl]) Hin) in Hs.
    now destruct w.
  - destruct (exists_last (l := r0 :: rs)) as (r'' & l & Hr);
      [discriminate|].
    rewrite Hr in Hs, Hf. apply forallb_last in Hf.
    change (u ++ GT :: w ++ [cl]) with (u ++ (GT :: w) ++ [cl]) in Hs.
    rewrite !app_assoc in Hs. apply app_inj_tail in Hs as [_ <-].
    congruence.
Qed.

Lemma jsxPredecessors_before_gt u w cl :
  isSpace cl = false ->
  existsb (altThenSpaces (u ++ GT :: w ++ [cl])) jsxPredecessors = false.
Proof.
  intros Hcl. apply not_true_is_false. intros H.
  apply existsb_exists in H as (alt & Hin & H).
  now rewrite altThenSpaces_before_gt in H.
Qed.

(** The test on [u ++ > w], where [w] ends in a character that is no white
    space, is the test on [w] after a [>]. *)
Lemma matchFrom_prefix u : forall prev w cl,
  isSpace cl = false ->
  matchFrom prev (u ++ GT :: w ++ [cl]) = matchFrom (Some GT) (w ++ [cl]).
Proof.
  induction u as [|c u IH]; intros prev w cl Hcl.
  - change ([] ++ GT :: w ++ [cl]) with (GT :: w ++ [cl]).
    unfold matchFrom at 1. fold matchFrom.
    pose proof (jsxPredecessors_before_gt [] w cl Hcl) as H.
    change ([] ++ GT :: w ++ [cl]) with (GT :: w ++ [cl]) in H.
    rewrite H. now rewrite andb_false_r.
  - change ((c :: u) ++ GT :: w ++ [cl]) with (c :: u ++ GT :: w ++ [cl]).
    unfold matchFrom at 1. fold matchFrom.
    pose proof (jsxPredecessors_before_gt (c :: u) w cl Hcl) as H.
    change ((c :: u) ++ GT :: w ++ [cl]) with (c :: u ++ GT :: w ++ [cl]) in H.
    rewrite H. rewrite andb_false_r. simpl. now apply IH.
Qed.

(** What ends an operand is no white space. *)
Lemma operandEnd_not_space c : operandEnd c = true -> isSpace c = false.
Proof.
  unfold operandEnd, isWord, isLetter, isUpper, isLower, isDigit, isSpace,
    between, UNDERSCORE, RPAREN, RBRACKET.
  intros H. apply not_true_is_false. intros Hs.
  repeat match goal with
         | H : _ || _ = true |- _ => apply orb_true_iff in H as [H|H]
         | H : _ && _ = true |- _ => apply andb_true_iff in H as [? ?]
         | H : N.leb _ _ = true |- _ => apply N.leb_le in H
         | H : N.eqb _ _ = true |- _ => apply N.eqb_eq in H
         end; lia.
Qed.

End PredecessorTest.

(** ** Two texts that agree on a region *)

Section Alignment.
Import Heuristic.

Variables (t1 t2 : str) (d lo hi : Z).
Hypothesis Hal : aligned t1 t2 d lo hi.

Lemma aligned_at k : lo <= k <= hi -> charAt t1 k = charAt t2 (k + d).
Proof. destruct Hal as (_ & _ & _ & H). apply H. Qed.

Lemma aligned_lo : charAt t1 lo = Some GT /\ charAt t2 (lo + d) = Some GT.
Proof.
  destruct Hal as (H0 & Hd & Hg & H). split; [exact Hg|].
  rewrite <- H by lia. exact Hg.
Qed.

Lemma aligned_bounds : 0 <= lo <= hi /\ 0 <= d.
Proof. destruct Hal as (H0 & Hd & _). now split. Qed.

Lemma skipBackward_step cls t j :
  0 <= j ->
  skipBackward cls t j
  = if testClass cls (charAt t j) then skipBackward cls t (j - 1) else j.
Proof.
  intros Hj. unfold skipBackward.
  replace (Z.to_nat (j + 1)) with (S (Z.to_nat (j - 1 + 1))) by lia.
  simpl. destruct (Z.leb_spec 0 j); [|lia]. reflexivity.
Qed.

(** The backward scans over a class without [>] stop in the region, at the
    same place in both texts. *)
Lemma skipBackward_aligned cls j :
  cls GT = false -> lo <= j <= hi ->
  lo <= skipBackward cls t1 j <= j
  /\ skipBackward cls t2 (j + d) = skipBackward cls t1 j + d.
Proof.
  intros Hcls Hj. destruct aligned_bounds as [Hlo Hd].
  destruct aligned_lo as [Hg1 Hg2].
  remember (Z.to_nat (j - lo)) as n eqn:Hn. revert j Hj Hn.
  induction n as [|n IH]; intros j Hj Hn.
  - assert (j = lo) by lia. subst j.
    rewrite (skipBackward_step cls t1 lo) by lia.
    rewrite (skipBackward_step cls t2 (lo + d)) by lia.
    rewrite Hg1, Hg2. simpl. rewrite Hcls. lia.
  - rewrite (skipBackward_step cls t1 j) by lia.
    rewrite (skipBackward_step cls t2 (j + d)) by lia.
    rewrite <- aligned_at by lia.
    destruct (testClass cls (charAt t1 j)); [|lia].
    replace (j + d - 1) with (j - 1 + d) by lia.
    destruct (IH (j - 1) ltac:(lia) ltac:(lia)) as [Hb He]. lia.
Qed.

Lemma sameButClose_refl a : sameButClose a a.
Proof. reflexivity. Qed.

Lemma sameButClose_withClose a b :
  sameButClose a b -> b = withClose a (lastJsxTagClose b).
Proof.
  unfold sameButClose, withClose, setTag. destruct a, b; simpl.
  intros H. injection H as -> -> -> -> -> -> -> -> ->. reflexivity.
Qed.

Lemma sameButClose_setTag a depth inTag c1 c2 content :
  sameButClose (setTag a depth inTag c1 content)
               (setTag a depth inTag c2 content).
Proof. reflexivity. Qed.

Lemma closeTag_withClose t i p a c :
  closeTag t i p (withClose a c) = closeTag t i p a.
Proof. unfold closeTag. simpl. split_ifs; reflexivity. Qed.

(** The end of a tag is read alike in both texts. *)
Lemma closeTag_aligned i a :
  lo < i <= hi ->
  sameButClose (closeTag t1 i (charAt t1 (i - 1)) a)
               (closeTag t2 (i + d) (charAt t1 (i - 1)) a).
Proof.
  intros Hi. destruct aligned_bounds as [Hlo Hd].
  destruct aligned_lo as [Hg1 Hg2].
  unfold closeTag.
  destruct (eqc (charAt t1 (i - 1)) SLASH).
  { destruct (jsxTagDepth a =? 0); apply sameButClose_setTag. }
  destruct (skipBackward_aligned tagNameChar (i - 1) eq_refl ltac:(lia))
    as [Hb1 He1].
  replace (i - 1 + d) with (i + d - 1) in He1 by lia. rewrite He1.
  set (j1 := skipBackward tagNameChar t1 (i - 1)) in *.
  destruct (skipBackward_aligned isSpace j1 eq_refl ltac:(lia))
    as [Hb2 He2].
  rewrite He2. set (j := skipBackward isSpace t1 j1) in *.
  rewrite <- (aligned_at j) by lia.
  destruct (Z.leb_spec 0 j); [|lia]. destruct (Z.leb_spec 0 (j + d)); [|lia].
  simpl.
  destruct (eqc (charAt t1 j) SLASH) eqn:Es;
    [|simpl; apply sameButClose_setTag].
  simpl. destruct (Z.eq_dec j lo) as [E|E].
  { rewrite E, Hg1 in Es. discriminate. }
  destruct (Z.ltb_spec 0 j); [|lia]. destruct (Z.ltb_spec 0 (j + d)); [|lia].
  simpl. replace (j + d - 1) with (j - 1 + d) by lia.
  rewrite <- (aligned_at (j - 1)) by lia.
  destruct (eqc (charAt t1 (j - 1)) LT); [|apply sameButClose_setTag].
  destruct (jsxTagDepth a - 1 <=? 0); apply sameButClose_setTag.
Qed.

Lemma charAt_before t k j c :
  charAt t j = Some c -> 0 <= k <= j -> charAt t k <> None.
Proof.
  intros Hj Hk. apply charAt_some_lt in Hj. unfold charAt.
  destruct (Z.ltb_spec k 0); [lia|]. intros E.
  apply nth_error_None in E. unfold len in Hj. lia.
Qed.

(** The window before an operand end, split at the [>] of the region. *)
Lemma window_split t g a j c :
  0 <= a <= g -> g < j -> charAt t g = Some GT -> charAt t j = Some c ->
  substring t a (j + 1)
  = substring t a g ++ GT :: substring t (g + 1) j ++ [c].
Proof.
  intros Ha Hg Hgt Hc.
  rewrite (substring_app t a g (j + 1)) by
    (try lia; intros k Hk; apply (charAt_before t k j c Hc); lia).
  f_equal. rewrite (substring_step t g (j + 1)) by lia. rewrite Hgt.
  f_equal.
  rewrite (substring_app t (g + 1) j (j + 1)) by
    (try lia; intros k Hk; apply (charAt_before t k j c Hc); lia).
  f_equal. now apply substring_single; [lia|].
Qed.

(** The test on the window before an operand end gives the same answer in
    both texts. *)
Lemma window_aligned j c :
  lo < j <= hi -> charAt t1 j = Some c -> operandEnd c = true ->
  predecessorTest (substring t1 (Z.max 0 (j - 10)) (j + 1))
  = predecessorTest (substring t2 (Z.max 0 (j + d - 10)) (j + d + 1)).
Proof.
  intros Hj Hc Hop. destruct aligned_bounds as [Hlo Hd].
  destruct aligned_lo as [Hg1 Hg2].
  assert (Hc2 : charAt t2 (j + d) = Some c)
    by (rewrite <- aligned_at by lia; exact Hc).
  pose proof (operandEnd_not_space c Hop) as Hsp.
  destruct (Z.le_gt_cases lo (j - 10)) as [Hin|Hout].
  - rewrite !Z.max_r by lia.
    replace (j + d - 10) with (j - 10 + d) by lia.
    replace (j + d + 1) with (j + 1 + d) by lia.
    f_equal. apply substring_ext; try lia.
    intros k Hk. apply aligned_at. lia.
  - rewrite (window_split t1 lo (Z.max 0 (j - 10)) j c) by (assumption || lia).
    rewrite (window_split t2 (lo + d) (Z.max 0 (j + d - 10)) (j + d) c)
      by (assumption || lia).
    unfold predecessorTest. rewrite !matchFrom_prefix by exact Hsp.
    do 2 f_equal.
    replace (lo + d + 1) with (lo + 1 + d) by lia.
    apply substring_ext; try lia.
    intros k Hk. apply aligned_at. lia.
Qed.

(** The tag-start test gives the same answer in both texts. *)
Lemma isLikelyTagStart_aligned i :
  lo < i -> i + 1 <= hi -> charAt t1 i = Some LT ->
  isLikelyTagStart t1 i = isLikelyTagStart t2 (i + d).
Proof.
  intros Hi Hh Hlt. destruct aligned_bounds as [Hlo Hd].
  destruct aligned_lo as [Hg1 Hg2].
  unfold isLikelyTagStart.
  replace (i + d + 1) with (i + 1 + d) by lia.
  rewrite <- (aligned_at (i + 1)) by lia.
  destruct (charAt t1 (i + 1)) as [nextChar|]; [|reflexivity].
  destruct (negb (tagStartNext nextChar)); [reflexivity|].
  destruct (skipBackward_aligned isSpace (i - 1) eq_refl ltac:(lia))
    as [Hb He].
  replace (i - 1 + d) with (i + d - 1) in He by lia. rewrite He.
  set (j := skipBackward isSpace t1 (i - 1)) in *.
  destruct (Z.leb_spec 0 j); [|lia]. destruct (Z.leb_spec 0 (j + d)); [|lia].
  rewrite <- (aligned_at j) by lia.
  destruct (eqc (charAt t1 j) PIPE || eqc (charAt t1 j) AMP); [reflexivity|].
  destruct (charAt t1 j) as [c|] eqn:Ec;
    [|exfalso; apply (charAt_before t1 j i LT Hlt); [lia|exact Ec]].
  simpl testClass. destruct (operandEnd c) eqn:Eop; [|reflexivity].
  destruct (Z.eq_dec j lo) as [E|E].
  { rewrite E, Hg1 in Ec. injection Ec as <-. discriminate. }
  now rewrite (window_aligned j c ltac:(lia) Ec Eop).
Qed.

(** The tag rules act alike at [i] in the first text and at [i + d] in the
    second. *)
Lemma tagRules_aligned i a :
  lo < i -> i + 2 <= hi ->
  sameButClose (fst (tagRules t1 i a)) (fst (tagRules t2 (i + d) a))
  /\ snd (tagRules t2 (i + d) a) = snd (tagRules t1 i a) + d.
Proof.
  intros Hi Hh. destruct aligned_bounds as [Hlo Hd].
  unfold tagRules.
  destruct (Z.ltb_spec 0 i); [|lia]. destruct (Z.ltb_spec 0 (i + d)); [|lia].
  replace (i + d - 1) with (i - 1 + d) by lia.
  replace (i + d + 1) with (i + 1 + d) by lia.
  replace (i + d + 2) with (i + 2 + d) by lia.
  rewrite <- (aligned_at i), <- (aligned_at (i - 1)),
    <- (aligned_at (i + 1)), <- (aligned_at (i + 2)) by lia.
  destruct (eqc (charAt t1 i) LT) eqn:Elt.
  - apply eqc_true in Elt.
    rewrite <- (isLikelyTagStart_aligned i Hi ltac:(lia) Elt).
    destruct (isLikelyTagStart t1 i); simpl andb.
    + destruct (eqc (charAt t1 (i + 1)) SLASH); simpl;
        [split; [reflexivity|lia]|].
      destruct (eqc (charAt t1 (i + 1)) GT); simpl;
        split; (reflexivity || lia).
    + rewrite Elt. change (eqc (Some LT) GT) with false. simpl andb.
      destruct (eqc (charAt t1 (i + 1)) SLASH && eqc (charAt t1 (i + 2)) GT);
        [|simpl; split; [reflexivity|lia]].
      destruct (jsxTagDepth a - 1 <=? 0); simpl;
        split; (reflexivity || lia).
  - simpl andb.
    destruct (eqc (charAt t1 i) GT && inJsxTag a).
    + simpl. split; [|lia].
      replace (i - 1 + d) with (i + d - 1) by lia.
      apply closeTag_aligned. lia.
    + simpl. split; [reflexivity|lia].
Qed.

End Alignment.

Section CloseIrrelevant.
Import Heuristic.

Lemma tagRules_withClose t i a c :
  exists c',
    tagRules t i (withClose a c)
    = (withClose (fst (tagRules t i a)) c', snd (tagRules t i a)).
Proof.
  unfold tagRules.
  change (inJsxTag (withClose a c)) with (inJsxTag a).
  change (jsxTagDepth (withClose a c)) with (jsxTagDepth a).
  change (inJsxContent (withClose a c)) with (inJsxContent a).
  destruct (eqc (charAt t i) LT && isLikelyTagStart t i).
  { destruct (eqc (charAt t (i + 1)) SLASH); [now exists c|].
    destruct (eqc (charAt t (i + 1)) GT); [now exists (i + 1)|now exists c]. }
  destruct (eqc (charAt t i) GT && inJsxTag a).
  { exists i. rewrite closeTag_withClose. simpl.
    unfold closeTag. split_ifs; reflexivity. }
  destruct (_ && _); [|now exists c].
  destruct (jsxTagDepth a - 1 <=? 0); now exists (i + 2).
Qed.

Lemma body_withClose t i a c :
  exists c',
    body t i (withClose a c)
    = (withClose (fst (body t i a)) c', snd (body t i a)).
Proof.
  unfold body.
  change (inString (withClose a c)) with (inString a).
  change (inTemplate (withClose a c)) with (inTemplate a).
  change (stringChar (withClose a c)) with (stringChar a).
  change (templateDepth (withClose a c)) with (templateDepth a).
  destruct ((inString a || inTemplate a) && _); [now exists c|].
  destruct (negb (inTemplate a) && negb (inString a) && _); [now exists c|].
  destruct (inString a && _); [now exists c|].
  destruct (inString a); [now exists c|].
  destruct (negb (inTemplate a) && _); [now exists c|].
  destruct (inTemplate a).
  { exists c. split_ifs; reflexivity. }
  assert (Hc : trackJsxBraces (charAt t i)
                 (trackCodeBraces (charAt t i) (withClose a c))
               = withClose (trackJsxBraces (charAt t i)
                              (trackCodeBraces (charAt t i) a)) c).
  { assert (H1 : forall x, trackCodeBraces (charAt t i) (withClose x c)
                           = withClose (trackCodeBraces (charAt t i) x) c).
    { intros [iS sC iT tD bD jB jT iJ lC iC].
      unfold trackCodeBraces, withClose, setTag, setBraceDepth. simpl.
      split_ifs; reflexivity. }
    assert (H2 : forall x, trackJsxBraces (charAt t i) (withClose x c)
                           = withClose (trackJsxBraces (charAt t i) x) c).
    { intros [iS sC iT tD bD jB jT iJ lC iC].
      unfold trackJsxBraces, withClose, setTag, setJsxBraceDepth. simpl.
      split_ifs; reflexivity. }
    now rewrite H1, H2. }
  rewrite Hc.
  change (jsxBraceDepth (withClose ?x c)) with (jsxBraceDepth x).
  destruct (0 <? jsxBraceDepth _); [now exists c|].
  apply tagRules_withClose.
Qed.

End CloseIrrelevant.

Section Simulation.
Import Heuristic.

Variables (t1 t2 : str) (d lo hi : Z).
Hypothesis Hal : aligned t1 t2 d lo hi.

(** One pass at [i] in the first text and at [i + d] in the second, from
    the same state. *)
Lemma body_aligned_same i a :
  lo < i -> i + 2 <= hi ->
  sameButClose (fst (body t1 i a)) (fst (body t2 (i + d) a))
  /\ snd (body t2 (i + d) a) = snd (body t1 i a) + d.
Proof.
  intros Hi Hh. destruct (aligned_bounds t1 t2 d lo hi Hal) as [Hlo Hd].
  unfold body.
  destruct (Z.ltb_spec 0 i); [|lia]. destruct (Z.ltb_spec 0 (i + d)); [|lia].
  replace (i + d - 1) with (i - 1 + d) by lia.
  replace (i + d + 1) with (i + 1 + d) by lia.
  rewrite <- (aligned_at t1 t2 d lo hi Hal i),
    <- (aligned_at t1 t2 d lo hi Hal (i - 1)),
    <- (aligned_at t1 t2 d lo hi Hal (i + 1)) by lia.
  destruct ((inString a || inTemplate a) && _);
    [simpl; split; [reflexivity|lia]|].
  destruct (negb (inTemplate a) && negb (inString a) && _);
    [simpl; split; [reflexivity|lia]|].
  destruct (inString a && _); [simpl; split; [reflexivity|lia]|].
  destruct (inString a); [simpl; split; [reflexivity|lia]|].
  destruct (negb (inTemplate a) && _); [simpl; split; [reflexivity|lia]|].
  destruct (inTemplate a).
  { split_ifs; simpl; split; (reflexivity || lia). }
  destruct (0 <? jsxBraceDepth _); [simpl; split; [reflexivity|lia]|].
  apply (tagRules_aligned t1 t2 d lo hi Hal); assumption.
Qed.

Lemma sameButClose_trans a b c :
  sameButClose a b -> sameButClose b c -> sameButClose a c.
Proof. unfold sameButClose. congruence. Qed.

Lemma sameButClose_withClose_r a c : sameButClose a (withClose a c).
Proof. reflexivity. Qed.

Lemma sameButClose_sym a b : sameButClose a b -> sameButClose b a.
Proof. unfold sameButClose. congruence. Qed.

(** The same from two states that differ in the record of the last tag
    end. *)
Lemma body_aligned i a b :
  lo < i -> i + 2 <= hi -> sameButClose a b ->
  sameButClose (fst (body t1 i a)) (fst (body t2 (i + d) b))
  /\ snd (body t2 (i + d) b) = snd (body t1 i a) + d.
Proof.
  intros Hi Hh Hab. rewrite (sameButClose_withClose a b Hab).
  destruct (body_withClose t2 (i + d) a (lastJsxTagClose b)) as [c' ->].
  destruct (body_aligned_same i a Hi Hh) as [Hs Hn]. simpl. split; [|exact Hn].
  eapply sameButClose_trans; [exact Hs|apply sameButClose_withClose_r].
Qed.

(** The loops over the region go through the same states. *)
Lemma loop_aligned fuel : forall offset i a b,
  lo < i -> offset + 1 <= hi -> sameButClose a b ->
  sameButClose (loop fuel t1 offset i a)
               (loop fuel t2 (offset + d) (i + d) b).
Proof.
  induction fuel as [|f IH]; intros off i a b Hi Ho Hab; simpl; [exact Hab|].
  destruct (Z.ltb_spec i off); destruct (Z.ltb_spec (i + d) (off + d));
    try lia; [|exact Hab].
  destruct (body_aligned i a b Hi ltac:(lia) Hab) as [Hs Hn].
  pose proof (body_index t1 i a) as Hidx.
  destruct (body t1 i a) as [a' i1], (body t2 (i + d) b) as [b' i2].
  simpl in *. subst i2. replace (i1 + d + 1) with (i1 + 1 + d) by lia.
  apply IH; [lia|lia|exact Hs].
Qed.

Lemma verdict_sameButClose a b : sameButClose a b -> verdict a = verdict b.
Proof.
  intros H. rewrite (sameButClose_withClose a b H). reflexivity.
Qed.

Lemma run_aligned offset i a b :
  lo < i -> offset + 1 <= hi -> sameButClose a b ->
  verdict (run t1 offset i a) = verdict (run t2 (offset + d) (i + d) b).
Proof.
  intros Hi Ho Hab. apply verdict_sameButClose. unfold run.
  replace (offset + d - (i + d)) with (offset - i) by lia.
  now apply loop_aligned.
Qed.

End Simulation.

(** ** The fragment and the element *)

Section FragmentParity.
Import Heuristic.

Variables (content rest1 rest2 : str).

Let t1 : str := LT :: GT :: content ++ LT :: SLASH :: GT :: rest1.
Let t2 : str :=
  lit "<div>" ++ content ++ LT :: SLASH :: lit "div>" ++ rest2.

Lemma fragment_element_aligned : aligned t1 t2 3 1 (len content + 3).
Proof.
  pose proof (len_nonneg content) as Hc.
  unfold aligned. split; [lia|]. split; [lia|]. split; [reflexivity|].
  intros k Hk. unfold t1, t2.
  destruct (Z.eq_dec k 1) as [->|Hk1]; [reflexivity|].
  rewrite (charAt_cons_succ LT) by lia.
  rewrite (charAt_cons_succ GT) by lia.
  change (lit "<div>" ++ ?x) with (LT :: 100%N :: 105%N :: 118%N :: GT :: x).
  do 5 (rewrite charAt_cons_succ by lia).
  replace (k + 3 - 1 - 1 - 1 - 1 - 1) with (k - 1 - 1) by lia.
  destruct (Z.lt_ge_cases (k - 1 - 1) (len content)) as [Hin|Hout].
  - now rewrite !charAt_app_l by lia.
  - rewrite !charAt_app_r by lia.
    destruct (Z.eq_dec (k - 1 - 1 - len content) 0) as [->|Hn0];
      [reflexivity|].
    replace (k - 1 - 1 - len content) with 1 by lia. reflexivity.
Qed.

(** The heuristic scanner gives the same verdict at every offset of the
    content of a fragment and of a [div] element with the same content,
    whatever the content and whatever follows. *)
Lemma heuristic_fragment_parity k :
  0 <= k <= len content ->
  isInJsxTextContent t1 (2 + k) = isInJsxTextContent t2 (5 + k).
Proof.
  intros Hk. unfold isInJsxTextContent. rewrite !scan_run.
  rewrite (run_step t1 (2 + k) 0) by lia.
  replace (body t1 0 initial)
    with (mkScan false None false 0 0 0 1 false 1 true, 1) by reflexivity.
  cbn [fst snd].
  rewrite (run_step t2 (5 + k) 0) by lia.
  replace (body t2 0 initial)
    with (mkScan false None false 0 0 0 0 true (-1) false, 0) by reflexivity.
  cbn [fst snd].
  rewrite (run_step t2 (5 + k) (0 + 1)) by lia.
  replace (body t2 (0 + 1) (mkScan false None false 0 0 0 0 true (-1) false))
    with (mkScan false None false 0 0 0 0 true (-1) false, 1) by reflexivity.
  cbn [fst snd].
  rewrite (run_step t2 (5 + k) (1 + 1)) by lia.
  replace (body t2 (1 + 1) (mkScan false None false 0 0 0 0 true (-1) false))
    with (mkScan false None false 0 0 0 0 true (-1) false, 2) by reflexivity.
  cbn [fst snd].
  rewrite (run_step t2 (5 + k) (2 + 1)) by lia.
  replace (body t2 (2 + 1) (mkScan false None false 0 0 0 0 true (-1) false))
    with (mkScan false None false 0 0 0 0 true (-1) false, 3) by reflexivity.
  cbn [fst snd].
  rewrite (run_step t2 (5 + k) (3 + 1)) by lia.
  replace (body t2 (3 + 1) (mkScan false None false 0 0 0 0 true (-1) false))
    with (mkScan false None false 0 0 0 1 false 4 true, 4) by reflexivity.
  cbn [fst snd].
  change (1 + 1) with 2. change (4 + 1) with (2 + 3).
  replace (5 + k) with (2 + k + 3) by lia.
  apply (run_aligned t1 t2 3 1 (len content + 3) fragment_element_aligned);
    [lia|lia|reflexivity].
Qed.

End FragmentParity.

Section FragmentTree.
Import Tree ParseModel.

Variable createSourceFile : string -> str -> ScriptKind -> Node.

(** In the content of the fragment of [fragmentFile], where the text
    fallback of the attribute test answers false. *)
Lemma fragmentFile_content contentLen fullText offset :
  0 <= contentLen ->
  2 <= offset <= 2 + contentLen ->
  Markup.isInsideTagAttributes fullText offset = false ->
  exists chain,
    findDeepestNode (fragmentFile contentLen) offset [] = Some chain
    /\ classifyChain chain fullText offset = true.
Proof.
  intros Hc Ho Hfb.
  rewrite findDeepestNode_inside by (model_eval; lia). model_eval.
  destruct (Z.eq_dec offset (2 + contentLen)) as [->|Hne].
  - descend. unfold textChildren.
    destruct (Z.ltb_spec (0 + 2) (0 + 2 + contentLen));
      descend; eexists; (split; [reflexivity|]); walk_eval; rewrite Hfb;
      zdecide; reflexivity.
  - descend. unfold textChildren.
    destruct (Z.ltb_spec (0 + 2) (0 + 2 + contentLen)); [|lia].
    descend; eexists; (split; [reflexivity|]); walk_eval; rewrite Hfb;
      zdecide; reflexivity.
Qed.

(** The syntax-tree classifier on a text that is one fragment with plain
    text, parsed into the tree of [fragmentFile]. *)
Lemma tree_fragment l f (content : str) :
  let t := LT :: GT :: content ++ [LT; SLASH; GT] in
  has MARKUP_LANGUAGES l = false ->
  forallb plainContentChar content = true ->
  createSourceFile f t (toScriptKind l) = fragmentFile (len content) ->
  forall offset, 2 <= offset <= 2 + len content ->
    isJsxTextContext createSourceFile (mkProbe l f t offset) = true.
Proof.
  intros t Hm Hcontent Hparse off Ho.
  destruct (element_shape [] [] content [LT; SLASH; GT])
    as (Hp & _ & Hg & Hc & Hrest).
  change (len []) with 0 in *. simpl app in Hp, Hg, Hc, Hrest.
  fold t in Hp, Hg, Hc, Hrest.
  pose proof (len_nonneg content).
  assert (Hlen : len t = len content + 5).
  { unfold t, len. repeat (rewrite length_app || simpl List.length).
    unfold str, char in *. lia. }
  rewrite isJsxTextContext_eq
    by (cbn [Lang.offset Lang.text Lang.languageId]; (exact Hm || lia)).
  cbn [Lang.offset Lang.text Lang.languageId Lang.fileName].
  cbv zeta. rewrite Hparse.
  change (containsJsx (fragmentFile (len content))) with true. cbn [negb].
  assert (Hfb : Markup.isInsideTagAttributes t off = false);
    [|destruct (fragmentFile_content (len content) t off
                  ltac:(lia) ltac:(lia) Hfb) as (chain & -> & ->);
      reflexivity].
  destruct (Z.eq_dec off (2 + len content)) as [->|Hn].
  - apply isInsideTagAttributes_at_closing; [lia| |].
    + rewrite Hrest by lia. replace (_ - _) with 0 by lia. reflexivity.
    + rewrite Hrest by lia. replace (_ - _) with 1 by lia. reflexivity.
  - apply (isInsideTagAttributes_after_gt t off 1); [lia| |].
    + rewrite <- Hg. f_equal.
    + intros k Hk Hlt. rewrite Hc in Hlt by lia.
      destruct (charAt_forallb plainContentChar content
                  (k - (0 + 1 + 0) - 1) Hcontent ltac:(lia))
        as (c & Hck & Hcp).
      rewrite Hck in Hlt. injection Hlt as ->. discriminate.
Qed.

End FragmentTree.

(** ** The two classifiers against each other *)


(** Claim C4 fails on the code.  In [<div>{a < b} text</div>] at offset 13,
    in the text after the expression, the heuristic scanner answers true and
    the syntax-tree classifier answers false whatever tree the parser
    returns, because the text fallback of its attribute test takes the [<] of
    the comparison for a tag.  In [<div>hello</div>] at offset 13, inside the
    closing tag, the heuristic scanner answers true (it reads the [<] after
    [hello] as a comparison) and the syntax-tree classifier, on the tree of
    the element, answers false. *)
Theorem heuristic_tree_disagreement :
  (forall (createSourceFile : string -> str -> ScriptKind -> Node)
          (f : string),
     Heuristic.isInJsxTextContent (lit "<div>{a < b} text</div>") 13 = true
     /\ Tree.isJsxTextContext createSourceFile
          (mkProbe "typescriptreact" f (lit "<div>{a < b} text</div>") 13)
        = false)
  /\ Heuristic.isInJsxTextContent (lit "<div>hello</div>") 13 = true
  /\ Tree.isJsxTextContext (fun _ _ _ => ParseModel.elementFile 3 5)
       (mkProbe "typescriptreact" "a.tsx" (lit "<div>hello</div>") 13)
     = false.
Proof.
  split; [|split].
  - intros csf f. split; [reflexivity|].
    apply isJsxTextContext_fallback; reflexivity.
  - reflexivity.
  - reflexivity.
Qed.

(** ** Offsets inside an opening tag that the heuristic scanner takes for
    text *)

(** Claim C1 fails on the code.  In [<div>a <b>c</b></div>] the heuristic
    scanner reads the [<] of [<b>], which comes after the letter [a], as a
    comparison ([isLikelyTagStart] answers false at 7): at offsets 8 and 9,
    inside the opening tag [<b>], it answers true, where the syntax-tree
    classifier answers false at 8 whatever tree the parser returns.  In
    [<a b={()=>1}>x</a>] the scanner ends the opening tag at the [>] of the
    arrow: at offsets 10, 11 and 12, still inside the opening tag, it answers
    true.  In [<div>{a < b} text</div>] at offset 13, in the text of the
    content, the syntax-tree classifier answers false whatever tree the
    parser returns. *)
Theorem opening_tag_classified_as_text :
  Heuristic.isLikelyTagStart (lit "<div>a <b>c</b></div>") 7 = false
  /\ Heuristic.isInJsxTextContent (lit "<div>a <b>c</b></div>") 8 = true
  /\ Heuristic.isInJsxTextContent (lit "<div>a <b>c</b></div>") 9 = true
  /\ Heuristic.isInJsxTextContent (lit "<a b={()=>1}>x</a>") 10 = true
  /\ Heuristic.isInJsxTextContent (lit "<a b={()=>1}>x</a>") 11 = true
  /\ Heuristic.isInJsxTextContent (lit "<a b={()=>1}>x</a>") 12 = true
  /\ (forall (createSourceFile : string -> str -> ScriptKind -> Node)
             (f : string),
        Tree.isJsxTextContext createSourceFile
          (mkProbe "typescriptreact" f (lit "<div>a <b>c</b></div>") 8)
        = false
        /\ Tree.isJsxTextContext createSourceFile
             (mkProbe "typescriptreact" f (lit "<div>{a < b} text</div>") 13)
           = false).
Proof.
  repeat (split; [reflexivity|]).
  intros csf f. split; apply isJsxTextContext_fallback; reflexivity.
Qed.

(** ** The repository's own tests *)

(** Every one-line case of the repository's tests of [isInJsxTextContent]
    gives the verdict the test expects. *)
Lemma repository_jsx_cases_pass :
  forallb
    (fun '(t, o, expected) =>
       Bool.eqb (Heuristic.isInJsxTextContent t o) expected)
    RepositoryTests.jsxCases = true.
Proof. vm_compute. reflexivity. Qed.

(** Every html case of the repository's tests of [isJsxTextContext] gives
    the verdict the test expects, whatever the parser. *)
Lemma repository_markup_cases_pass :
  forall createSourceFile : string -> str -> ScriptKind -> Node,
    forallb
      (fun '(t, o, expected) =>
         Bool.eqb
           (Tree.isJsxTextContext createSourceFile
              (mkProbe "html" "virtual.tsx" t o))
           expected)
      RepositoryTests.markupCases = true.
Proof. intros csf. vm_compute. reflexivity. Qed.

(** ** The markup scanner [isInHtmlTextContent] of [src/extension.ts] *)

Section HtmlScan.
Import Html HtmlNotions.

(** The loop up to [offset + 1] is the loop up to [offset] and one more
    pass: a pass does not read [offset]. *)
Lemma html_loop_snoc fuel : forall t offset i s,
  i <= offset -> Z.to_nat (offset - i) = fuel ->
  loop (S fuel) t (offset + 1) i s = body t offset (loop fuel t offset i s).
Proof.
  induction fuel as [|f IH]; intros t offset i s Hi Hf.
  - assert (i = offset) by lia. subst i. simpl.
    destruct (Z.ltb_spec offset (offset + 1)); [reflexivity|lia].
  - change (loop (S (S f)) t (offset + 1) i s)
      with (if i <? offset + 1
            then loop (S f) t (offset + 1) (i + 1) (body t i s) else s).
    change (loop (S f) t offset i s)
      with (if i <? offset then loop f t offset (i + 1) (body t i s) else s).
    destruct (Z.ltb_spec i (offset + 1)); [|lia].
    destruct (Z.ltb_spec i offset); [|lia].
    apply IH; lia.
Qed.

Lemma html_scan_succ t offset :
  0 <= offset -> scan t (offset + 1) = body t offset (scan t offset).
Proof.
  intros H. unfold scan.
  replace (Z.to_nat (offset + 1)) with (S (Z.to_nat offset)) by lia.
  apply html_loop_snoc; lia.
Qed.

Lemma html_scan_start t offset : offset <= 0 -> scan t offset = initial.
Proof.
  intros H. unfold scan. replace (Z.to_nat offset) with O by lia.
  reflexivity.
Qed.

(** A property of index and state that holds at [p] and that every pass
    from [p] on keeps holds at every later offset. *)
Lemma html_scan_invariant_from (P : Z -> ScanState -> Prop) t p offset :
  0 <= p <= offset ->
  P p (scan t p) ->
  (forall k s, p <= k < offset -> P k s -> P (k + 1) (body t k s)) ->
  P offset (scan t offset).
Proof.
  intros Hp H0 Hstep.
  assert (H : forall n : nat, p + Z.of_nat n <= offset ->
                P (p + Z.of_nat n) (scan t (p + Z.of_nat n))).
  { induction n as [|n IH]; intros Hn.
    - rewrite Z.add_0_r. exact H0.
    - replace (p + Z.of_nat (S n)) with (p + Z.of_nat n + 1) by lia.
      rewrite html_scan_succ by lia. apply Hstep; [lia|]. apply IH. lia. }
  specialize (H (Z.to_nat (offset - p))).
  replace (p + Z.of_nat (Z.to_nat (offset - p))) with offset in H by lia.
  apply H. lia.
Qed.

Lemma html_scan_invariant (P : Z -> ScanState -> Prop) t offset :
  0 <= offset ->
  P 0 initial ->
  (forall k s, 0 <= k < offset -> P k s -> P (k + 1) (body t k s)) ->
  P offset (scan t offset).
Proof.
  intros Ho H0 Hstep. apply (html_scan_invariant_from P t 0 offset);
    [lia| |exact Hstep].
  now rewrite html_scan_start by lia.
Qed.

Lemma html_closeTag_kept t k p s :
  0 <= k -> htmlKept k s -> inString s = false ->
  htmlKept (k + 1) (closeTag t k p s).
Proof.
  intros Hk (Hd & Hs & Hl) Hn. unfold closeTag, htmlKept.
  split_ifs; simpl; (split; [lia|split; [congruence|lia]]).
Qed.

Lemma html_body_kept t k s :
  0 <= k -> htmlKept k s -> htmlKept (k + 1) (body t k s).
Proof.
  intros Hk H. pose proof H as (Hd & Hs & Hl). unfold body.
  destruct (inTag s && negb (inString s)
            && (eqc (charAt t k) DQUOTE || eqc (charAt t k) SQUOTE)) eqn:E1.
  { apply andb_true_iff in E1 as [E1 _]. apply andb_true_iff in E1 as [E1 _].
    unfold htmlKept. simpl. split; [exact Hd|split; [now intros _|lia]]. }
  destruct (inString s && eqo (charAt t k) (stringChar s)
            && negb (eqc (if 0 <? k then charAt t (k - 1) else None)
                         BACKSLASH)) eqn:E2.
  { unfold htmlKept. simpl. split; [exact Hd|split; [discriminate|lia]]. }
  destruct (inString s) eqn:E3.
  { unfold htmlKept. rewrite E3. split; [exact Hd|split; [exact Hs|lia]]. }
  destruct (eqc (charAt t k) LT
            && match charAt t (k + 1) with
               | Some c => tagStartNext c
               | None => false
               end).
  { unfold htmlKept. simpl. split; [exact Hd|split; [now intros _|lia]]. }
  destruct (eqc (charAt t k) GT && inTag s).
  { apply html_closeTag_kept; assumption. }
  unfold htmlKept. rewrite E3. split; [exact Hd|split; [discriminate|lia]].
Qed.

Lemma html_scan_kept t offset : 0 <= offset -> htmlKept offset (scan t offset).
Proof.
  intros Ho. apply html_scan_invariant; [exact Ho| |].
  - unfold htmlKept, initial. simpl. repeat split; (lia || discriminate).
  - intros k s Hk. now apply html_body_kept.
Qed.

(** The record of the last tag end never goes back to [-1]. *)
Lemma html_close_monotone t a b :
  0 <= a <= b ->
  0 <= lastTagClose (scan t a) -> 0 <= lastTagClose (scan t b).
Proof.
  intros Hab Ha.
  apply (html_scan_invariant_from (fun _ s => 0 <= lastTagClose s) t a b);
    [lia|exact Ha|].
  intros k s Hk Hs. unfold body, closeTag.
  split_ifs; simpl; lia.
Qed.

Lemma html_verdict_depth_free t offset :
  isInHtmlTextContent t offset
  = negb (inTag (scan t offset)) && (0 <=? lastTagClose (scan t offset)).
Proof.
  unfold isInHtmlTextContent, verdict.
  destruct (Z.le_gt_cases 0 offset) as [Ho|Ho].
  - destruct (html_scan_kept t offset Ho) as (Hd & _ & _).
    destruct (inTag (scan t offset)); [reflexivity|]. simpl.
    destruct (Z.ltb_spec 0 (tagDepth (scan t offset))); [|reflexivity].
    simpl. symmetry. apply Z.leb_le. now apply Hd.
  - rewrite html_scan_start by lia. reflexivity.
Qed.

End HtmlScan.

(** [isInHtmlTextContent]: the depth counter never decides the verdict.  For
    every text and offset the verdict is true exactly when the scan is
    outside a tag and some tag has ended before the offset; and once the
    verdict has been true at an offset, it is true at every later offset
    where the scan is outside a tag, the text after the last closing tag
    included. *)
Theorem html_verdict_ignores_depth :
  forall (t : str) (offset : Z),
    (Html.isInHtmlTextContent t offset
     = negb (Html.inTag (Html.scan t offset))
       && (0 <=? Html.lastTagClose (Html.scan t offset)))
    /\ (forall later,
          offset <= later ->
          Html.isInHtmlTextContent t offset = true ->
          Html.inTag (Html.scan t later) = false ->
          Html.isInHtmlTextContent t later = true).
Proof.
  intros t offset. split; [apply html_verdict_depth_free|].
  intros later Hl Hv Ht.
  rewrite html_verdict_depth_free in *. rewrite Ht. simpl.
  apply andb_true_iff in Hv as [_ Hc]. apply Z.leb_le in Hc.
  apply Z.leb_le.
  destruct (Z.le_gt_cases 0 offset) as [Ho|Ho].
  - apply (html_close_monotone t offset later); [lia|exact Hc].
  - rewrite html_scan_start in Hc by lia. simpl in Hc. lia.
Qed.

(** The hypotheses of [html_verdict_ignores_depth] hold of [<a></a> tail]:
    true at offset 3, and outside a tag at the end, after the closing tag. *)
Lemma html_verdict_ignores_depth_witness :
  Html.isInHtmlTextContent (lit "<a></a> tail") 3 = true
  /\ Html.inTag (Html.scan (lit "<a></a> tail") 12) = false
  /\ Html.isInHtmlTextContent (lit "<a></a> tail") 12 = true.
Proof.
  split; [reflexivity|]. split; [reflexivity|].
  apply (proj2 (html_verdict_ignores_depth (lit "<a></a> tail") 3) 12);
    [lia|reflexivity|reflexivity].
Defined.

Section HtmlRegions.
Import Html HtmlNotions.

Lemma eqc_false_ne (a : option char) (c : char) :
  a <> Some c -> eqc a c = false.
Proof.
  intros H. destruct (eqc a c) eqn:E; [|reflexivity].
  apply eqc_true in E. contradiction.
Qed.

Lemma html_no_close_before t offset :
  (forall k, 0 <= k < offset -> charAt t k <> Some GT) ->
  isInHtmlTextContent t offset = false.
Proof.
  intros H. rewrite html_verdict_depth_free.
  destruct (Z.le_gt_cases 0 offset) as [Ho|Ho].
  - assert (Hc : lastTagClose (scan t offset) = -1).
    { apply (html_scan_invariant (fun _ s => lastTagClose s = -1));
        [exact Ho|reflexivity|].
      intros k s Hk Hs. unfold body.
      rewrite (eqc_false_ne (charAt t k) GT (H k Hk)). cbn [andb].
      split_ifs; simpl; assumption. }
    rewrite Hc. apply andb_false_r.
  - rewrite html_scan_start by lia. reflexivity.
Qed.

Lemma html_no_open_before t offset :
  (forall k, 0 <= k < offset -> charAt t k <> Some LT) ->
  isInHtmlTextContent t offset = false.
Proof.
  intros H. rewrite html_verdict_depth_free.
  destruct (Z.le_gt_cases 0 offset) as [Ho|Ho].
  - assert (Hc : inTag (scan t offset) = false
                 /\ inString (scan t offset) = false
                 /\ lastTagClose (scan t offset) = -1).
    { apply (html_scan_invariant
               (fun _ s => inTag s = false /\ inString s = false
                           /\ lastTagClose s = -1));
        [exact Ho|now repeat split|].
      intros k s Hk (Ht & Hs & Hl). unfold body.
      rewrite (eqc_false_ne (charAt t k) LT (H k Hk)), Ht, Hs. simpl.
      rewrite andb_false_r. now repeat split. }
    destruct Hc as (_ & _ & ->). apply andb_false_r.
  - rewrite html_scan_start by lia. reflexivity.
Qed.

(** Outside a tag the scanner is outside a string. *)
Lemma html_outside_no_string t p :
  0 <= p -> inTag (scan t p) = false -> inString (scan t p) = false.
Proof.
  intros Hp Ht. destruct (html_scan_kept t p Hp) as (_ & Hs & _).
  destruct (inString (scan t p)); [|reflexivity].
  rewrite Hs in Ht by reflexivity. discriminate.
Qed.

(** From a [<] at [p] read outside a tag and followed by a character that
    starts a tag, through a tag without [>] and quotes up to its [>] at [g],
    and on through content without [<] up to [e]. *)
Lemma html_element_region t p g e c :
  0 <= p < g ->
  inTag (scan t p) = false ->
  charAt t p = Some LT ->
  charAt t (p + 1) = Some c -> tagStartNext c = true ->
  (forall k, p < k < g ->
     exists x, charAt t k = Some x /\ plainTagChar x = true) ->
  charAt t g = Some GT ->
  (forall k, g < k < e -> eqc (charAt t k) LT = false) ->
  (forall offset, p < offset <= g -> isInHtmlTextContent t offset = false)
  /\ (forall offset, g < offset <= e -> isInHtmlTextContent t offset = true).
Proof.
  intros Hpg Hout Hlt Hc Hstart Htag Hgt Hcontent.
  pose proof (html_outside_no_string t p ltac:(lia) Hout) as Hnos.
  set (P := fun (k : Z) (s : ScanState) =>
              (k = p /\ inTag s = false /\ inString s = false)
              \/ (p < k <= g /\ inTag s = true /\ inString s = false)
              \/ (g < k /\ inTag s = false /\ inString s = false
                  /\ 0 <= lastTagClose s)).
  assert (HP : forall offset, p <= offset <= Z.max g e ->
                 P offset (scan t offset)).
  { intros offset Ho.
    apply (html_scan_invariant_from P t p offset); [lia|left; auto|].
    intros k s Hk [(-> & Ht & Hs)|[(Hkg & Ht & Hs)|(Hkg & Ht & Hs & Hl)]].
    - right. left. unfold body. rewrite Ht, Hs, Hlt, Hc, Hstart. simpl.
      repeat split; lia.
    - destruct (Z.eq_dec k g) as [->|Hne].
      + right. right. unfold body. rewrite Ht, Hs, Hgt. simpl.
        unfold closeTag. split_ifs; simpl; repeat split; (lia || assumption).
      + right. left. destruct (Htag k ltac:(lia)) as (x & Hx & Hplain).
        unfold plainTagChar in Hplain. apply negb_true_iff in Hplain.
        repeat (apply orb_false_iff in Hplain as [Hplain ?]).
        unfold body. rewrite Ht, Hs, Hx. simpl.
        repeat match goal with
               | H : N.eqb _ _ = false |- _ => rewrite H; clear H
               end.
        simpl. split_ifs; simpl; repeat split; (lia || assumption).
    - right. right. unfold body. rewrite Ht, Hs. simpl.
      rewrite (Hcontent k ltac:(lia)). simpl. rewrite andb_false_r.
      repeat split; (lia || assumption). }
  split; intros offset Ho; rewrite html_verdict_depth_free.
  - destruct (HP offset ltac:(lia)) as [(? & _)|[(_ & -> & _)|(? & _)]];
      [lia|reflexivity|lia].
  - destruct (HP offset ltac:(lia)) as [(? & _)|[(? & _)|(_ & -> & _ & Hl)]];
      [lia|lia|]. simpl. now apply Z.leb_le.
Qed.

(** From a [<] at [p] read outside a tag, through a tag without [>] and
    quotes up to a quote at [a], and on through a value without that quote
    up to the same quote at [b]: the scanner stays inside the tag. *)
Lemma html_quoted_region t p a b c q :
  0 <= p < a -> a < b ->
  inTag (scan t p) = false ->
  charAt t p = Some LT ->
  charAt t (p + 1) = Some c -> tagStartNext c = true ->
  (forall k, p < k < a ->
     exists x, charAt t k = Some x /\ plainTagChar x = true) ->
  isQuote q = true ->
  charAt t a = Some q ->
  (forall k, a < k < b -> exists x, charAt t k = Some x /\ N.eqb x q = false) ->
  forall offset, p < offset <= b + 1 -> isInHtmlTextContent t offset = false.
Proof.
  intros Hpa Hab Hout Hlt Hc Hstart Htag Hq Ha Hvalue offset Ho.
  pose proof (html_outside_no_string t p ltac:(lia) Hout) as Hnos.
  set (P := fun (k : Z) (s : ScanState) =>
              (k = p /\ inTag s = false /\ inString s = false)
              \/ (p < k <= a /\ inTag s = true /\ inString s = false)
              \/ (a < k <= b /\ inTag s = true /\ inString s = true
                  /\ stringChar s = Some q)
              \/ (b < k /\ inTag s = true)).
  assert (HP : P offset (scan t offset)).
  { apply (html_scan_invariant_from P t p offset); [lia|left; auto|].
    intros k s Hk [(-> & Ht & Hs)|[(Hka & Ht & Hs)|[(Hkb & Ht & Hs & Hsc)
                                                   |(Hkb & Ht)]]].
    - right. left. unfold body. rewrite Ht, Hs, Hlt, Hc, Hstart. simpl.
      repeat split; lia.
    - destruct (Z.eq_dec k a) as [->|Hne].
      + right. right. left. unfold body. rewrite Ht, Hs, Ha. simpl.
        unfold isQuote in Hq. rewrite Hq. simpl. repeat split; lia.
      + right. left. destruct (Htag k ltac:(lia)) as (x & Hx & Hplain).
        unfold plainTagChar in Hplain. apply negb_true_iff in Hplain.
        repeat (apply orb_false_iff in Hplain as [Hplain ?]).
        unfold body. rewrite Ht, Hs, Hx. simpl.
        repeat match goal with
               | H : N.eqb _ _ = false |- _ => rewrite H; clear H
               end.
        simpl. split_ifs; simpl; repeat split; (lia || assumption).
    - destruct (Z.eq_dec k b) as [->|Hne].
      + right. right. right. unfold body. rewrite Ht, Hs. simpl.
        split_ifs; simpl; split; (lia || assumption).
      + right. right. left. destruct (Hvalue k ltac:(lia)) as (x & Hx & Hxq).
        unfold body. rewrite Ht, Hs, Hsc, Hx. simpl. rewrite Hxq. simpl.
        repeat split; (lia || assumption).
    - lia. }
  rewrite html_verdict_depth_free.
  destruct HP as [(? & _)|[(_ & -> & _)|[(_ & -> & _)|(_ & ->)]]];
    [lia|reflexivity..].
Qed.

End HtmlRegions.

Section HtmlShapes.
Import Html HtmlNotions.

(** Where the parts of [pre ++ < tag m mid ++ rest] are. *)
Lemma html_shape (pre tag mid rest : str) (m : char) :
  let t := pre ++ LT :: tag ++ m :: mid ++ rest in
  let p := len pre in
  let g := p + 1 + len tag in
  charAt t p = Some LT
  /\ (forall k, p < k < g -> charAt t k = charAt tag (k - p - 1))
  /\ charAt t g = Some m
  /\ (forall k, g < k < g + 1 + len mid ->
        charAt t k = charAt mid (k - g - 1))
  /\ (forall k, g + 1 + len mid <= k ->
        charAt t k = charAt rest (k - (g + 1 + len mid))).
Proof.
  intros t p g. unfold t, g, p.
  pose proof (len_nonneg pre). pose proof (len_nonneg tag).
  pose proof (len_nonneg mid).
  split; [|split; [|split; [|split]]].
  - rewrite charAt_app_r by lia. now rewrite Z.sub_diag.
  - intros k Hk. rewrite charAt_app_r by lia.
    rewrite charAt_cons_succ by lia. rewrite charAt_app_l by lia.
    f_equal; lia.
  - rewrite charAt_app_r by lia. rewrite charAt_cons_succ by lia.
    rewrite charAt_app_r by lia.
    replace (len pre + 1 + len tag - len pre - 1 - len tag) with 0 by lia.
    reflexivity.
  - intros k Hk. rewrite charAt_app_r by lia.
    rewrite charAt_cons_succ by lia. rewrite charAt_app_r by lia.
    rewrite charAt_cons_succ by lia. rewrite charAt_app_l by lia.
    f_equal; lia.
  - intros k Hk. rewrite charAt_app_r by lia.
    rewrite charAt_cons_succ by lia. rewrite charAt_app_r by lia.
    rewrite charAt_cons_succ by lia. rewrite charAt_app_r by lia.
    f_equal; lia.
Qed.

Lemma startsTag_head (tag : str) :
  startsTag tag = true ->
  exists c, charAt tag 0 = Some c /\ tagStartNext c = true /\ 0 < len tag.
Proof.
  destruct tag as [|c r]; [discriminate|]. simpl. intros H.
  exists c. rewrite len_cons. pose proof (len_nonneg r).
  repeat split; (assumption || lia).
Qed.

Lemma html_element (pre tag content rest : str) :
  let t := pre ++ LT :: tag ++ GT :: content ++ rest in
  let p := len pre in
  let g := p + 1 + len tag in
  inTag (scan t p) = false ->
  startsTag tag = true ->
  forallb plainTagChar tag = true ->
  forallb noOpen content = true ->
  (forall offset, p < offset <= g -> isInHtmlTextContent t offset = false)
  /\ (forall offset, g < offset <= g + 1 + len content ->
        isInHtmlTextContent t offset = true).
Proof.
  intros t p g Hout Hstart Htag Hcontent.
  destruct (html_shape pre tag content rest GT) as (Hp & Hb & Hg & Hc & _).
  fold t p g in Hp, Hb, Hg, Hc.
  pose proof (len_nonneg pre). pose proof (len_nonneg tag).
  destruct (startsTag_head tag Hstart) as (c & Hc0 & Hcs & Hlen).
  apply (html_element_region t p g (g + 1 + len content) c);
    try assumption.
  - unfold g, p. lia.
  - rewrite Hb by (unfold g; lia). rewrite <- Hc0. f_equal. lia.
  - intros k Hk. rewrite Hb by exact Hk.
    apply charAt_forallb; [exact Htag|]. unfold g in Hk. lia.
  - intros k Hk. rewrite Hc by exact Hk.
    destruct (charAt_forallb noOpen content (k - g - 1) Hcontent
                ltac:(lia)) as (x & -> & Hx).
    unfold noOpen in Hx. apply negb_true_iff in Hx. exact Hx.
Qed.

Lemma html_quoted_value (pre tag value rest : str) (q : char) :
  let t := pre ++ LT :: tag ++ q :: value ++ q :: rest in
  let p := len pre in
  inTag (scan t p) = false ->
  startsTag tag = true ->
  forallb plainTagChar tag = true ->
  isQuote q = true ->
  forallb (fun c => negb (N.eqb c q)) value = true ->
  forall offset,
    p < offset <= p + 1 + len tag + 1 + len value + 1 ->
    isInHtmlTextContent t offset = false.
Proof.
  intros t p Hout Hstart Htag Hq Hvalue offset Ho.
  destruct (html_shape pre tag value (q :: rest) q) as (Hp & Hb & Hg & Hc & _).
  fold t p in Hp, Hb, Hg, Hc.
  pose proof (len_nonneg pre). pose proof (len_nonneg tag).
  pose proof (len_nonneg value).
  destruct (startsTag_head tag Hstart) as (c & Hc0 & Hcs & Hlen).
  apply (html_quoted_region t p (p + 1 + len tag)
           (p + 1 + len tag + 1 + len value) c q);
    try assumption; try (unfold p; lia).
  - rewrite Hb by lia. rewrite <- Hc0. f_equal. lia.
  - intros k Hk. rewrite Hb by exact Hk.
    apply charAt_forallb; [exact Htag|]. lia.
  - intros k Hk. rewrite Hc by exact Hk.
    destruct (charAt_forallb _ value (k - (p + 1 + len tag) - 1) Hvalue
                ltac:(lia)) as (x & -> & Hx).
    exists x. split; [reflexivity|]. now apply negb_true_iff in Hx.
Qed.

End HtmlShapes.

(** [isInHtmlTextContent] needs a tag before the offset: when no [<], or no
    [>], stands before the offset the verdict is false.  This covers
    the empty text, offset 0 and negative offsets. *)
Theorem html_needs_a_tag_before :
  forall (t : str) (offset : Z),
    (forall k, 0 <= k < offset -> charAt t k <> Some LT)
    \/ (forall k, 0 <= k < offset -> charAt t k <> Some GT) ->
    Html.isInHtmlTextContent t offset = false.
Proof.
  intros t offset [H|H].
  - now apply html_no_open_before.
  - now apply html_no_close_before.
Qed.

(** The hypothesis of [html_needs_a_tag_before] holds of [a>b] at its
    end. *)
Lemma html_needs_a_tag_before_witness :
  Html.isInHtmlTextContent (lit "a>b") 3 = false.
Proof.
  apply html_needs_a_tag_before. left. intros k Hk.
  assert (Hc : k = 0 \/ k = 1 \/ k = 2) by lia.
  destruct Hc as [-> | [-> | ->]]; discriminate.
Defined.

(** [isInHtmlTextContent] on an element: in a text
    [pre ++ < tag > content ++ rest] whose [<] is read outside a tag, where
    the tag begins with a letter, [/], [!] or [?] and holds no [>] and no
    quote, and the content holds no [<], every offset after the [<] up to the
    [>] is classified false and every offset from after the [>] to the end
    of the content is classified true. *)
Theorem html_tag_and_content :
  forall pre tag content rest : str,
    let t := pre ++ LT :: tag ++ GT :: content ++ rest in
    let p := len pre in
    let g := p + 1 + len tag in
    Html.inTag (Html.scan t p) = false ->
    HtmlNotions.startsTag tag = true ->
    forallb HtmlNotions.plainTagChar tag = true ->
    forallb HtmlNotions.noOpen content = true ->
    (forall offset, p < offset <= g ->
       Html.isInHtmlTextContent t offset = false)
    /\ (forall offset, g < offset <= g + 1 + len content ->
          Html.isInHtmlTextContent t offset = true).
Proof. intros pre tag content rest. apply html_element. Qed.

(** The hypotheses of [html_tag_and_content] hold of [<p class=x>Hi</p>]. *)
Lemma html_tag_and_content_witness :
  Html.isInHtmlTextContent (lit "<p class=x>Hi</p>") 5 = false
  /\ Html.isInHtmlTextContent (lit "<p class=x>Hi</p>") 12 = true.
Proof.
  pose proof (html_tag_and_content [] (lit "p class=x") (lit "Hi")
                (lit "</p>") eq_refl eq_refl eq_refl eq_refl)
    as [Htag Hcontent].
  split; [refine (Htag 5 _)|refine (Hcontent 12 _)]; vm_compute;
    (split; [reflexivity|discriminate]).
Defined.

(** [isInHtmlTextContent] and quoted attribute values: in a text
    [pre ++ < tag q value q ++ rest] whose [<] is read outside a tag, where
    [q] is a quote and the value does not hold it, every offset after the
    [<] up to and just after the closing quote is classified false, whatever
    else the value holds: a [>] inside a quoted value does not end the
    tag. *)
Theorem html_quoted_gt_stays_in_tag :
  forall (pre tag value rest : str) (q : char),
    let t := pre ++ LT :: tag ++ q :: value ++ q :: rest in
    let p := len pre in
    Html.inTag (Html.scan t p) = false ->
    HtmlNotions.startsTag tag = true ->
    forallb HtmlNotions.plainTagChar tag = true ->
    HtmlNotions.isQuote q = true ->
    forallb (fun c => negb (N.eqb c q)) value = true ->
    forall offset,
      p < offset <= p + 1 + len tag + 1 + len value + 1 ->
      Html.isInHtmlTextContent t offset = false.
Proof. intros pre tag value rest q. apply html_quoted_value. Qed.

(** The hypotheses of [html_quoted_gt_stays_in_tag] hold of the text
    [<a title=.x>y.>] with a double quote for each dot, just after the [>]
    of the value. *)
Lemma html_quoted_gt_stays_in_tag_witness :
  Html.isInHtmlTextContent
    (lit "<a title=" ++ DQUOTE :: lit "x>y" ++ DQUOTE :: lit ">") 12 = false.
Proof.
  apply (html_quoted_gt_stays_in_tag [] (lit "a title=") (lit "x>y") (lit ">")
           DQUOTE); try reflexivity.
  vm_compute. split; [reflexivity|discriminate].
Defined.

(** Every case of the repository's tests of [isInHtmlTextContent] gives the
    verdict the test expects. *)
Lemma repository_html_cases_pass :
  forallb
    (fun '(t, o, expected) =>
       Bool.eqb (Html.isInHtmlTextContent t o) expected)
    HtmlTests.htmlCases = true.
Proof. vm_compute. reflexivity. Qed.

(** ** The two markup scanners on an element *)

Section MarkupAgreement.
Import Reference Html HtmlNotions.

(** For an offset in the text and after its start, [isMarkupTextContext]
    depends on three things only: the last [<] and the last [>] before the
    offset, and whether a comment opens at the offset. *)
Lemma isMarkupTextContext_decided l f t offset :
  1 <= offset <= len t ->
  Markup.isMarkupTextContext (mkProbe l f t offset)
  = (lastBefore LT t (Z.to_nat offset) <=? lastBefore GT t (Z.to_nat offset))
    && negb (lastBefore GT t (Z.to_nat offset) =? -1)
    && negb (occursAt (lit "<!--") t offset).
Proof.
  intros Hr. rewrite isMarkupTextContext_reference by lia.
  unfold classifyMarkup.
  set (g := lastBefore GT t (Z.to_nat offset)).
  set (o := lastBefore LT t (Z.to_nat offset)).
  destruct (Z.ltb_spec g o); destruct (Z.leb_spec o g);
    try reflexivity; try lia.
  destruct (Z.eqb_spec g (-1)); [reflexivity|]. cbn [andb negb].
  pose proof (insideUnclosedComment_at_offset t offset ltac:(lia)
                ltac:(fold g o; lia)) as Hi.
  fold g in Hi. rewrite Hi. clear Hi.
  destruct (occursAt (lit "<!--") t offset); [reflexivity|]. cbn [negb].
  assert (Hg : g < offset).
  { destruct (lastBefore_range GT t (Z.to_nat offset)) as [Hx|[Hx _]];
      fold g in Hx; lia. }
  destruct (Z.ltb_spec g offset); [|lia]. cbn [andb].
  apply Z.leb_le.
  destruct (firstFrom LT t (Z.to_nat (len t - offset)) offset) eqn:E; [|lia].
  now apply firstFrom_sound in E.
Qed.

Lemma drop_app_exact (a b : str) : drop (List.length a) (a ++ b) = b.
Proof. induction a as [|x a IH]; [reflexivity|exact IH]. Qed.

Lemma markup_element (l f : string) (pre tag content rest : str) :
  let t := pre ++ LT :: tag ++ GT :: content ++ rest in
  let p := len pre in
  let g := p + 1 + len tag in
  forallb plainTagChar tag = true ->
  forallb noOpen content = true ->
  startsWith (lit "<!--") rest = false ->
  (forall offset, p < offset <= g ->
     Markup.isMarkupTextContext (mkProbe l f t offset) = false)
  /\ (forall offset, g < offset <= g + 1 + len content ->
        Markup.isMarkupTextContext (mkProbe l f t offset) = true).
Proof.
  intros t p g Htag Hcontent Hrest.
  destruct (html_shape pre tag content rest GT) as (Hp & Hb & Hg & Hc & Hr).
  fold t p g in Hp, Hb, Hg, Hc, Hr.
  pose proof (len_nonneg pre). pose proof (len_nonneg tag).
  pose proof (len_nonneg content). pose proof (len_nonneg rest).
  assert (Hlen : len t = g + 1 + len content + len rest).
  { unfold t, g, p. rewrite len_app, len_cons, len_app, len_cons, len_app.
    lia. }
  assert (Htag' : forall k, p < k < g -> charAt t k <> Some GT).
  { intros k Hk. rewrite Hb by exact Hk.
    destruct (charAt_forallb plainTagChar tag (k - p - 1) Htag
                ltac:(unfold g in Hk; lia)) as (x & -> & Hx).
    unfold plainTagChar in Hx. apply negb_true_iff in Hx.
    repeat (apply orb_false_iff in Hx as [Hx ?]).
    intros E. injection E as ->. discriminate. }
  assert (Hcontent' : forall k, g < k < g + 1 + len content ->
                        charAt t k <> Some LT).
  { intros k Hk. rewrite Hc by exact Hk.
    destruct (charAt_forallb noOpen content (k - g - 1) Hcontent
                ltac:(lia)) as (x & -> & Hx).
    unfold noOpen in Hx. apply negb_true_iff in Hx.
    intros E. injection E as ->. discriminate. }
  split; intros offset Ho;
    rewrite isMarkupTextContext_decided by (unfold g, p in *; lia).
  - set (a := lastBefore GT t (Z.to_nat offset)).
    set (o := lastBefore LT t (Z.to_nat offset)).
    pose proof (lastBefore_max LT t (Z.to_nat offset) p ltac:(lia) Hp) as Ho'.
    fold o in Ho'.
    assert (Ha : a < p).
    { destruct (Z.eq_dec a (-1)) as [E|E]; [lia|].
      destruct (lastBefore_sound GT t _ E) as [Hr1 Hr2]. fold a in Hr1, Hr2.
      destruct (Z.lt_trichotomy a p) as [Hlt|[Heq|Hgt]]; [exact Hlt| |].
      - rewrite Heq, Hp in Hr2. discriminate.
      - exfalso. apply (Htag' a); [lia|exact Hr2]. }
    destruct (Z.leb_spec o a); [lia|reflexivity].
  - set (a := lastBefore GT t (Z.to_nat offset)).
    set (o := lastBefore LT t (Z.to_nat offset)).
    pose proof (lastBefore_max GT t (Z.to_nat offset) g ltac:(lia) Hg) as Ha.
    fold a in Ha.
    assert (Ho' : o < g).
    { destruct (Z.eq_dec o (-1)) as [E|E]; [lia|].
      destruct (lastBefore_sound LT t _ E) as [Hr1 Hr2]. fold o in Hr1, Hr2.
      destruct (Z.lt_trichotomy o g) as [Hlt|[Heq|Hgt]]; [exact Hlt| |].
      - rewrite Heq, Hg in Hr2. discriminate.
      - exfalso. apply (Hcontent' o); [lia|exact Hr2]. }
    destruct (Z.leb_spec o a); [|lia].
    destruct (Z.eqb_spec a (-1)); [lia|]. cbn [andb negb].
    apply negb_true_iff.
    destruct (occursAt (lit "<!--") t offset) eqn:E; [|reflexivity].
    exfalso.
    destruct (Z.eq_dec offset (g + 1 + len content)) as [->|Hne].
    + unfold occursAt in E. apply andb_true_iff in E as [_ E].
      assert (Hd : drop (Z.to_nat (g + 1 + len content)) t = rest).
      { replace t with ((pre ++ LT :: tag ++ GT :: content) ++ rest).
        - replace (Z.to_nat (g + 1 + len content))
            with (List.length (pre ++ LT :: tag ++ GT :: content)).
          + apply drop_app_exact.
          + rewrite length_app. simpl. rewrite length_app. simpl.
            unfold g, p, len. lia.
        - unfold t. rewrite <- app_assoc. simpl. rewrite <- app_assoc.
          reflexivity. }
      rewrite Hd in E. congruence.
    + apply occursAt_comment_is_lt in E.
      apply (Hcontent' offset); [lia|exact E].
Qed.

End MarkupAgreement.

(** The two markup scanners, [isMarkupTextContext] of
    [src/contextDetector.ts] and [isInHtmlTextContent] of
    [src/extension.ts], agree on an element: in a text
    [pre ++ < tag > content ++ rest] whose [<] the second reads outside a
    tag, where the tag begins with a letter, [/], [!] or [?] and holds no
    [>] and no quote, the content holds no [<] and no comment opens right
    after the content, both give the same verdict at every offset after the
    [<] up to the end of the content. *)
Theorem markup_scanners_agree_on_element :
  forall (l f : string) (pre tag content rest : str),
    let t := pre ++ LT :: tag ++ GT :: content ++ rest in
    let p := len pre in
    Html.inTag (Html.scan t p) = false ->
    HtmlNotions.startsTag tag = true ->
    forallb HtmlNotions.plainTagChar tag = true ->
    forallb HtmlNotions.noOpen content = true ->
    startsWith (lit "<!--") rest = false ->
    forall offset,
      p < offset <= p + 1 + len tag + 1 + len content ->
      Markup.isMarkupTextContext (mkProbe l f t offset)
      = Html.isInHtmlTextContent t offset.
Proof.
  intros l f pre tag content rest t p Hout Hstart Htag Hcontent Hrest off Ho.
  destruct (html_element pre tag content rest Hout Hstart Htag Hcontent)
    as [Ht Hc].
  destruct (markup_element l f pre tag content rest Htag Hcontent Hrest)
    as [Mt Mc].
  fold t p in Ht, Hc, Mt, Mc.
  destruct (Z.le_gt_cases off (p + 1 + len tag)).
  - rewrite Ht, Mt by lia. reflexivity.
  - rewrite Hc, Mc by lia. reflexivity.
Qed.

(** The hypotheses of [markup_scanners_agree_on_element] hold of
    [<p class=x>Hi</p>]. *)
Lemma markup_scanners_agree_on_element_witness :
  Markup.isMarkupTextContext
    (mkProbe "html" "a.html" (lit "<p class=x>Hi</p>") 12)
  = Html.isInHtmlTextContent (lit "<p class=x>Hi</p>") 12.
Proof.
  refine (markup_scanners_agree_on_element "html" "a.html" []
            (lit "p class=x") (lit "Hi") (lit "</p>")
            eq_refl eq_refl eq_refl eq_refl eq_refl 12 _).
  vm_compute. split; [reflexivity|discriminate].
Defined.

(** ** The tag-end test [isLikelyTagEnd] of [src/extension.ts] *)

Section TagEnd.
Import Heuristic Html.

(** The backward scan passes over a run of characters of the class and
    stops before it: at a character outside the class, or at [-1]. *)
Lemma skipBackward_through cls t p : forall (n : nat) j,
  j = p + Z.of_nat n -> -1 <= p ->
  (0 <= p -> testClass cls (charAt t p) = false) ->
  (forall k, p < k <= j -> testClass cls (charAt t k) = true) ->
  skipBackward cls t j = p.
Proof.
  induction n as [|m IH]; intros j Hj Hp Hstop Hrun.
  - assert (E : j = p) by lia. clear Hj. subst j.
    destruct (Z.eq_dec p (-1)) as [->|Hne]; [reflexivity|].
    rewrite skipBackward_step by lia. now rewrite Hstop by lia.
  - rewrite skipBackward_step by lia. rewrite Hrun by lia.
    apply IH; try assumption; [lia|]. intros k Hk. apply Hrun. lia.
Qed.

Lemma tagContentChar_not_slash c : tagContentChar c = true -> N.eqb c SLASH = false.
Proof.
  intros H. destruct (N.eqb_spec c SLASH) as [->|]; [discriminate|reflexivity].
Qed.

Lemma isLikelyTagEnd_tag (pre tag rest : str) (d : Z) :
  forallb tagContentChar tag = true ->
  isLikelyTagEnd (pre ++ LT :: tag ++ GT :: rest) (len pre + 1 + len tag) d
  = true.
Proof.
  intros Htag. set (t := pre ++ LT :: tag ++ GT :: rest).
  set (p := len pre). set (g := p + 1 + len tag).
  destruct (html_shape pre tag [] rest GT) as (Hp & Hb & Hg & _).
  change (pre ++ LT :: tag ++ GT :: [] ++ rest) with t in Hp, Hb, Hg.
  fold p g in Hp, Hb, Hg.
  pose proof (len_nonneg pre). pose proof (len_nonneg tag).
  assert (Hin : forall k, p < k < g ->
            exists x, charAt t k = Some x /\ tagContentChar x = true).
  { intros k Hk. rewrite Hb by exact Hk.
    apply charAt_forallb; [exact Htag|]. unfold g in Hk. lia. }
  assert (Hprev : eqc (charAt t (g - 1)) SLASH = false).
  { destruct (Z.eq_dec (g - 1) p) as [->|Hne]; [now rewrite Hp|].
    destruct (Hin (g - 1) ltac:(lia)) as (x & -> & Hx).
    now apply tagContentChar_not_slash. }
  unfold isLikelyTagEnd.
  destruct (0 <? d); [reflexivity|].
  destruct (charAt t (g + 1)) as [nextChar|]; [|reflexivity].
  destruct (tagEndNext nextChar); [|reflexivity].
  rewrite Hprev.
  rewrite (skipBackward_through tagContentChar t p
             (Z.to_nat (g - 1 - p)) (g - 1)); try lia.
  - destruct (Z.leb_spec 0 p); [|lia]. now rewrite Hp.
  - intros _. now rewrite Hp.
  - intros k Hk. destruct (Hin k ltac:(lia)) as (x & -> & Hx). exact Hx.
Qed.

Lemma isLikelyTagEnd_comparison (operand rest : str) (c : char) (d : Z) :
  d <= 0 ->
  forallb tagContentChar operand = true ->
  tagEndNext c = true ->
  isLikelyTagEnd (operand ++ GT :: c :: rest) (len operand) d = false.
Proof.
  intros Hd Hop Hc. set (t := operand ++ GT :: c :: rest).
  set (g := len operand). pose proof (len_nonneg operand).
  assert (Hin : forall k, 0 <= k < g ->
            exists x, charAt t k = Some x /\ tagContentChar x = true).
  { intros k Hk. unfold t. rewrite charAt_app_l by (fold g; lia).
    apply charAt_forallb; [exact Hop|]. fold g. lia. }
  assert (Hnext : charAt t (g + 1) = Some c).
  { unfold t. rewrite charAt_app_r by (fold g; lia). fold g.
    replace (g + 1 - g) with 1 by lia. reflexivity. }
  assert (Hprev : eqc (charAt t (g - 1)) SLASH = false).
  { destruct (Z.eq_dec g 0) as [E|E].
    - rewrite E. reflexivity.
    - destruct (Hin (g - 1) ltac:(lia)) as (x & -> & Hx).
      now apply tagContentChar_not_slash. }
  unfold isLikelyTagEnd.
  destruct (Z.ltb_spec 0 d); [lia|].
  rewrite Hnext, Hc, Hprev.
  rewrite (skipBackward_through tagContentChar t (-1) (Z.to_nat g) (g - 1));
    try lia.
  - reflexivity.
  - intros k Hk. destruct (Hin k ltac:(lia)) as (x & -> & Hx). exact Hx.
Qed.

End TagEnd.

(** [isLikelyTagEnd]: the [>] that ends [< tag >], where the tag holds only
    letters, digits, [_], [-], [=], quotes, white space and [:], is accepted
    as a tag end at any depth and whatever follows; the [>] after an operand
    of such characters that begins the text, followed by a letter, a digit,
    [_] or an opening parenthesis, is rejected when the depth is not
    positive. *)
Theorem tag_end_accepts_tag_rejects_comparison :
  (forall (pre tag rest : str) (d : Z),
     forallb Html.tagContentChar tag = true ->
     Html.isLikelyTagEnd (pre ++ LT :: tag ++ GT :: rest)
                         (len pre + 1 + len tag) d = true)
  /\ (forall (operand rest : str) (c : char) (d : Z),
        d <= 0 ->
        forallb Html.tagContentChar operand = true ->
        Html.tagEndNext c = true ->
        Html.isLikelyTagEnd (operand ++ GT :: c :: rest) (len operand) d
        = false).
Proof.
  split.
  - intros pre tag rest d. apply isLikelyTagEnd_tag.
  - intros operand rest c d. apply isLikelyTagEnd_comparison.
Qed.

(** The hypotheses of [tag_end_accepts_tag_rejects_comparison] hold of
    [x = <div>y] and of [a>b]. *)
Lemma tag_end_accepts_tag_rejects_comparison_witness :
  Html.isLikelyTagEnd (lit "x = <div>y") 8 0 = true
  /\ Html.isLikelyTagEnd (lit "a>b") 1 0 = false.
Proof.
  split.
  - exact (proj1 tag_end_accepts_tag_rejects_comparison
             (lit "x = ") (lit "div") (lit "y") 0 eq_refl).
  - refine (proj2 tag_end_accepts_tag_rejects_comparison
              (lit "a") [] 98%N 0 _ eq_refl eq_refl).
    lia.
Defined.

(** ** The event handlers of [src/extension.ts] *)

Section ExtensionFacts.
Import Extension.

Lemma has_app (a b : list string) (l : string) :
  Lang.has (a ++ b) l = Lang.has a l || Lang.has b l.
Proof. unfold Lang.has. apply existsb_app. Qed.

Lemma settled_null s : lastState s = None -> settled s.
Proof. intros H b Hb. congruence. Qed.

Lemma handleSelectionChange_settled e s :
  settled s -> settled (handleSelectionChange e s).
Proof.
  intros H. unfold handleSelectionChange.
  destruct (negb (isSupportedLanguage _)); [exact H|].
  destruct (differs (lastState s) _); [|exact H].
  destruct (checkIfBetweenTags _ _); intros b Hb; simpl in *;
    injection Hb as <-; now exists (writes s).
Qed.

Lemma step_settled s e : settled s -> settled (step s e).
Proof.
  intros H. destruct e as [editor|editor|closed activeTextEditor| |]; simpl.
  - now apply handleSelectionChange_settled.
  - unfold handleEditorChange.
    destruct (match editor with None => true | Some _ => _ end).
    + destruct (lastState s); [now apply settled_null|exact H].
    + destruct editor; [now apply handleSelectionChange_settled|exact H].
  - unfold handleDocumentClose.
    destruct (isSupportedLanguage _); [|exact H].
    destruct (match activeTextEditor with None => true | Some _ => _ end);
      [now apply settled_null|exact H].
  - unfold resumeCleanup. destruct (suspended s); [exact H|].
    now apply settled_null.
  - now apply settled_null.
Qed.

Lemma fold_step_settled events : forall s,
  settled s -> settled (fold_left step events s).
Proof.
  induction events as [|e r IH]; intros s H; [exact H|].
  simpl. apply IH. now apply step_settled.
Qed.

Lemma session_settled activeTextEditor events :
  settled (session activeTextEditor events).
Proof.
  unfold session. apply fold_step_settled. unfold activate.
  destruct activeTextEditor as [e|].
  - apply handleSelectionChange_settled. now apply settled_null.
  - now apply settled_null.
Qed.

End ExtensionFacts.

(** The handlers of [src/extension.ts] and the detector of
    [src/contextDetector.ts] support the same languages and take the same
    ones for languages with JSX. *)
Theorem supported_languages_agree :
  forall languageId : string,
    Extension.isSupportedLanguage languageId = Lang.isSupported languageId
    /\ Lang.has Extension.JSX_LANGUAGES languageId
       = Lang.has Lang.JSX_LANGUAGES languageId.
Proof.
  intros l. split; [|reflexivity].
  unfold Extension.isSupportedLanguage, Lang.isSupported.
  now rewrite <- has_app.
Qed.

(** In every session of [src/extension.ts] (activation of the freshly loaded
    module, then any selection changes, editor changes, document closings,
    resumed cleanups and deactivations), whenever [lastState] is not [null]
    the last settings write issued is the one for its value: the disabling
    write when it is [true], the removing write when it is [false]. *)
Theorem last_state_matches_last_write :
  forall (activeTextEditor : option Extension.TextEditor)
         (events : list Extension.Event) (b : bool),
    Extension.lastState (Extension.session activeTextEditor events) = Some b ->
    exists ws,
      Extension.writes (Extension.session activeTextEditor events)
      = ws ++ [Extension.writeFor b].
Proof.
  intros activeTextEditor events b. apply session_settled.
Qed.

(** The hypothesis of [last_state_matches_last_write] holds after activation
    with the cursor in the content of [<p>x] in a markup document. *)
Lemma last_state_matches_last_write_witness :
  exists ws,
    Extension.writes
      (Extension.session
         (Some (Extension.mkEditor
                  (Detector.mkDocument "html" "a.html" "file:///a.html" 1
                                       (lit "<p>x") (fun _ => 4))
                  (Detector.mkPosition 0 4)))
         [])
    = ws ++ [Extension.writeFor true].
Proof.
  apply (last_state_matches_last_write
           (Some (Extension.mkEditor
                    (Detector.mkDocument "html" "a.html" "file:///a.html" 1
                                         (lit "<p>x") (fun _ => 4))
                    (Detector.mkPosition 0 4)))
           [] true).
  reflexivity.
Defined.

(** The cleanup that [activate] starts finishes after [activate] has
    handled the active editor, and then sets [lastState] to [null].  When the
    editor active at activation is in a supported language with the cursor
    between tags, the writes are the removing one and then the disabling
    one, and once the cleanup has resumed [lastState] is [null]; a change
    to no editor or to an editor of an unsupported language then issues no
    write, so the last write stays the disabling one. *)
Theorem activation_cleanup_forgets_state :
  forall (editor : Extension.TextEditor) (next : option Extension.TextEditor),
    Extension.isSupportedLanguage
      (Detector.doc_languageId (Extension.document editor)) = true ->
    Extension.checkIfBetweenTags (Extension.document editor)
                                 (Extension.active editor) = true ->
    match next with
    | None => True
    | Some e =>
        Extension.isSupportedLanguage
          (Detector.doc_languageId (Extension.document e)) = false
    end ->
    let s := Extension.session (Some editor) [Extension.CleanupResumed] in
    Extension.lastState s = None
    /\ Extension.writes s
       = [Extension.RemoveQuickSuggestions; Extension.DisableQuickSuggestions]
    /\ Extension.suspended s = O
    /\ Extension.step s (Extension.ActiveEditorChanged next) = s.
Proof.
  intros editor next Hsup Hin Hnext.
  assert (Hs : Extension.session (Some editor) [Extension.CleanupResumed]
               = Extension.mkState None
                   [Extension.RemoveQuickSuggestions;
                    Extension.DisableQuickSuggestions] 0).
  { unfold Extension.session, Extension.activate,
      Extension.handleSelectionChange. simpl.
    rewrite Hsup, Hin. reflexivity. }
  cbv zeta. rewrite Hs. repeat split.
  unfold Extension.step, Extension.handleEditorChange. simpl.
  destruct next as [e|]; [|reflexivity]. now rewrite Hnext.
Qed.

(** The hypotheses of [activation_cleanup_forgets_state] hold for a markup
    document with the cursor in the content of [<p>x], and a change to no
    editor. *)
Lemma activation_cleanup_forgets_state_witness :
  let editor :=
    Extension.mkEditor
      (Detector.mkDocument "html" "a.html" "file:///a.html" 1
                           (lit "<p>x") (fun _ => 4))
      (Detector.mkPosition 0 4) in
  let s := Extension.session (Some editor) [Extension.CleanupResumed] in
  Extension.lastState s = None
  /\ Extension.writes s
     = [Extension.RemoveQuickSuggestions; Extension.DisableQuickSuggestions]
  /\ Extension.suspended s = O
  /\ Extension.step s (Extension.ActiveEditorChanged None) = s.
Proof.
  exact (activation_cleanup_forgets_state
           (Extension.mkEditor
              (Detector.mkDocument "html" "a.html" "file:///a.html" 1
                                   (lit "<p>x") (fun _ => 4))
              (Detector.mkPosition 0 4))
           None eq_refl eq_refl I).
Defined.

(** ** [debounce] of [src/extension.ts] *)

Section DebounceFacts.
Import Debounce.

Variable A : Type.
Variable wait : Z.

Lemma invoke_waiting now a s d b :
  waiting A s d b -> waiting A (invoke A wait now a s) (now + wait) a.
Proof.
  intros (h & Ht & Hl & Hc). exists (nextHandle A s).
  unfold invoke. rewrite Ht, Hl. simpl. rewrite Nat.eqb_refl. simpl.
  repeat split. exact Hc.
Qed.

Lemma elapse_before now s d b :
  now < d -> waiting A s d b -> waiting A (elapse A now s) d b.
Proof.
  intros Hd (h & Ht & Hl & Hc). exists h. unfold elapse.
  rewrite Hl, Hc. simpl.
  destruct (Z.ltb_spec now d); [|lia]. destruct (Z.leb_spec d now); [lia|].
  simpl. now repeat split.
Qed.

Lemma elapse_after now s d b :
  d <= now -> waiting A s d b ->
  calls A (elapse A now s) = [b] /\ timers A (elapse A now s) = [].
Proof.
  intros Hd (h & Ht & Hl & Hc). unfold elapse. rewrite Hl, Hc. simpl.
  destruct (Z.ltb_spec now d); [lia|]. destruct (Z.leb_spec d now); [|lia].
  now split.
Qed.

Lemma invokeAll_waiting rest : forall prev a s,
  waiting A s (prev + wait) a -> burst A wait prev rest ->
  waiting A (invokeAll A wait rest s)
    (fst (lastCall A (prev, a) rest) + wait) (snd (lastCall A (prev, a) rest)).
Proof.
  induction rest as [|[t b] r IH]; intros prev a s Hw Hb; [exact Hw|].
  destruct Hb as [Hc Hb]. simpl in Hc, Hb.
  change (invokeAll A wait ((t, b) :: r) s)
    with (invokeAll A wait r (invoke A wait t b (elapse A t s))).
  change (lastCall A (prev, a) ((t, b) :: r)) with (lastCall A (t, b) r).
  apply IH; [|exact Hb].
  apply (invoke_waiting t b _ (prev + wait) a).
  apply elapse_before; [lia|exact Hw].
Qed.

Lemma burst_waiting t1 a1 rest :
  burst A wait t1 rest ->
  waiting A (invokeAll A wait ((t1, a1) :: rest) (initial A))
    (fst (lastCall A (t1, a1) rest) + wait) (snd (lastCall A (t1, a1) rest)).
Proof.
  intros Hb. simpl. apply invokeAll_waiting; [|exact Hb].
  exists O. unfold invoke, elapse, initial. simpl. now repeat split.
Qed.

End DebounceFacts.

(** [debounce]: of calls that each come before the timer of the one before
    is due, only the last reaches [func], once, [wait] after it was made.
    After the calls, when the host has reached a time before that moment
    [func] has not run; when it has reached that moment or a later time
    [func] has run once, with the arguments of the last call, and going on
    to a later time runs nothing more. *)
Theorem debounce_delivers_last_call_once :
  forall (A : Type) (wait : Z) (t1 : Z) (a1 : A) (rest : list (Z * A)),
    Debounce.burst A wait t1 rest ->
    let s := Debounce.invokeAll A wait ((t1, a1) :: rest)
               (Debounce.initial A) in
    let last := Debounce.lastCall A (t1, a1) rest in
    (forall now, now < fst last + wait ->
       Debounce.calls A (Debounce.elapse A now s) = [])
    /\ (forall now later, fst last + wait <= now -> now <= later ->
          Debounce.calls A (Debounce.elapse A now s) = [snd last]
          /\ Debounce.calls A (Debounce.elapse A later (Debounce.elapse A now s))
             = [snd last]).
Proof.
  intros A wait t1 a1 rest Hb s last.
  pose proof (burst_waiting A wait t1 a1 rest Hb) as Hw. fold s last in Hw.
  split.
  - intros now Hn.
    destruct (elapse_before A now s _ _ Hn Hw) as (h & _ & _ & Hc). exact Hc.
  - intros now later Hn Hl.
    destruct (elapse_after A now s _ _ Hn Hw) as [Hc Ht]. split; [exact Hc|].
    unfold Debounce.elapse at 1. rewrite Ht, Hc. reflexivity.
Qed.

(** The hypothesis of [debounce_delivers_last_call_once] holds of three
    calls at times 0, 30 and 60 with a wait of 50: [func] runs at 110 with
    the arguments of the third. *)
Lemma debounce_delivers_last_call_once_witness :
  Debounce.calls nat
    (Debounce.elapse nat 110
       (Debounce.invokeAll nat 50 [(0, 1%nat); (30, 2%nat); (60, 3%nat)]
          (Debounce.initial nat)))
  = [3%nat].
Proof.
  refine (proj1 (proj2 (debounce_delivers_last_call_once nat 50 0 1%nat
                          [(30, 2%nat); (60, 3%nat)] _) 110 110 _ _)).
  - simpl. lia.
  - simpl. lia.
  - lia.
Defined.

(** ** Maps *)

Section JsMapFacts.

Variable V : Type.

Local Abbreviation get := (JsMap.get V).
Local Abbreviation set := (JsMap.set V).
Local Abbreviation delete := (JsMap.delete V).
Local Abbreviation has := (JsMap.has V).
Local Abbreviation wellFormed := (JsMap.wellFormed V).

Lemma jsmap_get_set_same (m : JsMap.t V) k v : get (set m k v) k = Some v.
Proof.
  induction m as [|[k' v'] r IH]; simpl.
  - now rewrite String.eqb_refl.
  - destruct (String.eqb k' k) eqn:E; simpl; rewrite E; [reflexivity|exact IH].
Qed.

Lemma jsmap_get_set_other (m : JsMap.t V) k k' v :
  k <> k' -> get (set m k v) k' = get m k'.
Proof.
  intros Hne. induction m as [|[k0 v0] r IH]; simpl.
  - destruct (String.eqb_spec k k'); [contradiction|reflexivity].
  - destruct (String.eqb_spec k0 k) as [->|Hk]; simpl.
    + destruct (String.eqb_spec k k'); [contradiction|reflexivity].
    + destruct (String.eqb k0 k'); [reflexivity|exact IH].
Qed.

Lemma jsmap_get_none (m : JsMap.t V) k :
  get m k = None <-> ~ In k (List.map fst m).
Proof.
  induction m as [|[k' v'] r IH]; simpl; [tauto|].
  destruct (String.eqb_spec k' k) as [->|Hk].
  - split; [discriminate|]. intros H. exfalso. apply H. now left.
  - rewrite IH. split; [intros H [E|E]; [contradiction|auto]|auto].
Qed.

Lemma jsmap_set_keys (m : JsMap.t V) k v :
  List.map fst (set m k v)
  = if has m k then List.map fst m else List.map fst m ++ [k].
Proof.
  unfold JsMap.has. induction m as [|[k' v'] r IH]; simpl; [reflexivity|].
  destruct (String.eqb k' k) eqn:E; simpl; [reflexivity|].
  rewrite IH. now destruct (get r k).
Qed.

Lemma jsmap_set_new (m : JsMap.t V) k v :
  get m k = None -> set m k v = m ++ [(k, v)].
Proof.
  induction m as [|[k' v'] r IH]; simpl; [reflexivity|].
  destruct (String.eqb k' k); [discriminate|]. intros H. now rewrite IH.
Qed.

Lemma jsmap_set_wellFormed (m : JsMap.t V) k v :
  wellFormed m -> wellFormed (set m k v).
Proof.
  unfold JsMap.wellFormed. intros H. rewrite jsmap_set_keys.
  unfold JsMap.has. destruct (get m k) eqn:E; [exact H|].
  apply jsmap_get_none in E.
  apply NoDup_app; [exact H|repeat constructor; auto| ].
  intros x Hx [<-|[]]. contradiction.
Qed.

Lemma jsmap_delete_keys_subset (m : JsMap.t V) k x :
  In x (List.map fst (delete m k)) -> In x (List.map fst m).
Proof.
  induction m as [|[k' v'] r IH]; simpl; [tauto|].
  destruct (String.eqb k' k); simpl; [auto|].
  intros [E|E]; [now left|right; auto].
Qed.

Lemma jsmap_delete_wellFormed (m : JsMap.t V) k :
  wellFormed m -> wellFormed (delete m k).
Proof.
  unfold JsMap.wellFormed. induction m as [|[k' v'] r IH]; simpl;
    [auto|].
  intros H. inversion H as [|x l Hx Hl]; subst.
  destruct (String.eqb k' k); [exact Hl|]. simpl. constructor; [|auto].
  intros Hin. apply Hx. eapply jsmap_delete_keys_subset, Hin.
Qed.

Lemma jsmap_get_delete_same (m : JsMap.t V) k :
  wellFormed m -> get (delete m k) k = None.
Proof.
  unfold JsMap.wellFormed. induction m as [|[k' v'] r IH]; simpl;
    [reflexivity|].
  intros H. inversion H as [|x l Hx Hl]; subst.
  destruct (String.eqb_spec k' k) as [->|Hk].
  - now apply jsmap_get_none.
  - simpl. destruct (String.eqb_spec k' k); [contradiction|auto].
Qed.

Lemma jsmap_get_delete_other (m : JsMap.t V) k k' :
  k <> k' -> get (delete m k) k' = get m k'.
Proof.
  intros Hne. induction m as [|[k0 v0] r IH]; simpl; [reflexivity|].
  destruct (String.eqb_spec k0 k) as [->|Hk]; simpl.
  - destruct (String.eqb_spec k k'); [contradiction|reflexivity].
  - destruct (String.eqb k0 k'); [reflexivity|exact IH].
Qed.

Lemma jsmap_fold_set (raw : list (string * V)) : forall acc : JsMap.t V,
  NoDup (List.map fst acc ++ List.map fst raw) ->
  fold_left (fun m e => set m (fst e) (snd e)) raw acc = acc ++ raw.
Proof.
  induction raw as [|[k v] r IH]; intros acc H; simpl.
  - now rewrite app_nil_r.
  - simpl in H. rewrite jsmap_set_new.
    + rewrite IH.
      * rewrite <- app_assoc. reflexivity.
      * rewrite map_app. simpl. rewrite <- app_assoc. exact H.
    + apply jsmap_get_none. intros Hin.
      apply NoDup_remove_2 in H. apply H. apply in_or_app. now left.
Qed.

(** A map is the map of its entries. *)
Lemma jsmap_ofEntries_entries (m : JsMap.t V) :
  wellFormed m -> JsMap.ofEntries V (JsMap.entries V m) = m.
Proof.
  intros H. unfold JsMap.ofEntries, JsMap.entries.
  now rewrite jsmap_fold_set.
Qed.

Lemma jsmap_fold_wellFormed (raw : list (string * V)) :
  forall acc : JsMap.t V,
    wellFormed acc ->
    wellFormed (fold_left (fun m e => set m (fst e) (snd e)) raw acc).
Proof.
  induction raw as [|e r IH]; intros acc H; simpl; [exact H|].
  apply IH. now apply jsmap_set_wellFormed.
Qed.

Lemma jsmap_ofEntries_wellFormed (raw : list (string * V)) :
  wellFormed (JsMap.ofEntries V raw).
Proof. apply jsmap_fold_wellFormed. constructor. Qed.

End JsMapFacts.

(** ** [SuggestionSettingsController] *)

Section SettingsFacts.
Import SettingsController.

Variable workspaceFolders : option (list string).
Variable getWorkspaceFolder : string -> option string.
Variable quickSuggestionsOf : string -> list Update -> SettingValue.

Local Abbreviation disableFor' :=
  (disableFor getWorkspaceFolder quickSuggestionsOf).
Local Abbreviation restore' := (restore getWorkspaceFolder).
Local Abbreviation restoreByKey' := (restoreByKey workspaceFolders).
Local Abbreviation restorePersisted' :=
  (restorePersisted workspaceFolders quickSuggestionsOf).
Local Abbreviation ensureDefaults' :=
  (ensureDefaultsIfForcedOff workspaceFolders quickSuggestionsOf).
Local Abbreviation call' :=
  (call workspaceFolders getWorkspaceFolder quickSuggestionsOf).
Local Abbreviation keyOf d :=
  (key (getTargetContext getWorkspaceFolder d)).

(** The writes of the entries, and nothing else, are what restoring them
    adds. *)
Lemma restore_entries_fold entries : forall s,
  fold_left (fun s e => restoreByKey' (fst e) (snd e) s) entries s
  = mkState (snapshots s) (state s) (persisted s) (memento s)
            (updates s
             ++ List.map (restoringUpdate workspaceFolders) entries).
Proof.
  induction entries as [|e r IH]; intros s; simpl.
  - rewrite app_nil_r. now destruct s.
  - rewrite IH. unfold restoreByKey, update, restoringUpdate. simpl.
    now rewrite <- app_assoc.
Qed.

(** [ensureDefaultsIfForcedOff] changes the writes only. *)
Lemma ensureDefaults_fold keys : forall s,
  let s' :=
    fold_left
      (fun s key =>
         if JsMap.has SettingSnapshot (persisted s) key then s
         else if isFalse (quickSuggestionsOf
                            (config (getContextByKey workspaceFolders key))
                            (updates s))
              then update (getContextByKey workspaceFolders key) Undefined s
              else s)
      keys s in
  snapshots s' = snapshots s /\ state s' = state s
  /\ persisted s' = persisted s /\ memento s' = memento s
  /\ exists added, updates s' = updates s ++ added.
Proof.
  induction keys as [|k r IH]; intros s; simpl.
  - repeat split. exists []. now rewrite app_nil_r.
  - destruct (JsMap.has SettingSnapshot (persisted s) k); [apply IH|].
    destruct (isFalse _); [|apply IH].
    destruct (IH (update (getContextByKey workspaceFolders k) Undefined s))
      as (H1 & H2 & H3 & H4 & added & H5).
    simpl in *. repeat split; try assumption.
    eexists. rewrite H5, <- app_assoc. reflexivity.
Qed.

Lemma ensureDefaults_fields s :
  snapshots (ensureDefaults' s) = snapshots s
  /\ state (ensureDefaults' s) = state s
  /\ persisted (ensureDefaults' s) = persisted s
  /\ memento (ensureDefaults' s) = memento s
  /\ exists added, updates (ensureDefaults' s) = updates s ++ added.
Proof. apply ensureDefaults_fold. Qed.

(** With no key that reads [false], [ensureDefaultsIfForcedOff] does
    nothing. *)
Lemma ensureDefaults_nothing keys : forall s,
  (forall k, In k keys ->
     isFalse (quickSuggestionsOf
                (config (getContextByKey workspaceFolders k)) (updates s))
     = false) ->
  fold_left
    (fun s key =>
       if JsMap.has SettingSnapshot (persisted s) key then s
       else if isFalse (quickSuggestionsOf
                          (config (getContextByKey workspaceFolders key))
                          (updates s))
            then update (getContextByKey workspaceFolders key) Undefined s
            else s)
    keys s = s.
Proof.
  induction keys as [|k r IH]; intros s H; cbn [fold_left]; [reflexivity|].
  rewrite (H k) by now left.
  destruct (JsMap.has _ _ _); apply IH; intros k' Hk'; apply H; now right.
Qed.

Lemma new_wellFormed m u : wellFormed (new m u).
Proof.
  split; simpl; [constructor|]. apply jsmap_ofEntries_wellFormed.
Qed.

Lemma new_mirrored m u : mirrored (new m u).
Proof. reflexivity. Qed.

Lemma disableFor_kept d s :
  wellFormed s -> mirrored s ->
  wellFormed (disableFor' d s) /\ mirrored (disableFor' d s).
Proof.
  intros [Hs Hp] Hm. unfold disableFor.
  destruct (isDisabled _); [now repeat split|].
  unfold wellFormed, mirrored. simpl.
  repeat split; try now apply jsmap_set_wellFormed.
  apply jsmap_ofEntries_entries. now apply jsmap_set_wellFormed.
Qed.

Lemma restore_kept d s :
  wellFormed s -> mirrored s ->
  wellFormed (restore' d s) /\ mirrored (restore' d s).
Proof.
  intros [Hs Hp] Hm. unfold restore.
  destruct (negb (isDisabled _)); [now repeat split|].
  destruct (JsMap.get SettingSnapshot (snapshots s) _);
    unfold wellFormed, mirrored; simpl.
  - repeat split; try now apply jsmap_delete_wellFormed.
    apply jsmap_ofEntries_entries. now apply jsmap_delete_wellFormed.
  - repeat split; try assumption. now apply jsmap_delete_wellFormed.
Qed.

Lemma restoreAll_kept s :
  wellFormed s -> mirrored s ->
  wellFormed (restoreAll workspaceFolders s)
  /\ mirrored (restoreAll workspaceFolders s).
Proof.
  intros [Hs Hp] Hm. unfold restoreAll. rewrite restore_entries_fold.
  unfold wellFormed, mirrored. simpl. repeat split; try assumption.
  constructor.
Qed.

Lemma restorePersisted_fields s :
  snapshots (restorePersisted' s) = snapshots s
  /\ state (restorePersisted' s) = state s
  /\ persisted (restorePersisted' s) = []
  /\ memento (restorePersisted' s) = Some []
  /\ exists added,
       updates (restorePersisted' s)
       = updates s
         ++ List.map (restoringUpdate workspaceFolders) (persisted s)
         ++ added.
Proof.
  unfold restorePersisted. rewrite restore_entries_fold.
  match goal with
  | |- context [ensureDefaultsIfForcedOff _ _ ?x] =>
      destruct (ensureDefaults_fields x) as (H1 & H2 & H3 & H4 & added & H5)
  end.
  rewrite H1, H2, H3, H4, H5. simpl. repeat split.
  exists added. unfold JsMap.entries. now rewrite <- app_assoc.
Qed.

Lemma restorePersisted_kept s :
  wellFormed s -> mirrored s ->
  wellFormed (restorePersisted' s) /\ mirrored (restorePersisted' s).
Proof.
  intros [Hs Hp] Hm.
  destruct (restorePersisted_fields s) as (H1 & H2 & H3 & H4 & _).
  unfold wellFormed, mirrored. rewrite H1, H3, H4.
  repeat split; [exact Hs|constructor].
Qed.

Lemma call_kept s c :
  wellFormed s -> mirrored s ->
  wellFormed (call' s c) /\ mirrored (call' s c).
Proof.
  intros Hw Hm. destruct c; simpl.
  - now apply restorePersisted_kept.
  - now apply disableFor_kept.
  - now apply restore_kept.
  - now apply restoreAll_kept.
Qed.

Lemma calls_kept calls : forall s,
  wellFormed s -> mirrored s ->
  wellFormed (fold_left call' calls s) /\ mirrored (fold_left call' calls s).
Proof.
  induction calls as [|c r IH]; intros s Hw Hm; simpl; [now split|].
  destruct (call_kept s c Hw Hm). now apply IH.
Qed.

(** What [disableFor] leaves when the key is not recorded as disabled. *)
Lemma disableFor_effect d s :
  isDisabled (JsMap.get Mode (state s) (keyOf d)) = false ->
  let ctx := getTargetContext getWorkspaceFolder d in
  let snapshot := mkSnapshot (quickSuggestionsOf (config ctx) (updates s)) in
  disableFor' d s
  = mkState (JsMap.set SettingSnapshot (snapshots s) (key ctx) snapshot)
            (JsMap.set Mode (state s) (key ctx) disabled)
            (JsMap.set SettingSnapshot (persisted s) (key ctx) snapshot)
            (Some (JsMap.set SettingSnapshot (persisted s) (key ctx) snapshot))
            (updates s ++ [mkUpdate (config ctx) (Boolean false)
                                    (ctx_target ctx)]).
Proof. intros E. unfold disableFor. rewrite E. reflexivity. Qed.

Lemma disableFor_twice d1 d2 s :
  keyOf d1 = keyOf d2 ->
  disableFor' d2 (disableFor' d1 s) = disableFor' d1 s.
Proof.
  intros Hk.
  destruct (isDisabled (JsMap.get Mode (state s) (keyOf d1))) eqn:E.
  - assert (H1 : disableFor' d1 s = s) by (unfold disableFor; now rewrite E).
    rewrite H1. unfold disableFor. now rewrite <- Hk, E.
  - rewrite (disableFor_effect d1 s E). cbv zeta. unfold disableFor.
    cbn [state]. rewrite <- Hk. now rewrite jsmap_get_set_same.
Qed.

(** What [restore] leaves when the key is recorded as disabled with a
    snapshot. *)
Lemma restore_effect d s snapshot :
  isDisabled (JsMap.get Mode (state s) (keyOf d)) = true ->
  JsMap.get SettingSnapshot (snapshots s) (keyOf d) = Some snapshot ->
  let ctx := getTargetContext getWorkspaceFolder d in
  restore' d s
  = mkState (JsMap.delete SettingSnapshot (snapshots s) (key ctx))
            (JsMap.set Mode (state s) (key ctx) enabled)
            (JsMap.delete SettingSnapshot (persisted s) (key ctx))
            (Some (JsMap.delete SettingSnapshot (persisted s) (key ctx)))
            (updates s ++ [mkUpdate (config ctx) (quickSuggestions snapshot)
                                    (ctx_target ctx)]).
Proof. intros E Hs. unfold restore. rewrite E, Hs. reflexivity. Qed.

End SettingsFacts.

Section SettingsRoundTrips.
Import SettingsController.

Variable workspaceFolders : option (list string).
Variable getWorkspaceFolder : string -> option string.
Variable quickSuggestionsOf : string -> list Update -> SettingValue.

Lemma jsmap_set_in (V : Type) (m : JsMap.t V) k v :
  In (k, v) (JsMap.set V m k v).
Proof.
  induction m as [|[k' v'] r IH]; simpl; [now left|].
  destruct (String.eqb_spec k' k) as [->|Hk]; [now left|now right].
Qed.

Lemma disable_restore (d d' : Detector.TextDocument) (s : State) :
  wellFormed s ->
  isDisabled (JsMap.get Mode (state s)
                (key (getTargetContext getWorkspaceFolder d))) = false ->
  getWorkspaceFolder (Detector.uri d) = getWorkspaceFolder (Detector.uri d') ->
  let ctx := getTargetContext getWorkspaceFolder d in
  let s' := restore getWorkspaceFolder d'
              (disableFor getWorkspaceFolder quickSuggestionsOf d s) in
  updates s'
  = updates s
    ++ [mkUpdate (Detector.uri d) (Boolean false) (ctx_target ctx);
        mkUpdate (Detector.uri d')
                 (quickSuggestionsOf (Detector.uri d) (updates s))
                 (ctx_target ctx)]
  /\ JsMap.get SettingSnapshot (snapshots s') (key ctx) = None
  /\ JsMap.get SettingSnapshot (persisted s') (key ctx) = None
  /\ JsMap.get Mode (state s') (key ctx) = Some enabled
  /\ memento s' = Some (persisted s').
Proof.
  intros [Hs Hp] E Hf ctx s'.
  assert (Hk : key (getTargetContext getWorkspaceFolder d') = key ctx).
  { unfold ctx, getTargetContext. simpl. now rewrite Hf. }
  assert (Ht : ctx_target (getTargetContext getWorkspaceFolder d')
               = ctx_target ctx).
  { unfold ctx, getTargetContext. simpl. now rewrite Hf. }
  unfold s'. rewrite (disableFor_effect _ _ d s E). cbv zeta. fold ctx.
  rewrite (restore_effect getWorkspaceFolder d' _
             (mkSnapshot (quickSuggestionsOf (config ctx) (updates s)))).
  - cbv zeta. rewrite Hk, Ht. cbn [updates snapshots persisted state memento].
    repeat split.
    + rewrite <- app_assoc. reflexivity.
    + apply jsmap_get_delete_same. now apply jsmap_set_wellFormed.
    + apply jsmap_get_delete_same. now apply jsmap_set_wellFormed.
    + apply jsmap_get_set_same.
  - cbn [state]. rewrite Hk. now rewrite jsmap_get_set_same.
  - cbn [snapshots]. rewrite Hk. apply jsmap_get_set_same.
Qed.

Lemma restart_restores (m0 : option (list (string * SettingSnapshot)))
    (u0 : list Update) (calls : list Call) (d : Detector.TextDocument) :
  let s0 := fold_left (call workspaceFolders getWorkspaceFolder
                            quickSuggestionsOf) calls (new m0 u0) in
  let ctx := getTargetContext getWorkspaceFolder d in
  isDisabled (JsMap.get Mode (state s0) (key ctx)) = false ->
  let s1 := disableFor getWorkspaceFolder quickSuggestionsOf d s0 in
  let s3 := restorePersisted workspaceFolders quickSuggestionsOf
              (new (memento s1) (updates s1)) in
  (exists before after,
     updates s3
     = updates s1 ++ before
       ++ [restoringUpdate workspaceFolders
             (key ctx,
              mkSnapshot (quickSuggestionsOf (Detector.uri d) (updates s0)))]
       ++ after)
  /\ persisted s3 = [] /\ memento s3 = Some [].
Proof.
  intros s0 ctx E s1 s3.
  destruct (calls_kept workspaceFolders getWorkspaceFolder quickSuggestionsOf
              calls (new m0 u0) (new_wellFormed m0 u0) (new_mirrored m0 u0))
    as [[Hs Hp] Hm].
  fold s0 in Hs, Hp, Hm.
  destruct (restorePersisted_fields workspaceFolders quickSuggestionsOf
              (new (memento s1) (updates s1)))
    as (_ & _ & H3 & H4 & added & H5).
  fold s3 in H3, H4, H5. split; [|now split].
  assert (Hpers : persisted (new (memento s1) (updates s1))
                  = JsMap.set SettingSnapshot (persisted s0) (key ctx)
                      (mkSnapshot (quickSuggestionsOf (config ctx)
                                                      (updates s0)))).
  { unfold s1. rewrite (disableFor_effect _ _ d s0 E). cbv zeta. fold ctx.
    cbn [new memento persisted loadPersisted].
    apply (jsmap_ofEntries_entries SettingSnapshot).
    now apply jsmap_set_wellFormed. }
  rewrite Hpers in H5. cbn [new updates] in H5.
  destruct (in_split _ _
              (jsmap_set_in SettingSnapshot (persisted s0) (key ctx)
                 (mkSnapshot (quickSuggestionsOf (config ctx) (updates s0)))))
    as (l1 & l2 & Hsplit).
  rewrite Hsplit, map_app in H5. cbn [List.map] in H5.
  exists (List.map (restoringUpdate workspaceFolders) l1),
         (List.map (restoringUpdate workspaceFolders) l2 ++ added).
  rewrite H5. rewrite <- !app_assoc. reflexivity.
Qed.

Lemma forced_off_nothing (s : State) :
  persisted s = [] ->
  (forall k, In k (defaultKeys workspaceFolders) ->
     isFalse (quickSuggestionsOf
                (config (getContextByKey workspaceFolders k)) (updates s))
     = false) ->
  updates (restorePersisted workspaceFolders quickSuggestionsOf s)
  = updates s.
Proof.
  intros Hp H. unfold restorePersisted. rewrite Hp. cbn [JsMap.entries fold_left].
  unfold ensureDefaultsIfForcedOff.
  rewrite ensureDefaults_nothing; [reflexivity|].
  intros k Hk. cbn [savePersisted updates]. now apply H.
Qed.

End SettingsRoundTrips.

(** [disableFor] twice for documents of the same key is [disableFor] once:
    the second call writes nothing and leaves the snapshot of the first, so
    the value the controller wrote itself is never taken for the user's. *)
Theorem disable_for_is_idempotent :
  forall (getWorkspaceFolder : string -> option string)
         (quickSuggestionsOf :
            string -> list SettingsController.Update
            -> SettingsController.SettingValue)
         (d1 d2 : Detector.TextDocument) (s : SettingsController.State),
    SettingsController.key
      (SettingsController.getTargetContext getWorkspaceFolder d1)
    = SettingsController.key
        (SettingsController.getTargetContext getWorkspaceFolder d2) ->
    SettingsController.disableFor getWorkspaceFolder quickSuggestionsOf d2
      (SettingsController.disableFor getWorkspaceFolder quickSuggestionsOf
         d1 s)
    = SettingsController.disableFor getWorkspaceFolder quickSuggestionsOf
        d1 s.
Proof.
  intros gwf q d1 d2 s. apply disableFor_twice.
Qed.

(** The hypothesis of [disable_for_is_idempotent] holds of two documents
    outside every workspace folder. *)
Lemma disable_for_is_idempotent_witness :
  let d1 := Detector.mkDocument "typescriptreact" "a.tsx" "file:///a.tsx" 1
              (lit "<p>x</p>") (fun _ => 3) in
  let d2 := Detector.mkDocument "typescriptreact" "b.tsx" "file:///b.tsx" 1
              (lit "<p>y</p>") (fun _ => 3) in
  let q := fun (_ : string) (_ : list SettingsController.Update) =>
             SettingsController.Boolean true in
  let s := SettingsController.new None [] in
  SettingsController.disableFor (fun _ => None) q d2
    (SettingsController.disableFor (fun _ => None) q d1 s)
  = SettingsController.disableFor (fun _ => None) q d1 s.
Proof.
  intros d1 d2 q s.
  exact (disable_for_is_idempotent (fun _ => None) q d1 d2 s eq_refl).
Defined.

(** [disableFor] and then [restore]: when the key of the document is not
    recorded as disabled, [disableFor] followed by [restore] for a document
    of the same workspace folder issues two writes at the same target, first
    [false] and then the value that [config.get] returned before the first,
    and leaves no snapshot of the key, in the controller or persisted, the
    key recorded as enabled and the memento holding the persisted
    snapshots. *)
Theorem disable_then_restore_round_trip :
  forall (getWorkspaceFolder : string -> option string)
         (quickSuggestionsOf :
            string -> list SettingsController.Update
            -> SettingsController.SettingValue)
         (d d' : Detector.TextDocument) (s : SettingsController.State),
    SettingsController.wellFormed s ->
    SettingsController.isDisabled
      (JsMap.get SettingsController.Mode (SettingsController.state s)
         (SettingsController.key
            (SettingsController.getTargetContext getWorkspaceFolder d)))
    = false ->
    getWorkspaceFolder (Detector.uri d) = getWorkspaceFolder (Detector.uri d') ->
    let ctx := SettingsController.getTargetContext getWorkspaceFolder d in
    let s' := SettingsController.restore getWorkspaceFolder d'
                (SettingsController.disableFor getWorkspaceFolder
                   quickSuggestionsOf d s) in
    SettingsController.updates s'
    = SettingsController.updates s
      ++ [SettingsController.mkUpdate (Detector.uri d)
            (SettingsController.Boolean false)
            (SettingsController.ctx_target ctx);
          SettingsController.mkUpdate (Detector.uri d')
            (quickSuggestionsOf (Detector.uri d)
                                (SettingsController.updates s))
            (SettingsController.ctx_target ctx)]
    /\ JsMap.get SettingsController.SettingSnapshot
         (SettingsController.snapshots s') (SettingsController.key ctx) = None
    /\ JsMap.get SettingsController.SettingSnapshot
         (SettingsController.persisted s') (SettingsController.key ctx) = None
    /\ JsMap.get SettingsController.Mode
         (SettingsController.state s') (SettingsController.key ctx)
       = Some SettingsController.enabled
    /\ SettingsController.memento s'
       = Some (SettingsController.persisted s').
Proof.
  intros gwf q d d' s. apply disable_restore.
Qed.

(** The hypotheses of [disable_then_restore_round_trip] hold of a new
    controller and a document outside every workspace folder, with a setting
    that reads as the value of code 7: the writes are [false] and then that
    value. *)
Lemma disable_then_restore_round_trip_witness :
  let d := Detector.mkDocument "typescriptreact" "a.tsx" "file:///a.tsx" 1
             (lit "<p>x</p>") (fun _ => 3) in
  let q := fun (_ : string) (_ : list SettingsController.Update) =>
             SettingsController.Other 7 in
  SettingsController.updates
    (SettingsController.restore (fun _ => None) d
       (SettingsController.disableFor (fun _ => None) q d
          (SettingsController.new None [])))
  = [SettingsController.mkUpdate "file:///a.tsx"
       (SettingsController.Boolean false) SettingsController.Workspace;
     SettingsController.mkUpdate "file:///a.tsx"
       (SettingsController.Other 7) SettingsController.Workspace].
Proof.
  intros d q.
  exact (proj1 (disable_then_restore_round_trip (fun _ => None) q d d
                  (SettingsController.new None [])
                  (new_wellFormed None []) eq_refl eq_refl)).
Defined.

(** The memento mirrors the persisted snapshots: after any sequence of
    calls of the public methods on a new controller, a controller
    constructed from the memento starts with exactly the snapshots the
    running one holds as persisted. *)
Theorem memento_mirrors_persisted :
  forall (workspaceFolders : option (list string))
         (getWorkspaceFolder : string -> option string)
         (quickSuggestionsOf :
            string -> list SettingsController.Update
            -> SettingsController.SettingValue)
         (memento : option (list (string * SettingsController.SettingSnapshot)))
         (updates : list SettingsController.Update)
         (calls : list SettingsController.Call),
    let s := fold_left
               (SettingsController.call workspaceFolders getWorkspaceFolder
                  quickSuggestionsOf)
               calls (SettingsController.new memento updates) in
    SettingsController.persisted
      (SettingsController.new (SettingsController.memento s)
                              (SettingsController.updates s))
    = SettingsController.persisted s.
Proof.
  intros wf gwf q m0 u0 calls s.
  destruct (calls_kept wf gwf q calls (SettingsController.new m0 u0)
              (new_wellFormed m0 u0) (new_mirrored m0 u0)) as [_ Hm].
  exact Hm.
Qed.

(** A snapshot survives a restart: when [disableFor] has run for a key not
    recorded as disabled and the controller is then lost, a controller
    constructed from the memento writes the snapshot back in
    [restorePersisted], the value being the one [config.get] returned before
    [disableFor] wrote, and ends with nothing persisted and an empty
    memento. *)
Theorem persisted_snapshot_survives_restart :
  forall (workspaceFolders : option (list string))
         (getWorkspaceFolder : string -> option string)
         (quickSuggestionsOf :
            string -> list SettingsController.Update
            -> SettingsController.SettingValue)
         (memento : option (list (string * SettingsController.SettingSnapshot)))
         (updates : list SettingsController.Update)
         (calls : list SettingsController.Call)
         (d : Detector.TextDocument),
    let s0 := fold_left
                (SettingsController.call workspaceFolders getWorkspaceFolder
                   quickSuggestionsOf)
                calls (SettingsController.new memento updates) in
    let ctx := SettingsController.getTargetContext getWorkspaceFolder d in
    SettingsController.isDisabled
      (JsMap.get SettingsController.Mode (SettingsController.state s0)
         (SettingsController.key ctx)) = false ->
    let s1 := SettingsController.disableFor getWorkspaceFolder
                quickSuggestionsOf d s0 in
    let s3 := SettingsController.restorePersisted workspaceFolders
                quickSuggestionsOf
                (SettingsController.new (SettingsController.memento s1)
                                        (SettingsController.updates s1)) in
    (exists before after,
       SettingsController.updates s3
       = SettingsController.updates s1 ++ before
         ++ [SettingsController.restoringUpdate workspaceFolders
               (SettingsController.key ctx,
                SettingsController.mkSnapshot
                  (quickSuggestionsOf (Detector.uri d)
                                      (SettingsController.updates s0)))]
         ++ after)
    /\ SettingsController.persisted s3 = []
    /\ SettingsController.memento s3 = Some [].
Proof.
  intros wf gwf q m0 u0 calls d. apply restart_restores.
Qed.

(** The hypothesis of [persisted_snapshot_survives_restart] holds of a new
    controller: after [disableFor] and a restart, [restorePersisted] writes
    the value of code 7 back. *)
Lemma persisted_snapshot_survives_restart_witness :
  let d := Detector.mkDocument "typescriptreact" "a.tsx" "file:///a.tsx" 1
             (lit "<p>x</p>") (fun _ => 3) in
  let q := fun (_ : string) (_ : list SettingsController.Update) =>
             SettingsController.Other 7 in
  let s1 := SettingsController.disableFor (fun _ => None) q d
              (SettingsController.new None []) in
  SettingsController.persisted
    (SettingsController.restorePersisted None q
       (SettingsController.new (SettingsController.memento s1)
                               (SettingsController.updates s1)))
  = [].
Proof.
  intros d q s1.
  exact (proj1 (proj2 (persisted_snapshot_survives_restart None
                         (fun _ => None) q None [] [] d eq_refl))).
Defined.

(** [restorePersisted] with nothing persisted: when the setting reads
    [false] for none of the workspace folders and not for the workspace, it
    writes nothing; with no workspace folders and a setting that reads
    [false], whoever set it, it writes [undefined] at the workspace target,
    which removes the setting there. *)
Theorem startup_removes_forced_off :
  (forall (workspaceFolders : option (list string))
          (quickSuggestionsOf :
             string -> list SettingsController.Update
             -> SettingsController.SettingValue)
          (s : SettingsController.State),
     SettingsController.persisted s = [] ->
     (forall k, In k (SettingsController.defaultKeys workspaceFolders) ->
        SettingsController.isFalse
          (quickSuggestionsOf
             (SettingsController.config
                (SettingsController.getContextByKey workspaceFolders k))
             (SettingsController.updates s)) = false) ->
     SettingsController.updates
       (SettingsController.restorePersisted workspaceFolders
          quickSuggestionsOf s)
     = SettingsController.updates s)
  /\ (forall (quickSuggestionsOf :
                string -> list SettingsController.Update
                -> SettingsController.SettingValue)
             (s : SettingsController.State),
        SettingsController.persisted s = [] ->
        quickSuggestionsOf SettingsController.emptyFileUri
                           (SettingsController.updates s)
        = SettingsController.Boolean false ->
        SettingsController.updates
          (SettingsController.restorePersisted None quickSuggestionsOf s)
        = SettingsController.updates s
          ++ [SettingsController.mkUpdate SettingsController.emptyFileUri
                SettingsController.Undefined SettingsController.Workspace]).
Proof.
  split.
  - intros wf q s. apply forced_off_nothing.
  - intros q s Hp Hq.
    unfold SettingsController.restorePersisted,
      SettingsController.ensureDefaultsIfForcedOff. rewrite Hp.
    cbn. rewrite Hq. reflexivity.
Qed.

(** The hypotheses of [startup_removes_forced_off] hold of a new controller
    with no workspace folders, for a setting that reads [true] and for one
    that reads [false]. *)
Lemma startup_removes_forced_off_witness :
  SettingsController.updates
    (SettingsController.restorePersisted None
       (fun _ _ => SettingsController.Boolean true)
       (SettingsController.new None []))
  = []
  /\ SettingsController.updates
       (SettingsController.restorePersisted None
          (fun _ _ => SettingsController.Boolean false)
          (SettingsController.new None []))
     = [SettingsController.mkUpdate SettingsController.emptyFileUri
          SettingsController.Undefined SettingsController.Workspace].
Proof.
  split.
  - refine (proj1 startup_removes_forced_off None
              (fun _ _ => SettingsController.Boolean true)
              (SettingsController.new None []) eq_refl _).
    intros k Hk. reflexivity.
  - exact (proj2 startup_removes_forced_off
             (fun _ _ => SettingsController.Boolean false)
             (SettingsController.new None []) eq_refl eq_refl).
Defined.

Section TargetFacts.
Import SettingsController.

Lemma find_key_in (folders : list string) (f : string) :
  In f folders -> find (fun item => String.eqb item f) folders = Some f.
Proof.
  induction folders as [|x r IH]; simpl; [tauto|].
  destruct (String.eqb_spec x f) as [->|Hne]; [reflexivity|].
  intros [E|E]; [contradiction|auto].
Qed.

Lemma find_key_not_in (folders : list string) (f : string) :
  ~ In f folders -> find (fun item => String.eqb item f) folders = None.
Proof.
  induction folders as [|x r IH]; simpl; [reflexivity|].
  destruct (String.eqb_spec x f) as [->|Hne]; [intros H; exfalso; auto|].
  intros H. apply IH. auto.
Qed.

End TargetFacts.

(** The target of a snapshot written back by its key: for a document in a
    workspace folder, [disableFor] writes at the folder target under the
    folder's key; [restoreByKey] finds the same target and the folder as
    resource when the folder is among the workspace folders, and the
    workspace target when it is not. *)
Theorem restore_by_key_target :
  forall (folders : list string)
         (getWorkspaceFolder : string -> option string)
         (d : Detector.TextDocument) (f : string),
    getWorkspaceFolder (Detector.uri d) = Some f ->
    let ctx := SettingsController.getTargetContext getWorkspaceFolder d in
    let byKey := SettingsController.getContextByKey (Some folders)
                   (SettingsController.key ctx) in
    SettingsController.ctx_target ctx = SettingsController.WorkspaceFolder
    /\ (In f folders ->
        byKey = SettingsController.mkContext f
                  SettingsController.WorkspaceFolder f)
    /\ (~ In f folders ->
        SettingsController.ctx_target byKey = SettingsController.Workspace).
Proof.
  intros folders gwf d f Hf ctx byKey.
  unfold byKey, ctx, SettingsController.getTargetContext,
    SettingsController.getContextByKey. rewrite Hf. simpl.
  split; [reflexivity|]. split; intros Hin.
  - now rewrite find_key_in.
  - now rewrite find_key_not_in.
Qed.

(** The hypothesis of [restore_by_key_target] holds of a document in the
    folder [file:///one], which is a workspace folder. *)
Lemma restore_by_key_target_witness :
  SettingsController.getContextByKey (Some ["file:///one"%string])
    (SettingsController.key
       (SettingsController.getTargetContext
          (fun _ => Some "file:///one"%string)
          (Detector.mkDocument "typescriptreact" "a.tsx" "file:///one/a.tsx"
             1 (lit "<p>x</p>") (fun _ => 3))))
  = SettingsController.mkContext "file:///one"
      SettingsController.WorkspaceFolder "file:///one".
Proof.
  refine (proj1 (proj2 (restore_by_key_target ["file:///one"%string]
                          (fun _ => Some "file:///one"%string)
                          (Detector.mkDocument "typescriptreact" "a.tsx"
                             "file:///one/a.tsx" 1 (lit "<p>x</p>")
                             (fun _ => 3))
                          "file:///one"%string eq_refl)) _).
  simpl. now left.
Defined.

(** ** [SuggestionGate] *)

Section GateFacts.
Import SuggestionGate.

Variable createSourceFile : string -> str -> Ast.ScriptKind -> Ast.Node.
Variable clock : nat -> Z.
Variable cacheTtlMs : option Z.
Variable getWorkspaceFolder : string -> option string.
Variable quickSuggestionsOf :
  string -> list SettingsController.Update -> SettingsController.SettingValue.
Variable sameObject : Detector.TextDocument -> Detector.TextDocument -> bool.

Local Abbreviation handleEditorChange' :=
  (handleEditorChange createSourceFile clock cacheTtlMs).
Local Abbreviation handleDocumentChange' :=
  (handleDocumentChange createSourceFile clock cacheTtlMs sameObject).
Local Abbreviation runCallback' :=
  (runCallback getWorkspaceFolder quickSuggestionsOf).
Local Abbreviation runNext' := (runNext getWorkspaceFolder quickSuggestionsOf).
Local Abbreviation step' :=
  (step createSourceFile clock cacheTtlMs getWorkspaceFolder
        quickSuggestionsOf sameObject).
Local Abbreviation keyOf d :=
  (SettingsController.key
     (SettingsController.getTargetContext getWorkspaceFolder d)).

(** The listeners leave the controller and the flag as they are. *)
Lemma handleEditorChange_fields editor skipHide s :
  settings (handleEditorChange' editor skipHide s) = settings s
  /\ inDisabledZone (handleEditorChange' editor skipHide s)
     = inDisabledZone s.
Proof.
  unfold handleEditorChange. destruct editor as [e|]; [|now split].
  destruct (Detector.isInsideJsxText _ _ _ _ _ _) as [inside d].
  destruct (inside && negb skipHide); [now split|].
  destruct (negb inside); now split.
Qed.

Lemma handleDocumentChange_fields event activeTextEditor s :
  settings (handleDocumentChange' event activeTextEditor s) = settings s
  /\ inDisabledZone (handleDocumentChange' event activeTextEditor s)
     = inDisabledZone s.
Proof.
  unfold handleDocumentChange. destruct activeTextEditor as [e|];
    [|now split].
  destruct (sameObject _ _); [|now split]. apply handleEditorChange_fields.
Qed.

Lemma has_get (V : Type) (m : JsMap.t V) k :
  JsMap.has V m k = true -> exists v, JsMap.get V m k = Some v.
Proof.
  unfold JsMap.has. destruct (JsMap.get V m k) as [v|]; [|discriminate].
  intros _. now exists v.
Qed.

Lemma has_of_get (V : Type) (m : JsMap.t V) k (o : option V) :
  JsMap.get V m k = o ->
  JsMap.has V m k = match o with Some _ => true | None => false end.
Proof. intros <-. reflexivity. Qed.

(** A callback keeps the flag and the controller in step about a key that
    every document has. *)
Lemma runCallback_inStep k d shouldDisable s :
  keyOf d = k ->
  SettingsController.wellFormed (settings s) -> inStep k s ->
  SettingsController.wellFormed (settings (runCallback' d shouldDisable s))
  /\ inStep k (runCallback' d shouldDisable s).
Proof.
  intros Hk Hw (Hst & Hp & Hsn). unfold runCallback.
  destruct (shouldDisable && negb (inDisabledZone s)) eqn:E1.
  - apply andb_true_iff in E1 as [_ E1]. apply negb_true_iff in E1.
    rewrite E1 in Hst, Hp, Hsn. rewrite <- Hk in Hst.
    pose proof (disableFor_effect getWorkspaceFolder quickSuggestionsOf d
                  (settings s) Hst) as He.
    cbv zeta in He. destruct Hw as [Hw1 Hw2].
    unfold inStep. cbn [settings inDisabledZone]. rewrite He.
    cbn [SettingsController.state SettingsController.persisted
         SettingsController.snapshots]. rewrite Hk.
    split; [split; now apply jsmap_set_wellFormed|].
    rewrite jsmap_get_set_same.
    rewrite !(has_of_get _ _ _ _ (jsmap_get_set_same _ _ _ _)).
    now repeat split.
  - destruct (negb shouldDisable && inDisabledZone s) eqn:E2;
      [|now split].
    apply andb_true_iff in E2 as [_ E2].
    rewrite E2 in Hst, Hp, Hsn. rewrite <- Hk in Hst, Hsn.
    destruct (has_get _ _ _ Hsn) as [snapshot Hsnap].
    pose proof (restore_effect getWorkspaceFolder d (settings s) snapshot
                  Hst Hsnap) as He.
    cbv zeta in He. destruct Hw as [Hw1 Hw2].
    unfold inStep. cbn [settings inDisabledZone]. rewrite He.
    cbn [SettingsController.state SettingsController.persisted
         SettingsController.snapshots]. rewrite Hk.
    split; [split; now apply jsmap_delete_wellFormed|].
    rewrite jsmap_get_set_same.
    rewrite (has_of_get _ _ _ _ (jsmap_get_delete_same _ _ k Hw1)).
    rewrite (has_of_get _ _ _ _ (jsmap_get_delete_same _ _ k Hw2)).
    now repeat split.
Qed.

Lemma step_inStep k s e :
  (forall d, keyOf d = k) ->
  SettingsController.wellFormed (settings s) -> inStep k s ->
  SettingsController.wellFormed (settings (step' s e))
  /\ inStep k (step' s e).
Proof.
  intros Hk Hw Hi. destruct e as [editor|event activeTextEditor|]; simpl.
  - destruct (handleEditorChange_fields editor false s) as [H1 H2].
    unfold inStep. now rewrite H1, H2.
  - destruct (handleDocumentChange_fields event activeTextEditor s)
      as [H1 H2].
    unfold inStep. now rewrite H1, H2.
  - unfold runNext. destruct (inflight s) as [|[d b] rest]; [now split|].
    apply runCallback_inStep; [apply Hk|exact Hw|exact Hi].
Qed.

Lemma steps_inStep k events : forall s,
  (forall d, keyOf d = k) ->
  SettingsController.wellFormed (settings s) -> inStep k s ->
  inStep k (fold_left step' events s).
Proof.
  induction events as [|e r IH]; intros s Hk Hw Hi; [exact Hi|].
  simpl. destruct (step_inStep k s e Hk Hw Hi). now apply IH.
Qed.

End GateFacts.

(** [SuggestionGate] with one key (every resource in the same workspace
    folder, or none in any): from a new gate on a controller that has the
    key neither disabled nor in its snapshots, after any sequence of editor
    changes, document changes and callbacks of the chain, the flag
    [inDisabledZone] is set exactly when the controller records the key as
    disabled, and exactly then a snapshot of the key is held and
    persisted. *)
Theorem gate_flag_matches_controller :
  forall (createSourceFile : string -> str -> Ast.ScriptKind -> Ast.Node)
         (clock : nat -> Z) (cacheTtlMs : option Z)
         (getWorkspaceFolder : string -> option string)
         (quickSuggestionsOf :
            string -> list SettingsController.Update
            -> SettingsController.SettingValue)
         (sameObject : Detector.TextDocument -> Detector.TextDocument -> bool)
         (k : string) (st : SettingsController.State)
         (events : list SuggestionGate.Event),
    (forall d,
       SettingsController.key
         (SettingsController.getTargetContext getWorkspaceFolder d) = k) ->
    SettingsController.wellFormed st ->
    SuggestionGate.inStep k (SuggestionGate.new st) ->
    SuggestionGate.inStep k
      (fold_left
         (SuggestionGate.step createSourceFile clock cacheTtlMs
            getWorkspaceFolder quickSuggestionsOf sameObject)
         events (SuggestionGate.new st)).
Proof.
  intros csf clock ttl gwf q same k st events Hk Hw Hi.
  now apply steps_inStep.
Qed.

(** The hypotheses of [gate_flag_matches_controller] hold of a new
    controller with no workspace folders, and after an editor change in the
    content of [<p>x</p>] and the callback it asked for the flag is set. *)
Lemma gate_flag_matches_controller_witness :
  let editor :=
    Extension.mkEditor
      (Detector.mkDocument "html" "a.html" "file:///a.html" 1
                           (lit "<p>x</p>") (fun _ => 4))
      (Detector.mkPosition 0 4) in
  SuggestionGate.inStep "workspace"
    (fold_left
       (SuggestionGate.step (fun _ _ _ => ParseModel.elementFile 1 1)
          (fun _ => 0) None (fun _ => None)
          (fun _ _ => SettingsController.Boolean true) (fun _ _ => true))
       [SuggestionGate.EditorChanged (Some editor); SuggestionGate.CallbackRan]
       (SuggestionGate.new (SettingsController.new None []))).
Proof.
  intros editor.
  apply (gate_flag_matches_controller (fun _ _ _ => ParseModel.elementFile 1 1)
           (fun _ => 0) None (fun _ => None)
           (fun _ _ => SettingsController.Boolean true) (fun _ _ => true)
           "workspace" (SettingsController.new None [])).
  - intros d. reflexivity.
  - apply new_wellFormed.
  - repeat split.
Defined.

Section GateTraces.
Import SuggestionGate.

Variable createSourceFile : string -> str -> Ast.ScriptKind -> Ast.Node.
Variable clock : nat -> Z.
Variable cacheTtlMs : option Z.
Variable getWorkspaceFolder : string -> option string.
Variable quickSuggestionsOf :
  string -> list SettingsController.Update -> SettingsController.SettingValue.
Variable sameObject : Detector.TextDocument -> Detector.TextDocument -> bool.

Local Abbreviation runNext' := (runNext getWorkspaceFolder quickSuggestionsOf).
Local Abbreviation keyOf d :=
  (SettingsController.key
     (SettingsController.getTargetContext getWorkspaceFolder d)).
Local Abbreviation targetOf d :=
  (SettingsController.ctx_target
     (SettingsController.getTargetContext getWorkspaceFolder d)).

Lemma other_folder_leaves_disabled (dA dB : Detector.TextDocument)
    (st : SettingsController.State) :
  keyOf dA <> keyOf dB ->
  SettingsController.isDisabled
    (JsMap.get SettingsController.Mode (SettingsController.state st)
       (keyOf dA)) = false ->
  SettingsController.isDisabled
    (JsMap.get SettingsController.Mode (SettingsController.state st)
       (keyOf dB)) = false ->
  let s := runNext' (runNext' (runNext'
             (applySettings dA false
                (applySettings dB false
                   (applySettings dA true (new st)))))) in
  inDisabledZone s = false
  /\ inflight s = []
  /\ SettingsController.isDisabled
       (JsMap.get SettingsController.Mode
          (SettingsController.state (settings s)) (keyOf dA)) = true
  /\ SettingsController.updates (settings s)
     = SettingsController.updates st
       ++ [SettingsController.mkUpdate (Detector.uri dA)
             (SettingsController.Boolean false) (targetOf dA)].
Proof.
  intros Hne HA HB.
  pose proof (disableFor_effect getWorkspaceFolder quickSuggestionsOf dA st HA)
    as He. cbv zeta in He.
  unfold applySettings, new, runNext, runCallback.
  cbn [inflight inDisabledZone settings detector app andb negb].
  rewrite He.
  assert (Hr : SettingsController.restore getWorkspaceFolder dB
                 (SettingsController.disableFor getWorkspaceFolder
                    quickSuggestionsOf dA st)
               = SettingsController.disableFor getWorkspaceFolder
                   quickSuggestionsOf dA st).
  { unfold SettingsController.restore. rewrite He.
    cbn [SettingsController.state].
    rewrite jsmap_get_set_other by exact Hne. now rewrite HB. }
  rewrite He in Hr. rewrite Hr.
  cbn [inflight inDisabledZone settings detector app andb negb
       SettingsController.state SettingsController.updates].
  rewrite jsmap_get_set_same. now repeat split.
Qed.

Lemma handleEditorChange_inside (e : Extension.TextEditor) (s : State) det :
  Detector.isInsideJsxText createSourceFile clock cacheTtlMs (detector s)
    (Extension.document e) (Extension.active e) = (true, det) ->
  handleEditorChange createSourceFile clock cacheTtlMs (Some e) false s
  = mkState det (settings s) (inDisabledZone s)
            (inflight s ++ [(Extension.document e, true)]).
Proof. intros E. unfold handleEditorChange. now rewrite E. Qed.

Lemma handleEditorChange_outside (e : Extension.TextEditor) (s : State) det
    skipHide :
  Detector.isInsideJsxText createSourceFile clock cacheTtlMs (detector s)
    (Extension.document e) (Extension.active e) = (false, det) ->
  handleEditorChange createSourceFile clock cacheTtlMs (Some e) skipHide s
  = mkState det (settings s) (inDisabledZone s)
            (inflight s ++ [(Extension.document e, false)]).
Proof. intros E. unfold handleEditorChange. now rewrite E. Qed.

Lemma enter_then_leave (e1 e2 : Extension.TextEditor)
    (st : SettingsController.State) :
  let d1 := Extension.document e1 in
  let d2 := Extension.document e2 in
  let r1 := Detector.isInsideJsxText createSourceFile clock cacheTtlMs
              Detector.new d1 (Extension.active e1) in
  let r2 := Detector.isInsideJsxText createSourceFile clock cacheTtlMs
              (snd r1) d2 (Extension.active e2) in
  fst r1 = true -> fst r2 = false ->
  forall events,
    events = [EditorChanged (Some e1); EditorChanged (Some e2);
              CallbackRan; CallbackRan]
    \/ events = [EditorChanged (Some e1); CallbackRan;
                 EditorChanged (Some e2); CallbackRan] ->
    fold_left
      (step createSourceFile clock cacheTtlMs getWorkspaceFolder
            quickSuggestionsOf sameObject)
      events (new st)
    = mkState (snd r2)
        (SettingsController.restore getWorkspaceFolder d2
           (SettingsController.disableFor getWorkspaceFolder
              quickSuggestionsOf d1 st))
        false [].
Proof.
  intros d1 d2 r1 r2 H1 H2 events Hev. subst r1 r2 d1 d2.
  destruct (Detector.isInsideJsxText createSourceFile clock cacheTtlMs
              Detector.new (Extension.document e1) (Extension.active e1))
    as [v1 det1] eqn:E1.
  cbn [fst snd] in H1, H2 |- *.
  destruct (Detector.isInsideJsxText createSourceFile clock cacheTtlMs
              det1 (Extension.document e2) (Extension.active e2))
    as [v2 det2] eqn:E2.
  cbn [fst snd] in H2 |- *. subst v1 v2.
  destruct Hev as [-> | ->]; cbn [fold_left step].
  - rewrite (handleEditorChange_inside e1 (new st) det1 E1).
    cbn [new settings inDisabledZone inflight app].
    rewrite (handleEditorChange_outside e2
               (mkState det1 st false [(Extension.document e1, true)])
               det2 false E2).
    reflexivity.
  - rewrite (handleEditorChange_inside e1 (new st) det1 E1).
    cbn [new settings inDisabledZone inflight app].
    change (runNext getWorkspaceFolder quickSuggestionsOf
              (mkState det1 st false [(Extension.document e1, true)]))
      with (mkState det1
              (SettingsController.disableFor getWorkspaceFolder
                 quickSuggestionsOf (Extension.document e1) st) true []).
    rewrite (handleEditorChange_outside e2
               (mkState det1
                  (SettingsController.disableFor getWorkspaceFolder
                     quickSuggestionsOf (Extension.document e1) st) true [])
               det2 false E2).
    reflexivity.
Qed.

End GateTraces.

(** [SuggestionGate] keeps one flag for all keys.  For documents [dA] and
    [dB] of different keys, neither recorded as disabled: after the gate has
    asked to disable for [dA], to restore for [dB] and to restore for [dA],
    and the three callbacks have run, the flag is clear and the chain empty,
    the only write is the [false] for [dA], and the key of [dA] is still
    recorded as disabled: the restore for [dB] cleared the flag and found
    nothing to restore, and the restore for [dA] then found the flag
    clear. *)
Theorem restore_in_other_folder_clears_flag_only :
  forall (getWorkspaceFolder : string -> option string)
         (quickSuggestionsOf :
            string -> list SettingsController.Update
            -> SettingsController.SettingValue)
         (dA dB : Detector.TextDocument) (st : SettingsController.State),
    let keyOf := fun d =>
      SettingsController.key
        (SettingsController.getTargetContext getWorkspaceFolder d) in
    keyOf dA <> keyOf dB ->
    SettingsController.isDisabled
      (JsMap.get SettingsController.Mode (SettingsController.state st)
         (keyOf dA)) = false ->
    SettingsController.isDisabled
      (JsMap.get SettingsController.Mode (SettingsController.state st)
         (keyOf dB)) = false ->
    let runNext :=
      SuggestionGate.runNext getWorkspaceFolder quickSuggestionsOf in
    let s := runNext (runNext (runNext
               (SuggestionGate.applySettings dA false
                  (SuggestionGate.applySettings dB false
                     (SuggestionGate.applySettings dA true
                        (SuggestionGate.new st)))))) in
    SuggestionGate.inDisabledZone s = false
    /\ SuggestionGate.inflight s = []
    /\ SettingsController.isDisabled
         (JsMap.get SettingsController.Mode
            (SettingsController.state (SuggestionGate.settings s))
            (keyOf dA)) = true
    /\ SettingsController.updates (SuggestionGate.settings s)
       = SettingsController.updates st
         ++ [SettingsController.mkUpdate (Detector.uri dA)
               (SettingsController.Boolean false)
               (SettingsController.ctx_target
                  (SettingsController.getTargetContext getWorkspaceFolder
                     dA))].
Proof.
  intros gwf q dA dB st keyOf Hne HA HB.
  exact (other_folder_leaves_disabled gwf q dA dB st Hne HA HB).
Qed.

(** The hypotheses of [restore_in_other_folder_clears_flag_only] hold of two
    documents in two workspace folders and a new controller. *)
Lemma restore_in_other_folder_clears_flag_only_witness :
  let dA := Detector.mkDocument "typescriptreact" "a.tsx" "file:///one/a.tsx"
              1 (lit "<p>x</p>") (fun _ => 3) in
  let dB := Detector.mkDocument "typescriptreact" "b.tsx" "file:///two/b.tsx"
              1 (lit "<p>y</p>") (fun _ => 3) in
  let gwf := fun uri : string =>
               if String.eqb uri "file:///one/a.tsx"
               then Some "file:///one"%string else Some "file:///two"%string in
  let q := fun (_ : string) (_ : list SettingsController.Update) =>
             SettingsController.Boolean true in
  let runNext := SuggestionGate.runNext gwf q in
  SuggestionGate.inDisabledZone
    (runNext (runNext (runNext
       (SuggestionGate.applySettings dA false
          (SuggestionGate.applySettings dB false
             (SuggestionGate.applySettings dA true
                (SuggestionGate.new (SettingsController.new None []))))))))
  = false.
Proof.
  intros dA dB gwf q runNext.
  refine (proj1 (restore_in_other_folder_clears_flag_only gwf q dA dB
                   (SettingsController.new None []) _ eq_refl eq_refl)).
  vm_compute. discriminate.
Defined.

(** [SuggestionGate], the detector and the controller together: from a new
    gate on a controller that does not record the key as disabled, an editor
    change where the detector answers true, then one where it answers false
    in a document of the same workspace folder, with the two callbacks run
    after both or each after its change, issue two writes at the same
    target, [false] and then the value [config.get] returned before it, and
    leave the flag clear, the chain empty, no snapshot of the key persisted
    and the memento holding the persisted snapshots. *)
Theorem entering_then_leaving_text :
  forall (createSourceFile : string -> str -> Ast.ScriptKind -> Ast.Node)
         (clock : nat -> Z) (cacheTtlMs : option Z)
         (getWorkspaceFolder : string -> option string)
         (quickSuggestionsOf :
            string -> list SettingsController.Update
            -> SettingsController.SettingValue)
         (sameObject : Detector.TextDocument -> Detector.TextDocument -> bool)
         (e1 e2 : Extension.TextEditor) (st : SettingsController.State),
    let d1 := Extension.document e1 in
    let d2 := Extension.document e2 in
    let r1 := Detector.isInsideJsxText createSourceFile clock cacheTtlMs
                Detector.new d1 (Extension.active e1) in
    let r2 := Detector.isInsideJsxText createSourceFile clock cacheTtlMs
                (snd r1) d2 (Extension.active e2) in
    let ctx := SettingsController.getTargetContext getWorkspaceFolder d1 in
    fst r1 = true -> fst r2 = false ->
    SettingsController.wellFormed st ->
    SettingsController.isDisabled
      (JsMap.get SettingsController.Mode (SettingsController.state st)
         (SettingsController.key ctx)) = false ->
    getWorkspaceFolder (Detector.uri d1)
    = getWorkspaceFolder (Detector.uri d2) ->
    forall events,
      events = [SuggestionGate.EditorChanged (Some e1);
                SuggestionGate.EditorChanged (Some e2);
                SuggestionGate.CallbackRan; SuggestionGate.CallbackRan]
      \/ events = [SuggestionGate.EditorChanged (Some e1);
                   SuggestionGate.CallbackRan;
                   SuggestionGate.EditorChanged (Some e2);
                   SuggestionGate.CallbackRan] ->
      let s := fold_left
                 (SuggestionGate.step createSourceFile clock cacheTtlMs
                    getWorkspaceFolder quickSuggestionsOf sameObject)
                 events (SuggestionGate.new st) in
      SuggestionGate.inDisabledZone s = false
      /\ SuggestionGate.inflight s = []
      /\ SettingsController.updates (SuggestionGate.settings s)
         = SettingsController.updates st
           ++ [SettingsController.mkUpdate (Detector.uri d1)
                 (SettingsController.Boolean false)
                 (SettingsController.ctx_target ctx);
               SettingsController.mkUpdate (Detector.uri d2)
                 (quickSuggestionsOf (Detector.uri d1)
                                     (SettingsController.updates st))
                 (SettingsController.ctx_target ctx)]
      /\ JsMap.get SettingsController.SettingSnapshot
           (SettingsController.persisted (SuggestionGate.settings s))
           (SettingsController.key ctx) = None
      /\ SettingsController.memento (SuggestionGate.settings s)
         = Some (SettingsController.persisted (SuggestionGate.settings s)).
Proof.
  intros csf clock ttl gwf q same e1 e2 st d1 d2 r1 r2 ctx H1 H2 Hw Hd Hf
         events Hev s.
  unfold s.
  rewrite (enter_then_leave csf clock ttl gwf q same e1 e2 st H1 H2 events
             Hev).
  cbn [SuggestionGate.inDisabledZone SuggestionGate.inflight
       SuggestionGate.settings].
  destruct (disable_restore gwf q d1 d2 st Hw Hd Hf)
    as (Hu & _ & Hp & _ & Hm).
  now repeat split.
Qed.

(** The hypotheses of [entering_then_leaving_text] hold of the markup
    document [<p>x</p>] with the cursor first in the content and then in
    the tag: the writes are [false] and then the value read before. *)
Lemma entering_then_leaving_text_witness :
  let d := Detector.mkDocument "html" "a.html" "file:///a.html" 1
             (lit "<p>x</p>") Detector.character in
  let e1 := Extension.mkEditor d (Detector.mkPosition 0 4) in
  let e2 := Extension.mkEditor d (Detector.mkPosition 0 1) in
  let q := fun (_ : string) (_ : list SettingsController.Update) =>
             SettingsController.Other 7 in
  SettingsController.updates
    (SuggestionGate.settings
       (fold_left
          (SuggestionGate.step (fun _ _ _ => ParseModel.elementFile 1 1)
             (fun _ => 0) None (fun _ => None) q (fun _ _ => true))
          [SuggestionGate.EditorChanged (Some e1);
           SuggestionGate.EditorChanged (Some e2);
           SuggestionGate.CallbackRan; SuggestionGate.CallbackRan]
          (SuggestionGate.new (SettingsController.new None []))))
  = [SettingsController.mkUpdate "file:///a.html"
       (SettingsController.Boolean false) SettingsController.Workspace;
     SettingsController.mkUpdate "file:///a.html"
       (SettingsController.Other 7) SettingsController.Workspace].
Proof.
  intros d e1 e2 q.
  pose proof (entering_then_leaving_text
                (fun _ _ _ => ParseModel.elementFile 1 1)
                (fun _ => 0) None (fun _ => None) q (fun _ _ => true)
                e1 e2 (SettingsController.new None [])
                eq_refl eq_refl (new_wellFormed None []) eq_refl eq_refl
                _ (or_introl eq_refl)) as (_ & _ & H & _).
  exact H.
Defined.

(** ** [findDeepestNode] and [containsJsx] on any tree *)

Section TreeInduction.
Import Tree TreeNotions.

(** Induction on a node with the property for its children. *)
Lemma Node_children_ind (P : Node -> Prop) :
  (forall k s cs fs, Forall P cs -> Forall P fs -> P (mkNode k s cs fs)) ->
  forall n, P n.
Proof.
  intros H. fix IH 1. intros [k s cs fs]. apply H.
  - induction cs as [|c r IHr]; constructor; [apply IH|exact IHr].
  - induction fs as [|c r IHr]; constructor; [apply IH|exact IHr].
Qed.

Lemma holdsOffset_dec offset n :
  holdsOffset offset n \/ (offset < getFullStart n \/ getEnd n <= offset).
Proof. unfold holdsOffset. lia. Qed.

Lemma isPath_snoc (l : list Node) (c node : Node) :
  l <> [] -> List.last l c = c -> isPath l -> In c (getChildren node) ->
  isPath (l ++ [node]).
Proof.
  induction l as [|a r IH]; intros Hne Hlast Hp Hin; [congruence|].
  destruct r as [|b r'].
  - simpl in Hlast. subst a. simpl. auto.
  - destruct Hp as [Hab Hp]. split; [exact Hab|].
    apply IH; try assumption; discriminate.
Qed.

Lemma last_snoc (l : list Node) (x d : Node) : List.last (l ++ [x]) d = x.
Proof. apply last_last. Qed.

Lemma firstInsideOf_cases offset path (l : list Node) :
  (firstInsideOf offset path l = Some path
   /\ Forall (fun c => ~ holdsOffset offset c) l)
  \/ (exists c, In c l /\ holdsOffset offset c
        /\ firstInsideOf offset path l = findDeepestNode c offset path).
Proof.
  induction l as [|c r IH]; [left; split; [reflexivity|constructor]|].
  destruct (holdsOffset_dec offset c) as [Hin|Hout].
  - right. exists c. split; [now left|]. split; [exact Hin|].
    rewrite firstInsideOf_enter by exact Hin.
    now rewrite findDeepestNode_inside by exact Hin.
  - rewrite firstInsideOf_skip by exact Hout.
    destruct IH as [[H1 H2]|(c' & Hc' & Hh & He)].
    + left. split; [exact H1|]. constructor; [|exact H2].
      unfold holdsOffset. lia.
    + right. exists c'. split; [now right|]. now split.
Qed.

Lemma findDeepestNode_deepest offset : forall node,
  holdsOffset offset node -> deepestFrom offset node.
Proof.
  apply (Node_children_ind
           (fun node => holdsOffset offset node -> deepestFrom offset node)).
  intros k s cs fs IHc _ Hin parents.
  set (node := mkNode k s cs fs) in *.
  rewrite findDeepestNode_inside by exact Hin.
  change (getChildren node) with cs.
  destruct (firstInsideOf_cases offset (node :: parents) cs)
    as [[H1 H2]|(c & Hc & Hh & He)].
  - exists node, []. rewrite H1. simpl. repeat split; auto.
  - rewrite Forall_forall in IHc.
    destruct (IHc c Hc Hh (node :: parents))
      as (n & pre & Hf & Hl & Hall & Hch & Hp).
    exists n, (pre ++ [node]). rewrite He, Hf. repeat split.
    + rewrite <- app_assoc. reflexivity.
    + change (n :: pre ++ [node]) with ((n :: pre) ++ [node]).
      apply last_snoc.
    + change (n :: pre ++ [node]) with ((n :: pre) ++ [node]).
      apply Forall_app. split; [exact Hall|]. now constructor.
    + exact Hch.
    + change (n :: pre ++ [node]) with ((n :: pre) ++ [node]).
      apply (isPath_snoc _ c); try assumption. discriminate.
Qed.

End TreeInduction.

Section ContainsJsx.
Import Tree TreeNotions.

Lemma visit_eq k s cs fs :
  visit (mkNode k s cs fs) = isJsxNode k || existsb visit fs.
Proof.
  simpl. destruct (isJsxNode k); [reflexivity|]. simpl.
  induction fs as [|c r IH]; [reflexivity|]. simpl.
  destruct (visit c); [reflexivity|exact IH].
Qed.

Lemma visit_of_kind n : isJsxNode (kind n) = true -> visit n = true.
Proof. destruct n as [k s cs fs]. rewrite visit_eq. simpl. now intros ->. Qed.

Lemma visit_of_child n c :
  In c (forEachChild n) -> visit c = true -> visit n = true.
Proof.
  destruct n as [k s cs fs]. rewrite visit_eq. simpl. intros Hin Hc.
  apply orb_true_iff. right. apply existsb_exists. now exists c.
Qed.

Lemma visited_below root c m :
  In c (forEachChild root) -> visited c m -> visited root m.
Proof.
  intros Hin Hv. induction Hv as [|n c' Hn IH Hc'].
  - apply (visited_child root root c); [constructor|exact Hin].
  - apply (visited_child root n c'); assumption.
Qed.

Lemma visit_finds : forall root,
  visit root = true ->
  exists n, visited root n /\ isJsxNode (kind n) = true.
Proof.
  apply (Node_children_ind
           (fun root => visit root = true ->
                        exists n, visited root n
                                  /\ isJsxNode (kind n) = true)).
  intros k s cs fs _ IHf. rewrite visit_eq. intros H.
  apply orb_true_iff in H as [H|H].
  - exists (mkNode k s cs fs). split; [constructor|exact H].
  - apply existsb_exists in H as (c & Hc & Hv).
    rewrite Forall_forall in IHf.
    destruct (IHf c Hc Hv) as (n & Hn & Hk).
    exists n. split; [|exact Hk].
    now apply (visited_below (mkNode k s cs fs) c n).
Qed.

Lemma visited_visit root n :
  visited root n -> visit n = true -> visit root = true.
Proof.
  intros Hv. induction Hv as [|n c Hn IH Hc]; [auto|].
  intros H. apply IH. now apply (visit_of_child n c).
Qed.

End ContainsJsx.

(** [findDeepestNode] on any tree: it returns nothing exactly when the span
    of the root, leading trivia included and end excluded, does not hold the
    offset; otherwise it returns a node with the nodes above it up to the
    root, each a child of the next and each holding the offset, and no child
    of the node returned holds the offset. *)
Theorem find_deepest_node_is_deepest :
  forall (root : Node) (offset : Z),
    (Tree.findDeepestNode root offset [] = None
     <-> ~ TreeNotions.holdsOffset offset root)
    /\ (TreeNotions.holdsOffset offset root ->
        exists n above,
          Tree.findDeepestNode root offset [] = Some (n :: above)
          /\ List.last (n :: above) root = root
          /\ Forall (TreeNotions.holdsOffset offset) (n :: above)
          /\ Forall (fun c => ~ TreeNotions.holdsOffset offset c)
                    (getChildren n)
          /\ TreeNotions.isPath (n :: above)).
Proof.
  intros root offset.
  assert (Hin : TreeNotions.holdsOffset offset root ->
                exists n above,
                  Tree.findDeepestNode root offset [] = Some (n :: above)
                  /\ List.last (n :: above) root = root
                  /\ Forall (TreeNotions.holdsOffset offset) (n :: above)
                  /\ Forall (fun c => ~ TreeNotions.holdsOffset offset c)
                            (getChildren n)
                  /\ TreeNotions.isPath (n :: above)).
  { intros H.
    destruct (findDeepestNode_deepest offset root H [])
      as (n & pre & Hf & Hrest).
    rewrite app_nil_r in Hf. now exists n, pre. }
  split; [|exact Hin]. split.
  - intros Hnone Hh. destruct (Hin Hh) as (n & above & Hf & _). congruence.
  - intros Hout. apply findDeepestNode_outside.
    unfold TreeNotions.holdsOffset in Hout. lia.
Qed.

(** The hypothesis of [find_deepest_node_is_deepest] holds of the tree of
    [<div>Hello</div>] at offset 7: a node is found. *)
Lemma find_deepest_node_is_deepest_witness :
  exists n above,
    Tree.findDeepestNode (ParseModel.elementFile 3 5) 7 [] = Some (n :: above)
    /\ List.last (n :: above) (ParseModel.elementFile 3 5)
       = ParseModel.elementFile 3 5.
Proof.
  destruct (proj2 (find_deepest_node_is_deepest (ParseModel.elementFile 3 5) 7))
    as (n & above & H1 & H2 & _).
  - vm_compute. split; [discriminate|reflexivity].
  - now exists n, above.
Defined.

(** [containsJsx] on any tree: it answers true exactly when some node that
    [forEachChild] leads to from the root, the root included, is of one of
    the seven tag kinds. *)
Theorem contains_jsx_iff_some_tag_node :
  forall root : Node,
    Tree.containsJsx root = true
    <-> exists n, TreeNotions.visited root n
                  /\ Tree.isJsxNode (kind n) = true.
Proof.
  intros root. unfold Tree.containsJsx. split.
  - apply visit_finds.
  - intros (n & Hv & Hk). apply (visited_visit root n Hv).
    now apply visit_of_kind.
Qed.

(** The tree of [<div>Hello</div>] holds a tag node. *)
Lemma contains_jsx_iff_some_tag_node_witness :
  exists n, TreeNotions.visited (ParseModel.elementFile 3 5) n
            /\ Tree.isJsxNode (kind n) = true.
Proof.
  apply (proj1 (contains_jsx_iff_some_tag_node (ParseModel.elementFile 3 5))).
  reflexivity.
Defined.

(** ** [isInsideTagAttributes] *)

Section TagAttributes.
Import Reference MarkupNotions.

Lemma lastIndexOf_upto c t offset :
  0 <= offset ->
  lastIndexOf t [c] offset = lastBefore c t (Z.to_nat (offset + 1)).
Proof.
  intros H. rewrite <- lastIndexOf_char by lia. f_equal. lia.
Qed.

(** [indexFrom]: what it returns occurs. *)
Lemma indexFrom_occurs p : forall t base from,
  0 <= base ->
  indexFrom p t base from <> -1 ->
  startsWith p (drop (Z.to_nat (indexFrom p t base from - base)) t) = true.
Proof.
  induction t as [|x r IH]; intros base from Hb; simpl.
  - destruct (Z.leb_spec from base); simpl; [|congruence].
    destruct (startsWith p []) eqn:E; [|congruence].
    intros _. now rewrite Z.sub_diag.
  - destruct ((from <=? base) && startsWith p (x :: r)) eqn:E.
    + intros _. rewrite Z.sub_diag. simpl.
      now apply andb_true_iff in E as [_ E].
    + intros Hne. pose proof (indexFrom_sound p r (base + 1) from Hne) as [_ H1].
      replace (indexFrom p r (base + 1) from - base)
        with ((indexFrom p r (base + 1) from - (base + 1)) + 1) by lia.
      rewrite drop_cons_succ by lia. apply IH; [lia|exact Hne].
Qed.

(** [indexFrom]: an occurrence at or after [from] is found, or an earlier
    one. *)
Lemma indexFrom_complete p : forall t base from k,
  0 <= base -> base <= k -> from <= k -> k <= base + len t ->
  startsWith p (drop (Z.to_nat (k - base)) t) = true ->
  indexFrom p t base from <> -1 /\ indexFrom p t base from <= k.
Proof.
  induction t as [|x r IH]; intros base from k Hb Hk Hf Hl Hs; simpl.
  - unfold len in Hl. simpl in Hl. assert (k = base) by lia. subst k.
    rewrite drop_nil in Hs. rewrite Hs.
    destruct (Z.leb_spec from base); simpl; lia.
  - rewrite len_cons in Hl.
    destruct ((from <=? base) && startsWith p (x :: r)) eqn:E; [lia|].
    destruct (Z.eq_dec k base) as [->|Hne].
    + rewrite Z.sub_diag in Hs. simpl in Hs. rewrite Hs in E.
      destruct (Z.leb_spec from base); [discriminate|lia].
    + apply IH; try lia.
      replace (k - base) with ((k - (base + 1)) + 1) in Hs by lia.
      now rewrite drop_cons_succ in Hs by lia.
Qed.

Lemma indexOf_char_found c t offset :
  0 <= offset -> indexOf t [c] offset <> -1 ->
  offset <= indexOf t [c] offset
  /\ charAt t (indexOf t [c] offset) = Some c.
Proof.
  intros Ho Hne. unfold indexOf in *.
  destruct (indexFrom_sound [c] t 0 offset Hne) as [H1 H2].
  split; [exact H1|].
  pose proof (indexFrom_occurs [c] t 0 offset ltac:(lia) Hne) as H.
  rewrite Z.sub_0_r, startsWith_single in H by lia. now apply eqc_true.
Qed.

Lemma indexOf_char_exists c t offset g :
  0 <= offset <= g -> charAt t g = Some c ->
  indexOf t [c] offset <> -1 /\ indexOf t [c] offset <= g.
Proof.
  intros Ho Hg. unfold indexOf.
  pose proof (charAt_some_lt _ _ _ Hg).
  apply indexFrom_complete; try lia.
  rewrite Z.sub_0_r, startsWith_single by lia. now apply eqc_true.
Qed.

Lemma isInsideTagAttributes_sound t offset :
  Markup.isInsideTagAttributes t offset = true ->
  exists l g, openTagBefore t offset l g.
Proof.
  unfold Markup.isInsideTagAttributes.
  set (lt := lastIndexOf t [LT] offset). set (gt := lastIndexOf t [GT] offset).
  set (ngt := indexOf t [GT] offset).
  destruct (Z.eqb_spec lt (-1)) as [|Hlt]; [discriminate|].
  destruct (negb (gt =? -1) && (lt <? gt)) eqn:Hgt; [discriminate|].
  destruct (Z.eqb_spec ngt (-1)) as [|Hn]; [discriminate|].
  destruct (eqc (charAt t (lt + 1)) SLASH) eqn:Hsl; [discriminate|].
  intros H. apply andb_true_iff in H as [H1 H2].
  apply Z.ltb_lt in H1, H2.
  assert (Ho : 0 <= offset).
  { destruct (Z.le_gt_cases 0 offset) as [|Hneg]; [assumption|].
    exfalso. unfold lt, lastIndexOf in *. rewrite Z.max_l in * by lia.
    destruct (lastIndexFrom_sound [LT] t 0 0 Hlt) as (Hr & _). lia. }
  unfold lt, gt in *. rewrite !lastIndexOf_upto in * by exact Ho.
  set (n := Z.to_nat (offset + 1)) in *.
  assert (Hnat : Z.of_nat n = offset + 1) by (unfold n; lia).
  destruct (lastBefore_sound LT t n Hlt) as [Hr Hc].
  destruct (indexOf_char_found GT t offset Ho Hn) as [Hge Hgc].
  fold ngt in Hge, Hgc.
  exists (lastBefore LT t n), ngt. unfold openTagBefore.
  repeat split; try lia; try assumption.
  - intros E.
    pose proof (lastBefore_max LT t n k ltac:(lia) E). lia.
  - intros E.
    pose proof (lastBefore_max GT t n k ltac:(lia) E) as Hm.
    apply andb_false_iff in Hgt as [Hgt|Hgt].
    + apply negb_false_iff, Z.eqb_eq in Hgt. lia.
    + apply Z.ltb_ge in Hgt. lia.
  - intros E. rewrite E in Hsl. discriminate.
Qed.

Lemma isInsideTagAttributes_complete t offset l g :
  openTagBefore t offset l g ->
  Markup.isInsideTagAttributes t offset = true.
Proof.
  intros (Hl & Hg & Hlc & Hgc & Hbetween & Hsl).
  unfold Markup.isInsideTagAttributes.
  rewrite !lastIndexOf_upto by lia.
  set (n := Z.to_nat (offset + 1)).
  assert (Hnat : Z.of_nat n = offset + 1) by (unfold n; lia).
  pose proof (lastBefore_max LT t n l ltac:(lia) Hlc) as Hmax.
  assert (Hlt : lastBefore LT t n = l).
  { assert (Hne : lastBefore LT t n <> -1) by lia.
    destruct (lastBefore_sound LT t n Hne) as [Hr Hc].
    destruct (Z.eq_dec (lastBefore LT t n) l) as [|Hd]; [assumption|].
    exfalso. apply (proj1 (Hbetween (lastBefore LT t n) ltac:(lia))).
    exact Hc. }
  rewrite Hlt.
  destruct (Z.eqb_spec l (-1)); [lia|].
  assert (Hgt : lastBefore GT t n = -1 \/ lastBefore GT t n < l).
  { destruct (Z.eq_dec (lastBefore GT t n) (-1)) as [|Hne]; [now left|].
    right. destruct (lastBefore_sound GT t n Hne) as [Hr Hc].
    destruct (Z.lt_trichotomy (lastBefore GT t n) l) as [|[E|Hgt]];
      [assumption| |].
    - rewrite E, Hlc in Hc. discriminate.
    - exfalso.
      apply (proj2 (Hbetween (lastBefore GT t n) ltac:(lia))).
      exact Hc. }
  assert (Hcheck : negb (lastBefore GT t n =? -1) && (l <? lastBefore GT t n)
                   = false).
  { destruct Hgt as [->|Hgt]; [reflexivity|].
    apply andb_false_iff. right. apply Z.ltb_ge. lia. }
  rewrite Hcheck.
  destruct (indexOf_char_exists GT t offset g ltac:(lia) Hgc) as [Hne Hle].
  destruct (Z.eqb_spec (indexOf t [GT] offset) (-1)); [contradiction|].
  rewrite (eqc_false_ne _ _ Hsl).
  destruct (indexOf_char_found GT t offset ltac:(lia) Hne) as [Hge Hc].
  apply andb_true_iff. split; apply Z.ltb_lt; [lia|].
  destruct (Z.eq_dec (indexOf t [GT] offset) offset) as [E|]; [|lia].
  exfalso. rewrite E in Hc.
  apply (proj2 (Hbetween offset ltac:(lia))). exact Hc.
Qed.

End TagAttributes.

(** [isInsideTagAttributes] answers true exactly when an open tag stands
    before the offset: some [<] before the offset, not followed by [/], with
    neither [<] nor [>] after it up to the offset, the character at the
    offset included, and some [>] after the offset.  So the text fallback of
    the attribute test takes any such [<], a comparison included, for the
    start of a tag. *)
Theorem inside_tag_attributes_iff_open_tag :
  forall (t : str) (offset : Z),
    Markup.isInsideTagAttributes t offset = true
    <-> exists l g, MarkupNotions.openTagBefore t offset l g.
Proof.
  intros t offset. split.
  - apply isInsideTagAttributes_sound.
  - intros (l & g & H). now apply (isInsideTagAttributes_complete t offset l g).
Qed.

(** An open tag stands before offset 3 of [<a b>]. *)
Lemma inside_tag_attributes_iff_open_tag_witness :
  Markup.isInsideTagAttributes (lit "<a b>") 3 = true.
Proof.
  apply (proj2 (inside_tag_attributes_iff_open_tag (lit "<a b>") 3)).
  exists 0, 4. unfold MarkupNotions.openTagBefore.
  repeat split; try lia; try reflexivity; try discriminate;
    assert (Hk : k = 1 \/ k = 2 \/ k = 3) by lia;
    destruct Hk as [-> | [-> | ->]]; discriminate.
Defined.

(** ** The text fallback of the attribute test on two texts that agree on a
    region *)

Section AlignedAttributes.
Import MarkupNotions.

Variables (t1 t2 : str) (d lo hi : Z).
Hypothesis Hal : aligned t1 t2 d lo hi.

Lemma openTagBefore_after_lo t g0 offset l g :
  charAt t g0 = Some GT -> g0 < offset ->
  openTagBefore t offset l g -> g0 < l.
Proof.
  intros Hg0 Ho (Hl & _ & Hlc & _ & Hbetween & _).
  destruct (Z.lt_trichotomy l g0) as [Hlt|[E|Hgt]]; [| |exact Hgt].
  - exfalso. apply (proj2 (Hbetween g0 ltac:(lia))). exact Hg0.
  - rewrite E, Hg0 in Hlc. discriminate.
Qed.

Lemma openTagBefore_shift_right offset l g g2 :
  lo < offset <= hi -> offset + d < g2 -> charAt t2 g2 = Some GT ->
  openTagBefore t1 offset l g ->
  openTagBefore t2 (offset + d) (l + d) g2.
Proof.
  intros Ho Hg2 Hc2 H.
  destruct (aligned_bounds t1 t2 d lo hi Hal) as [Hlo Hd].
  destruct (aligned_lo t1 t2 d lo hi Hal) as [Hg1 _].
  pose proof (openTagBefore_after_lo t1 lo offset l g Hg1 ltac:(lia) H)
    as Hl.
  destruct H as (Hl0 & Hg & Hlc & Hgc & Hbetween & Hsl).
  unfold openTagBefore. repeat split; try lia; try assumption.
  - rewrite <- (aligned_at t1 t2 d lo hi Hal) by lia. exact Hlc.
  - replace k with (k - d + d) by lia.
    rewrite <- (aligned_at t1 t2 d lo hi Hal) by lia.
    apply (proj1 (Hbetween (k - d) ltac:(lia))).
  - replace k with (k - d + d) by lia.
    rewrite <- (aligned_at t1 t2 d lo hi Hal) by lia.
    apply (proj2 (Hbetween (k - d) ltac:(lia))).
  - replace (l + d + 1) with (l + 1 + d) by lia.
    rewrite <- (aligned_at t1 t2 d lo hi Hal) by lia. exact Hsl.
Qed.

Lemma openTagBefore_shift_left offset l g g1 :
  lo < offset <= hi -> offset < g1 -> charAt t1 g1 = Some GT ->
  openTagBefore t2 (offset + d) l g ->
  openTagBefore t1 offset (l - d) g1.
Proof.
  intros Ho Hg1 Hc1 H.
  destruct (aligned_bounds t1 t2 d lo hi Hal) as [Hlo Hd].
  destruct (aligned_lo t1 t2 d lo hi Hal) as [_ Hg2].
  pose proof (openTagBefore_after_lo t2 (lo + d) (offset + d) l g Hg2
                ltac:(lia) H) as Hl.
  destruct H as (Hl0 & Hg & Hlc & Hgc & Hbetween & Hsl).
  unfold openTagBefore. repeat split; try lia; try assumption.
  - rewrite (aligned_at t1 t2 d lo hi Hal) by lia.
    replace (l - d + d) with l by lia. exact Hlc.
  - rewrite (aligned_at t1 t2 d lo hi Hal) by lia.
    apply (proj1 (Hbetween (k + d) ltac:(lia))).
  - rewrite (aligned_at t1 t2 d lo hi Hal) by lia.
    apply (proj2 (Hbetween (k + d) ltac:(lia))).
  - rewrite (aligned_at t1 t2 d lo hi Hal) by lia.
    replace (l - d + 1 + d) with (l + 1) by lia. exact Hsl.
Qed.

(** The fallback answers the same in the two texts at corresponding offsets
    of the region, when a [>] follows in each. *)
Lemma isInsideTagAttributes_aligned offset g1 g2 :
  lo < offset <= hi ->
  offset < g1 -> charAt t1 g1 = Some GT ->
  offset + d < g2 -> charAt t2 g2 = Some GT ->
  Markup.isInsideTagAttributes t1 offset
  = Markup.isInsideTagAttributes t2 (offset + d).
Proof.
  intros Ho Hg1 Hc1 Hg2 Hc2.
  destruct (Markup.isInsideTagAttributes t1 offset) eqn:E1;
    destruct (Markup.isInsideTagAttributes t2 (offset + d)) eqn:E2;
    try reflexivity.
  - apply isInsideTagAttributes_sound in E1 as (l & g & H).
    pose proof (openTagBefore_shift_right offset l g g2 Ho Hg2 Hc2 H) as H2.
    apply isInsideTagAttributes_complete in H2. congruence.
  - apply isInsideTagAttributes_sound in E2 as (l & g & H).
    pose proof (openTagBefore_shift_left offset l g g1 Ho Hg1 Hc1 H) as H1.
    apply isInsideTagAttributes_complete in H1. congruence.
Qed.

End AlignedAttributes.

(** ** The fragment and the element under the syntax-tree classifier *)

Section FragmentTreeParity.
Import Tree TreeNotions.

Variable content : str.

Let fragmentText : str := LT :: GT :: content ++ [LT; SLASH; GT].
Let elementText : str :=
  LT :: lit "div" ++ GT :: content ++ LT :: SLASH :: lit "div" ++ [GT].

Lemma fragmentText_len : len fragmentText = len content + 5.
Proof.
  unfold fragmentText. rewrite !len_cons, len_app.
  change (len [LT; SLASH; GT]) with 3. lia.
Qed.

Lemma elementText_len : len elementText = len content + 11.
Proof.
  unfold elementText.
  change (LT :: lit "div" ++ GT :: ?x)
    with (LT :: 100%N :: 105%N :: 118%N :: GT :: x).
  rewrite !len_cons, len_app.
  change (len (LT :: SLASH :: lit "div" ++ [GT])) with 6. lia.
Qed.

(** The text fallback of the attribute test answers the same at every offset
    of the content of the fragment and at the corresponding offset of the
    element, whatever the content. *)
Lemma fallback_fragment_parity k :
  0 <= k <= len content ->
  Markup.isInsideTagAttributes fragmentText (2 + k)
  = Markup.isInsideTagAttributes elementText (5 + k).
Proof.
  intros Hk. pose proof (len_nonneg content) as Hc.
  replace (5 + k) with (2 + k + 3) by lia.
  apply (isInsideTagAttributes_aligned fragmentText elementText 3 1
           (len content + 3) (fragment_element_aligned content [] [])
           (2 + k) (len content + 4) (len content + 10)); try lia.
  - destruct (element_shape [] [] content [LT; SLASH; GT])
      as (_ & _ & _ & _ & Hrest).
    change (len []) with 0 in Hrest. simpl app in Hrest.
    unfold fragmentText. rewrite Hrest by lia.
    replace (_ - _) with 2 by lia. reflexivity.
  - destruct (element_shape [] (lit "div") content
                (LT :: SLASH :: lit "div" ++ [GT]))
      as (_ & _ & _ & _ & Hrest).
    change (len []) with 0 in Hrest. change (len (lit "div")) with 3 in Hrest.
    simpl app in Hrest. unfold elementText. simpl app.
    rewrite Hrest by lia.
    replace (_ - _) with 5 by lia. reflexivity.
Qed.

Variable createSourceFile : string -> str -> ScriptKind -> Node.

(** Whatever trees the parser returns for the two texts: when the nodes
    found at corresponding offsets both lie in the content of a fragment or
    element, the verdicts are the same. *)
Lemma tree_fragment_parity l f k chain1 chain2 :
  has MARKUP_LANGUAGES l = false ->
  0 <= k <= len content ->
  containsJsx (createSourceFile f fragmentText (toScriptKind l)) = true ->
  containsJsx (createSourceFile f elementText (toScriptKind l)) = true ->
  findDeepestNode (createSourceFile f fragmentText (toScriptKind l))
                  (2 + k) [] = Some chain1 ->
  findDeepestNode (createSourceFile f elementText (toScriptKind l))
                  (5 + k) [] = Some chain2 ->
  inElementContent (2 + k) chain1 ->
  inElementContent (5 + k) chain2 ->
  isJsxTextContext createSourceFile (mkProbe l f fragmentText (2 + k))
  = isJsxTextContext createSourceFile (mkProbe l f elementText (5 + k)).
Proof.
  intros Hm Hk Hj1 Hj2 Hf1 Hf2 Hc1 Hc2.
  pose proof fragmentText_len. pose proof elementText_len.
  rewrite (isJsxTextContext_content createSourceFile
             (mkProbe l f fragmentText (2 + k)) chain1);
    cbn [Lang.offset Lang.text Lang.languageId Lang.fileName];
    try assumption; [|lia].
  rewrite (isJsxTextContext_content createSourceFile
             (mkProbe l f elementText (5 + k)) chain2);
    cbn [Lang.offset Lang.text Lang.languageId Lang.fileName];
    try assumption; [|lia].
  now rewrite fallback_fragment_parity.
Qed.

End FragmentTreeParity.

(** Claim C9.  The heuristic scanner gives the same verdict at every offset
    of the content of [<>content</>] and at the corresponding offset of
    [<div>content</div>], for every content and whatever follows the closing
    tags.  The syntax-tree classifier, for every content and whatever trees
    the parser returns for the two texts: the text fallback of its attribute
    test answers the same at corresponding offsets of the content, and when
    the nodes found there both lie in the content of a fragment or element,
    the two verdicts are the same.  For a content without [<] and [{], the
    two texts parsed into the trees of one fragment and of one element with
    one text child, the verdicts at corresponding offsets are the same. *)
Theorem fragment_parity :
  (forall (content rest1 rest2 : str) (k : Z),
     0 <= k <= len content ->
     Heuristic.isInJsxTextContent
       (LT :: GT :: content ++ LT :: SLASH :: GT :: rest1) (2 + k)
     = Heuristic.isInJsxTextContent
         (lit "<div>" ++ content ++ LT :: SLASH :: lit "div>" ++ rest2)
         (5 + k))
  /\ (forall (content : str) (k : Z),
        let fragmentText := LT :: GT :: content ++ [LT; SLASH; GT] in
        let elementText :=
          LT :: lit "div" ++ GT :: content
             ++ LT :: SLASH :: lit "div" ++ [GT] in
        0 <= k <= len content ->
        Markup.isInsideTagAttributes fragmentText (2 + k)
        = Markup.isInsideTagAttributes elementText (5 + k)
        /\ forall (createSourceFile : string -> str -> ScriptKind -> Node)
                  (l f : string) (chain1 chain2 : list Node),
             has MARKUP_LANGUAGES l = false ->
             Tree.containsJsx
               (createSourceFile f fragmentText (Tree.toScriptKind l))
             = true ->
             Tree.containsJsx
               (createSourceFile f elementText (Tree.toScriptKind l))
             = true ->
             Tree.findDeepestNode
               (createSourceFile f fragmentText (Tree.toScriptKind l))
               (2 + k) [] = Some chain1 ->
             Tree.findDeepestNode
               (createSourceFile f elementText (Tree.toScriptKind l))
               (5 + k) [] = Some chain2 ->
             TreeNotions.inElementContent (2 + k) chain1 ->
             TreeNotions.inElementContent (5 + k) chain2 ->
             Tree.isJsxTextContext createSourceFile
               (mkProbe l f fragmentText (2 + k))
             = Tree.isJsxTextContext createSourceFile
                 (mkProbe l f elementText (5 + k)))
  /\ (forall (createSourceFile : string -> str -> ScriptKind -> Node)
             (l f : string) (content : str) (k : Z),
        let fragmentText := LT :: GT :: content ++ [LT; SLASH; GT] in
        let elementText :=
          LT :: lit "div" ++ GT :: content
             ++ LT :: SLASH :: lit "div" ++ [GT] in
        has MARKUP_LANGUAGES l = false ->
        forallb plainContentChar content = true ->
        createSourceFile f fragmentText (Tree.toScriptKind l)
        = ParseModel.fragmentFile (len content) ->
        createSourceFile f elementText (Tree.toScriptKind l)
        = ParseModel.elementFile 3 (len content) ->
        0 <= k <= len content ->
        Tree.isJsxTextContext createSourceFile
          (mkProbe l f fragmentText (2 + k))
        = Tree.isJsxTextContext createSourceFile
            (mkProbe l f elementText (5 + k))).
Proof.
  split; [|split].
  - intros content rest1 rest2 k Hk.
    now apply heuristic_fragment_parity.
  - intros content k tf te Hk. split.
    + now apply fallback_fragment_parity.
    + intros csf l f chain1 chain2 Hm Hj1 Hj2 Hf1 Hf2 Hc1 Hc2.
      now apply (tree_fragment_parity content csf l f k chain1 chain2).
  - intros csf l f content k tf te Hm Hc Hpf Hpe Hk.
    unfold tf, te.
    rewrite (tree_fragment csf l f content Hm Hc Hpf) by lia.
    destruct (tree_element csf l f (lit "div") content Hm
                ltac:(discriminate) Hc Hpe) as [_ Ht].
    symmetry. apply Ht. change (len (lit "div")) with 3. lia.
Qed.

(** The hypotheses of [fragment_parity] hold of the content [a <b>c</b>] at
    its fifth character for the heuristic scanner, and of the content [X]
    for the syntax-tree classifier, where the nodes found at offset 3 of
    [<>X</>] and at offset 6 of [<div>X</div>], in the trees of the two
    texts, are the [<] of the closing tags. *)
Lemma fragment_parity_witness :
  Heuristic.isInJsxTextContent (lit "<>a <b>c</b></>") 7
  = Heuristic.isInJsxTextContent (lit "<div>a <b>c</b></div>") 10
  /\ (let csf := fun (_ : string) (t : str) (_ : ScriptKind) =>
                   if (len t =? 6) then ParseModel.fragmentFile 1
                   else ParseModel.elementFile 3 1 in
      Markup.isInsideTagAttributes (lit "<>X</>") 3
      = Markup.isInsideTagAttributes (lit "<div>X</div>") 6
      /\ Tree.isJsxTextContext csf
           (mkProbe "javascriptreact" "a.jsx" (lit "<>X</>") 3)
         = Tree.isJsxTextContext csf
             (mkProbe "javascriptreact" "a.jsx" (lit "<div>X</div>") 6)
      /\ Tree.isJsxTextContext csf
           (mkProbe "typescriptreact" "a.tsx" (lit "<>X</>") 3)
         = Tree.isJsxTextContext csf
             (mkProbe "typescriptreact" "a.tsx" (lit "<div>X</div>") 6)).
Proof.
  destruct fragment_parity as (Hh & Hany & Ht). split.
  - apply (Hh (lit "a <b>c</b>") [] [] 5). vm_compute.
    split; discriminate.
  - intros csf.
    destruct (Hany (lit "X") 1) as [Hfb Htree].
    { vm_compute. split; discriminate. }
    split; [exact Hfb|]. split.
    + eapply (Htree csf "javascriptreact"%string "a.jsx"%string).
      * reflexivity.
      * reflexivity.
      * reflexivity.
      * vm_compute. reflexivity.
      * vm_compute. reflexivity.
      * content_chain.
      * content_chain.
    + apply (Ht csf "typescriptreact"%string "a.tsx"%string (lit "X") 1);
        try reflexivity.
      vm_compute. split; discriminate.
Defined.

(** ** The scanners of [src/extension.ts] outside the text and across string
       literals *)

Section ScannerEdges.
Import Heuristic.

Lemma charAt_past_end (t : str) k : len t <= k -> charAt t k = None.
Proof.
  intros H. pose proof (len_nonneg t). unfold charAt.
  destruct (Z.ltb_spec k 0); [reflexivity|].
  apply nth_error_None. unfold len in H. lia.
Qed.

(** Past the end of the text a pass changes nothing. *)
Lemma body_past_end t k s : len t <= k -> body t k s = (s, k).
Proof.
  intros H. unfold body, trackCodeBraces, trackJsxBraces, tagRules.
  rewrite (charAt_past_end t k H).
  destruct s as [iS sC iT tD bD jB jT iJ lC iC]. simpl.
  rewrite ?andb_false_r. simpl.
  split_ifs; reflexivity.
Qed.

Lemma scan_past_end t offset :
  len t <= offset -> scan t offset = scan t (len t).
Proof.
  intros H. pose proof (len_nonneg t).
  rewrite (scan_through t offset (len t));
    try (rewrite charAt_past_end by lia; reflexivity); [|lia].
  apply (run_invariant (fun st => st = scan t (len t)) t offset (len t));
    [|lia|reflexivity].
  intros k s Hk ->. now rewrite body_past_end by lia.
Qed.

Lemma scan_before_start t offset : offset <= 0 -> scan t offset = initial.
Proof.
  intros H. unfold scan. replace (Z.to_nat offset) with O by lia.
  reflexivity.
Qed.

Lemma html_body_past_end t k s : len t <= k -> Html.body t k s = s.
Proof.
  intros H. unfold Html.body. rewrite (charAt_past_end t k H).
  destruct s as [iT iS sC tD lC]. simpl. rewrite ?andb_false_r. simpl.
  split_ifs; reflexivity.
Qed.

Lemma html_scan_past_end t offset :
  len t <= offset -> Html.scan t offset = Html.scan t (len t).
Proof.
  intros H. pose proof (len_nonneg t).
  apply (html_scan_invariant_from
           (fun _ st => st = Html.scan t (len t)) t (len t) offset);
    [lia|reflexivity|].
  intros k s Hk ->. now rewrite html_body_past_end by lia.
Qed.

End ScannerEdges.

(** The two scanners of [src/extension.ts] take no account of the length of
    the text: at an offset of 0 or less both answer false, and at an offset
    past the end of the text each answers as it does at the end of the
    text. *)
Theorem scanners_outside_the_text :
  forall (t : str) (offset : Z),
    (offset <= 0 ->
     Heuristic.isInJsxTextContent t offset = false
     /\ Html.isInHtmlTextContent t offset = false)
    /\ (len t <= offset ->
        Heuristic.isInJsxTextContent t offset
        = Heuristic.isInJsxTextContent t (len t)
        /\ Html.isInHtmlTextContent t offset
           = Html.isInHtmlTextContent t (len t)).
Proof.
  intros t offset. split; intros H.
  - unfold Heuristic.isInJsxTextContent, Html.isInHtmlTextContent.
    rewrite scan_before_start, html_scan_start by exact H. now split.
  - unfold Heuristic.isInJsxTextContent, Html.isInHtmlTextContent.
    rewrite scan_past_end, html_scan_past_end by exact H. now split.
Qed.

(** The hypotheses of [scanners_outside_the_text] hold of [<p>x] at offsets
    0 and 9: false at 0, and at 9 the verdict of the end, true. *)
Lemma scanners_outside_the_text_witness :
  Heuristic.isInJsxTextContent (lit "<p>x") 0 = false
  /\ Heuristic.isInJsxTextContent (lit "<p>x") 9
     = Heuristic.isInJsxTextContent (lit "<p>x") 4.
Proof.
  split.
  - refine (proj1 (proj1 (scanners_outside_the_text (lit "<p>x") 0) _)). lia.
  - refine (proj1 (proj2 (scanners_outside_the_text (lit "<p>x") 9) _)).
    vm_compute. discriminate.
Defined.

Section StringLiterals.
Import Heuristic LiteralNotions.

Local Abbreviation isQuote := HtmlNotions.isQuote.

Lemma string_literal_region t p e q s :
  0 <= p -> p < e ->
  inString s = false -> inTemplate s = false ->
  isQuote q = true ->
  charAt t p = Some q ->
  (forall k, p < k < e ->
     exists c, charAt t k = Some c /\ plainStringChar q c = true) ->
  charAt t e = Some q ->
  forall offset, p <= offset <= e + 1 ->
    exists k, offset <= k
      /\ ((k = p /\ run t offset p s = s)
          \/ (p < k <= e /\ run t offset p s = setString s true (Some q))
          \/ (k = e + 1 /\ run t offset p s = setString s false (Some q))).
Proof.
  intros Hp Hpe Hs Hm Hq Hpq Hbody He offset Ho.
  assert (Hqb : N.eqb q BACKSLASH = false).
  { unfold HtmlNotions.isQuote in Hq. apply orb_true_iff in Hq as [Hq|Hq];
      apply N.eqb_eq in Hq; subst; reflexivity. }
  set (P := fun (k : Z) (st : ScanState) =>
              (k = p /\ st = s)
              \/ (p < k <= e /\ st = setString s true (Some q))
              \/ (k = e + 1 /\ st = setString s false (Some q))).
  destruct (run_invariant_at P t offset p s) as (k & Hk & HP).
  - intros k st Hko [[-> ->]|[[Hk ->]|[-> ->]]].
    + right. left. split; [|].
      * unfold body. rewrite Hs, Hm, Hpq. simpl. unfold HtmlNotions.isQuote in Hq.
        unfold DQUOTE, SQUOTE in *. rewrite Hq. simpl. lia.
      * unfold body. rewrite Hs, Hm, Hpq. simpl. unfold HtmlNotions.isQuote in Hq.
        unfold DQUOTE, SQUOTE in *. rewrite Hq. reflexivity.
    + assert (Hprev : eqc (if 0 <? k then charAt t (k - 1) else None)
                          BACKSLASH = false).
      { destruct (Z.ltb_spec 0 k); [|lia].
        destruct (Z.eq_dec (k - 1) p) as [->|Hn]; [now rewrite Hpq|].
        destruct (Hbody (k - 1) ltac:(lia)) as (c & -> & Hc).
        unfold plainStringChar in Hc. apply negb_true_iff in Hc.
        now apply orb_false_iff in Hc as [_ Hc]. }
      destruct (Z.eq_dec k e) as [->|Hne].
      * right. right. unfold body. cbn [inString inTemplate setString stringChar].
        rewrite Hprev, He, Hm. simpl. rewrite N.eqb_refl. simpl.
        split; [lia|]. destruct s; reflexivity.
      * right. left.
        destruct (Hbody k ltac:(lia)) as (c & Hc & Hplain).
        unfold plainStringChar in Hplain. apply negb_true_iff in Hplain.
        apply orb_false_iff in Hplain as [Hcq _].
        unfold body. cbn [inString inTemplate setString stringChar].
        rewrite Hprev, Hc, Hm. simpl. rewrite Hcq. simpl.
        split; [lia|reflexivity].
    + lia.
  - left. now split.
  - exists k. split; [exact Hk|exact HP].
Qed.

Lemma verdict_setString s b c : verdict (setString s b c) = verdict s.
Proof. reflexivity. Qed.

Lemma string_literal (pre value rest : str) (q : char) :
  let t := pre ++ q :: value ++ q :: rest in
  let p := len pre in
  inString (scan t p) = false -> inTemplate (scan t p) = false ->
  isQuote q = true ->
  forallb (plainStringChar q) value = true ->
  (forall offset, p <= offset <= p + len value + 2 ->
     isInJsxTextContent t offset = isInJsxTextContent t p)
  /\ scan t (p + len value + 2) = setString (scan t p) false (Some q).
Proof.
  intros t p Hs Hm Hq Hvalue.
  pose proof (len_nonneg pre). pose proof (len_nonneg value).
  assert (Hpq : charAt t p = Some q).
  { unfold t, p. rewrite charAt_app_r by lia. now rewrite Z.sub_diag. }
  assert (Hbody : forall k, p < k < p + 1 + len value ->
            exists c, charAt t k = Some c /\ plainStringChar q c = true).
  { intros k Hk. unfold t. rewrite charAt_app_r by (fold p; lia).
    rewrite charAt_cons_succ by (fold p; lia).
    rewrite charAt_app_l by (fold p; lia).
    apply charAt_forallb; [exact Hvalue|]. fold p. lia. }
  assert (He : charAt t (p + 1 + len value) = Some q).
  { unfold t. rewrite charAt_app_r by (fold p; lia).
    rewrite charAt_cons_succ by (fold p; lia).
    rewrite charAt_app_r by (fold p; lia). fold p.
    replace (p + 1 + len value - p - 1 - len value) with 0 by lia.
    reflexivity. }
  assert (Hnot : eqc (charAt t p) GT = false /\ eqc (charAt t p) SLASH = false).
  { rewrite Hpq. unfold HtmlNotions.isQuote in Hq.
    apply orb_true_iff in Hq as [Hq|Hq]; apply N.eqb_eq in Hq; subst;
      now split. }
  destruct Hnot as [Hg Hsl].
  assert (Hregion := string_literal_region t p (p + 1 + len value) q
                       (scan t p) ltac:(lia) ltac:(lia) Hs Hm Hq Hpq Hbody He).
  split.
  - intros offset Ho. unfold isInJsxTextContent.
    rewrite (scan_through t offset p Hg Hsl) by lia.
    destruct (Hregion offset ltac:(lia))
      as (k & _ & [[_ ->]|[[_ ->]|[_ ->]]]); reflexivity.
  - rewrite (scan_through t (p + len value + 2) p Hg Hsl) by lia.
    destruct (Hregion (p + len value + 2) ltac:(lia))
      as (k & Hk & [[Hk' _]|[[Hk' _]|[_ ->]]]); [lia|lia|reflexivity].
Qed.

End StringLiterals.

(** [isInJsxTextContent] across a string literal: in a text
    [pre ++ q value q ++ rest] whose first quote [q] the scanner reads
    outside string and template literals, where the value holds neither
    that quote nor a backslash, the verdict is the same at every offset from
    the first quote to just after the second, whatever the value holds (a
    tag, braces), and after the literal the scanner is in the state it had
    before it, but for the record of the last quote. *)
Theorem string_literal_keeps_the_verdict :
  forall (pre value rest : str) (q : char),
    let t := pre ++ q :: value ++ q :: rest in
    let p := len pre in
    Heuristic.inString (Heuristic.scan t p) = false ->
    Heuristic.inTemplate (Heuristic.scan t p) = false ->
    HtmlNotions.isQuote q = true ->
    forallb (LiteralNotions.plainStringChar q) value = true ->
    (forall offset, p <= offset <= p + len value + 2 ->
       Heuristic.isInJsxTextContent t offset
       = Heuristic.isInJsxTextContent t p)
    /\ Heuristic.scan t (p + len value + 2)
       = Heuristic.setString (Heuristic.scan t p) false (Some q).
Proof. intros pre value rest q. apply string_literal. Qed.

(** The hypotheses of [string_literal_keeps_the_verdict] hold of the text
    [x = '<div>'] with the literal in single quotes: after the tag inside
    the literal the verdict is that of the start, false. *)
Lemma string_literal_keeps_the_verdict_witness :
  Heuristic.isInJsxTextContent (lit "x = '<div>'") 10 = false.
Proof.
  refine (eq_trans
            (proj1 (string_literal_keeps_the_verdict (lit "x = ")
                      (lit "<div>") [] SQUOTE eq_refl eq_refl eq_refl
                      eq_refl) 10 _) _).
  - vm_compute. split; discriminate.
  - reflexivity.
Defined.

(** ** The cache of the detector never changes an answer *)

Section CacheTransparency.
Import Detector DetectorNotions.

Variable createSourceFile : string -> str -> ScriptKind -> Node.
Variable clock : nat -> Z.
Variable ttl : option Z.

Local Abbreviation call := (isInsideJsxText createSourceFile clock ttl).
Local Abbreviation classify := (Tree.isJsxTextContext createSourceFile).
Local Abbreviation cacheOf' := (cacheOf createSourceFile).
Local Abbreviation uncached' := (uncached createSourceFile).

Lemma isCacheValid_cache s document position :
  cache (snd (isCacheValid clock ttl s document position)) = cache s.
Proof.
  unfold isCacheValid. destruct (cache s) as [c|] eqn:E; [|exact E].
  split_ifs; simpl; (reflexivity || exact E).
Qed.

Lemma isCacheValid_true s document position :
  fst (isCacheValid clock ttl s document position) = true ->
  exists c, cache s = Some c
    /\ c_uri c = uri document /\ c_version c = version document
    /\ c_position c = position.
Proof.
  unfold isCacheValid. destruct (cache s) as [c|]; [|discriminate].
  destruct (String.eqb_spec (c_uri c) (uri document)) as [Hu|];
    [|discriminate].
  destruct (Z.eqb_spec (c_version c) (version document)) as [Hv|];
    [|discriminate].
  destruct (isEqual (c_position c) position) eqn:Hp; [|discriminate].
  intros _. exists c. repeat split; try assumption.
  now apply isEqual_eq.
Qed.

Lemma probeOf_sameContent d d' p :
  sameContent d d' -> uri d = uri d' -> version d = version d' ->
  probeOf d p = probeOf d' p.
Proof.
  intros H Hu Hv. destruct (H Hu Hv) as (Hl & Hf & Ht & Ho).
  unfold probeOf. now rewrite Hl, Hf, Ht, Ho.
Qed.

Lemma cacheOf_more history c s : cacheOf' history s -> cacheOf' (c :: history) s.
Proof.
  intros H e He. destruct (H e He) as (d & p & Hin & Hrest).
  exists d, p. split; [now right|exact Hrest].
Qed.

Lemma call_transparent history s d p :
  cacheOf' history s ->
  (forall c, In c history -> sameContent (fst c) d) ->
  fst (call s d p) = uncached' (d, p)
  /\ cacheOf' ((d, p) :: history) (snd (call s d p)).
Proof.
  intros Hc Hsame. unfold isInsideJsxText, uncached. cbn [fst snd].
  destruct (isSupported (doc_languageId d)) eqn:Hsup; cbn [negb].
  2:{ split; [reflexivity|now apply cacheOf_more]. }
  destruct (has MARKUP_LANGUAGES (doc_languageId d)) eqn:Hm.
  { cbn [fst snd]. split.
    - unfold Tree.isJsxTextContext, probeOf. cbn [languageId].
      now rewrite Hm.
    - apply cacheOf_more. exact Hc. }
  pose proof (isCacheValid_cache s d p) as Hsame_cache.
  pose proof (isCacheValid_true s d p) as Hvalid.
  destruct (isCacheValid clock ttl s d p) as [valid s1].
  cbn [fst snd] in Hsame_cache, Hvalid.
  destruct valid; cbn [fst snd].
  - destruct (Hvalid eq_refl) as (c & Hcs & Hu & Hv & Hp).
    rewrite Hsame_cache, Hcs.
    destruct (Hc c Hcs) as (d0 & p0 & Hin & Hu0 & Hv0 & Hp0 & Hr).
    split.
    + rewrite Hr. f_equal. rewrite <- Hp0, Hp.
      apply probeOf_sameContent; [exact (Hsame _ Hin)| |]; congruence.
    + apply cacheOf_more. intros e He. rewrite Hsame_cache in He.
      now apply Hc.
  - split; [reflexivity|].
    intros e He. cbn [cache] in He. injection He as <-.
    exists d, p. cbn. repeat split. now left.
Qed.

Lemma answers_transparent calls : forall history s,
  cacheOf' history s ->
  (forall c c', In c (history ++ calls) -> In c' (history ++ calls) ->
                sameContent (fst c) (fst c')) ->
  answers createSourceFile clock ttl s calls = List.map uncached' calls.
Proof.
  induction calls as [|[d p] rest IH]; intros history s Hc Hv;
    [reflexivity|].
  cbn [answers List.map].
  destruct (call_transparent history s d p Hc) as [Ha Hc'].
  { intros c Hin. apply (Hv c (d, p)); apply in_or_app;
      [now left|right; now left]. }
  destruct (call s d p) as [a s']. cbn [fst snd] in Ha, Hc'.
  rewrite Ha. f_equal. apply (IH ((d, p) :: history)); [exact Hc'|].
  intros c c' Hin Hin'. apply Hv.
  - destruct Hin as [<-|Hin]; [apply in_or_app; right; now left|].
    apply in_app_or in Hin as [Hin|Hin]; apply in_or_app;
      [now left|right; now right].
  - destruct Hin' as [<-|Hin']; [apply in_or_app; right; now left|].
    apply in_app_or in Hin' as [Hin'|Hin']; apply in_or_app;
      [now left|right; now right].
Qed.

End CacheTransparency.

(** The cache of [JsxContextDetector] never changes an answer.  For calls
    made one after the other on a new detector, with documents that show the
    same language, file name, text and offsets whenever they have the same
    URI and version, every answer is the one the detector gives without a
    cache: false for an unsupported language, and otherwise the answer of
    [isJsxTextContext] for the probe of the call; this holds for every
    clock and every time to live. *)
Theorem detector_cache_is_transparent :
  forall (createSourceFile : string -> str -> ScriptKind -> Node)
         (clock : nat -> Z) (cacheTtlMs : option Z)
         (calls : list (Detector.TextDocument * Detector.Position)),
    DetectorNotions.versioned calls ->
    DetectorNotions.answers createSourceFile clock cacheTtlMs Detector.new
                            calls
    = List.map (DetectorNotions.uncached createSourceFile) calls.
Proof.
  intros csf clock ttl calls Hv.
  apply (answers_transparent csf clock ttl calls []).
  - intros c Hc. discriminate.
  - exact Hv.
Qed.

(** The hypothesis of [detector_cache_is_transparent] holds of two calls for
    the same document and position, the second answered from the cache. *)
Lemma detector_cache_is_transparent_witness :
  let d := Detector.mkDocument "typescriptreact" "a.tsx" "file:///a.tsx" 1
             (lit "<div>Hello</div>") Detector.character in
  let calls := [(d, Detector.mkPosition 0 7); (d, Detector.mkPosition 0 7)] in
  DetectorNotions.answers (fun _ _ _ => ParseModel.elementFile 3 5)
                          (fun _ => 0) None Detector.new calls
  = [true; true].
Proof.
  intros d calls.
  refine (eq_trans
            (detector_cache_is_transparent
               (fun _ _ _ => ParseModel.elementFile 3 5) (fun _ => 0) None
               calls _) _).
  - intros c c' Hc Hc' _ _.
    destruct Hc as [<-|[<-|[]]]; destruct Hc' as [<-|[<-|[]]];
      now repeat split.
  - reflexivity.
Defined.

(** ** Template literals and self-closing tags in [isInJsxTextContent] *)

Section TemplateLiterals.
Import Heuristic LiteralNotions.

Lemma setTemplate_twice s b d b' d' :
  setTemplate (setTemplate s b d) b' d' = setTemplate s b' d'.
Proof. reflexivity. Qed.

Lemma template_literal_region t p e s :
  0 <= p -> p < e ->
  inString s = false -> inTemplate s = false ->
  charAt t p = Some BACKTICK ->
  (forall k, p < k < e ->
     exists c, charAt t k = Some c /\ plainTemplateChar c = true) ->
  charAt t e = Some BACKTICK ->
  forall offset, p <= offset <= e + 1 ->
    exists k, offset <= k
      /\ ((k = p /\ run t offset p s = s)
          \/ (p < k <= e /\ exists d, run t offset p s = setTemplate s true d)
          \/ (k = e + 1 /\ run t offset p s = setTemplate s false 0)).
Proof.
  intros Hp Hpe Hs Hm Hpq Hbody He offset Ho.
  set (P := fun (k : Z) (st : ScanState) =>
              (k = p /\ st = s)
              \/ (p < k <= e /\ exists d, st = setTemplate s true d)
              \/ (k = e + 1 /\ st = setTemplate s false 0)).
  destruct (run_invariant_at P t offset p s) as (k & Hk & HP).
  - intros k st Hko [[-> ->]|[[Hk [d ->]]|[-> ->]]].
    + right. left. unfold body. rewrite Hs, Hm, Hpq. simpl.
      split; [lia|now exists 1].
    + assert (Hprev : eqc (if 0 <? k then charAt t (k - 1) else None)
                          BACKSLASH = false).
      { destruct (Z.ltb_spec 0 k); [|lia].
        destruct (Z.eq_dec (k - 1) p) as [->|Hn]; [now rewrite Hpq|].
        destruct (Hbody (k - 1) ltac:(lia)) as (c & -> & Hc).
        unfold plainTemplateChar in Hc. apply negb_true_iff in Hc.
        now apply orb_false_iff in Hc as [_ Hc]. }
      destruct (Z.eq_dec k e) as [->|Hne].
      * right. right. unfold body.
        cbn [inString inTemplate setTemplate stringChar templateDepth].
        rewrite Hprev, He, Hs. simpl. split; [lia|reflexivity].
      * right. left.
        destruct (Hbody k ltac:(lia)) as (c & Hc & Hplain).
        unfold plainTemplateChar in Hplain. apply negb_true_iff in Hplain.
        apply orb_false_iff in Hplain as [Hcq _].
        unfold body.
        cbn [inString inTemplate setTemplate stringChar templateDepth].
        rewrite Hprev, Hc, Hs. simpl. rewrite Hcq. simpl.
        rewrite ?andb_false_r. simpl.
        split_ifs; simpl; (split; [lia|eexists; reflexivity]).
    + lia.
  - left. now split.
  - exists k. split; [exact Hk|exact HP].
Qed.

Lemma template_literal (pre value rest : str) :
  let t := pre ++ BACKTICK :: value ++ BACKTICK :: rest in
  let p := len pre in
  inString (scan t p) = false -> inTemplate (scan t p) = false ->
  forallb plainTemplateChar value = true ->
  (forall offset, p <= offset <= p + len value + 2 ->
     isInJsxTextContent t offset = isInJsxTextContent t p)
  /\ scan t (p + len value + 2) = setTemplate (scan t p) false 0.
Proof.
  intros t p Hs Hm Hvalue.
  pose proof (len_nonneg pre). pose proof (len_nonneg value).
  assert (Hpq : charAt t p = Some BACKTICK).
  { unfold t, p. rewrite charAt_app_r by lia. now rewrite Z.sub_diag. }
  assert (Hbody : forall k, p < k < p + 1 + len value ->
            exists c, charAt t k = Some c /\ plainTemplateChar c = true).
  { intros k Hk. unfold t. rewrite charAt_app_r by (fold p; lia).
    rewrite charAt_cons_succ by (fold p; lia).
    rewrite charAt_app_l by (fold p; lia).
    apply charAt_forallb; [exact Hvalue|]. fold p. lia. }
  assert (He : charAt t (p + 1 + len value) = Some BACKTICK).
  { unfold t. rewrite charAt_app_r by (fold p; lia).
    rewrite charAt_cons_succ by (fold p; lia).
    rewrite charAt_app_r by (fold p; lia). fold p.
    replace (p + 1 + len value - p - 1 - len value) with 0 by lia.
    reflexivity. }
  assert (Hg : eqc (charAt t p) GT = false) by now rewrite Hpq.
  assert (Hsl : eqc (charAt t p) SLASH = false) by now rewrite Hpq.
  assert (Hregion := template_literal_region t p (p + 1 + len value)
                       (scan t p) ltac:(lia) ltac:(lia) Hs Hm Hpq Hbody He).
  split.
  - intros offset Ho. unfold isInJsxTextContent.
    rewrite (scan_through t offset p Hg Hsl) by lia.
    destruct (Hregion offset ltac:(lia))
      as (k & _ & [[_ ->]|[[_ [d ->]]|[_ ->]]]); reflexivity.
  - rewrite (scan_through t (p + len value + 2) p Hg Hsl) by lia.
    destruct (Hregion (p + len value + 2) ltac:(lia))
      as (k & Hk & [[Hk' _]|[[Hk' _]|[_ ->]]]); [lia|lia|reflexivity].
Qed.

End TemplateLiterals.

(** [isInJsxTextContent] across a template literal: in a text
    [pre ++ ` value ` ++ rest] whose first backtick the scanner reads outside
    string and template literals, where the value holds neither a backtick
    nor a backslash, the verdict is the same at every offset from the first
    backtick to just after the second, whatever the value holds, its
    substitutions included, and after the literal the scanner is in the
    state it had before it, with the template depth at 0. *)
Theorem template_literal_keeps_the_verdict :
  forall pre value rest : str,
    let t := pre ++ BACKTICK :: value ++ BACKTICK :: rest in
    let p := len pre in
    Heuristic.inString (Heuristic.scan t p) = false ->
    Heuristic.inTemplate (Heuristic.scan t p) = false ->
    forallb LiteralNotions.plainTemplateChar value = true ->
    (forall offset, p <= offset <= p + len value + 2 ->
       Heuristic.isInJsxTextContent t offset
       = Heuristic.isInJsxTextContent t p)
    /\ Heuristic.scan t (p + len value + 2)
       = Heuristic.setTemplate (Heuristic.scan t p) false 0.
Proof. intros pre value rest. apply template_literal. Qed.

(** The hypotheses of [template_literal_keeps_the_verdict] hold of the text
    [x = `${<b>}`]: after the tag inside the substitution the verdict is
    that of the start, false. *)
Lemma template_literal_keeps_the_verdict_witness :
  Heuristic.isInJsxTextContent (lit "x = `${<b>}`") 10 = false.
Proof.
  refine (eq_trans
            (proj1 (template_literal_keeps_the_verdict (lit "x = ")
                      (lit "${<b>}") [] eq_refl eq_refl eq_refl) 10 _) _).
  - vm_compute. split; discriminate.
  - reflexivity.
Defined.

Section SelfClosing.
Import Heuristic.

(** Inside a tag and outside literals, a [/] changes nothing. *)
Lemma body_tag_slash t k s :
  inTagCode s -> charAt t k = Some SLASH -> body t k s = (s, k).
Proof.
  intros (Ht & Hs & Hm & Hb) Hk.
  destruct s as [iS sC iT tD bD jB jT iJ lC iC]. simpl in Ht, Hs, Hm, Hb.
  subst. unfold body, trackCodeBraces, trackJsxBraces, tagRules. simpl.
  rewrite Hk. simpl. destruct iC; reflexivity.
Qed.

Lemma self_closing_region t p g s c :
  0 <= p -> p + 1 < g - 1 ->
  neutral s -> charAt t p = Some LT -> isLikelyTagStart t p = true ->
  charAt t (p + 1) = Some c ->
  (forall k, p < k < g - 1 ->
     exists x, charAt t k = Some x /\ tagBodyChar x = true) ->
  charAt t (g - 1) = Some SLASH ->
  charAt t g = Some GT ->
  run t (g + 1) p s
  = setTag s (jsxTagDepth s) false g
      (if jsxTagDepth s =? 0 then false else inJsxContent s).
Proof.
  intros Hp Hpg Hn Hlt Hlikely Hc Hname Hslash Hgt.
  set (opened := setTag s (jsxTagDepth s) true (lastJsxTagClose s)
                        (inJsxContent s)).
  set (closed := setTag s (jsxTagDepth s) false g
                   (if jsxTagDepth s =? 0 then false else inJsxContent s)).
  assert (Hopened : inTagCode opened).
  { destruct Hn as (Hs & Hm & Ht & Hb). unfold inTagCode, opened. simpl.
    now repeat split. }
  set (P := fun (k : Z) (st : ScanState) =>
              (k = p /\ st = s)
              \/ (p < k <= g /\ st = opened)
              \/ (k = g + 1 /\ st = closed)).
  destruct (run_invariant_at P t (g + 1) p s) as (k & Hk & HP).
  - intros k st Hko [[-> ->]|[[Hkg ->]|[-> ->]]].
    + destruct (Hname (p + 1) ltac:(lia)) as (x & Hx & Hxb).
      rewrite Hc in Hx. injection Hx as <-.
      unfold tagBodyChar in Hxb. apply negb_true_iff in Hxb.
      repeat (apply orb_false_iff in Hxb as [Hxb ?]).
      rewrite (body_open t p s c Hn Hlt Hlikely Hc) by assumption.
      simpl. right. left. split; [lia|reflexivity].
    + destruct (Z.eq_dec k g) as [->|Hne].
      * rewrite (body_close t g opened Hopened Hgt). simpl.
        right. right. split; [reflexivity|].
        destruct (Z.ltb_spec 0 g); [|lia]. rewrite Hslash.
        unfold closeTag. simpl. unfold closed, opened.
        destruct (jsxTagDepth s =? 0); reflexivity.
      * destruct (Z.eq_dec k (g - 1)) as [->|Hne'].
        { rewrite (body_tag_slash t (g - 1) opened Hopened Hslash). simpl.
          right. left. split; [lia|reflexivity]. }
        destruct (Hname k ltac:(lia)) as (x & Hx & Hxb).
        rewrite (body_tagcode_inert t k opened x Hopened Hx Hxb). simpl.
        right. left. split; [lia|reflexivity].
    + lia.
  - left. now split.
  - destruct HP as [[-> _]|[[Hkg _]|[_ H]]]; [lia|lia|exact H].
Qed.

Lemma self_closing (pre name rest : str) :
  let t := pre ++ LT :: (name ++ [SLASH]) ++ GT :: rest in
  let p := len pre in
  let g := p + 1 + len name + 1 in
  neutral (scan t p) -> isLikelyTagStart t p = true ->
  name <> [] -> forallb tagBodyChar name = true ->
  (forall offset, p < offset <= g -> isInJsxTextContent t offset = false)
  /\ isInJsxTextContent t (g + 1)
     = if jsxTagDepth (scan t p) =? 0 then false
       else isInJsxTextContent t p.
Proof.
  intros t p g Hn Hl Hne Hname.
  destruct (html_shape pre (name ++ [SLASH]) [] rest GT)
    as (Hp & Hb & Hg & _).
  change (pre ++ LT :: (name ++ [SLASH]) ++ GT :: [] ++ rest) with t
    in Hp, Hb, Hg.
  rewrite len_app in Hb, Hg. change (len [SLASH]) with 1 in Hb, Hg.
  fold p in Hp, Hb, Hg.
  replace (p + 1 + (len name + 1)) with g in Hb, Hg by (unfold g; lia).
  pose proof (len_nonneg pre). pose proof (len_nonneg name).
  assert (Hnlen : 0 < len name).
  { destruct name as [|c0 n0]; [congruence|]. rewrite len_cons.
    pose proof (len_nonneg n0). lia. }
  assert (Hname' : forall k, p < k < g - 1 ->
            exists x, charAt t k = Some x /\ tagBodyChar x = true).
  { intros k Hk. rewrite Hb by lia. rewrite charAt_app_l by (unfold g in Hk; lia).
    apply charAt_forallb; [exact Hname|]. unfold g in Hk. lia. }
  assert (Hslash : charAt t (g - 1) = Some SLASH).
  { rewrite Hb by (unfold g; lia).
    rewrite charAt_app_r by (unfold g; lia).
    replace (g - 1 - p - 1 - len name) with 0 by (unfold g; lia).
    reflexivity. }
  destruct (Hname' (p + 1) ltac:(unfold g; lia)) as (c & Hc & Hcb).
  assert (Hthrough : forall offset, p <= offset ->
            scan t offset = run t offset p (scan t p)).
  { intros off Ho. apply scan_through; [now rewrite Hp|now rewrite Hp|].
    unfold p. lia. }
  split.
  - intros off Ho. unfold isInJsxTextContent. rewrite Hthrough by lia.
    apply inJsxTag_verdict.
    pose proof Hcb as Hcb'. unfold tagBodyChar in Hcb'.
    apply negb_true_iff in Hcb'.
    repeat (apply orb_false_iff in Hcb' as [Hcb' ?]).
    apply (tag_region t p g (scan t p) c); try assumption.
    intros k Hk. destruct (Z.eq_dec k (g - 1)) as [->|Hd];
      [now rewrite Hslash|].
    destruct (Hname' k ltac:(lia)) as (x & -> & Hxb).
    unfold tagBodyChar in Hxb. apply negb_true_iff in Hxb.
    repeat (apply orb_false_iff in Hxb as [Hxb ?]). assumption.
  - unfold isInJsxTextContent. rewrite (Hthrough (g + 1)) by (unfold g; lia).
    rewrite (self_closing_region t p g (scan t p) c); try assumption;
      try (unfold g; lia).
    destruct Hn as (Hs & Hm & Ht & Hbd). unfold verdict. simpl.
    rewrite Hbd, Ht. simpl.
    destruct (jsxTagDepth (scan t p) =? 0); [reflexivity|].
    now rewrite !andb_true_r.
Qed.

End SelfClosing.

(** [isInJsxTextContent] on a self-closing tag: in a text
    [pre ++ < name /> ++ rest] whose [<] the scanner reaches in code and
    accepts as a tag start, where the name is not empty and holds no [>],
    quote, backtick, [<] or [/], every offset after the [<] up to the [>] is
    classified false, and just after the [>] the verdict is false when no
    tag is open (the tag depth is 0) and otherwise what it was before the
    tag. *)
Theorem self_closing_tag_keeps_the_context :
  forall pre name rest : str,
    let t := pre ++ LT :: (name ++ [SLASH]) ++ GT :: rest in
    let p := len pre in
    let g := p + 1 + len name + 1 in
    neutral (Heuristic.scan t p) ->
    Heuristic.isLikelyTagStart t p = true ->
    name <> [] -> forallb tagBodyChar name = true ->
    (forall offset, p < offset <= g ->
       Heuristic.isInJsxTextContent t offset = false)
    /\ Heuristic.isInJsxTextContent t (g + 1)
       = if Heuristic.jsxTagDepth (Heuristic.scan t p) =? 0 then false
         else Heuristic.isInJsxTextContent t p.
Proof. intros pre name rest. apply self_closing. Qed.

(** The hypotheses of [self_closing_tag_keeps_the_context] hold of
    [<div><br />x</div>] at its second tag: after it the verdict is the one
    before it, true. *)
Lemma self_closing_tag_keeps_the_context_witness :
  Heuristic.isInJsxTextContent (lit "<div><br />x</div>") 11 = true.
Proof.
  refine (eq_trans
            (proj2 (self_closing_tag_keeps_the_context (lit "<div>")
                      (lit "br ") (lit "x</div>") _ eq_refl _ eq_refl)) _).
  - vm_compute. now repeat split.
  - discriminate.
  - reflexivity.
Defined.

(** ** A closing tag under the heuristic scanner *)

Section ClosingTag.
Import Heuristic.

Lemma tagNameChar_not_slash c : tagNameChar c = true -> N.eqb c SLASH = false.
Proof.
  intros H. destruct (N.eqb_spec c SLASH) as [->|]; [discriminate|reflexivity].
Qed.

Lemma tagNameChar_not_gt c : tagNameChar c = true -> N.eqb c GT = false.
Proof.
  intros H. destruct (N.eqb_spec c GT) as [->|]; [discriminate|reflexivity].
Qed.

Lemma tagNameChar_not_space c : tagNameChar c = true -> isSpace c = false.
Proof.
  unfold tagNameChar, isWord, isLetter, isUpper, isLower, isDigit, isSpace,
    between, UNDERSCORE, DOT, MINUS.
  intros H. apply not_true_is_false. intros Hs.
  repeat match goal with
         | H : _ || _ = true |- _ => apply orb_true_iff in H as [H|H]
         | H : _ && _ = true |- _ => apply andb_true_iff in H as [? ?]
         | H : N.leb _ _ = true |- _ => apply N.leb_le in H
         | H : N.eqb _ _ = true |- _ => apply N.eqb_eq in H
         end; lia.
Qed.

Lemma tagNameChar_tagBodyChar c : tagNameChar c = true -> tagBodyChar c = true.
Proof.
  intros H. unfold tagBodyChar.
  destruct (N.eqb_spec c GT) as [->|]; [discriminate|].
  destruct (N.eqb_spec c DQUOTE) as [->|]; [discriminate|].
  destruct (N.eqb_spec c SQUOTE) as [->|]; [discriminate|].
  destruct (N.eqb_spec c BACKTICK) as [->|]; [discriminate|].
  destruct (N.eqb_spec c LT) as [->|]; [discriminate|].
  destruct (N.eqb_spec c SLASH) as [->|]; [discriminate|].
  reflexivity.
Qed.

Lemma isSpace_tagBodyChar c : isSpace c = true -> tagBodyChar c = true.
Proof.
  intros H. unfold tagBodyChar.
  destruct (N.eqb_spec c GT) as [->|]; [discriminate|].
  destruct (N.eqb_spec c DQUOTE) as [->|]; [discriminate|].
  destruct (N.eqb_spec c SQUOTE) as [->|]; [discriminate|].
  destruct (N.eqb_spec c BACKTICK) as [->|]; [discriminate|].
  destruct (N.eqb_spec c LT) as [->|]; [discriminate|].
  destruct (N.eqb_spec c SLASH) as [->|]; [discriminate|].
  reflexivity.
Qed.

(** The [<] of a closing tag, met in code and accepted, opens a tag. *)
Lemma body_open_closing t k s :
  neutral s -> charAt t k = Some LT -> isLikelyTagStart t k = true ->
  charAt t (k + 1) = Some SLASH ->
  body t k s
  = (setTag s (jsxTagDepth s) true (lastJsxTagClose s) (inJsxContent s), k).
Proof.
  intros (Hs & Hm & Ht & Hb) Hk Hl Hn.
  destruct s as [iS sC iT tD bD jB jT iJ lC iC]. simpl in Ht, Hs, Hm, Hb.
  subst. unfold body, trackCodeBraces, trackJsxBraces, tagRules. simpl.
  rewrite Hk, Hl, Hn. simpl.
  destruct iC; reflexivity.
Qed.

(** At the [>] of a closing tag with its [<] at [p], white space after the
    [/] up to [m] and the name from there to [g]: the backward scans pass
    the name and the white space and find the [</], the depth goes down by
    one, and at depth 0 the scanner leaves the content. *)
Lemma closeTag_closing t p m g s :
  0 <= p -> p + 1 <= m -> m + 1 < g ->
  charAt t p = Some LT -> charAt t (p + 1) = Some SLASH ->
  (forall k, p + 1 < k <= m -> testClass isSpace (charAt t k) = true) ->
  (forall k, m < k < g ->
     exists x, charAt t k = Some x /\ tagNameChar x = true) ->
  closeTag t g (if 0 <? g then charAt t (g - 1) else None) s
  = if jsxTagDepth s - 1 <=? 0 then setTag s 0 false g false
    else setTag s (jsxTagDepth s - 1) false g (inJsxContent s).
Proof.
  intros Hp Hm Hg Hlt Hsl Hspaces Hname. unfold closeTag.
  destruct (Z.ltb_spec 0 g); [|lia].
  assert (Hprev : eqc (charAt t (g - 1)) SLASH = false).
  { destruct (Hname (g - 1) ltac:(lia)) as (x & -> & Hx).
    simpl. now apply tagNameChar_not_slash. }
  rewrite Hprev.
  assert (Hstop : testClass tagNameChar (charAt t m) = false).
  { destruct (Z.eq_dec m (p + 1)) as [->|Hne]; [now rewrite Hsl|].
    specialize (Hspaces m ltac:(lia)).
    destruct (charAt t m) as [c|] eqn:E; [|discriminate].
    simpl in *. destruct (tagNameChar c) eqn:En; [|reflexivity].
    apply tagNameChar_not_space in En. congruence. }
  rewrite (skipBackward_through tagNameChar t m
             (Z.to_nat (g - 1 - m)) (g - 1)); try lia.
  - rewrite (skipBackward_through isSpace t (p + 1)
               (Z.to_nat (m - (p + 1))) m); try lia.
    + destruct (Z.leb_spec 0 (p + 1)); [|lia].
      destruct (Z.ltb_spec 0 (p + 1)); [|lia].
      rewrite Hsl. replace (p + 1 - 1) with p by lia. rewrite Hlt.
      reflexivity.
    + intros _. now rewrite Hsl.
    + intros k Hk. apply Hspaces. lia.
  - intros _. exact Hstop.
  - intros k Hk. destruct (Hname k ltac:(lia)) as (x & -> & Hx). exact Hx.
Qed.

Lemma closing_tag_inside t p g s :
  neutral s -> charAt t p = Some LT -> isLikelyTagStart t p = true ->
  charAt t (p + 1) = Some SLASH ->
  (forall k, p < k < g -> eqc (charAt t k) GT = false) ->
  forall offset, p < offset <= g -> inJsxTag (run t offset p s) = true.
Proof.
  intros Hn Hlt Hlikely Hsl Hbody off Hoff.
  rewrite run_step by lia.
  rewrite (body_open_closing t p s Hn Hlt Hlikely Hsl). simpl.
  apply (run_invariant (fun st => inJsxTag st = true) t off (p + 1));
    [|lia|reflexivity].
  intros k st Hk Hst. apply body_tag_keeps; [exact Hst|].
  apply Hbody. lia.
Qed.

Lemma closing_tag_region t p m g s :
  0 <= p -> p + 1 <= m -> m + 1 < g ->
  neutral s -> charAt t p = Some LT -> isLikelyTagStart t p = true ->
  charAt t (p + 1) = Some SLASH ->
  (forall k, p + 1 < k <= m ->
     exists x, charAt t k = Some x /\ isSpace x = true) ->
  (forall k, m < k < g ->
     exists x, charAt t k = Some x /\ tagNameChar x = true) ->
  charAt t g = Some GT ->
  run t (g + 1) p s
  = if jsxTagDepth s - 1 <=? 0 then setTag s 0 false g false
    else setTag s (jsxTagDepth s - 1) false g (inJsxContent s).
Proof.
  intros Hp Hpm Hmg Hn Hlt Hlikely Hsl Hspaces Hname Hgt.
  set (opened := setTag s (jsxTagDepth s) true (lastJsxTagClose s)
                        (inJsxContent s)).
  set (closed := if jsxTagDepth s - 1 <=? 0 then setTag s 0 false g false
                 else setTag s (jsxTagDepth s - 1) false g (inJsxContent s)).
  assert (Hopened : inTagCode opened).
  { destruct Hn as (Hs & Hm & Ht & Hb). unfold inTagCode, opened. simpl.
    now repeat split. }
  set (P := fun (k : Z) (st : ScanState) =>
              (k = p /\ st = s)
              \/ (p < k <= g /\ st = opened)
              \/ (k = g + 1 /\ st = closed)).
  destruct (run_invariant_at P t (g + 1) p s) as (k & Hk & HP).
  - intros k st Hko [[-> ->]|[[Hkg ->]|[-> ->]]].
    + rewrite (body_open_closing t p s Hn Hlt Hlikely Hsl).
      simpl. right. left. split; [lia|reflexivity].
    + destruct (Z.eq_dec k g) as [->|Hne].
      * rewrite (body_close t g opened Hopened Hgt). simpl.
        right. right. split; [reflexivity|].
        rewrite (closeTag_closing t p m g opened Hp Hpm Hmg Hlt Hsl);
          [reflexivity| |exact Hname].
        intros j Hj. destruct (Hspaces j Hj) as (x & -> & Hx). exact Hx.
      * destruct (Z.eq_dec k (p + 1)) as [->|Hne'].
        { rewrite (body_tag_slash t (p + 1) opened Hopened Hsl). simpl.
          right. left. split; [lia|reflexivity]. }
        assert (Hbody : exists x, charAt t k = Some x /\ tagBodyChar x = true).
        { destruct (Z.le_gt_cases k m).
          - destruct (Hspaces k ltac:(lia)) as (x & Hx & Hxs).
            exists x. split; [exact Hx|now apply isSpace_tagBodyChar].
          - destruct (Hname k ltac:(lia)) as (x & Hx & Hxn).
            exists x. split; [exact Hx|now apply tagNameChar_tagBodyChar]. }
        destruct Hbody as (x & Hx & Hxb).
        rewrite (body_tagcode_inert t k opened x Hopened Hx Hxb). simpl.
        right. left. split; [lia|reflexivity].
    + lia.
  - left. now split.
  - destruct HP as [[-> _]|[[Hkg _]|[_ H]]]; [lia|lia|exact H].
Qed.

Lemma closing_tag (pre spaces name rest : str) :
  let t := pre ++ LT :: (SLASH :: spaces ++ name) ++ GT :: rest in
  let p := len pre in
  let g := p + 2 + len spaces + len name in
  neutral (scan t p) -> isLikelyTagStart t p = true ->
  forallb isSpace spaces = true ->
  name <> [] -> forallb tagNameChar name = true ->
  (forall offset, p < offset <= g -> isInJsxTextContent t offset = false)
  /\ isInJsxTextContent t (g + 1)
     = (if jsxTagDepth (scan t p) <=? 1 then false
        else isInJsxTextContent t p)
  /\ jsxTagDepth (scan t (g + 1)) = Z.max 0 (jsxTagDepth (scan t p) - 1).
Proof.
  intros t p g Hn Hl Hspaces Hne Hname.
  destruct (html_shape pre (SLASH :: spaces ++ name) [] rest GT)
    as (Hp & Hb & Hg & _).
  change (pre ++ LT :: (SLASH :: spaces ++ name) ++ GT :: [] ++ rest) with t
    in Hp, Hb, Hg.
  rewrite len_cons, len_app in Hb, Hg.
  fold p in Hp, Hb, Hg.
  replace (p + 1 + (len spaces + len name + 1)) with g in Hb, Hg
    by (unfold g; lia).
  pose proof (len_nonneg pre). pose proof (len_nonneg name).
  pose proof (len_nonneg spaces).
  assert (Hnlen : 0 < len name).
  { destruct name as [|c0 n0]; [congruence|]. rewrite len_cons.
    pose proof (len_nonneg n0). lia. }
  set (m := p + 1 + len spaces).
  assert (Hsl : charAt t (p + 1) = Some SLASH).
  { rewrite Hb by (unfold g; lia).
    replace (p + 1 - p - 1) with 0 by lia. reflexivity. }
  assert (Hspaces' : forall k, p + 1 < k <= m ->
            exists x, charAt t k = Some x /\ isSpace x = true).
  { intros k Hk. rewrite Hb by (unfold g, m in *; lia).
    rewrite charAt_cons_succ by lia.
    rewrite charAt_app_l by (unfold m in Hk; lia).
    apply charAt_forallb; [exact Hspaces|]. unfold m in Hk. lia. }
  assert (Hname' : forall k, m < k < g ->
            exists x, charAt t k = Some x /\ tagNameChar x = true).
  { intros k Hk. rewrite Hb by (unfold m in Hk; lia).
    rewrite charAt_cons_succ by (unfold m in Hk; lia).
    rewrite charAt_app_r by (unfold m in Hk; lia).
    apply charAt_forallb; [exact Hname|]. unfold g, m in Hk. lia. }
  assert (Hthrough : forall offset, p <= offset ->
            scan t offset = run t offset p (scan t p)).
  { intros off Ho. apply scan_through; [now rewrite Hp|now rewrite Hp|].
    unfold p. lia. }
  assert (Hafter : scan t (g + 1)
                   = if jsxTagDepth (scan t p) - 1 <=? 0
                     then setTag (scan t p) 0 false g false
                     else setTag (scan t p) (jsxTagDepth (scan t p) - 1)
                                 false g (inJsxContent (scan t p))).
  { rewrite (Hthrough (g + 1)) by (unfold g; lia).
    apply (closing_tag_region t p m g); try assumption;
      try (unfold g, m, p; lia). }
  split; [|split].
  - intros off Ho. unfold isInJsxTextContent. rewrite Hthrough by lia.
    apply inJsxTag_verdict.
    apply (closing_tag_inside t p g (scan t p)); try assumption.
    intros k Hk. destruct (Z.eq_dec k (p + 1)) as [->|Hd];
      [now rewrite Hsl|].
    destruct (Z.le_gt_cases k m).
    + destruct (Hspaces' k ltac:(lia)) as (x & -> & Hx). simpl.
      apply isSpace_tagBodyChar in Hx. unfold tagBodyChar in Hx.
      apply negb_true_iff in Hx.
      repeat (apply orb_false_iff in Hx as [Hx ?]). assumption.
    + destruct (Hname' k ltac:(lia)) as (x & -> & Hx).
      simpl. now apply tagNameChar_not_gt.
  - unfold isInJsxTextContent. rewrite Hafter.
    destruct Hn as (Hs & Hm & Ht & Hbd).
    destruct (Z.leb_spec (jsxTagDepth (scan t p) - 1) 0);
      destruct (Z.leb_spec (jsxTagDepth (scan t p)) 1); try lia.
    + unfold verdict. simpl. reflexivity.
    + unfold verdict. simpl. rewrite Hbd, Ht. reflexivity.
  - rewrite Hafter.
    destruct (Z.leb_spec (jsxTagDepth (scan t p) - 1) 0); simpl; lia.
Qed.

End ClosingTag.

(** [isInJsxTextContent] on a closing tag: in a text
    [pre ++ </ spaces name > ++ rest] whose [<] the scanner reaches in code
    (outside literals, tags and expressions) and accepts as a tag start,
    where white space may follow the [/] and the name is not empty and made
    of letters, digits, [_], [.] and [-], every offset after the [<] up to
    the [>] is classified false; the tag depth goes down by one, not below
    0; and just after the [>] the verdict is false when the tag closed the
    outermost open element (the depth was at most 1) and otherwise what it
    was before the tag. *)
Theorem closing_tag_leaves_the_element :
  forall pre spaces name rest : str,
    let t := pre ++ LT :: (SLASH :: spaces ++ name) ++ GT :: rest in
    let p := len pre in
    let g := p + 2 + len spaces + len name in
    neutral (Heuristic.scan t p) ->
    Heuristic.isLikelyTagStart t p = true ->
    forallb isSpace spaces = true ->
    name <> [] -> forallb Heuristic.tagNameChar name = true ->
    (forall offset, p < offset <= g ->
       Heuristic.isInJsxTextContent t offset = false)
    /\ Heuristic.isInJsxTextContent t (g + 1)
       = (if Heuristic.jsxTagDepth (Heuristic.scan t p) <=? 1 then false
          else Heuristic.isInJsxTextContent t p)
    /\ Heuristic.jsxTagDepth (Heuristic.scan t (g + 1))
       = Z.max 0 (Heuristic.jsxTagDepth (Heuristic.scan t p) - 1).
Proof. intros pre spaces name rest. apply closing_tag. Qed.

(** The hypotheses of [closing_tag_leaves_the_element] hold of
    [<div><b></b>x</div>] at its first closing tag, after which the verdict
    is the one before it, true, and of [<div><b></b></ div>y] at its second
    closing tag, after which the verdict is false. *)
Lemma closing_tag_leaves_the_element_witness :
  Heuristic.isInJsxTextContent (lit "<div><b></b>x</div>") 12 = true
  /\ Heuristic.isInJsxTextContent (lit "<div><b></b></ div>y") 19 = false.
Proof.
  split.
  - assert (Hn : neutral (Heuristic.scan (lit "<div><b></b>x</div>") 8))
      by (vm_compute; now repeat split).
    pose proof (closing_tag_leaves_the_element (lit "<div><b>") []
                  (lit "b") (lit "x</div>") Hn eq_refl eq_refl
                  ltac:(discriminate) eq_refl)
      as (_ & Hv & _).
    cbv zeta in Hv.
    change (lit "<div><b>" ++ LT :: (SLASH :: [] ++ lit "b")
              ++ GT :: lit "x</div>")
      with (lit "<div><b></b>x</div>") in Hv.
    change (len (lit "<div><b>") + 2 + len [] + len (lit "b") + 1)
      with 12 in Hv.
    rewrite Hv. vm_compute. reflexivity.
  - assert (Hn : neutral (Heuristic.scan (lit "<div><b></b></ div>y") 12))
      by (vm_compute; now repeat split).
    pose proof (closing_tag_leaves_the_element (lit "<div><b></b>")
                  (lit " ") (lit "div") (lit "y") Hn eq_refl eq_refl
                  ltac:(discriminate) eq_refl)
      as (_ & Hv & _).
    cbv zeta in Hv.
    change (lit "<div><b></b>" ++ LT :: (SLASH :: lit " " ++ lit "div")
              ++ GT :: lit "y")
      with (lit "<div><b></b></ div>y") in Hv.
    change (len (lit "<div><b></b>") + 2 + len (lit " ") + len (lit "div")
            + 1)
      with 19 in Hv.
    rewrite Hv. vm_compute. reflexivity.
Defined.
